(* ===== verification/_CoqProject ===== *)
-Q . S2P
Prelude.v
GoStrings.v
Merkle.v
Sha256.v
Json.v
Config.v
Common.v
Types.v
Vaults.v
Voters.v
Keeper.v
BtcBatch.v
GasMgr.v
Outbounds.v
Notes.v
Fees.v
Shield.v
Withdraw.v
Bonds.v
Redeem.v
Auction.v
Pow.v
Deposits.v
Settle.v
Observe.v
Reports.v
Nodes.v
Rotation.v
Churn.v
NodeHandlers.v
Upgrade.v
StoreMigrate.v
Migrate.v
Frost.v
Registered.v
