(* ===== verification/Prelude.v ===== *)
(** * Thornado: a verification library of the Thornado state machine

Thornado is a proof-of-stake chain (Cosmos SDK) whose nodes hold Bitcoin
vaults by threshold signatures and shield the deposits they observe into
anonymous notes.  The development models the chain's module,
src/go-thornado/x/thornado, with the shared types of src/go-thornado/common,
the configuration of src/go-thornado/constants, and the parts of the shielder
library (src/go-thornado/go-wrappers/shielder, src/crates/thornado-shielder,
src/crates/thornado-ffi) whose behaviour the chain relies on.

** How the program works, and where it is modelled

- A user asks for a deposit address against a proof of work ([Pow]); the nodes
  observe the Bitcoin payment and vote on it ([Voters]); the deposit is matched
  to its session once and swept to the vault's main address ([Deposits]).
- The owner shields the deposit into notes of fixed denominations ([Shield],
  [Notes]); every note is a leaf of the incremental Merkle tree of its
  denomination ([Merkle]).
- A note is redeemed with a withdrawal proof ([Withdraw], [Redeem], whose JSON
  is read by [Json]): as a Bitcoin payment, as the bond of a node ([Bonds]) or
  as the deposit of a bid for a node slot ([Auction]).
- Payments are collected into batches per vault ([BtcBatch]), which the queue
  carries through signing and retries ([Outbounds], gas in [GasMgr]); what the
  nodes then see on Bitcoin is matched to its item once and settled: the vault
  is debited, its change remembered, a migration moved ([Settle]).
- The nodes' observations of inbound and outbound transactions arrive as
  messages that count the attestations, slash or release the observers and act
  at the quorum ([Observe]); reports of reorganised transactions, of network
  fees and of vault balances go the same way ([Reports]).
- Node operators bond, announce versions, ask to leave, go into maintenance,
  pause the chains and vote on the configuration by messages ([NodeHandlers]).
  Every churn interval the validator manager marks nodes to leave and selects
  the next members ([Churn]); they attest their key generation ([Frost]), and
  its vaults take the place of the retiring ones ([Rotation]), after which the
  end of the block moves the nodes to their new status.
- A signature that fails is reported by the members of the vault ([Frost]).
- Withdrawal fees collect in a pool and are distributed to the nodes and from
  them to their bonders ([Fees], claims in [Bonds]).

One file per part, in the order of dependency:

- [Prelude]: the result type [res], the state and error monad [M S], machine
  integers with their wrap-around, sums, the inversion and frame tactics.
- [GoStrings], [Sha256], [Json]: what the source uses of Go's standard library.
- [Config] (constants/, keeper_config.go, type_config.go), [Common] (common/),
  [Types] (x/thornado/types), [Vaults] (type_vault.go), [Voters] (the
  type_*_voter.go files).
- [Keeper]: the store as the record [KVStore], one field per key prefix, and
  its typed accessors (keeper/v1).
- [Merkle] (tornado/field.rs, mimc_sponge.rs, merkle.rs), [Withdraw]
  (public.go, prove.rs), then the flows: [BtcBatch] (btc_gas.go), [GasMgr]
  (manager_gas_current.go), [Outbounds] (manager_txout_current.go), [Notes],
  [Fees], [Shield], [Bonds], [Redeem], [Auction], [Pow] (shielder_flow.go,
  withdrawal_flow.go, msg_server.go) and [Deposits] (deposit_flow.go), and
  last the handlers that tie them together: [Settle]
  (handler_common_outbound.go), [Observe] (handler_observed_tx_quorum.go,
  manager_observer and the slasher it calls) and [Reports] (errata, solvency
  and network-fee handlers).
- The life of the nodes: [Nodes] (the registry of node accounts, slash points,
  jail, the minimum join version), [Rotation] (vault rotation and keygen
  triggers of manager_network_current.go), [Churn]
  (manager_validator_current.go), [NodeHandlers] (the handlers of the
  operators' messages), [Migrate] (the migration of funds and the consolidation
  of outputs of manager_network_current.go), [Frost] (the attestations of key
  generations and the reports of failed signatures) and [Registered], which closes
  these operations under the invariant of the registry.

A Go function becomes a Rocq function of the same name.  A function that only
computes returns a value or a [res]: [Ok], [Err] for a returned error, [Panic].
A function that reads or writes the store is a program of the monad
[KM := M KVStore]: an error keeps the writes made before it, as a Go function
does, and [atomic] runs a message as the SDK does, all or nothing.  Amounts
([cosmos.Uint]) are [Z] with the panic of their overflow written out; [uint64],
[int64] and [uint32] wrap through [u64] and [i64].  Maps are [gmap]; where Go
iterates over a map and the order matters, the order is an argument.

** What code outside the repository is

It is a parameter, with the laws the proofs need as hypotheses:
[Common.Ext] (bech32, Bitcoin addresses and key derivation),
[BtcBatch.BtcWire] (transaction sizes and scripts),
[Merkle.MerkleEngine] with [MerkleLaws] (the accumulator interface, discharged
by [Merkle.Engine] over an arbitrary two-to-one hash), [Redeem]'s proof
engine (serde and Groth16), [Bonds.SortSlice] (the documented law of
[sort.Slice]), the note decoder and ECDSA in [Notes] and [Shield], the
verification of an attestation's signature in [Observe], the entropy of a text
and ECDSA over secp256k1 in [Frost.FrostExt], the parser and the
order of semantic versions in [Nodes.SemVer] (blang/semver, with its laws in
[SemVerLaws]) and the address of a consensus key ([Churn.ConsAddress]).  Each has a
concrete instance ([ToyExt], [ToyWire], [ToyEngine], [ToyProof], [ToySort]) at
which the witnesses evaluate.

** What the theorems show

- The accumulator: the incremental tree equals the tree recomputed from its
  leaves; a verified path determines the leaf; inserting notes keeps trees,
  roots and records consistent.
- Conservation: shielding, flooring, batching, returns, the fee pool, the
  settlement of fees, bonds and node-slot sales neither create nor lose value;
  an outbound over several vaults adds up to what was requested.
- Once only: a deposit is matched once and shielded once, a nullifier is spent
  once, a directly deposited output is returned once per transaction; where
  the code allows more (one note redeemed under several nullifier texts, one
  bid sold twice, a pinned input counted twice) the theorem exhibits the run.
- Authorization: a redeem passes exactly when its root is known, its nullifier
  unspent and its proof verified; a shielding signature binds its request.
- Agreement: consensus on an observation needs the quorum and is reached with
  it; a proof-of-work token passes exactly with its zero bits; the difficulty
  stays within its bounds and its retarget loops end.
- The queue: a vault's batches are signed in the order of their heights, an
  expired attempt is retried under the next leader and every member leads;
  splitting a block loses nothing.
- Settlement: a transaction seen on Bitcoin settles a batch once and debits a
  migration once; the observation of a transaction acts at its quorum once and
  credits an inbound deposit once, over every history of messages.  A run shows
  one node settling a batch without a quorum.
- Reports: a wallet that holds what the vault records is never insolvent, one
  satoshi less is while the queue is idle, and the quorum of such reports halts
  the chain; the errata of an outbound restores what its observation debited,
  and a run shows it debiting an inbound twice.
- Membership: a churn keeps more than two thirds of the active nodes and every
  block's change of status is the one its vaults call for; the minimum join
  version is one that two thirds of the nodes run; the votes of the nodes change
  a configuration value only at their quorum; the registry of node accounts
  stays well formed under every operation that touches it.
- Keys: no vault is stored before every member has attested its key generation;
  a run shows that an attestation of failure may be among them.  A majority of
  reports of a failed signature freezes the vault exactly at the last round and
  schedules the retry; the ante handler turns no repeated report away.
- Migration: what moves from a retiring vault is whole outputs, spent by no
  block up to the current height, and pays exactly their value less the gas; a
  round waits for the last one, and only a vault without funds is retired.  A run
  shows a migration of an output that an open batch, waiting at a later height,
  already spends.
- Errors: a failed message leaves the store unchanged; a failed sweep leaves
  the deposit credited.

** Fuel and bounds

Recursions of the code that are not structural carry fuel, chosen so that it
cannot run out: [Keeper.GetVault] follows the EdDSA index for two steps more
than it has entries (a cycle, on which the code overflows its stack, is a
panic); the JSON scanner and the decimal printer are bounded by the length of
the text and the width of the number, the least unused output index by the
number of used ones, the churn height by the quotient of the distance and the
interval ([next_churn_first]).  The loops of [Pow] over the difficulty are
proved to end within their fuel ([retarget_loops_end]).
The search for a free height tries 1000 heights, as the code does.

** Not modelled

Log output, events and telemetry, which no state depends on; the codecs of the
store and its earlier layouts; genesis, store migrations and one-off repairs;
queries; the stateless validation of the observation
messages; upgrade proposals; the Cosmos ante handler; the Bifrost daemon and the proposal gossip, which are separate
processes; proof generation and the circuits. *)

From stdpp Require Export base gmap sets list strings sorting.
From Stdlib Require Export ZArith Lia.

(** ** Go results: a value, an [error], or a panic

Errors are the texts of the Go [error] values, without the formatted
arguments of [fmt.Errorf]. *)

Inductive res (A : Type) : Type :=
| Ok (a : A)
| Err (e : string)
| Panic (e : string).
Arguments Ok {A} _.
Arguments Err {A} _%_string.
Arguments Panic {A} _%_string.

Definition is_ok {A} (r : res A) : bool :=
  match r with Ok _ => true | _ => false end.

#[export] Instance res_ret : MRet res := fun _ a => Ok a.
#[export] Instance res_bind : MBind res := fun A B f m =>
  match m with Ok a => f a | Err e => Err e | Panic e => Panic e end.

(** ** Stateful Go code

A computation threads the key-value store.  As in Go, an error does not
undo the writes made before it: the store is returned on every outcome.
[atomic] is the roll-back that the transaction runner adds around one
message. *)

Definition M (S A : Type) : Type := S → res A * S.

#[export] Instance M_ret {S} : MRet (M S) := fun _ a s => (Ok a, s).
#[export] Instance M_bind {S} : MBind (M S) := fun A B f m s =>
  match m s with
  | (Ok a, s') => f a s'
  | (Err e, s') => (Err e, s')
  | (Panic e, s') => (Panic e, s')
  end.

Section Monad.
Context {S : Type}.

Definition gets {A} (f : S → A) : M S A := fun s => (Ok (f s), s).
Definition modify (f : S → S) : M S unit := fun s => (Ok tt, f s).
Definition fail {A} (e : string) : M S A := fun s => (Err e, s).
Definition panic {A} (e : string) : M S A := fun s => (Panic e, s).
Definition lift {A} (r : res A) : M S A := fun s => (r, s).

(** [if cond { return err }] *)
Definition fail_if (b : bool) (e : string) : M S unit :=
  if b then fail e else mret tt.

(** A Go call whose error the caller inspects instead of returning. *)
Definition try {A} (m : M S A) : M S (res A) := fun s =>
  match m s with
  | (Panic e, s') => (Panic e, s')
  | (r, s') => (Ok r, s')
  end.

(** One message of a transaction: an error or a panic discards the writes. *)
Definition atomic {A} (m : M S A) : M S A := fun s =>
  match m s with
  | (Ok a, s') => (Ok a, s')
  | (r, _) => (r, s)
  end.

(** [for _, x := range l { ... }] with an accumulator. *)
Fixpoint mfold {A B} (f : B → A → M S B) (acc : B) (l : list A) : M S B :=
  match l with
  | [] => mret acc
  | x :: l' => acc' ← f acc x; mfold f acc' l'
  end.

Definition mfor {A} (f : A → M S unit) (l : list A) : M S unit :=
  mfold (fun _ x => f x) tt l.
End Monad.

(** Accumulating loop over pure results. *)
Fixpoint rfold {A B} (f : B → A → res B) (acc : B) (l : list A) : res B :=
  match l with
  | [] => Ok acc
  | x :: l' => acc' ← f acc x; rfold f acc' l'
  end.

(** ** Record update

[r <| f := v |>] rebuilds the record [r] with the field [f] replaced.  A
record type declares its eta expansion once, and the setter of a field is
computed from it. *)

Class Eta (R : Type) := eta : R → R.
Class Setter {R T : Type} (proj : R → T) := set_field : (T → T) → R → R.
Arguments set_field {R T} proj {_} _ _.

Ltac solve_setter :=
  lazymatch goal with
  | |- @Setter ?R ?T ?proj =>
      let e := constr:(_ : Eta R) in
      let e := eval hnf in e in
      let g := eval pattern proj in e in
      lazymatch g with
      | ?k _ => exact (fun (f : T → T) (r : R) => k (fun r' => f (proj r')) r)
      end
  end.
#[export] Hint Extern 0 (@Setter _ _ _) => solve_setter : typeclass_instances.

Declare Scope go_scope.
Delimit Scope go_scope with go.
Notation "r <| f := v |>" := (set_field f (fun _ => v) r)
  (at level 1, left associativity, format "r  <| f  :=  v |>") : go_scope.
#[global] Open Scope go_scope.

(** ** Machine integers *)

#[global] Open Scope Z_scope.

Definition two64 : Z := 18446744073709551616.
Definition two63 : Z := 9223372036854775808.
Definition two256 : Z := 2 ^ 256.

(** [uint64] and [int64] arithmetic wraps around. *)
Definition u64 (z : Z) : Z := z mod two64.
Definition i64 (z : Z) : Z := (z + two63) mod two64 - two63.

Notation "a +u b" := (u64 (a + b)) (at level 50, left associativity) : go_scope.
Notation "a -u b" := (u64 (a - b)) (at level 50, left associativity) : go_scope.
Notation "a *u b" := (u64 (a * b)) (at level 40, left associativity) : go_scope.
Notation "a +i b" := (i64 (a + b)) (at level 50, left associativity) : go_scope.
Notation "a -i b" := (i64 (a - b)) (at level 50, left associativity) : go_scope.
Notation "a *i b" := (i64 (a * b)) (at level 40, left associativity) : go_scope.

Definition is_u64 (z : Z) : Prop := 0 ≤ z < two64.
Definition is_i64 (z : Z) : Prop := - two63 ≤ z < two63.

(** [cosmos.Uint]: 256 bits, where overflow and underflow panic. *)
Definition uint_add (a b : Z) : res Z :=
  if a + b <? two256 then Ok (a + b) else Panic "Uint overflow".
Definition uint_sub (a b : Z) : res Z :=
  if b <=? a then Ok (a - b) else Panic "Uint underflow".
Definition uint_mul (a b : Z) : res Z :=
  if a * b <? two256 then Ok (a * b) else Panic "Uint overflow".

Lemma u64_small z : is_u64 z → u64 z = z.
Proof. intros H. apply Z.mod_small, H. Qed.

Lemma u64_range z : is_u64 (u64 z).
Proof. apply Z.mod_pos_bound. reflexivity. Qed.

Lemma i64_small z : is_i64 z → i64 z = z.
Proof.
  unfold is_i64, i64, two63, two64. intros H.
  rewrite Z.mod_small by lia. lia.
Qed.

Lemma u64_add_l a b : u64 (u64 a + b) = u64 (a + b).
Proof. apply Zplus_mod_idemp_l. Qed.

Lemma u64_add_r a b : u64 (a + u64 b) = u64 (a + b).
Proof. apply Zplus_mod_idemp_r. Qed.

(** Reduces the wrap-around away where the operands are known to be small. *)
Ltac u64_lia :=
  unfold is_u64, is_i64, two64, two63 in *; lia.
Ltac u64_simpl :=
  repeat first
    [ rewrite u64_add_l | rewrite u64_add_r
    | rewrite u64_small by u64_lia | rewrite i64_small by u64_lia ].

Create HintDb go discriminated.
Create Rewrite HintDb go.
#[export] Hint Resolve u64_range : go.
#[export] Hint Rewrite u64_add_l u64_add_r : go.

(** ** Sums over lists *)

Definition sum_by {A} (f : A → Z) (l : list A) : Z := foldr (λ x acc, f x + acc) 0 l.

Arguments sum_by : simpl never.

Section SumBy.
Context {A : Type} (f : A → Z).

Lemma sum_by_nil : sum_by f [] = 0.
Proof. done. Qed.

Lemma sum_by_cons x l : sum_by f (x :: l) = f x + sum_by f l.
Proof. done. Qed.

Lemma sum_by_app l l' : sum_by f (l ++ l')%list = sum_by f l + sum_by f l'.
Proof. induction l as [|x l IH]; [done|]. cbn [app]. rewrite !sum_by_cons, IH. lia. Qed.

Lemma sum_by_map {B} (g : B → A) l : sum_by f (map g l) = sum_by (λ x, f (g x)) l.
Proof. induction l as [|x l IH]; [done|]. cbn [map]. by rewrite !sum_by_cons, IH. Qed.

Lemma sum_by_nonneg l : Forall (λ x, 0 <= f x) l → 0 <= sum_by f l.
Proof. induction 1; [done|]. rewrite sum_by_cons. lia. Qed.

Lemma sum_by_ext g l : (∀ x, x ∈ l → f x = g x) → sum_by f l = sum_by g l.
Proof.
  unfold sum_by. induction l as [|x l IH]; intros Hfg; [done|]. cbn [foldr].
  rewrite Hfg, IH by set_solver. done.
Qed.

(** A list split by a predicate. *)
Lemma sum_by_filter (p : A → bool) l :
  sum_by f l = sum_by f (List.filter p l) + sum_by f (List.filter (λ x, negb (p x)) l).
Proof.
  induction l as [|x l IH]; [done|]. cbn [List.filter]. rewrite sum_by_cons, IH.
  destruct (p x); cbn [negb]; rewrite sum_by_cons; lia.
Qed.

Lemma sum_by_zero l : (∀ x, x ∈ l → f x = 0) → sum_by f l = 0.
Proof.
  induction l as [|x l IH]; intros H0; [done|]. rewrite sum_by_cons, H0, IH by set_solver. done.
Qed.

Lemma sum_by_perm l l' : l ≡ₚ l' → sum_by f l = sum_by f l'.
Proof. induction 1; rewrite ?sum_by_cons; lia. Qed.
End SumBy.

(** ** Reasoning about successful runs

A hypothesis [m s = (Ok a, s')] is decomposed along the structure of [m]. *)

Section Inversion.
Context {S : Type}.

Lemma bind_Ok {A B} (m : M S A) (f : A → M S B) s b s' :
  (m ≫= f) s = (Ok b, s') ↔ ∃ a s1, m s = (Ok a, s1) ∧ f a s1 = (Ok b, s').
Proof.
  unfold mbind, M_bind. destruct (m s) as [[a|e|e] s1]; split.
  - by eauto.
  - by intros (? & ? & [= <- <-] & ?).
  - done.
  - by intros (? & ? & ? & ?).
  - done.
  - by intros (? & ? & ? & ?).
Qed.

(** Forward evaluation of a bind, whatever comes of the rest. *)
Lemma bind_run {A B} (m : M S A) (f : A → M S B) s a s1 :
  m s = (Ok a, s1) → (m ≫= f) s = f a s1.
Proof. unfold mbind, M_bind. by intros ->. Qed.

Lemma bind_guard {B} b e (f : unit → M S B) s :
  (fail_if b e ≫= f) s = if b then (Err e, s) else f tt s.
Proof. by destruct b. Qed.

Lemma mret_Ok {A} (a b : A) (s s' : S) :
  (mret a : M S A) s = (Ok b, s') ↔ b = a ∧ s' = s.
Proof. split; [by intros [= <- <-]|by intros [-> ->]]. Qed.

Lemma gets_Ok {A} (f : S → A) a s s' : gets f s = (Ok a, s') ↔ f s = a ∧ s' = s.
Proof. split; [by intros [= <- <-]|by intros [<- ->]]. Qed.

Lemma modify_Ok (f : S → S) a s s' : modify f s = (Ok a, s') ↔ f s = s'.
Proof. destruct a. split; [by intros [= <-]|by intros <-]. Qed.

Lemma lift_Ok {A} (r : res A) a (s s' : S) : lift r s = (Ok a, s') ↔ r = Ok a ∧ s' = s.
Proof. split; [by intros [= -> ->]|by intros [-> ->]]. Qed.

Lemma fail_if_Ok b e a (s s' : S) : fail_if b e s = (Ok a, s') ↔ b = false ∧ s' = s.
Proof.
  destruct a, b; simpl; split; try done; try by intros [? ?].
  - by intros [= <-].
  - by intros [_ ->].
Qed.

Lemma fail_Ok {A} e (a : A) (s s' : S) : fail e s = (Ok a, s') ↔ False.
Proof. by split. Qed.

Lemma panic_Ok {A} e (a : A) (s s' : S) : panic e s = (Ok a, s') ↔ False.
Proof. by split. Qed.

Lemma try_Ok {A} (m : M S A) r s s' :
  try m s = (Ok r, s') ↔ m s = (r, s') ∧ ∀ e, r ≠ Panic e.
Proof.
  unfold try. destruct (m s) as [[a|e|e] s1]; split.
  1,3: by intros [= <- <-].
  1,2: by intros [[= <- <-] ?].
  - done.
  - intros [[= <- <-] H]. by destruct (H e).
Qed.

(** A run whose result is known, with its final state left unevaluated. *)
Lemma run_ok {A} (m : M S A) s a : (m s).1 = Ok a → m s = (Ok a, (m s).2).
Proof. destruct (m s). by intros [= ->]. Qed.

Lemma mfold_cons {A B} (f : B → A → M S B) acc x l :
  mfold f acc (x :: l) = (acc' ← f acc x; mfold f acc' l).
Proof. reflexivity. Qed.

(** An invariant of a loop, proved step by step on the successful runs. *)
Lemma mfold_inv {A B} (f : B → A → M S B) (I : B → S → Prop) l :
  ∀ acc s r s',
  (∀ acc x s acc' s', x ∈ l → I acc s → f acc x s = (Ok acc', s') → I acc' s') →
  I acc s → mfold f acc l s = (Ok r, s') → I r s'.
Proof.
  induction l as [|x l IH]; intros acc s r s' Hstep HI Hrun.
  - simpl in Hrun. apply mret_Ok in Hrun as [<- <-]. done.
  - rewrite mfold_cons in Hrun. apply bind_Ok in Hrun as (acc1 & s1 & H1 & H2).
    eapply IH; [|eapply Hstep, H1; [apply list_elem_of_here|done]|exact H2].
    intros; eapply Hstep; eauto. by apply list_elem_of_further.
Qed.
End Inversion.

Lemma rbind_Ok {A B} (m : res A) (f : A → res B) b :
  m ≫= f = Ok b ↔ ∃ a, m = Ok a ∧ f a = Ok b.
Proof.
  destruct m as [a|e|e]; simpl; split; try done; try by intros (? & ? & ?).
  - by eauto.
  - by intros (? & [= <-] & ?).
Qed.

Lemma res_ret_Ok {A} (a b : A) : (mret a : res A) = Ok b ↔ a = b.
Proof. split; [by intros [= <-]|by intros ->]. Qed.

(** Decomposes every hypothesis about a successful run. *)
Ltac go_step :=
  match goal with
  | H : False |- _ => destruct H
  | H : @mbind (M _) M_bind _ _ _ _ _ = (Ok _, _) |- _ => apply bind_Ok in H as (? & ? & ? & H)
  | H : @mbind res res_bind _ _ _ _ = Ok _ |- _ => apply rbind_Ok in H as (? & ? & H)
  | H : @mret (M _) M_ret _ _ _ = (Ok _, _) |- _ => apply mret_Ok in H as [? ?]; try subst
  | H : gets _ _ = (Ok _, _) |- _ => apply gets_Ok in H as [? ?]; try subst
  | H : modify _ _ = (Ok _, _) |- _ => apply modify_Ok in H; try subst
  | H : lift _ _ = (Ok _, _) |- _ => apply lift_Ok in H as [? ?]; try subst
  | H : fail_if _ _ _ = (Ok _, _) |- _ => apply fail_if_Ok in H as [? ?]; try subst
  | H : fail _ _ = (Ok _, _) |- _ => apply fail_Ok in H
  | H : panic _ _ = (Ok _, _) |- _ => apply panic_Ok in H
  | H : try _ _ = (Ok _, _) |- _ => apply try_Ok in H as [? ?]
  | H : Ok _ = Ok _ |- _ => injection H as H; try subst
  | H : Err _ = Ok _ |- _ => discriminate H
  | H : Panic _ = Ok _ |- _ => discriminate H
  | H : (Ok _, _) = (Ok _, _) |- _ => injection H as ? ?; try subst
  | H : (Err _, _) = (Ok _, _) |- _ => discriminate H
  | H : (Panic _, _) = (Ok _, _) |- _ => discriminate H
  end.
Ltac go_inv := repeat go_step.

(** Peels the guards a run starts with. *)
Ltac go_guards H :=
  repeat (cbv zeta in H;
    match type of H with
    | @mbind (M _) M_bind _ _ _ (fail_if _ _) _ = (Ok _, _) =>
        apply bind_Ok in H as ([] & ? & [? ->]%fail_if_Ok & H)
    end); cbv zeta in H.

(** Reads a field of an updated record. *)
Ltac rec_simpl :=
  repeat match goal with
  | |- context [?p (@set_field ?R ?A ?q ?st ?g ?r)] =>
      first
        [ constr_eq p q; change (p (@set_field R A q st g r)) with (g (p r))
        | change (p (@set_field R A q st g r)) with (p r) ]
  end; cbv beta.
Ltac rec_simpl_all :=
  rec_simpl;
  repeat match goal with
  | H : context [?p (@set_field ?R ?A ?q ?st ?g ?r)] |- _ =>
      first
        [ constr_eq p q; change (p (@set_field R A q st g r)) with (g (p r)) in H
        | change (p (@set_field R A q st g r)) with (p r) in H ]
  end; cbv beta in *.

(** An operation on one field of a larger state. *)
Definition zoom {S T A} (p : S → T) `{!Setter p} (m : M T A) : M S A := λ s,
  let '(r, t) := m (p s) in (r, set_field p (λ _, t) s).

(** ** Frames

[keeps p m]: whatever the outcome, [m] leaves the part [p] of the store as it
was. *)

Section Frames.
Context {S T : Type} (p : S → T).

Definition keeps {A} (m : M S A) : Prop := ∀ s, p (m s).2 = p s.

Lemma keeps_run {A} (m : M S A) s a s' : keeps m → m s = (a, s') → p s' = p s.
Proof. intros H Hr. specialize (H s). by rewrite Hr in H. Qed.

Lemma keeps_bind {A B} (m : M S A) (f : A → M S B) :
  keeps m → (∀ a, keeps (f a)) → keeps (m ≫= f).
Proof.
  intros Hm Hf s. unfold mbind, M_bind. specialize (Hm s).
  destruct (m s) as [[a|e|e] s1]; simpl in *; [|done|done]. by rewrite Hf.
Qed.

Lemma keeps_ret {A} (a : A) : keeps (mret a).
Proof. done. Qed.
Lemma keeps_gets {A} (f : S → A) : keeps (gets f).
Proof. done. Qed.
Lemma keeps_lift {A} (r : res A) : keeps (lift r).
Proof. done. Qed.
Lemma keeps_fail {A} e : keeps (fail (A := A) e).
Proof. done. Qed.
Lemma keeps_panic {A} e : keeps (panic (A := A) e).
Proof. done. Qed.
Lemma keeps_fail_if b e : keeps (fail_if b e).
Proof. by destruct b. Qed.
Lemma keeps_modify f : (∀ s, p (f s) = p s) → keeps (modify f).
Proof. intros H s. apply H. Qed.

Lemma keeps_try {A} (m : M S A) : keeps m → keeps (try m).
Proof. intros H s. unfold try. specialize (H s). by destruct (m s) as [[a|e|e] s1]. Qed.

Lemma keeps_mfold {A B} (f : B → A → M S B) l : (∀ acc x, keeps (f acc x)) →
  ∀ acc, keeps (mfold f acc l).
Proof.
  intros Hf. induction l as [|x l IH]; intros acc; [apply keeps_ret|].
  apply keeps_bind; [apply Hf|]. intros acc'. apply IH.
Qed.

Lemma keeps_mfor {A} (f : A → M S unit) l : (∀ x, keeps (f x)) → keeps (mfor f l).
Proof. intros Hf. apply keeps_mfold. intros _ x. apply Hf. Qed.
End Frames.

Create HintDb keeps discriminated.

(** One syntax-directed step; known components are in the hint database. *)
Ltac keeps_step :=
  lazymatch goal with
  | |- keeps _ (match ?x with _ => _ end) => destruct x
  | |- keeps _ (mbind _ _) => apply keeps_bind; [|intros ?]
  | |- keeps _ (mret _) => apply keeps_ret
  | |- keeps _ (gets _) => apply keeps_gets
  | |- keeps _ (lift _) => apply keeps_lift
  | |- keeps _ (fail _) => apply keeps_fail
  | |- keeps _ (panic _) => apply keeps_panic
  | |- keeps _ (fail_if _ _) => apply keeps_fail_if
  | |- keeps _ (modify _) => apply keeps_modify; intros ?; reflexivity
  | |- keeps _ (try _) => apply keeps_try
  | |- keeps _ (mfold _ _ _) => apply keeps_mfold; intros ? ?
  | |- keeps _ (mfor _ _) => apply keeps_mfor; intros ?
  | |- _ => solve [auto 2 with keeps nocore]
  end.
Ltac keeps_tac := repeat (cbv beta zeta; keeps_step).

(** Frames of whole components: the operations to look through are the unfold
hints of the databases [keeper] and [flow]. *)
Create HintDb keeper.
Create HintDb flow.
Ltac frame_tac := autounfold with flow keeper; keeps_tac.

(** ** Invariants with results

[yields I m Q]: whatever the outcome, [m] keeps the invariant [I] of the store,
and what it returns satisfies [Q]. *)

Section Yields.
Context {S : Type} (I : S → Prop).

Definition yields {A} (m : M S A) (Q : A → Prop) : Prop :=
  ∀ s, I s → I (m s).2 ∧ ∀ a, (m s).1 = Ok a → Q a.

Lemma yields_run {A} (m : M S A) (Q : A → Prop) s a s' :
  yields m Q → I s → m s = (Ok a, s') → I s' ∧ Q a.
Proof. intros Hm Hs Hr. destruct (Hm s Hs) as [H1 H2]. rewrite Hr in *. auto. Qed.

Lemma yields_weaken {A} (m : M S A) (P Q : A → Prop) :
  yields m P → (∀ a, P a → Q a) → yields m Q.
Proof. intros Hm HPQ s Hs. destruct (Hm s Hs) as [H1 H2]. auto. Qed.

Lemma yields_bind {A B} (m : M S A) (f : A → M S B) (P : A → Prop) (Q : B → Prop) :
  yields m P → (∀ a, P a → yields (f a) Q) → yields (m ≫= f) Q.
Proof.
  intros Hm Hf s Hs. unfold mbind, M_bind. destruct (Hm s Hs) as [H1 H2].
  destruct (m s) as [[a|e|e] s1]; simpl in *; [|done|done]. by apply Hf; auto.
Qed.

Lemma yields_ret {A} (a : A) (Q : A → Prop) : Q a → yields (mret a) Q.
Proof. intros HQ s Hs. split; [done|]. by intros ? [= <-]. Qed.

Lemma yields_gets {A} (f : S → A) (Q : A → Prop) : (∀ s, I s → Q (f s)) → yields (gets f) Q.
Proof. intros HQ s Hs. split; [done|]. intros ? [= <-]. auto. Qed.

Lemma yields_lift {A} (r : res A) (Q : A → Prop) : (∀ a, r = Ok a → Q a) → yields (lift r) Q.
Proof. intros HQ s Hs. split; [done|]. intros a. simpl. auto. Qed.

Lemma yields_fail {A} e (Q : A → Prop) : yields (fail e) Q.
Proof. by intros s Hs. Qed.

Lemma yields_panic {A} e (Q : A → Prop) : yields (panic e) Q.
Proof. by intros s Hs. Qed.

Lemma yields_fail_if b e : yields (fail_if b e) (λ _, b = false).
Proof. destruct b; [apply yields_fail|by apply yields_ret]. Qed.

Lemma yields_modify f : (∀ s, I s → I (f s)) → yields (modify f) (λ _, True).
Proof. intros HI s Hs. split; [by apply HI|done]. Qed.

Lemma yields_try {A} (m : M S A) (Q : A → Prop) :
  yields m Q → yields (try m) (λ r, ∀ a, r = Ok a → Q a).
Proof.
  intros Hm s Hs. unfold try. destruct (Hm s Hs) as [H1 H2].
  destruct (m s) as [[a|e|e] s1]; simpl in *; (split; [done|]); [|by intros ? [= <-]|done].
  intros ? [= <-]. auto.
Qed.

Lemma yields_atomic {A} (m : M S A) (Q : A → Prop) : yields m Q → yields (atomic m) Q.
Proof.
  intros Hm s Hs. unfold atomic. destruct (Hm s Hs) as [H1 H2].
  by destruct (m s) as [[a|e|e] s1].
Qed.

Lemma yields_mfold {A B} (f : B → A → M S B) (P : A → Prop) (Q : B → Prop) l :
  Forall P l → (∀ acc x, Q acc → P x → yields (f acc x) Q) →
  ∀ acc, Q acc → yields (mfold f acc l) Q.
Proof.
  intros Hl Hf. induction Hl as [|x l Hx Hl IH]; intros acc Hacc; [by apply yields_ret|].
  apply (yields_bind _ _ Q); [by apply Hf|]. intros a Ha. by apply IH.
Qed.

Lemma yields_mfor {A} (f : A → M S unit) (P : A → Prop) l :
  Forall P l → (∀ x, P x → yields (f x) (λ _, True)) → yields (mfor f l) (λ _, True).
Proof. intros Hl Hf. eapply yields_mfold; [exact Hl| |done]. intros _ x _. apply Hf. Qed.

(** What leaves alone the part of the store the invariant is about. *)
Lemma yields_keeps {A T} (p : S → T) (m : M S A) :
  (∀ s s', p s = p s' → I s → I s') → keeps p m → yields m (λ _, True).
Proof. intros HI Hk s Hs. split; [|done]. eapply HI; [|exact Hs]. by rewrite Hk. Qed.
End Yields.
