(* ===== verification/GoStrings.v ===== *)
(** * Strings and sorting, as the Go standard library has them

Byte strings are [String.string].  [TrimSpace], [ToUpper], [ToLower],
[EqualFold], [HasPrefix], [fmt] decimals and [sort.Slice] on the ASCII
texts the state machine handles (addresses, hashes, keys, decimal
numbers), with the laws the components share. *)

From S2P Require Export Prelude.
From Stdlib Require Export Ascii.

Open Scope string_scope.
Open Scope Z_scope.

(** ** Characters *)

Definition is_space (c : ascii) : bool :=
  match nat_of_ascii c with
  | 9%nat | 10%nat | 11%nat | 12%nat | 13%nat | 32%nat => true
  | _ => false
  end.

Definition upper_char (c : ascii) : ascii :=
  let n := nat_of_ascii c in
  if (97 <=? n)%nat && (n <=? 122)%nat then ascii_of_nat (n - 32) else c.

Definition lower_char (c : ascii) : ascii :=
  let n := nat_of_ascii c in
  if (65 <=? n)%nat && (n <=? 90)%nat then ascii_of_nat (n + 32) else c.

Fixpoint smap (f : ascii → ascii) (s : string) : string :=
  match s with
  | EmptyString => EmptyString
  | String c s' => String (f c) (smap f s')
  end.

Definition ToUpper : string → string := smap upper_char.
Definition ToLower : string → string := smap lower_char.

(** ** Trimming *)

Fixpoint trim_left (s : string) : string :=
  match s with
  | String c s' => if is_space c then trim_left s' else s
  | EmptyString => EmptyString
  end.

Fixpoint trim_right (s : string) : string :=
  match s with
  | EmptyString => EmptyString
  | String c s' =>
      match trim_right s' with
      | EmptyString => if is_space c then EmptyString else String c EmptyString
      | t => String c t
      end
  end.

Definition TrimSpace (s : string) : string := trim_right (trim_left s).

Definition EqualFold (a b : string) : bool := bool_decide (ToLower a = ToLower b).

Definition str_eq (a b : string) : bool := bool_decide (a = b).

Definition is_empty (s : string) : bool := str_eq s "".

(** [strings.TrimSpace(s) == ""], the emptiness test of most Go types here. *)
Definition is_blank (s : string) : bool := str_eq (TrimSpace s) "".

Definition HasPrefix (s p : string) : bool := String.prefix p s.

(** ** Decimals *)

Definition digit (d : Z) : ascii := ascii_of_nat (48 + Z.to_nat d).

Definition digit_val (c : ascii) : option Z :=
  let n := Z.of_nat (nat_of_ascii c) in
  if (48 <=? n) && (n <=? 57) then Some (n - 48) else None.

Fixpoint dec_digits (fuel : nat) (z : Z) (acc : string) : string :=
  match fuel with
  | O => acc
  | S f =>
      let acc' := String (digit (z mod 10)) acc in
      if z / 10 =? 0 then acc' else dec_digits f (z / 10) acc'
  end.

(** [fmt.Sprintf("%d", z)]: [log2 z + 1] bounds the number of digits. *)
Definition itoa (z : Z) : string :=
  let digits n := dec_digits (S (Z.to_nat (Z.log2 n))) n "" in
  if z <? 0 then "-" ++ digits (- z) else digits z.

(** Reads a run of decimal digits, as [big.Int.SetString] and the Rust engine
    do: leading zeros are accepted. *)
Fixpoint parse_digits (s : string) (acc : Z) : option Z :=
  match s with
  | EmptyString => Some acc
  | String c s' => d ← digit_val c; parse_digits s' (10 * acc + d)
  end.

Definition parse_dec (s : string) : option Z :=
  match s with EmptyString => None | _ => parse_digits s 0 end.

Fixpoint pad_left (n : nat) (c : ascii) (s : string) : string :=
  match n with O => s | S n' => String c (pad_left n' c s) end.

(** [fmt.Sprintf("%020d", z)] *)
Definition itoa20 (z : Z) : string :=
  let s := itoa z in pad_left (20 - String.length s) "0" s.

Fixpoint join (sep : string) (l : list string) : string :=
  match l with
  | [] => ""
  | [x] => x
  | x :: l' => x ++ sep ++ join sep l'
  end.

(** ** Laws *)

Lemma smap_length f s : String.length (smap f s) = String.length s.
Proof. induction s; simpl; congruence. Qed.

Lemma smap_idem f s : (∀ c, f (f c) = f c) → smap f (smap f s) = smap f s.
Proof. intros Hf. induction s as [|c s IH]; simpl; [done|]. by rewrite Hf, IH. Qed.

Lemma smap_compose f g s : smap f (smap g s) = smap (λ c, f (g c)) s.
Proof. induction s as [|c s IH]; simpl; congruence. Qed.

Lemma smap_ext f g s : (∀ c, f c = g c) → smap f s = smap g s.
Proof. intros Hf. induction s as [|c s IH]; simpl; [done|]. by rewrite Hf, IH. Qed.

(** A property of one character is checked on the 256 bytes. *)
Ltac by_char :=
  intros [[] [] [] [] [] [] [] []]; vm_compute; first [reflexivity | congruence].

Lemma upper_char_idem c : upper_char (upper_char c) = upper_char c.
Proof. revert c. by_char. Qed.

Lemma lower_upper_char c : lower_char (upper_char c) = lower_char c.
Proof. revert c. by_char. Qed.

Lemma upper_lower_char c : upper_char (lower_char c) = upper_char c.
Proof. revert c. by_char. Qed.

Lemma is_space_upper c : is_space (upper_char c) = is_space c.
Proof. revert c. by_char. Qed.

Lemma ToUpper_idem s : ToUpper (ToUpper s) = ToUpper s.
Proof. apply smap_idem, upper_char_idem. Qed.

Lemma ToLower_ToUpper s : ToLower (ToUpper s) = ToLower s.
Proof.
  unfold ToLower, ToUpper. rewrite smap_compose.
  apply smap_ext, lower_upper_char.
Qed.

Lemma ToUpper_ToLower s : ToUpper (ToLower s) = ToUpper s.
Proof.
  unfold ToLower, ToUpper. rewrite smap_compose.
  apply smap_ext, upper_lower_char.
Qed.

(** Two texts fold to the same text exactly when they have the same upper
    case, which is what a store key keeps of a text. *)
Lemma EqualFold_upper a b : EqualFold a b = true ↔ ToUpper a = ToUpper b.
Proof.
  unfold EqualFold. rewrite bool_decide_eq_true. split; intros H.
  - by rewrite <- (ToUpper_ToLower a), <- (ToUpper_ToLower b), H.
  - by rewrite <- (ToLower_ToUpper a), <- (ToLower_ToUpper b), H.
Qed.

Lemma EqualFold_refl a : EqualFold a a = true.
Proof. by apply EqualFold_upper. Qed.

Lemma EqualFold_sym a b : EqualFold a b = EqualFold b a.
Proof. unfold EqualFold. by apply bool_decide_ext. Qed.

Lemma str_eq_true a b : str_eq a b = true ↔ a = b.
Proof. apply bool_decide_eq_true. Qed.

Lemma str_eq_false a b : str_eq a b = false ↔ a ≠ b.
Proof. apply bool_decide_eq_false. Qed.

Lemma trim_left_idem s : trim_left (trim_left s) = trim_left s.
Proof.
  induction s as [|c s IH]; simpl; [done|].
  destruct (is_space c) eqn:E; [done|]. simpl. by rewrite E.
Qed.

Lemma trim_right_idem s : trim_right (trim_right s) = trim_right s.
Proof.
  induction s as [|c s IH]; simpl; [done|].
  destruct (trim_right s) as [|d t] eqn:E.
  - destruct (is_space c) eqn:Ec; simpl; [done|]. by rewrite Ec.
  - change (match trim_right (String d t) with
            | EmptyString => if is_space c then EmptyString else String c EmptyString
            | String _ _ as t0 => String c t0 end = String c (String d t)).
    by rewrite IH.
Qed.

Lemma trim_right_head c s t :
  trim_right (String c s) = t → is_space c = false →
  ∃ t', t = String c t'.
Proof.
  simpl. intros <- Hc. destruct (trim_right s) as [|d t'].
  - rewrite Hc. eauto.
  - eauto.
Qed.

Lemma trim_left_trim_right s :
  trim_left s = s → trim_left (trim_right s) = trim_right s.
Proof.
  destruct s as [|c s]; [done|]. simpl. intros H.
  destruct (is_space c) eqn:E.
  - exfalso. assert (Hl : (String.length (trim_left s) <= String.length s)%nat).
    { clear. induction s as [|d s IH]; simpl; [lia|].
      destruct (is_space d); simpl; lia. }
    rewrite H in Hl. simpl in Hl. lia.
  - destruct (trim_right_head c s _ eq_refl E) as [t' Ht].
    simpl in Ht. rewrite E in Ht. rewrite Ht. simpl. by rewrite E.
Qed.

Lemma TrimSpace_idem s : TrimSpace (TrimSpace s) = TrimSpace s.
Proof.
  unfold TrimSpace.
  rewrite (trim_left_trim_right (trim_left s)) by apply trim_left_idem.
  apply trim_right_idem.
Qed.

Lemma trim_left_upper s : trim_left (ToUpper s) = ToUpper (trim_left s).
Proof.
  unfold ToUpper. induction s as [|c s IH]; simpl; [done|].
  rewrite is_space_upper. by destruct (is_space c).
Qed.

Lemma trim_right_upper s : trim_right (ToUpper s) = ToUpper (trim_right s).
Proof.
  unfold ToUpper. induction s as [|c s IH]; simpl; [done|].
  rewrite IH, is_space_upper.
  destruct (trim_right s); simpl; [by destruct (is_space c)|done].
Qed.

Lemma TrimSpace_upper s : TrimSpace (ToUpper s) = ToUpper (TrimSpace s).
Proof. unfold TrimSpace. by rewrite trim_left_upper, trim_right_upper. Qed.

Lemma digit_val_digit d : 0 <= d < 10 → digit_val (digit d) = Some d.
Proof.
  intros H. assert (d = 0 ∨ d = 1 ∨ d = 2 ∨ d = 3 ∨ d = 4 ∨ d = 5 ∨ d = 6 ∨ d = 7
    ∨ d = 8 ∨ d = 9) as Hd by lia.
  by repeat destruct Hd as [->|Hd]; [..|subst d].
Qed.

Lemma parse_dec_digits fuel z s :
  0 <= z < 2 ^ Z.of_nat fuel → (0 < fuel)%nat →
  parse_digits (dec_digits fuel z s) 0 = parse_digits s z.
Proof.
  revert z s. induction fuel as [|f IH]; intros z s Hz Hf; [lia|].
  cbn [dec_digits]. pose proof (Z.div_mod z 10 ltac:(lia)) as Hdm.
  pose proof (Z.mod_pos_bound z 10 ltac:(lia)) as Hm.
  destruct (z / 10 =? 0) eqn:E.
  - apply Z.eqb_eq in E. cbn [parse_digits]. rewrite digit_val_digit by lia.
    cbn. f_equal. lia.
  - apply Z.eqb_neq in E. rewrite Nat2Z.inj_succ, Z.pow_succ_r in Hz by lia.
    assert (Hq : 0 <= z / 10 < 2 ^ Z.of_nat f).
    { split; [apply Z.div_pos; lia|]. apply Z.div_lt_upper_bound; lia. }
    rewrite IH; [|done|destruct f; [simpl in Hq|]; lia].
    cbn [parse_digits]. rewrite digit_val_digit by lia. cbn. f_equal. lia.
Qed.

Lemma dec_digits_nonempty fuel z s : (0 < fuel)%nat → dec_digits fuel z s ≠ "".
Proof.
  revert z s. induction fuel as [|f IH]; intros z s Hf; [lia|]. simpl.
  destruct (z / 10 =? 0); [done|]. destruct f; [done|]. apply IH. lia.
Qed.

(** Printing then parsing a decimal is the identity. *)
Lemma parse_itoa z : 0 <= z → parse_dec (itoa z) = Some z.
Proof.
  intros Hz. unfold itoa. destruct (z <? 0) eqn:E; [lia|].
  set (n := S (Z.to_nat (Z.log2 z))).
  assert (Hp : parse_digits (dec_digits n z "") 0 = Some z).
  { rewrite parse_dec_digits; [done| |lia]. split; [done|].
    unfold n. rewrite Nat2Z.inj_succ, Z2Nat.id by apply Z.log2_nonneg.
    destruct (decide (z = 0)) as [->|]; [reflexivity|].
    apply Z.log2_spec. lia. }
  unfold parse_dec. destruct (dec_digits n z "") eqn:En; [|done].
  exfalso. revert En. apply dec_digits_nonempty. lia.
Qed.

Lemma itoa_inj a b : 0 <= a → 0 <= b → itoa a = itoa b → a = b.
Proof.
  intros Ha Hb H. apply (f_equal parse_dec) in H.
  rewrite !parse_itoa in H by done. by simplify_eq.
Qed.

(** Texts without white space are their own trim. *)
Fixpoint all_chars (f : ascii → bool) (s : string) : bool :=
  match s with EmptyString => true | String c s' => f c && all_chars f s' end.

Lemma trim_nonspace s : all_chars (λ c, negb (is_space c)) s = true → TrimSpace s = s.
Proof.
  intros Hs. unfold TrimSpace. assert (Hl : trim_left s = s).
  { destruct s as [|c s]; [done|]. simpl in Hs |- *.
    apply andb_true_iff in Hs as [Hc _]. apply negb_true_iff in Hc. by rewrite Hc. }
  rewrite Hl. clear Hl. induction s as [|c s IH]; [done|]. simpl in Hs |- *.
  apply andb_true_iff in Hs as [Hc Hs]. rewrite (IH Hs).
  apply negb_true_iff in Hc. rewrite Hc. by destruct s.
Qed.

Definition is_digit (c : ascii) : bool :=
  match digit_val c with Some _ => true | None => false end.

Lemma all_chars_impl (f g : ascii → bool) s :
  (∀ c, f c = true → g c = true) → all_chars f s = true → all_chars g s = true.
Proof.
  intros Hfg. induction s as [|c s IH]; simpl; [done|].
  rewrite !andb_true_iff. intros [Hc Hs]. auto.
Qed.

Lemma dec_digits_digits fuel z s :
  0 <= z → all_chars is_digit s = true → all_chars is_digit (dec_digits fuel z s) = true.
Proof.
  revert z s. induction fuel as [|f IH]; intros z s Hz Hs; [done|]. cbn [dec_digits].
  assert (Hd : all_chars is_digit (String (digit (z mod 10)) s) = true).
  { cbn [all_chars]. unfold is_digit at 1. rewrite digit_val_digit; [done|].
    apply Z.mod_pos_bound. lia. }
  destruct (z / 10 =? 0); [done|]. apply IH; [|done]. apply Z.div_pos; lia.
Qed.

Lemma itoa_digits z : 0 <= z → all_chars is_digit (itoa z) = true.
Proof.
  intros Hz. unfold itoa. destruct (z <? 0) eqn:E; [lia|]. by apply dec_digits_digits.
Qed.

Lemma trim_itoa z : 0 <= z → TrimSpace (itoa z) = itoa z.
Proof.
  intros Hz. apply trim_nonspace. eapply all_chars_impl; [|by apply itoa_digits].
  by_char.
Qed.

Lemma itoa_nonempty z : 0 <= z → itoa z ≠ "".
Proof.
  intros Hz H. pose proof (parse_itoa z Hz) as Hp. rewrite H in Hp. discriminate.
Qed.

Lemma is_blank_itoa z : 0 <= z → is_blank (itoa z) = false.
Proof.
  intros Hz. unfold is_blank. rewrite trim_itoa by done.
  apply str_eq_false, itoa_nonempty, Hz.
Qed.

(** ** Sorting

[sort.Slice] on at most twelve elements is an insertion sort; on longer
slices Go leaves the order of equal elements unspecified.  [insert_sort]
is the insertion sort, which is stable, so it is also [sort.SliceStable]. *)

Section Sort.
Context {A : Type} (lt : A → A → bool).

Fixpoint insert_sorted (x : A) (l : list A) : list A :=
  match l with
  | [] => [x]
  | y :: l' => if lt x y then x :: l else y :: insert_sorted x l'
  end.

Definition insert_sort (l : list A) : list A :=
  foldl (fun acc x => insert_sorted x acc) [] l.

Lemma insert_sorted_perm x l : insert_sorted x l ≡ₚ x :: l.
Proof.
  induction l as [|y l IH]; simpl; [done|].
  destruct (lt x y); [done|]. rewrite IH. by constructor.
Qed.

Lemma insert_sort_perm l : insert_sort l ≡ₚ l.
Proof.
  unfold insert_sort.
  assert (H : ∀ acc, foldl (fun acc x => insert_sorted x acc) acc l ≡ₚ (acc ++ l)%list).
  { induction l as [|x l IH]; intros acc; simpl; [by rewrite app_nil_r|].
    rewrite IH, insert_sorted_perm. simpl. by rewrite Permutation_middle. }
  by rewrite H.
Qed.

Context (R : A → A → Prop) `{!Transitive R}.
Hypothesis lt_R : ∀ x y, lt x y = true → R x y.
Hypothesis not_lt_R : ∀ x y, lt x y = false → R y x.

Lemma insert_sorted_Sorted x l :
  StronglySorted R l → StronglySorted R (insert_sorted x l).
Proof using All.
  induction 1 as [|y l Hs IH Hy]; simpl; [repeat constructor|].
  destruct (lt x y) eqn:E.
  - constructor; [by constructor|]. apply lt_R in E.
    constructor; [done|]. eapply Forall_impl; [exact Hy|].
    intros z Hz. simpl. by etrans.
  - constructor; [done|]. rewrite insert_sorted_perm.
    constructor; [by apply not_lt_R|done].
Qed.

Lemma insert_sort_Sorted l : StronglySorted R (insert_sort l).
Proof using All.
  unfold insert_sort.
  assert (H : ∀ acc, StronglySorted R acc →
    StronglySorted R (foldl (fun acc x => insert_sorted x acc) acc l)).
  { induction l as [|x l IH]; intros acc Ha; simpl; [done|].
    by apply IH, insert_sorted_Sorted. }
  apply H. constructor.
Qed.
End Sort.

(** ** Iteration over a store prefix

An iterator yields the values in the order of their keys. *)

Definition str_lt (a b : string) : bool :=
  match String.compare a b with Lt => true | _ => false end.

Definition sorted_items {A} (m : gmap string A) : list (string * A) :=
  insert_sort (fun x y => str_lt x.1 y.1) (map_to_list m).

Definition sorted_values {A} (m : gmap string A) : list A :=
  (sorted_items m).*2.

Lemma elem_of_sorted_items {A} (m : gmap string A) k x :
  (k, x) ∈ sorted_items m ↔ m !! k = Some x.
Proof. unfold sorted_items. by rewrite insert_sort_perm, elem_of_map_to_list. Qed.

Lemma elem_of_sorted_values {A} (m : gmap string A) x :
  x ∈ sorted_values m ↔ ∃ k, m !! k = Some x.
Proof.
  unfold sorted_values. rewrite list_elem_of_fmap. split.
  - intros ([k y] & -> & H). exists k. by apply elem_of_sorted_items.
  - intros [k H]. exists (k, x). split; [done|]. by apply elem_of_sorted_items.
Qed.

Lemma sorted_values_perm {A} (m : gmap string A) : sorted_values m ≡ₚ (map_to_list m).*2.
Proof. unfold sorted_values, sorted_items. by rewrite insert_sort_perm. Qed.

Lemma filter_perm {A} (p : A → bool) l l' : l ≡ₚ l' → List.filter p l ≡ₚ List.filter p l'.
Proof.
  induction 1 as [|x l l' _ IH|x y l|l1 l2 l3 _ IH1 _ IH2]; simpl.
  - done.
  - destruct (p x); [by constructor|done].
  - destruct (p x), (p y); try done. apply perm_swap.
  - by rewrite IH1.
Qed.

(** A write that no filtered value sees. *)
Lemma filter_values_insert {A} (p : A → bool) (m : gmap string A) k v :
  p v = false → (∀ w, m !! k = Some w → p w = false) →
  List.filter p (sorted_values (<[k:=v]> m)) ≡ₚ List.filter p (sorted_values m).
Proof.
  intros Hv Hw. rewrite (filter_perm p _ _ (sorted_values_perm _)),
    (filter_perm p _ _ (sorted_values_perm m)).
  assert (Hins : ∀ (m0 : gmap string A) u, m0 !! k = None → p u = false →
    List.filter p (map_to_list (<[k:=u]> m0)).*2 ≡ₚ List.filter p (map_to_list m0).*2).
  { intros m0 u Hn Hu.
    rewrite (filter_perm p _ _ (fmap_Permutation snd _ _ (map_to_list_insert m0 k u Hn))).
    simpl. by rewrite Hu. }
  destruct (m !! k) as [w|] eqn:Em; [|by apply Hins].
  rewrite <- (insert_delete_id m k w Em) at 2. rewrite <- insert_delete_eq.
  by rewrite !Hins by (try apply lookup_delete_eq; auto).
Qed.

Lemma NoDup_map_filter {A B} (f : A → B) (p : A → bool) l :
  NoDup (map f l) → NoDup (map f (List.filter p l)).
Proof.
  induction l as [|x l IH]; simpl; [done|]. intros [Hx Hl]%NoDup_cons.
  destruct (p x); [|by apply IH]. simpl. apply NoDup_cons. split; [|by apply IH].
  intros Hin. apply Hx. apply list_elem_of_fmap in Hin as (y & -> & Hy).
  apply list_elem_of_fmap. exists y. split; [done|].
  apply list_elem_of_In, filter_In in Hy as [Hy _]. by apply list_elem_of_In.
Qed.

Lemma sorted_values_empty {A} : sorted_values (∅ : gmap string A) = [].
Proof. reflexivity. Qed.
