(* ===== verification/Merkle.v ===== *)
(** * The incremental Merkle tree of the shielded pools

[Field]: the BN254 scalar field and its text encodings
(crates/thornado-shielder/src/tornado/field.rs).
[Mimc]: the MiMC sponge (tornado/mimc_sponge.rs).
[Tree]: the incremental tree of depth 20, its full recomputation, Merkle
paths and their verification (tornado/mimc_sponge.rs, merkle.rs), over any
two-to-one hash, against a reference: the root of the complete binary tree
over the leaves in insertion order.
[Engine]: the string interface the Go chain calls
([merkle_append], [AppendShielderMerkleLeaf]) and the contract
[MerkleLaws] it promises to the chain. *)

From S2P Require Import Prelude GoStrings.

(** ** The field *)

Module Field.

(** [Fr::MODULUS]; the Go wrapper repeats it as [bn254ScalarFieldModulus]. *)
Definition modulus : Z :=
  21888242871839275222246405745257275088548364400416034343698204186575808495617.

Definition fr_from_decimal (s : string) : option Z :=
  z ← parse_dec (TrimSpace s); Some (z mod modulus).

Definition fr_to_decimal (z : Z) : string := itoa z.

Definition from_hex_digit (c : ascii) : option Z :=
  let n := Z.of_nat (nat_of_ascii c) in
  if (48 <=? n) && (n <=? 57) then Some (n - 48)
  else if (97 <=? n) && (n <=? 102) then Some (n - 87)
  else if (65 <=? n) && (n <=? 70) then Some (n - 55)
  else None.

(** [hex::decode], as the little-endian value of the first [limit] bytes. *)
Fixpoint hex_le (limit : nat) (s : string) : option Z :=
  match s with
  | EmptyString => Some 0
  | String _ EmptyString => None
  | String a (String b s') =>
      hi ← from_hex_digit a;
      lo ← from_hex_digit b;
      match limit with
      | O => hex_le O s'
      | S n => rest ← hex_le n s'; Some (16 * hi + lo + 256 * rest)
      end
  end.

Fixpoint trim_0x (fuel : nat) (s : string) : string :=
  match fuel, s with
  | S f, String "0" (String "x" s') => trim_0x f s'
  | _, _ => s
  end.

Definition fr_from_field_hex (s : string) : option Z :=
  let t := TrimSpace s in
  let trimmed := trim_0x (String.length t) t in
  if is_empty trimmed then Some 0
  else z ← hex_le 32 trimmed; Some (z mod modulus).

Lemma modulus_pos : 0 < modulus.
Proof. reflexivity. Qed.

Lemma fr_from_decimal_range s z : fr_from_decimal s = Some z → 0 <= z < modulus.
Proof.
  unfold fr_from_decimal. destruct (parse_dec (TrimSpace s)); simpl; [|done].
  intros [= <-]. apply Z.mod_pos_bound, modulus_pos.
Qed.

Lemma decimal_roundtrip z : 0 <= z < modulus → fr_from_decimal (fr_to_decimal z) = Some z.
Proof.
  intros [H1 H2]. unfold fr_from_decimal, fr_to_decimal.
  rewrite trim_itoa, parse_itoa by done. cbn. by rewrite Z.mod_small by done.
Qed.

Lemma fr_from_field_hex_range s z : fr_from_field_hex s = Some z → 0 <= z < modulus.
Proof.
  unfold fr_from_field_hex. destruct (is_empty _).
  - intros [= <-]. done.
  - destruct (hex_le _ _); simpl; [|done].
    intros [= <-]. apply Z.mod_pos_bound, modulus_pos.
Qed.

End Field.

(** ** MiMC *)

Module Mimc.
Section Mimc.
  (** The round constants are iterated Keccak-256 digests (the sha3 crate). *)
Variable round_constant : nat → Z.

Definition NROUNDS : nat := 220.

Definition cts (i : nat) : Z :=
  if (i =? 0)%nat || (i =? NROUNDS - 1)%nat then 0 else round_constant i.

Definition fadd (a b : Z) : Z := (a + b) mod Field.modulus.
Definition fmul (a b : Z) : Z := (a * b) mod Field.modulus.

Definition pow5 (t : Z) : Z := let s := fmul t t in fmul (fmul s s) t.

Definition sponge_round (key : Z) (i : nat) (st : Z * Z) : Z * Z :=
  let '(xl, xr) := st in
  let t := if (i =? 0)%nat then fadd xl key else fadd (fadd xl key) (cts i) in
  let t5 := pow5 t in
  if (i <? NROUNDS - 1)%nat then (fadd xr t5, xl) else (xl, fadd xr t5).

Definition sponge_hash (xl xr key : Z) : Z * Z :=
  foldl (fun st i => sponge_round key i st) (xl, xr) (seq 0 NROUNDS).

Definition absorb (key : Z) (st : Z * Z) (value : Z) : Z * Z :=
  sponge_hash (fadd st.1 value) st.2 key.

Definition hash_left_right (left right : Z) : Z :=
  (foldl (absorb 0) (0, 0) [left; right]).1.

(** The rounds undone, last first. *)
Definition fsub (a b : Z) : Z := (a - b) mod Field.modulus.

Definition unround (key : Z) (i : nat) (st : Z * Z) : Z * Z :=
  let '(a, b) := st in
  let xl := if (i <? NROUNDS - 1)%nat then b else a in
  let t := if (i =? 0)%nat then fadd xl key else fadd (fadd xl key) (cts i) in
  (xl, fsub (if (i <? NROUNDS - 1)%nat then a else b) (pow5 t)).

Definition unsponge (key : Z) (st : Z * Z) : Z * Z :=
  foldr (fun i st => unround key i st) st (seq 0 NROUNDS).

Definition in_field (z : Z) : Prop := 0 <= z < Field.modulus.

Lemma fadd_range a b : in_field (fadd a b).
Proof. apply Z.mod_pos_bound, Field.modulus_pos. Qed.

Lemma fsub_fadd a b : in_field a → fsub (fadd a b) b = a.
Proof.
  intros Ha. unfold fsub, fadd. rewrite Zminus_mod_idemp_l.
  replace (a + b - b) with a by lia. by apply Z.mod_small.
Qed.

Lemma round_field key i st :
  in_field st.1 → in_field st.2 →
  in_field (sponge_round key i st).1 ∧ in_field (sponge_round key i st).2.
Proof.
  destruct st as [xl xr]. intros Hl Hr. unfold sponge_round. simpl in Hl, Hr.
  destruct (i <? NROUNDS - 1)%nat; cbn [fst snd]; split;
    first [assumption | apply fadd_range].
Qed.

Lemma sponge_field key l st :
  in_field st.1 → in_field st.2 →
  in_field (foldl (fun st i => sponge_round key i st) st l).1
  ∧ in_field (foldl (fun st i => sponge_round key i st) st l).2.
Proof.
  revert st. induction l as [|i l IH]; intros st H1 H2; simpl; [done|].
  destruct (round_field key i st H1 H2). by apply IH.
Qed.

Lemma absorb_field key st v :
  in_field st.2 → in_field (absorb key st v).1 ∧ in_field (absorb key st v).2.
Proof. intros H. apply sponge_field; [apply fadd_range|exact H]. Qed.

Lemma hash_field a b : in_field (hash_left_right a b).
Proof.
  assert (H0 : in_field 0) by (split; reflexivity).
  unfold hash_left_right. cbn [foldl].
  exact (proj1 (absorb_field 0 _ b (proj2 (absorb_field 0 (0, 0) a H0)))).
Qed.

Lemma unround_round key i st :
  in_field st.2 → unround key i (sponge_round key i st) = st.
Proof.
  destruct st as [xl xr]. intros Hr. unfold unround, sponge_round. simpl in Hr.
  destruct (i <? NROUNDS - 1)%nat eqn:E; rewrite ?E; by rewrite fsub_fadd.
Qed.

Lemma unsponge_sponge_list key l st :
  in_field st.1 → in_field st.2 →
  foldr (unround key) (foldl (fun st i => sponge_round key i st) st l) l = st.
Proof.
  revert st. induction l as [|i l IH]; intros st H1 H2; simpl; [done|].
  destruct (round_field key i st H1 H2) as [H3 H4].
  rewrite IH by done. by apply unround_round.
Qed.

Lemma unsponge_sponge key xl xr :
  in_field xl → in_field xr → unsponge key (sponge_hash xl xr key) = (xl, xr).
Proof. intros Hl Hr. exact (unsponge_sponge_list key (seq 0 NROUNDS) (xl, xr) Hl Hr). Qed.
End Mimc.
End Mimc.

(** ** The incremental tree *)

Module Tree.
Section Tree.
Context {F : Type} `{EqDecision F} (H : F → F → F) (zero : F).

(** [MERKLE_TREE_DEPTH] is 20; the lemmas hold for every depth. *)
Variable depth : nat.

Definition capacity : Z := 2 ^ Z.of_nat depth.

Fixpoint zero_subtree (level : nat) : F :=
  match level with
  | O => zero
  | S l => H (zero_subtree l) (zero_subtree l)
  end.

(** The loop over the levels of [append_leaf] and of [incremental_root]. *)
Fixpoint append_levels (level : nat) (filled : list F) (current_index : Z) (current : F)
    : F * list F :=
  match filled with
  | [] => (current, [])
  | filled_level :: rest =>
      let '(filled_level', current') :=
        if current_index mod 2 =? 0
        then (current, H current (zero_subtree level))
        else (filled_level, H filled_level current) in
      let '(root, rest') := append_levels (S level) rest (current_index / 2) current' in
      (root, filled_level' :: rest')
  end.

Definition append_leaf (filled : list F) (next_index : Z) (leaf : F) : res (F * list F) :=
  if negb (length filled =? depth)%nat then Err "invalid proof"
  else if capacity <=? next_index then Err "invalid proof"
  else Ok (append_levels 0 filled next_index leaf).

Definition empty_filled : list F := repeat zero depth.

Definition root_step (acc : F * list F * Z) (leaf : F) : F * list F * Z :=
  let '(root, filled, index) := acc in
  let '(root', filled') := append_levels 0 filled index leaf in
  (root', filled', index + 1).

Definition incremental_root (leaves : list F) : res F :=
  if capacity <? Z.of_nat (length leaves) then Err "invalid proof"
  else Ok (foldl root_step (zero_subtree depth, empty_filled, 0) leaves).1.1.

(** One level of [merkle_path]: the nodes are paired, a missing right
    neighbour being the zero subtree of the level. *)
Fixpoint next_level (level : nat) (nodes : list F) : list F :=
  match nodes with
  | [] => []
  | [x] => [H x (zero_subtree level)]
  | x :: y :: rest => H x y :: next_level level rest
  end.

Definition sibling_index (i : nat) : nat := if Nat.even i then S i else Nat.pred i.

Fixpoint path_levels (n level : nat) (nodes : list F) (i : nat) : list (F * bool) :=
  match n with
  | O => []
  | S n' =>
      (default (zero_subtree level) (nodes !! sibling_index i), Nat.odd i)
      :: path_levels n' (S level) (next_level level nodes) (i / 2)
  end.

Definition merkle_path (leaves : list F) (target_index : nat) : res (list (F * bool)) :=
  if (length leaves <=? target_index)%nat then Err "invalid proof"
  else Ok (path_levels depth 0 leaves target_index).

(** [path_elements] paired with [path_indices]; a direction of 1 puts the
    sibling on the left. *)
Definition climb (leaf : F) (path : list (F * bool)) : F :=
  foldl (fun current '(sibling, dir) =>
    if dir : bool then H sibling current else H current sibling) leaf path.

Definition verify_merkle_path (root leaf : F) (path : list (F * bool)) : bool :=
  (length path =? depth)%nat && bool_decide (climb leaf path = root).

(** *** The reference: the complete tree over a leaf function *)

Fixpoint node (leaf : Z → F) (level : nat) (j : Z) : F :=
  match level with
  | O => leaf j
  | S l => H (node leaf l (2 * j)) (node leaf l (2 * j + 1))
  end.

Definition leaf_at (leaves : list F) (j : Z) : F :=
  if j <? 0 then zero else default zero (leaves !! Z.to_nat j).

Definition reference_root (leaves : list F) : F := node (leaf_at leaves) depth 0.

(** What the persisted filled subtrees mean for a tree of [k] leaves: where
    the path of the next leaf turns right, they hold the left neighbour. *)
Fixpoint filled_ok (leaf : Z → F) (level : nat) (filled : list F) (k : Z) : Prop :=
  match filled with
  | [] => True
  | x :: rest =>
      (k mod 2 = 1 → x = node leaf level (k - 1))
      ∧ filled_ok leaf (S level) rest (k / 2)
  end.

Definition represents (leaves filled : list F) : Prop :=
  length filled = depth
  ∧ filled_ok (leaf_at leaves) 0 filled (Z.of_nat (length leaves)).

(** Parents of nodes known at one level are known at the next. *)
Lemma node_below f f' l k :
  (∀ j, j < k → node f l j = node f' l j) →
  ∀ j, j < k / 2 → node f (S l) j = node f' (S l) j.
Proof.
  intros Hk j Hj. simpl.
  pose proof (Z.mul_div_le k 2 ltac:(lia)). by rewrite !Hk by lia.
Qed.

Lemma node_above f' l k :
  (∀ j, k < j → node f' l j = zero_subtree l) →
  ∀ j, k / 2 < j → node f' (S l) j = zero_subtree (S l).
Proof.
  intros Hk j Hj. simpl.
  pose proof (Z.mul_succ_div_gt k 2 ltac:(lia)). by rewrite !Hk by lia.
Qed.

Lemma div2_step k : k mod 2 = 0 → (k + 1) / 2 = k / 2.
Proof. intros Hk. Z.to_euclidean_division_equations. lia. Qed.

Lemma div2_carry k : k mod 2 = 1 → (k + 1) / 2 = k / 2 + 1.
Proof. intros Hk. Z.to_euclidean_division_equations. lia. Qed.

Lemma mod2_cases k : k mod 2 = 0 ∨ k mod 2 = 1.
Proof. pose proof (Z.mod_pos_bound k 2 ltac:(lia)). lia. Qed.

(** The loop invariant: with [f] the old leaves and [f'] the new ones, which
    differ only at the node being computed, the loop returns the ancestor
    of that node and filled subtrees good for both [k] and [k + 1] leaves. *)
Lemma append_levels_spec f f' filled : ∀ l k cur,
  cur = node f' l k →
  (∀ j, j < k → node f l j = node f' l j) →
  (∀ j, k < j → node f' l j = zero_subtree l) →
  filled_ok f l filled k →
  (append_levels l filled k cur).1
    = node f' (l + length filled) (k / 2 ^ Z.of_nat (length filled))
  ∧ filled_ok f' l (append_levels l filled k cur).2 k
  ∧ filled_ok f' l (append_levels l filled k cur).2 (k + 1)
  ∧ length (append_levels l filled k cur).2 = length filled.
Proof using.
  induction filled as [|x rest IH]; intros l k cur Hcur Hlo Hhi Hok.
  { cbn. rewrite Z.div_1_r, Nat.add_0_r. auto. }
  destruct Hok as [Hx Hrest].
  cbn [append_levels]. set (pr := if k mod 2 =? 0 then _ else _).
  assert (Hpr : pr.2 = node f' (S l) (k / 2)
    ∧ (k mod 2 = 1 → pr.1 = node f' l (k - 1))
    ∧ (k mod 2 = 0 → pr.1 = node f' l k)).
  { pose proof (Z.div_mod k 2 ltac:(lia)) as Hd. unfold pr. cbn [node].
    destruct (mod2_cases k) as [E|E]; rewrite E; cbn [Z.eqb fst snd Pos.eqb].
    - rewrite E, Z.add_0_r in Hd. rewrite <- Hd, <- Hcur, Hhi by lia.
      split; [done|]. split; intros; [lia|congruence].
    - rewrite E in Hd. replace (2 * (k / 2)) with (k - 1) by lia.
      replace (k - 1 + 1) with k by lia. rewrite Hcur, Hx, Hlo by lia.
      split; [done|]. split; intros; [done|lia]. }
  destruct pr as [x' cur']. cbn [fst snd] in Hpr. destruct Hpr as (Hc & Hodd & Heven).
  specialize (IH (S l) (k / 2) cur' Hc (node_below f f' l k Hlo)
    (node_above f' l k Hhi) Hrest).
  destruct (append_levels (S l) rest (k / 2) cur') as [root rest'].
  cbn [fst snd] in IH |- *. destruct IH as (IHr & IHk & IHk1 & IHl).
  split; [|split; [|split]].
  - rewrite IHr. cbn [length]. rewrite Nat2Z.inj_succ, Z.pow_succ_r by lia.
    rewrite Z.div_div by lia. f_equal. lia.
  - split; [done|exact IHk].
  - cbn [filled_ok]. destruct (mod2_cases k) as [E|E].
    + rewrite (div2_step k E). split; [|exact IHk].
      intros _. replace (k + 1 - 1) with k by lia. auto.
    + rewrite (div2_carry k E). split; [|exact IHk1].
      intros E'. exfalso. rewrite <- Zplus_mod_idemp_l, E in E'. discriminate.
  - cbn. by rewrite IHl.
Qed.

Lemma leaf_at_old leaves x j :
  j < Z.of_nat (length leaves) → leaf_at (leaves ++ [x]) j = leaf_at leaves j.
Proof.
  intros Hj. unfold leaf_at. destruct (j <? 0) eqn:E; [done|].
  by rewrite lookup_app_l by lia.
Qed.

Lemma leaf_at_nat leaves (i : nat) :
  leaf_at leaves (Z.of_nat i) = default zero (leaves !! i).
Proof.
  unfold leaf_at. rewrite (proj2 (Z.ltb_ge _ _)) by lia. by rewrite Nat2Z.id.
Qed.

Lemma leaf_at_new leaves x : leaf_at (leaves ++ [x]) (Z.of_nat (length leaves)) = x.
Proof.
  by rewrite leaf_at_nat, list_lookup_middle.
Qed.

Lemma leaf_at_beyond leaves j : Z.of_nat (length leaves) <= j → leaf_at leaves j = zero.
Proof.
  intros Hj. unfold leaf_at. destruct (j <? 0) eqn:E; [done|].
  by rewrite lookup_ge_None_2 by lia.
Qed.

Lemma node_zero leaf l : (∀ j, leaf j = zero) → ∀ j, node leaf l j = zero_subtree l.
Proof. intros Hz. induction l as [|l IH]; intros j; simpl; [done|]. by rewrite !IH. Qed.

Lemma filled_ok_zero f filled l : filled_ok f l filled 0.
Proof. revert l. induction filled; intros l; cbn; [done|]. by split. Qed.

Lemma represents_nil filled : length filled = depth → represents [] filled.
Proof. intros Hl. split; [done|]. apply filled_ok_zero. Qed.

Lemma append_levels_root leaves filled x :
  represents leaves filled → Z.of_nat (length leaves) < capacity →
  (append_levels 0 filled (Z.of_nat (length leaves)) x).1
    = reference_root (leaves ++ [x])
  ∧ represents (leaves ++ [x]) (append_levels 0 filled (Z.of_nat (length leaves)) x).2.
Proof using.
  intros [Hlen Hok] Hcap.
  destruct (append_levels_spec (leaf_at leaves) (leaf_at (leaves ++ [x])) filled
    0 (Z.of_nat (length leaves)) x) as (Hr & _ & Hf & Hl); [..|done|].
  - simpl. by rewrite leaf_at_new.
  - intros j Hj. simpl. by rewrite leaf_at_old.
  - intros j Hj. simpl. apply leaf_at_beyond. rewrite length_app. simpl. lia.
  - rewrite Hr. split.
    + unfold reference_root. rewrite Hlen. f_equal.
      apply Z.div_small. unfold capacity in Hcap. lia.
    + split; [by rewrite Hl|].
      rewrite length_app, Nat2Z.inj_add. exact Hf.
Qed.

Lemma append_leaf_represents leaves filled x :
  represents leaves filled → Z.of_nat (length leaves) < capacity →
  ∃ filled', append_leaf filled (Z.of_nat (length leaves)) x
               = Ok (reference_root (leaves ++ [x]), filled')
             ∧ represents (leaves ++ [x]) filled'.
Proof using.
  intros Hr Hcap. destruct (append_levels_root leaves filled x Hr Hcap) as [H1 H2].
  unfold append_leaf. destruct Hr as [-> _]. rewrite Nat.eqb_refl. cbn [negb].
  destruct (capacity <=? Z.of_nat (length leaves)) eqn:E; [lia|].
  destruct (append_levels _ _ _ _) as [r f]. simpl in H1, H2. subst r. eauto.
Qed.

Lemma incremental_root_fold leaves :
  Z.of_nat (length leaves) <= capacity →
  ∃ filled, represents leaves filled ∧
    foldl root_step (zero_subtree depth, empty_filled, 0) leaves
    = (reference_root leaves, filled, Z.of_nat (length leaves)).
Proof using.
  induction leaves as [|x leaves IH] using rev_ind; intros Hcap.
  - exists empty_filled. split; [apply represents_nil, repeat_length|]. simpl.
    unfold reference_root. rewrite node_zero; [done|].
    intros j. unfold leaf_at. by destruct (j <? 0), (Z.to_nat j).
  - rewrite length_app in Hcap. simpl in Hcap.
    destruct IH as (filled & Hrep & Hf); [lia|].
    rewrite foldl_app, Hf. cbn [foldl root_step].
    destruct (append_levels_root leaves filled x Hrep) as [H1 H2]; [lia|].
    destruct (append_levels _ _ _ _) as [r f]. simpl in H1, H2. subst r.
    exists f. split; [done|]. rewrite length_app. simpl. do 2 f_equal. lia.
Qed.

Lemma incremental_root_reference leaves :
  Z.of_nat (length leaves) <= capacity →
  incremental_root leaves = Ok (reference_root leaves).
Proof using.
  intros Hcap. unfold incremental_root.
  destruct (capacity <? Z.of_nat (length leaves)) eqn:E; [lia|].
  destruct (incremental_root_fold leaves Hcap) as (filled & _ & Hf).
  by rewrite Hf.
Qed.

(** A property of all hashes and of the leaves holds of all nodes. *)
Section Preserve.
Variable P : F → Prop.
Hypothesis HP : ∀ a b, P (H a b).
Hypothesis zeroP : P zero.

Lemma append_levels_pres filled : ∀ l k cur,
  Forall P filled → P cur →
  P (append_levels l filled k cur).1 ∧ Forall P (append_levels l filled k cur).2.
Proof using HP.
  induction filled as [|x rest IH]; intros l k cur Hf Hc; cbn [append_levels]; [done|].
  inversion_clear Hf as [|? ? Hx Hrest].
  set (pr := if k mod 2 =? 0 then _ else _).
  assert (Hpr : P pr.1 ∧ P pr.2) by (unfold pr; by destruct (k mod 2 =? 0); simpl; auto).
  destruct pr as [x' cur'], Hpr as [Hx' Hc'].
  destruct (IH (S l) (k / 2) cur' Hrest Hc') as [H1 H2].
  destruct (append_levels _ _ _ _) as [r f]. split; [done|]. by constructor.
Qed.

Lemma reference_root_pres leaves : Forall P leaves → P (reference_root leaves).
Proof using HP zeroP.
  intros Hl. unfold reference_root.
  assert (Hn : ∀ l j, P (node (leaf_at leaves) l j)); [|apply Hn].
  induction l as [|l IH]; intros j; simpl; [|apply HP].
  unfold leaf_at. destruct (j <? 0); [done|].
  destruct (leaves !! Z.to_nat j) eqn:E; [|done].
  by eapply (Forall_lookup_1 P).
Qed.
End Preserve.

(** *** Merkle paths *)

(** The list of nodes of one level, and zero subtrees beyond it. *)
Definition level_ok (leaf : Z → F) (level : nat) (nodes : list F) : Prop :=
  ∀ i : nat, default (zero_subtree level) (nodes !! i) = node leaf level (Z.of_nat i).

Lemma next_level_ok leaf l nodes :
  level_ok leaf l nodes → level_ok leaf (S l) (next_level l nodes).
Proof using.
  intros Hok i.
  assert (Hn : ∀ nodes i, default (zero_subtree (S l)) (next_level l nodes !! i)
    = H (default (zero_subtree l) (nodes !! (2 * i)%nat))
        (default (zero_subtree l) (nodes !! (2 * i + 1)%nat))).
  { clear. intros nodes. remember (length nodes) as n eqn:En.
    revert nodes En. induction n as [n IH] using lt_wf_ind. intros nodes -> i.
    destruct nodes as [|x [|y rest]]; cbn [next_level].
    - by rewrite !lookup_nil.
    - destruct i as [|i]; [done|]. replace (2 * S i)%nat with (S (S (2 * i))) by lia. done.
    - destruct i as [|i]; [done|]. replace (2 * S i)%nat with (S (S (2 * i))) by lia.
      change (S (S (2 * i)) + 1)%nat with (S (S (2 * i + 1))). cbn [lookup list_lookup].
      eapply IH; [|done]. simpl. lia. }
  rewrite Hn, !Hok. cbn [node]. f_equal; f_equal; lia.
Qed.

Lemma sibling_node leaf l i :
  H (node leaf l (Z.of_nat (if Nat.odd i then sibling_index i else i)))
    (node leaf l (Z.of_nat (if Nat.odd i then i else sibling_index i)))
  = node leaf (S l) (Z.of_nat (i / 2)).
Proof using.
  cbn [node]. unfold sibling_index. rewrite <- Nat.negb_odd.
  destruct (Nat.Even_or_Odd i) as [[k ->]|[k ->]].
  - rewrite Nat.odd_mul, (Nat.mul_comm 2 k), Nat.div_mul by lia.
    cbn [Nat.odd Nat.even negb andb]. f_equal; f_equal; lia.
  - rewrite Nat.odd_odd, (Nat.mul_comm 2 k), Nat.div_add_l by lia.
    cbn [negb]. rewrite (Nat.div_small 1 2) by lia. f_equal; f_equal; lia.
Qed.

Lemma climb_path_levels leaf n : ∀ l nodes i,
  level_ok leaf l nodes →
  climb (node leaf l (Z.of_nat i)) (path_levels n l nodes i)
  = node leaf (l + n) (Z.of_nat (i / 2 ^ n)).
Proof using.
  induction n as [|n IH]; intros l nodes i Hok.
  - rewrite Nat.pow_0_r, Nat.div_1_r, Nat.add_0_r. done.
  - cbn [path_levels climb foldl]. rewrite (Hok (sibling_index i)).
    pose proof (sibling_node leaf l i) as Hs.
    assert (Hc : (if Nat.odd i
      then H (node leaf l (Z.of_nat (sibling_index i))) (node leaf l (Z.of_nat i))
      else H (node leaf l (Z.of_nat i)) (node leaf l (Z.of_nat (sibling_index i))))
      = node leaf (S l) (Z.of_nat (i / 2))) by (rewrite <- Hs; by destruct (Nat.odd i)).
    fold climb. rewrite Hc.
    etrans; [apply (IH (S l) _ (i / 2)%nat), next_level_ok, Hok|].
    f_equal; [lia|]. f_equal. rewrite Nat.pow_succ_r', Nat.Div0.div_div. done.
Qed.

Lemma length_path_levels n l nodes i : length (path_levels n l nodes i) = n.
Proof using. revert l nodes i. induction n; intros; simpl; auto. Qed.

Lemma merkle_path_climbs leaves i x :
  leaves !! i = Some x → Z.of_nat (length leaves) <= capacity →
  climb x (path_levels depth 0 leaves i) = reference_root leaves.
Proof using.
  intros Hi Hcap. pose proof (lookup_lt_Some _ _ _ Hi) as Hlt.
  assert (Hx : x = node (leaf_at leaves) 0 (Z.of_nat i)).
  { simpl. by rewrite leaf_at_nat, Hi. }
  rewrite Hx, climb_path_levels.
  - unfold reference_root. f_equal. rewrite Nat.div_small; [done|].
    unfold capacity in Hcap. apply Nat2Z.inj_lt. rewrite Nat2Z.inj_pow. lia.
  - intros j. simpl. by rewrite leaf_at_nat.
Qed.

(** The pairs a climb hashes, from the leaf up. *)
Fixpoint climb_inputs (x : F) (path : list (F * bool)) : list (F * F) :=
  match path with
  | [] => []
  | (s, d) :: path' =>
      let pair := if d then (s, x) else (x, s) in
      pair :: climb_inputs (H pair.1 pair.2) path'
  end.

(** Two climbs along the same directions from different leaves to one root
    meet: at some level they hash different pairs to one value. *)
Lemma climb_collision path path' : ∀ x x',
  path.*2 = path'.*2 → climb x path = climb x' path' → x ≠ x' →
  ∃ i p p', climb_inputs x path !! i = Some p ∧ climb_inputs x' path' !! i = Some p'
    ∧ p ≠ p' ∧ H p.1 p.2 = H p'.1 p'.2.
Proof using EqDecision0.
  revert path'. induction path as [|[s d] path IH]; intros [|[s' d'] path'] x x' Hd Hc Hx;
    simplify_eq/=.
  destruct (decide ((if d' then H s x else H x s) = (if d' then H s' x' else H x' s')))
    as [E|E].
  - eexists 0%nat, _, _. split; [done|]. split; [done|].
    destruct d'; (split; [congruence|done]).
  - destruct d'; (edestruct (IH path') as (i & p & p' & Hi & Hi' & ?); [done|exact Hc|done|];
      by exists (S i), p, p').
Qed.
End Tree.
End Tree.

(** ** The interface of the engine *)

(** What the chain calls ([AppendShielderMerkleLeaf] of
    x/thornado/shielder.go): filled subtrees, the index of the new leaf and
    the commitment, to the new root and filled subtrees. *)
Class MerkleEngine := append_merkle_leaf :
  list string → Z → string → res (string * list string).

(** What it promises: on a state that represents the leaves inserted so far,
    a well-formed commitment is appended as the next leaf as long as the tree
    is not full, the result represents the extended tree, and its root is the
    root of the extended list of leaves. *)
Class MerkleLaws (E : MerkleEngine) := {
  tree_repr : list string → list string → Prop;
  tree_root : list string → string;
  leaf_valid : string → bool;
  tree_capacity : Z;
  tree_repr_nil : tree_repr [] [];
  tree_append leaves filled leaf :
    tree_repr leaves filled → leaf_valid leaf = true →
    Z.of_nat (length leaves) < tree_capacity →
    ∃ filled', append_merkle_leaf filled (Z.of_nat (length leaves)) leaf
                 = Ok (tree_root (leaves ++ [leaf]), filled')
               ∧ tree_repr (leaves ++ [leaf]) filled';
  tree_append_ok filled index leaf r :
    append_merkle_leaf filled index leaf = Ok r →
    leaf_valid leaf = true ∧ index < tree_capacity;
  tree_root_nonblank leaves : is_blank (tree_root leaves) = false;
  tree_capacity_u64 : tree_capacity < two64;
  tree_capacity_nonneg : 0 <= tree_capacity
}.

Module Engine.
Section Engine.
Variable round_constant : nat → Z.

Definition MERKLE_TREE_DEPTH : nat := 20.

Local Abbreviation hash := (Mimc.hash_left_right round_constant).

Fixpoint parse_all (f : string → option Z) (l : list string) : option (list Z) :=
  match l with
  | [] => Some []
  | s :: l' => z ← f s; zs ← parse_all f l'; Some (z :: zs)
  end.

(** [merkle_append] of crates/thornado-shielder/src/lib.rs *)
Definition merkle_append (filled_subtrees : list string) (next_index : Z) (leaf : string)
    : res (string * list string) :=
  let filled :=
    match filled_subtrees with
    | [] => Some (repeat 0 MERKLE_TREE_DEPTH)
    | _ =>
        if negb (length filled_subtrees =? MERKLE_TREE_DEPTH)%nat then None
        else parse_all Field.fr_from_decimal filled_subtrees
    end in
  match filled, Field.fr_from_field_hex leaf with
  | Some filled, Some leaf =>
      '(root, new_filled) ← Tree.append_leaf hash 0 MERKLE_TREE_DEPTH filled next_index leaf;
      Ok (Field.fr_to_decimal root, map Field.fr_to_decimal new_filled)
  | _, _ => Err "invalid proof"
  end.

Definition AppendShielderMerkleLeaf : MerkleEngine :=
  fun filled next_index commitment =>
    merkle_append filled next_index (TrimSpace commitment).

(** [fr_to_hex]: 32 little-endian bytes. *)
Definition hex_digit (d : Z) : ascii :=
  ascii_of_nat (Z.to_nat (if d <? 10 then 48 + d else 87 + d)).

Fixpoint le_hex (n : nat) (z : Z) : string :=
  match n with
  | O => ""
  | S n' => String (hex_digit (z / 16 mod 16)) (String (hex_digit (z mod 16)) (le_hex n' (z / 256)))
  end.

Definition fr_to_hex (z : Z) : string := le_hex 32 z.

(** [merkle_root] of lib.rs: a malformed leaf gives the empty text. *)
Definition merkle_root (leaves : list string) : string :=
  match parse_all Field.fr_from_field_hex leaves with
  | Some zs =>
      match Tree.incremental_root hash 0 MERKLE_TREE_DEPTH zs with
      | Ok root => fr_to_hex root
      | _ => ""
      end
  | None => ""
  end.

(** [ComputeShielderMerkleRoot]: the hexadecimal root, its bytes reversed,
    as a decimal. *)
Definition ComputeShielderMerkleRoot (commitments : list string) : res string :=
  let root := merkle_root commitments in
  let t := TrimSpace root in
  let trimmed := if HasPrefix t "0x" then String.substring 2 (String.length t) t else t in
  match Field.hex_le (String.length trimmed) trimmed with
  | Some z => Ok (itoa z)
  | None => Err "invalid shielder merkle root"
  end.

Lemma hex_digit_val d : 0 <= d < 16 → Field.from_hex_digit (hex_digit d) = Some d.
Proof.
  intros H. assert (d = 0 ∨ d = 1 ∨ d = 2 ∨ d = 3 ∨ d = 4 ∨ d = 5 ∨ d = 6 ∨ d = 7
    ∨ d = 8 ∨ d = 9 ∨ d = 10 ∨ d = 11 ∨ d = 12 ∨ d = 13 ∨ d = 14 ∨ d = 15) as Hd by lia.
  by repeat destruct Hd as [->|Hd]; [..|subst d].
Qed.

Lemma hex_le_le_hex n : ∀ m z,
  (n <= m)%nat → 0 <= z < 256 ^ Z.of_nat n → Field.hex_le m (le_hex n z) = Some z.
Proof.
  induction n as [|n IH]; intros m z Hm Hz.
  - simpl in *. by replace z with 0 by lia.
  - destruct m as [|m]; [lia|]. cbn [le_hex Field.hex_le].
    rewrite !hex_digit_val by (apply Z.mod_pos_bound; lia). cbn.
    rewrite Nat2Z.inj_succ, Z.pow_succ_r in Hz by lia.
    rewrite IH; [|lia|split; [apply Z.div_pos; lia|apply Z.div_lt_upper_bound; lia]].
    cbn. f_equal. Z.to_euclidean_division_equations. lia.
Qed.

Lemma hex_digit_char d :
  0 <= d < 16 → is_space (hex_digit d) = false ∧ hex_digit d ≠ "x"%char.
Proof.
  intros H. apply hex_digit_val in H. revert H. generalize (hex_digit d).
  intros c Hc. split; [destruct (is_space c) eqn:E; [|done]|intros ->; discriminate].
  exfalso. revert c E Hc. by_char.
Qed.

Lemma le_hex_nonspace n z : all_chars (λ c, negb (is_space c)) (le_hex n z) = true.
Proof.
  revert z. induction n as [|n IH]; intros z; [done|]. cbn [le_hex all_chars].
  rewrite !(proj1 (hex_digit_char _ ltac:(apply Z.mod_pos_bound; lia))).
  by rewrite IH.
Qed.

Lemma le_hex_not_0x n z : HasPrefix (le_hex n z) "0x" = false.
Proof.
  destruct n as [|n]; [done|]. unfold HasPrefix. cbn [le_hex String.prefix].
  destruct (ascii_dec "0" _); [|done]. destruct (ascii_dec "x" _) as [E|]; [|done].
  exfalso. by eapply (proj2 (hex_digit_char (z mod 16) ltac:(apply Z.mod_pos_bound; lia))).
Qed.

Lemma le_hex_length n z : String.length (le_hex n z) = (2 * n)%nat.
Proof. revert z. induction n as [|n IH]; intros z; [done|]. simpl. rewrite IH. lia. Qed.

(** The decimal that the chain derives from a hexadecimal root is the
    decimal of the root. *)
Lemma compute_root_hex leaves z :
  0 <= z < 256 ^ 32 → merkle_root leaves = fr_to_hex z →
  ComputeShielderMerkleRoot leaves = Ok (itoa z).
Proof.
  intros Hz Hr. unfold ComputeShielderMerkleRoot. rewrite Hr. unfold fr_to_hex.
  rewrite trim_nonspace by apply le_hex_nonspace.
  rewrite le_hex_not_0x, hex_le_le_hex; [done|rewrite le_hex_length; lia|done].
Qed.

Lemma parse_all_app f l1 l2 :
  parse_all f (l1 ++ l2)
  = zs ← parse_all f l1; ws ← parse_all f l2; Some (zs ++ ws)%list.
Proof.
  induction l1 as [|s l1 IH]; cbn; [by destruct (parse_all f l2)|].
  destruct (f s); cbn; [|done]. rewrite IH.
  destruct (parse_all f l1); cbn; [|done]. by destruct (parse_all f l2).
Qed.

Lemma parse_all_decimals zs :
  Forall Mimc.in_field zs →
  parse_all Field.fr_from_decimal (map Field.fr_to_decimal zs) = Some zs.
Proof.
  induction 1 as [|z zs Hz Hzs IH]; [done|]. cbn [parse_all map].
  rewrite Field.decimal_roundtrip by done. cbn. by rewrite IH.
Qed.

(** The states the engine reads: none, or twenty decimals of field elements
    that represent the parsed leaves. *)
Definition repr (leaves filled : list string) : Prop :=
  ∃ zs fs, parse_all (λ c, Field.fr_from_field_hex (TrimSpace c)) leaves = Some zs
    ∧ Tree.represents hash 0 MERKLE_TREE_DEPTH zs fs
    ∧ Forall Mimc.in_field fs
    ∧ match filled with
      | [] => fs = repeat 0 MERKLE_TREE_DEPTH
      | _ => filled = map Field.fr_to_decimal fs
      end.

Definition root_of (leaves : list string) : string :=
  match parse_all (λ c, Field.fr_from_field_hex (TrimSpace c)) leaves with
  | Some zs => itoa (Tree.reference_root hash 0 MERKLE_TREE_DEPTH zs)
  | None => "0"
  end.

Definition valid_commitment (c : string) : bool :=
  match Field.fr_from_field_hex (TrimSpace c) with Some _ => true | None => false end.

Lemma parse_all_range f l zs :
  (∀ s z, f s = Some z → Mimc.in_field z) →
  parse_all f l = Some zs → Forall Mimc.in_field zs.
Proof.
  intros Hf. revert zs. induction l as [|s l IH]; intros zs; simpl; [by intros [= <-]|].
  destruct (f s) eqn:E; cbn; [|done]. destruct (parse_all f l); cbn; [|done].
  intros [= <-]. constructor; eauto.
Qed.

Lemma zero_field : Mimc.in_field 0.
Proof. done. Qed.

Lemma root_of_nonneg leaves : ∃ z, 0 <= z ∧ root_of leaves = itoa z.
Proof.
  unfold root_of. destruct (parse_all _ leaves) eqn:E; [|by exists 0].
  eexists; split; [|done].
  eapply (Tree.reference_root_pres hash 0 MERKLE_TREE_DEPTH Mimc.in_field
    (Mimc.hash_field _) zero_field), parse_all_range, E.
  intros s z Hz. by apply Field.fr_from_field_hex_range in Hz.
Qed.

Lemma repr_filled (filled : list string) zs fs :
  Tree.represents hash 0 MERKLE_TREE_DEPTH zs fs → Forall Mimc.in_field fs →
  match filled with
  | [] => fs = repeat 0 MERKLE_TREE_DEPTH
  | _ => filled = map Field.fr_to_decimal fs
  end →
  match filled with
  | [] => Some (repeat 0 MERKLE_TREE_DEPTH)
  | _ =>
      if negb (length filled =? MERKLE_TREE_DEPTH)%nat then None
      else parse_all Field.fr_from_decimal filled
  end = Some fs.
Proof.
  intros [Hlen _] Hfs Hf. destruct filled as [|x filled]; [by subst|].
  rewrite Hf, length_map, Hlen, Nat.eqb_refl. cbn [negb].
  by apply parse_all_decimals.
Qed.

Lemma repr_append leaves filled leaf :
  repr leaves filled → valid_commitment leaf = true →
  Z.of_nat (length leaves) < Tree.capacity MERKLE_TREE_DEPTH →
  ∃ filled', AppendShielderMerkleLeaf filled (Z.of_nat (length leaves)) leaf
               = Ok (root_of (leaves ++ [leaf]), filled')
             ∧ repr (leaves ++ [leaf]) filled'.
Proof.
  intros (zs & fs & Hzs & Hrep & Hfs & Hf) Hleaf Hcap.
  assert (Hlen : length zs = length leaves).
  { clear -Hzs. revert zs Hzs. induction leaves as [|l leaves IH]; intros zs; cbn;
      [by intros [= <-]|].
    destruct (Field.fr_from_field_hex _); cbn; [|done].
    destruct (parse_all _ leaves); cbn; [|done]. intros [= <-]. cbn. by rewrite (IH l0). }
  unfold valid_commitment in Hleaf.
  destruct (Field.fr_from_field_hex (TrimSpace leaf)) as [z|] eqn:Hz; [|done].
  destruct (Tree.append_leaf_represents hash 0 MERKLE_TREE_DEPTH zs fs z Hrep)
    as (fs' & Ha & Hrep'); [by rewrite Hlen|].
  assert (Hfs' : Forall Mimc.in_field fs').
  { destruct (Tree.append_levels_pres hash 0 Mimc.in_field (Mimc.hash_field _) fs 0
      (Z.of_nat (length zs)) z Hfs) as [_ Hp];
      [by apply Field.fr_from_field_hex_range in Hz|].
    revert Ha Hp. unfold Tree.append_leaf. destruct (negb _); [done|].
    destruct (_ <=? _); [done|]. by intros [= ->]. }
  assert (Hparse : parse_all (λ c, Field.fr_from_field_hex (TrimSpace c)) (leaves ++ [leaf])
    = Some (zs ++ [z])%list).
  { rewrite parse_all_app, Hzs. cbn. by rewrite Hz. }
  exists (map Field.fr_to_decimal fs'). split.
  - unfold AppendShielderMerkleLeaf, merkle_append.
    rewrite (repr_filled filled zs fs Hrep Hfs Hf), Hz, <- Hlen, Ha.
    unfold root_of. rewrite Hparse. reflexivity.
  - exists (zs ++ [z])%list, fs'. split; [exact Hparse|]. split; [exact Hrep'|].
    split; [exact Hfs'|]. destruct (map _ fs') eqn:E; [|reflexivity].
    apply map_eq_nil in E. destruct Hrep' as [Hl _]. by subst fs'.
Qed.

Lemma append_ok filled index leaf r :
  AppendShielderMerkleLeaf filled index leaf = Ok r →
  valid_commitment leaf = true ∧ index < Tree.capacity MERKLE_TREE_DEPTH.
Proof.
  unfold AppendShielderMerkleLeaf, merkle_append, valid_commitment.
  destruct (match filled with [] => _ | _ => _ end); [|done].
  destruct (Field.fr_from_field_hex _); [|done].
  unfold Tree.append_leaf. destruct (negb _); [done|].
  destruct (_ <=? index) eqn:E; [done|]. intros _. split; [done|lia].
Qed.

#[export] Instance engine_laws : MerkleLaws AppendShielderMerkleLeaf.
Proof.
  refine {| tree_repr := repr; tree_root := root_of; leaf_valid := valid_commitment;
            tree_capacity := Tree.capacity MERKLE_TREE_DEPTH;
            tree_append := repr_append; tree_append_ok := append_ok |}.
  - exists [], (repeat 0 MERKLE_TREE_DEPTH). split_and!; [done|..|done].
    + apply Tree.represents_nil, repeat_length.
    + apply Forall_forall. intros x Hx. apply list_elem_of_In, repeat_spec in Hx.
      by subst x.
  - intros leaves. destruct (root_of_nonneg leaves) as (z & Hz & ->).
    by apply is_blank_itoa.
  - reflexivity.
  - discriminate.
Defined.
End Engine.
End Engine.

(** ** Properties *)

Section Properties.
Variable round_constant : nat → Z.

(** The loop of a replay: each commitment is appended at the next index. *)
Definition replay_step (E : MerkleEngine) (acc : string * list string * Z) (leaf : string)
    : res (string * list string * Z) :=
  let '(root, filled, index) := acc in
  '(root', filled') ← E filled index leaf;
  Ok (root', filled', index + 1).

Definition replay (E : MerkleEngine) (leaves : list string) : res (string * list string * Z) :=
  rfold (replay_step E) ("", [], 0) leaves.

Lemma rfold_app {A B} (f : B → A → res B) acc l1 l2 :
  rfold f acc (l1 ++ l2) = r ← rfold f acc l1; rfold f r l2.
Proof.
  revert acc. induction l1 as [|x l1 IH]; intros acc; [done|]. cbn [rfold app].
  destruct (f acc x); cbn; [apply IH|done|done].
Qed.

Lemma replay_repr (E : MerkleEngine) `{!MerkleLaws E} leaves :
  Forall (λ c, leaf_valid c = true) leaves →
  Z.of_nat (length leaves) <= tree_capacity →
  ∃ root filled, replay E leaves = Ok (root, filled, Z.of_nat (length leaves))
    ∧ tree_repr leaves filled
    ∧ (leaves ≠ [] → root = tree_root leaves).
Proof using.
  induction leaves as [|x leaves IH] using rev_ind; intros Hv Hcap.
  - exists "", []. split; [done|]. split; [apply tree_repr_nil|done].
  - apply Forall_app in Hv as [Hv Hx]. inversion_clear Hx as [|? ? Hx' _].
    rewrite length_app in Hcap. cbn in Hcap.
    destruct IH as (root & filled & Hr & Hrep & _); [done|lia|].
    destruct (tree_append leaves filled x Hrep Hx') as (filled' & Ha & Hrep'); [lia|].
    exists (tree_root (leaves ++ [x])), filled'.
    unfold replay. rewrite rfold_app. fold (replay E leaves). rewrite Hr.
    unfold append_merkle_leaf in Ha. cbn. rewrite Ha. cbn.
    split; [|done]. rewrite length_app. cbn. do 2 f_equal. lia.
Qed.

Lemma compute_root_of leaves :
  Forall (λ c, Engine.valid_commitment c = true) leaves →
  Z.of_nat (length leaves) <= Tree.capacity Engine.MERKLE_TREE_DEPTH →
  Engine.ComputeShielderMerkleRoot round_constant leaves
  = Ok (Engine.root_of round_constant leaves).
Proof using.
  intros Hv Hcap.
  assert (Hp : ∃ zs, Engine.parse_all Field.fr_from_field_hex leaves = Some zs
    ∧ Engine.parse_all (λ c, Field.fr_from_field_hex (TrimSpace c)) leaves = Some zs
    ∧ length zs = length leaves).
  { clear Hcap. induction Hv as [|c leaves Hc Hv (zs & H1 & H2 & H3)]; [by exists []|].
    unfold Engine.valid_commitment in Hc. cbn.
    assert (Ht : Field.fr_from_field_hex (TrimSpace c) = Field.fr_from_field_hex c).
    { unfold Field.fr_from_field_hex. by rewrite TrimSpace_idem. }
    rewrite Ht in Hc |- *. destruct (Field.fr_from_field_hex c) as [z|]; [|done].
    cbn. rewrite H1, H2. cbn. exists (z :: zs). cbn. auto. }
  destruct Hp as (zs & H1 & H2 & H3). rewrite <- H3 in Hcap.
  unfold Engine.root_of. rewrite H2.
  eapply Engine.compute_root_hex.
  - assert (Hz : Mimc.in_field (Tree.reference_root (Mimc.hash_left_right round_constant)
      0 Engine.MERKLE_TREE_DEPTH zs)).
    { apply Tree.reference_root_pres; [apply Mimc.hash_field|apply Engine.zero_field|].
      eapply Engine.parse_all_range, H1. intros s z.
      apply Field.fr_from_field_hex_range. }
    destruct Hz as [Hz1 Hz2]. split; [done|]. etrans; [exact Hz2|]. reflexivity.
  - unfold Engine.merkle_root. rewrite H1.
    rewrite (Tree.incremental_root_reference _ _ _ _ Hcap). reflexivity.
Qed.

(** C1. Appending commitments one at a time from the empty tree, as the
    chain does, gives after every append the root that a full recomputation
    over the same commitments gives, as long as the commitments are field
    elements in hexadecimal and the tree of depth 20 is not overfull. *)
Theorem append_matches_recompute (leaves : list string) (leaf : string) :
  Forall (λ c, Engine.valid_commitment c = true) (leaves ++ [leaf]) →
  Z.of_nat (length leaves) < Tree.capacity Engine.MERKLE_TREE_DEPTH →
  ∃ root filled filled' root',
    replay (Engine.AppendShielderMerkleLeaf round_constant) leaves
      = Ok (root, filled, Z.of_nat (length leaves))
    ∧ Engine.AppendShielderMerkleLeaf round_constant filled
        (Z.of_nat (length leaves)) leaf = Ok (root', filled')
    ∧ Engine.ComputeShielderMerkleRoot round_constant (leaves ++ [leaf]) = Ok root'.
Proof using.
  intros Hv Hcap. pose proof Hv as Hall. apply Forall_app in Hv as [Hv Hx].
  inversion_clear Hx as [|? ? Hx' _].
  destruct (@replay_repr (Engine.AppendShielderMerkleLeaf round_constant)
    (Engine.engine_laws round_constant) leaves Hv) as (root & filled & Hr & Hrep & _).
  { apply Z.lt_le_incl, Hcap. }
  destruct (Engine.repr_append round_constant leaves filled leaf Hrep Hx' Hcap)
    as (filled' & Ha & _).
  exists root, filled, filled', (Engine.root_of round_constant (leaves ++ [leaf])).
  split; [exact Hr|]. split; [exact Ha|]. apply compute_root_of; [exact Hall|].
  rewrite length_app. cbn [length]. lia.
Qed.
End Properties.

Lemma append_matches_recompute_witness :
  ∃ root filled filled' root',
    replay (Engine.AppendShielderMerkleLeaf (λ _, 7)) ["01"; "0a02"]
      = Ok (root, filled, 2)
    ∧ Engine.AppendShielderMerkleLeaf (λ _, 7) filled 2 "ff" = Ok (root', filled')
    ∧ Engine.ComputeShielderMerkleRoot (λ _, 7) ["01"; "0a02"; "ff"] = Ok root'.
Proof.
  apply (append_matches_recompute (λ _, 7) ["01"; "0a02"] "ff").
  - repeat constructor.
  - reflexivity.
Defined.

(** Every leaf of a tree has a Merkle path ([merkle_path]) of the tree's
    depth, and climbing that path from the leaf reaches the tree's root: the
    path of an inserted note always verifies. *)
Theorem merkle_path_verifies {F} `{EqDecision F} (H : F → F → F) (zero : F) (depth : nat)
    (leaves : list F) (i : nat) (x : F) :
  leaves !! i = Some x → Z.of_nat (length leaves) <= Tree.capacity depth →
  ∃ path root,
    Tree.merkle_path H zero depth leaves i = Ok path
    ∧ Tree.incremental_root H zero depth leaves = Ok root
    ∧ Tree.verify_merkle_path H depth root x path = true.
Proof.
  intros Hi Hcap. eexists _, _. split; [|split].
  - unfold Tree.merkle_path. apply lookup_lt_Some in Hi.
    rewrite (proj2 (Nat.leb_gt _ _)) by done. reflexivity.
  - by apply Tree.incremental_root_reference.
  - unfold Tree.verify_merkle_path. rewrite Tree.length_path_levels, Nat.eqb_refl.
    by apply bool_decide_eq_true, Tree.merkle_path_climbs.
Qed.

Lemma merkle_path_verifies_witness :
  ∃ path root,
    Tree.merkle_path (λ a b, 2 * a + 3 * b + 1) 0 3 [5; 6; 7] 1 = Ok path
    ∧ Tree.incremental_root (λ a b, 2 * a + 3 * b + 1) 0 3 [5; 6; 7] = Ok root
    ∧ Tree.verify_merkle_path (λ a b, 2 * a + 3 * b + 1) 3 root 6 path = true.
Proof.
  apply (merkle_path_verifies (λ a b, 2 * a + 3 * b + 1) 0 3 [5; 6; 7] 1 6).
  - reflexivity.
  - vm_compute. discriminate.
Defined.

(** A root commits to its leaves: when two different leaves verify against
    one root at one position (the same path directions), the two verifications
    hash, at some level, two different pairs to one value. *)
Theorem merkle_root_binding {F} `{EqDecision F} (H : F → F → F) (depth : nat)
    (root x x' : F) (path path' : list (F * bool)) :
  Tree.verify_merkle_path H depth root x path = true →
  Tree.verify_merkle_path H depth root x' path' = true →
  path.*2 = path'.*2 → x ≠ x' →
  ∃ i p p', Tree.climb_inputs H x path !! i = Some p
    ∧ Tree.climb_inputs H x' path' !! i = Some p'
    ∧ p ≠ p' ∧ H p.1 p.2 = H p'.1 p'.2.
Proof.
  unfold Tree.verify_merkle_path. intros [_ H1]%andb_true_iff [_ H2]%andb_true_iff Hd Hx.
  apply bool_decide_eq_true in H1, H2.
  apply (Tree.climb_collision H path path' x x'); [done|congruence|done].
Qed.

Lemma merkle_root_binding_witness :
  ∃ i p p', Tree.climb_inputs (λ a b, a + b) 2 [(3, false)] !! i = Some p
    ∧ Tree.climb_inputs (λ a b, a + b) 3 [(2, false)] !! i = Some p'
    ∧ p ≠ p' ∧ p.1 + p.2 = p'.1 + p'.2.
Proof.
  apply (merkle_root_binding (λ a b : Z, a + b) 1 5 2 3 [(3, false)] [(2, false)]);
    [reflexivity|reflexivity|reflexivity|discriminate].
Defined.

(** The MiMC sponge is a permutation of pairs of field elements: two
    different states never reach the same state. *)
Theorem sponge_hash_injective (round_constant : nat → Z) (key : Z) (st st' : Z * Z) :
  Mimc.in_field st.1 → Mimc.in_field st.2 →
  Mimc.in_field st'.1 → Mimc.in_field st'.2 →
  st ≠ st' →
  Mimc.sponge_hash round_constant st.1 st.2 key
  ≠ Mimc.sponge_hash round_constant st'.1 st'.2 key.
Proof.
  intros H1 H2 H3 H4 Hne He. apply (f_equal (Mimc.unsponge round_constant key)) in He.
  rewrite !Mimc.unsponge_sponge in He by done. destruct st, st'. by simplify_eq/=.
Qed.

Lemma sponge_hash_injective_witness :
  Mimc.sponge_hash Z.of_nat 1 2 0 ≠ Mimc.sponge_hash Z.of_nat 2 1 0.
Proof.
  apply (sponge_hash_injective Z.of_nat 0 (1, 2) (2, 1));
    [by split; vm_compute..|discriminate].
Defined.
