(* ===== verification/Sha256.v ===== *)
(** * SHA-256 (crypto/sha256)

Identifiers, auction and bid ids, proof-of-work tokens and signature
digests are SHA-256 sums of formatted texts; this is the executable hash
(FIPS 180-4) on byte strings, its bytes and its hexadecimal forms. *)

From S2P Require Import Prelude GoStrings.

Module Sha256.

Definition w32 (z : Z) : Z := Z.land z 0xffffffff.
Definition add32 (a b : Z) : Z := w32 (a + b).
Definition rotr (n x : Z) : Z := w32 (Z.lor (Z.shiftr x n) (Z.shiftl x (32 - n))).
Definition lnot32 (x : Z) : Z := Z.lxor x 0xffffffff.

Definition Ch x y z := Z.lxor (Z.land x y) (Z.land (lnot32 x) z).
Definition Maj x y z := Z.lxor (Z.lxor (Z.land x y) (Z.land x z)) (Z.land y z).
Definition Sigma0 x := Z.lxor (Z.lxor (rotr 2 x) (rotr 13 x)) (rotr 22 x).
Definition Sigma1 x := Z.lxor (Z.lxor (rotr 6 x) (rotr 11 x)) (rotr 25 x).
Definition sigma0 x := Z.lxor (Z.lxor (rotr 7 x) (rotr 18 x)) (Z.shiftr x 3).
Definition sigma1 x := Z.lxor (Z.lxor (rotr 17 x) (rotr 19 x)) (Z.shiftr x 10).

(** The constants are the first 32 fractional bits of the cube roots of the
    first 64 primes, and of the square roots of the first 8. *)
Definition is_prime (n : Z) : bool :=
  forallb (λ d, negb (n mod Z.of_nat d =? 0)) (seq 2 (Z.to_nat (Z.sqrt n) - 1)).

Definition primes : list Z :=
  List.filter is_prime (map Z.of_nat (seq 2 310)).

(** The integer cube root below [2 ^ n], by bisection. *)
Fixpoint cbrt_below (n : nat) (lo x : Z) : Z :=
  match n with
  | O => lo
  | S n' =>
      let mid := lo + 2 ^ Z.of_nat n' in
      cbrt_below n' (if mid * mid * mid <=? x then mid else lo) x
  end.

Definition K : list Z :=
  Eval vm_compute in
    map (λ p, cbrt_below 36 0 (Z.shiftl p 96) mod 2 ^ 32) primes.

Definition H0 : list Z :=
  Eval vm_compute in
    map (λ p, Z.sqrt (Z.shiftl p 64) mod 2 ^ 32) (take 8 primes).

(** The message schedule, newest word first. *)
Fixpoint schedule (n : nat) (w : list Z) : list Z :=
  match n with
  | O => w
  | S n' =>
      let nth i := default 0 (w !! i) in
      let x := add32 (add32 (sigma1 (nth 1%nat)) (nth 6%nat))
                     (add32 (sigma0 (nth 14%nat)) (nth 15%nat)) in
      schedule n' (x :: w)
  end.

Definition round (st : list Z) (kw : Z * Z) : list Z :=
  match st with
  | [a; b; c; d; e; f; g; h] =>
      let t1 := add32 (add32 h (Sigma1 e)) (add32 (Ch e f g) (add32 kw.1 kw.2)) in
      let t2 := add32 (Sigma0 a) (Maj a b c) in
      [add32 t1 t2; a; b; c; add32 d t1; e; f; g]
  | _ => st
  end.

Definition compress (st block : list Z) : list Z :=
  zip_with add32 st (foldl round st (zip K (rev (schedule 48 (rev block))))).

Fixpoint words (n : nat) (bytes : list Z) : list Z * list Z :=
  match n, bytes with
  | S n', a :: b :: c :: d :: rest =>
      let '(ws, rest') := words n' rest in
      (((a * 256 + b) * 256 + c) * 256 + d :: ws, rest')
  | _, _ => ([], bytes)
  end.

Fixpoint blocks (fuel : nat) (bytes : list Z) (st : list Z) : list Z :=
  match fuel, bytes with
  | S f, _ :: _ => let '(ws, rest) := words 16 bytes in blocks f rest (compress st ws)
  | _, _ => st
  end.

Fixpoint be_bytes (n : nat) (z : Z) : list Z :=
  match n with
  | O => []
  | S n' => z / 256 ^ Z.of_nat n' mod 256 :: be_bytes n' z
  end.

Fixpoint bytes_of (s : string) : list Z :=
  match s with
  | EmptyString => []
  | String c s' => Z.of_nat (nat_of_ascii c) :: bytes_of s'
  end.

Definition pad (msg : list Z) : list Z :=
  let n := Z.of_nat (length msg) in
  let zeros := Z.to_nat ((55 - n) mod 64) in
  msg ++ [0x80] ++ repeat 0 zeros ++ be_bytes 8 (8 * n).

(** [sha256.Sum256]: 32 bytes. *)
Definition sum_bytes (msg : list Z) : list Z :=
  let p := pad msg in
  List.concat (map (be_bytes 4) (blocks (length p) p H0)).

Definition Sum256 (s : string) : list Z := sum_bytes (bytes_of s).

(** [%X] of the sum, and [strings.ToUpper(hex.EncodeToString(sum))]. *)
Definition hex_char (d : Z) : ascii :=
  ascii_of_nat (Z.to_nat (if d <? 10 then 48 + d else 55 + d)).

Fixpoint hex_upper (l : list Z) : string :=
  match l with
  | [] => EmptyString
  | b :: l' => String (hex_char (b / 16)) (String (hex_char (b mod 16)) (hex_upper l'))
  end.

Definition Sum256Hex (s : string) : string := hex_upper (Sum256 s).

Example sum256_abc :
  Sum256Hex "abc" = "BA7816BF8F01CFEA414140DE5DAE2223B00361A396177A9CB410FF61F20015AD".
Proof. vm_compute. reflexivity. Qed.

Example sum256_two_blocks :
  Sum256Hex "abcdbcdecdefdefgefghfghighijhijkijkljklmklmnlmnomnopnopq"
  = "248D6A61D20638B8E5C026930C3E6039A33CE45964FF2167F6ECEDD419DB06C1".
Proof. vm_compute. reflexivity. Qed.

(** *** Shape of the sum *)

Lemma be_bytes_length n z : length (be_bytes n z) = n.
Proof. induction n; simpl; congruence. Qed.

Lemma round_length st kw : length st = 8%nat → length (round st kw) = 8%nat.
Proof. intros H. by do 9 (destruct st as [|? st]; try discriminate). Qed.

Lemma compress_length st block : length st = 8%nat → length (compress st block) = 8%nat.
Proof.
  intros H. unfold compress. rewrite length_zip_with.
  assert (Hf : ∀ l st, length st = 8%nat → length (foldl round st l) = 8%nat).
  { induction l as [|kw l IH]; intros st' Hst; [done|]. by apply IH, round_length. }
  by rewrite Hf, H.
Qed.

Lemma blocks_length fuel bytes st :
  length st = 8%nat → length (blocks fuel bytes st) = 8%nat.
Proof.
  revert bytes st. induction fuel as [|f IH]; intros bytes st H; [done|].
  destruct bytes as [|b bytes]; [done|]. cbn [blocks].
  destruct (words 16 (b :: bytes)) as [ws rest]. by apply IH, compress_length.
Qed.

Lemma sum_bytes_length msg : length (sum_bytes msg) = 32%nat.
Proof.
  unfold sum_bytes.
  assert (H : ∀ ws, length (List.concat (map (be_bytes 4) ws)) = (4 * length ws)%nat).
  { induction ws as [|w ws IH]; [done|]. cbn [map List.concat length].
    rewrite length_app, be_bytes_length, IH. lia. }
  rewrite H, blocks_length; done.
Qed.

Lemma be_bytes_range n z : Forall (λ b, 0 <= b < 256) (be_bytes n z).
Proof. induction n; simpl; constructor; [apply Z.mod_pos_bound; lia|done]. Qed.

Lemma sum_bytes_range msg : Forall (λ b, 0 <= b < 256) (sum_bytes msg).
Proof.
  unfold sum_bytes. generalize (blocks (length (pad msg)) (pad msg) H0).
  induction l as [|w ws IH]; [constructor|]. cbn [map List.concat].
  apply Forall_app. split; [apply be_bytes_range|exact IH].
Qed.

Lemma hex_upper_length l : String.length (hex_upper l) = (2 * length l)%nat.
Proof. induction l as [|b l IH]; [done|]. simpl. rewrite IH. lia. Qed.

Lemma Sum256Hex_length s : String.length (Sum256Hex s) = 64%nat.
Proof. unfold Sum256Hex, Sum256. by rewrite hex_upper_length, sum_bytes_length. Qed.

Lemma hex_char_upper d :
  0 <= d < 16 → upper_char (hex_char d) = hex_char d ∧ is_space (hex_char d) = false.
Proof.
  intros H. assert (d = 0 ∨ d = 1 ∨ d = 2 ∨ d = 3 ∨ d = 4 ∨ d = 5 ∨ d = 6 ∨ d = 7
    ∨ d = 8 ∨ d = 9 ∨ d = 10 ∨ d = 11 ∨ d = 12 ∨ d = 13 ∨ d = 14 ∨ d = 15) as Hd by lia.
  by repeat destruct Hd as [->|Hd]; [..|subst d].
Qed.

Lemma hex_upper_shape l :
  Forall (λ b, 0 <= b < 256) l →
  ToUpper (hex_upper l) = hex_upper l
  ∧ all_chars (λ c, negb (is_space c)) (hex_upper l) = true.
Proof.
  unfold ToUpper. induction 1 as [|b l Hb Hl [IH1 IH2]]; [done|].
  cbn [hex_upper smap all_chars].
  destruct (hex_char_upper (b / 16)) as [H1 H2];
    [split; [apply Z.div_pos; lia|apply Z.div_lt_upper_bound; lia]|].
  destruct (hex_char_upper (b mod 16)) as [H3 H4]; [apply Z.mod_pos_bound; lia|].
  by rewrite H1, H2, H3, H4, IH1, IH2.
Qed.

(** An upper-case hexadecimal sum is unchanged by [ToUpper] and
    [TrimSpace], and is not blank. *)
Lemma Sum256Hex_upper s : ToUpper (Sum256Hex s) = Sum256Hex s.
Proof. apply hex_upper_shape, sum_bytes_range. Qed.

Lemma Sum256Hex_trim s : TrimSpace (Sum256Hex s) = Sum256Hex s.
Proof. apply trim_nonspace, hex_upper_shape, sum_bytes_range. Qed.

Lemma Sum256Hex_nonempty s : Sum256Hex s ≠ "".
Proof. intros H. pose proof (Sum256Hex_length s) as Hl. by rewrite H in Hl. Qed.

(** Big-endian bytes read back, and texts are their bytes. *)
Lemma be_bytes_mod n z : foldl (λ a b, 256 * a + b) 0 (be_bytes n z) = z mod 256 ^ Z.of_nat n.
Proof.
  assert (H : ∀ m a, foldl (λ a b, 256 * a + b) a (be_bytes m z)
    = a * 256 ^ Z.of_nat m + z mod 256 ^ Z.of_nat m).
  { induction m as [|m IH]; intros a; [simpl; rewrite Z.mod_1_r; lia|].
    cbn [be_bytes foldl]. rewrite IH, Nat2Z.inj_succ, Z.pow_succ_r by lia.
    rewrite (Z.mul_comm 256 (256 ^ _)), Z.rem_mul_r by lia. ring. }
  by rewrite H.
Qed.

Lemma be_bytes_inj n a b :
  0 <= a < 256 ^ Z.of_nat n → 0 <= b < 256 ^ Z.of_nat n → be_bytes n a = be_bytes n b → a = b.
Proof.
  intros Ha Hb H. pose proof (be_bytes_mod n a) as H1. rewrite H, be_bytes_mod in H1.
  by rewrite !Z.mod_small in H1.
Qed.

Lemma bytes_of_length s : length (bytes_of s) = String.length s.
Proof. induction s; simpl; congruence. Qed.

Lemma bytes_of_inj a b : bytes_of a = bytes_of b → a = b.
Proof.
  revert b. induction a as [|c a IH]; intros [|d b]; try done. simpl. intros [= Hc Hab].
  apply Nat2Z.inj, (f_equal ascii_of_nat) in Hc. rewrite !ascii_nat_embedding in Hc.
  by rewrite Hc, (IH b).
Qed.
End Sha256.
