(* ===== verification/Json.v ===== *)
(** * JSON as [encoding/json] reads it

The texts the shielder messages carry are decoded by Go's [encoding/json].
This file models the part of that package the source relies on: the scanner's
grammar with its nesting limit, the unquoting of strings (escapes, surrogate
pairs, replacement of malformed UTF-8), [json.Valid], and [json.Unmarshal]
into a struct: members in order, keys matched exactly or else up to case
folding, a later member overwriting an earlier one, [null] leaving a field
unchanged, a value of the wrong type being an error. *)

From S2P Require Import Prelude GoStrings.

Inductive JValue : Type :=
| JNull
| JBool (b : bool)
| JNumber (lit : string)
| JString (s : string)
| JArray (l : list JValue)
| JObject (m : list (string * JValue)).

Module Json.

Definition quote : ascii := ascii_of_nat 34.
Definition backslash : ascii := "\"%char.

Definition code (c : ascii) : Z := Z.of_nat (nat_of_ascii c).
Definition chr (z : Z) : ascii := ascii_of_nat (Z.to_nat z).

Definition is_ws (c : ascii) : bool :=
  let z := code c in (z =? 32) || (z =? 9) || (z =? 10) || (z =? 13).

Fixpoint skip_ws (s : string) : string :=
  match s with
  | String c s' => if is_ws c then skip_ws s' else s
  | EmptyString => s
  end.

(** ** UTF-8 *)

Definition RuneError : Z := 0xFFFD.

Definition EncodeRune (z : Z) : string :=
  if z <? 0x80 then String (chr z) ""
  else if z <? 0x800 then
    String (chr (0xC0 + z / 0x40)) (String (chr (0x80 + z mod 0x40)) "")
  else if z <? 0x10000 then
    String (chr (0xE0 + z / 0x1000)) (String (chr (0x80 + (z / 0x40) mod 0x40))
      (String (chr (0x80 + z mod 0x40)) ""))
  else
    String (chr (0xF0 + z / 0x40000)) (String (chr (0x80 + (z / 0x1000) mod 0x40))
      (String (chr (0x80 + (z / 0x40) mod 0x40)) (String (chr (0x80 + z mod 0x40)) ""))).

Definition between (lo hi z : Z) : bool := (lo <=? z) && (z <=? hi).
Definition cont (z : Z) : bool := between 0x80 0xBF z.

(** The length of the well-formed sequence at the head of a text; 1 for a
    malformed one. *)
Definition rune_size (l : list Z) : option nat :=
  match l with
  | b0 :: b1 :: b2 :: b3 :: _ =>
      if b0 <? 0x80 then Some 1%nat
      else if between 0xC2 0xDF b0 && cont b1 then Some 2%nat
      else if ((b0 =? 0xE0) && between 0xA0 0xBF b1
               || between 0xE1 0xEF b0 && negb (b0 =? 0xED) && cont b1
               || (b0 =? 0xED) && between 0x80 0x9F b1) && cont b2 then Some 3%nat
      else if ((b0 =? 0xF0) && between 0x90 0xBF b1
               || between 0xF1 0xF3 b0 && cont b1
               || (b0 =? 0xF4) && between 0x80 0x8F b1) && cont b2 && cont b3 then Some 4%nat
      else None
  | _ => None
  end.

(** ** Strings *)

Definition hex_digit (c : ascii) : option Z :=
  let z := code c in
  if between 48 57 z then Some (z - 48)
  else if between 97 102 z then Some (z - 87)
  else if between 65 70 z then Some (z - 55)
  else None.

Definition hex4 (a b c d : ascii) : option Z :=
  match hex_digit a, hex_digit b, hex_digit c, hex_digit d with
  | Some a, Some b, Some c, Some d => Some (4096 * a + 256 * b + 16 * c + d)
  | _, _, _, _ => None
  end.

Definition is_escape (c : ascii) : bool :=
  existsb (Ascii.eqb c) [quote; backslash; "/"%char; "b"%char; "f"%char; "n"%char; "r"%char; "t"%char].

(** The raw text of a string after its opening quote, and what follows the
    closing one. *)
Fixpoint scan_string (s : string) : option (string * string) :=
  match s with
  | EmptyString => None
  | String c s1 =>
      if Ascii.eqb c quote then Some ("", s1)
      else if code c <? 32 then None
      else if Ascii.eqb c backslash then
        match s1 with
        | String e s2 =>
            if is_escape e then
              match scan_string s2 with
              | Some (raw, rest) => Some (String c (String e raw), rest)
              | None => None
              end
            else if Ascii.eqb e "u"%char then
              match s2 with
              | String h1 (String h2 (String h3 (String h4 s3))) =>
                  match hex4 h1 h2 h3 h4, scan_string s3 with
                  | Some _, Some (raw, rest) =>
                      Some (String c (String e (String h1 (String h2 (String h3 (String h4 raw))))), rest)
                  | _, _ => None
                  end
              | _ => None
              end
            else None
        | EmptyString => None
        end
      else
        match scan_string s1 with
        | Some (raw, rest) => Some (String c raw, rest)
        | None => None
        end
  end.

Definition getu4 (s : string) : option (Z * string) :=
  match s with
  | String b (String u (String h1 (String h2 (String h3 (String h4 rest))))) =>
      if Ascii.eqb b backslash && Ascii.eqb u "u"%char
      then match hex4 h1 h2 h3 h4 with Some z => Some (z, rest) | None => None end
      else None
  | _ => None
  end.

Definition escape_char (e : ascii) : ascii :=
  let z := code e in
  if z =? 98 then chr 8 else if z =? 102 then chr 12 else if z =? 110 then chr 10
  else if z =? 114 then chr 13 else if z =? 116 then chr 9 else e.

Fixpoint split_at (n : nat) (s : string) : string * string :=
  match n, s with
  | S n, String c s => let '(a, b) := split_at n s in (String c a, b)
  | _, _ => ("", s)
  end.

Definition head_bytes (s : string) : list Z :=
  let l := map code (String.list_ascii_of_string (fst (split_at 4 s))) in
  (l ++ repeat 0 (4 - length l))%list.

(** [unquoteBytes]; every step consumes at least one byte. *)
Fixpoint unquote (fuel : nat) (s : string) : string :=
  match fuel, s with
  | S fuel, String c s1 =>
      if Ascii.eqb c backslash then
        match s1 with
        | String e s2 =>
            if Ascii.eqb e "u"%char then
              match getu4 s with
              | Some (rr, rest) =>
                  if between 0xD800 0xDFFF rr then
                    match getu4 rest with
                    | Some (rr1, rest1) =>
                        if (rr <? 0xDC00) && between 0xDC00 0xDFFF rr1
                        then EncodeRune (0x10000 + 1024 * (rr - 0xD800) + (rr1 - 0xDC00))
                               +:+ unquote fuel rest1
                        else EncodeRune RuneError +:+ unquote fuel rest
                    | None => EncodeRune RuneError +:+ unquote fuel rest
                    end
                  else EncodeRune rr +:+ unquote fuel rest
              | None => ""
              end
            else String (escape_char e) (unquote fuel s2)
        | EmptyString => ""
        end
      else
        match rune_size (head_bytes s) with
        | Some n => let '(a, b) := split_at n s in a +:+ unquote fuel b
        | None => EncodeRune RuneError +:+ unquote fuel s1
        end
  | _, _ => ""
  end.

Definition unquote_text (raw : string) : string := unquote (String.length raw) raw.

(** ** Numbers *)

Fixpoint scan_digits (s : string) : string * string :=
  match s with
  | String c s' =>
      if is_digit c then let '(d, r) := scan_digits s' in (String c d, r) else ("", s)
  | EmptyString => ("", s)
  end.

Definition scan_digits1 (s : string) : option (string * string) :=
  match scan_digits s with ("", _) => None | (d, r) => Some (d, r) end.

Definition eat (f : ascii → bool) (s : string) : string * string :=
  match s with
  | String c s' => if f c then (String c "", s') else ("", s)
  | EmptyString => ("", s)
  end.

Definition scan_int (s : string) : option (string * string) :=
  match eat (Ascii.eqb "0") s with
  | ("", _) => scan_digits1 s
  | (z, r) => Some (z, r)
  end.

Definition scan_frac (s : string) : option (string * string) :=
  match eat (Ascii.eqb ".") s with
  | ("", _) => Some ("", s)
  | (dot, r) => '(d, r) ← scan_digits1 r; Some (dot +:+ d, r)
  end.

Definition scan_exp (s : string) : option (string * string) :=
  match eat (λ c, Ascii.eqb c "e" || Ascii.eqb c "E") s with
  | ("", _) => Some ("", s)
  | (e, r) =>
      let '(sg, r) := eat (λ c, Ascii.eqb c "+" || Ascii.eqb c "-") r in
      '(d, r) ← scan_digits1 r; Some (e +:+ sg +:+ d, r)
  end.

Definition scan_number (s : string) : option (string * string) :=
  let '(sg, r) := eat (Ascii.eqb "-") s in
  '(i, r) ← scan_int r;
  '(f, r) ← scan_frac r;
  '(e, r) ← scan_exp r;
  Some (sg +:+ i +:+ f +:+ e, r).

Fixpoint drop_prefix (p s : string) : option string :=
  match p, s with
  | EmptyString, _ => Some s
  | String a p, String b s => if Ascii.eqb a b then drop_prefix p s else None
  | _, EmptyString => None
  end.

(** ** Values *)

Definition maxNestingDepth : Z := 10000.

Definition eat_char (c : ascii) (s : string) : option string :=
  match skip_ws s with
  | String c' s' => if Ascii.eqb c c' then Some s' else None
  | EmptyString => None
  end.

Definition scalar (s : string) : option (JValue * string) :=
  match drop_prefix "null" s with
  | Some r => Some (JNull, r)
  | None =>
      match drop_prefix "true" s with
      | Some r => Some (JBool true, r)
      | None =>
          match drop_prefix "false" s with
          | Some r => Some (JBool false, r)
          | None => '(lit, r) ← scan_number s; Some (JNumber lit, r)
          end
      end
  end.

Definition scan_key (s : string) : option (string * string) :=
  s ← eat_char quote s;
  '(raw, s) ← scan_string s;
  s ← eat_char ":" s;
  Some (unquote_text raw, s).

Fixpoint value (fuel : nat) (depth : Z) (s : string) : option (JValue * string) :=
  match fuel with
  | O => None
  | S n =>
      match eat_char quote s with
      | Some s => '(raw, s) ← scan_string s; Some (JString (unquote_text raw), s)
      | None =>
          match eat_char "{" s with
          | Some s =>
              if maxNestingDepth <=? depth then None
              else match eat_char "}" s with
                   | Some s => Some (JObject [], s)
                   | None => '(m, s) ← members n (depth + 1) s; Some (JObject m, s)
                   end
          | None =>
              match eat_char "[" s with
              | Some s =>
                  if maxNestingDepth <=? depth then None
                  else match eat_char "]" s with
                       | Some s => Some (JArray [], s)
                       | None => '(l, s) ← elements n (depth + 1) s; Some (JArray l, s)
                       end
              | None => scalar (skip_ws s)
              end
          end
      end
  end
with elements (fuel : nat) (depth : Z) (s : string) : option (list JValue * string) :=
  match fuel with
  | O => None
  | S n =>
      '(v, s) ← value n depth s;
      match eat_char "," s with
      | Some s => '(l, s) ← elements n depth s; Some (v :: l, s)
      | None => s ← eat_char "]" s; Some ([v], s)
      end
  end
with members (fuel : nat) (depth : Z) (s : string) : option (list (string * JValue) * string) :=
  match fuel with
  | O => None
  | S n =>
      '(k, s) ← scan_key s;
      '(v, s) ← value n depth s;
      match eat_char "," s with
      | Some s => '(m, s) ← members n depth s; Some ((k, v) :: m, s)
      | None => s ← eat_char "}" s; Some ([(k, v)], s)
      end
  end.

(** Every call that does not consume a byte is followed by one that does. *)
Definition fuel_for (s : string) : nat := 2 * String.length s + 2.

(** [Decoder.Decode]: the first value of a stream, and the rest. *)
Definition first_value (s : string) : option (JValue * string) := value (fuel_for s) 0 s.

Definition parse (s : string) : option JValue :=
  match first_value s with
  | Some (v, rest) => if str_eq (skip_ws rest) "" then Some v else None
  | None => None
  end.

Definition Valid (s : string) : bool :=
  match parse s with Some _ => true | None => false end.

(** [Decoder.More] on what follows the first value. *)
Definition more (rest : string) : bool :=
  match skip_ws rest with
  | String c _ => negb (Ascii.eqb c "]") && negb (Ascii.eqb c "}")
  | EmptyString => false
  end.

(** ** Decoding into Go types *)

Inductive GoType : Type :=
| TString
| TUint64
| TSlice (t : GoType)
| TPtr (t : GoType)
| TStruct (fields : list (string * GoType)).

(** [foldName]: letters up to case, with the two non-ASCII letters that fold
    to ASCII ones (the Kelvin sign and the long s). *)
Fixpoint fold_name (s : string) : string :=
  match s with
  | String a s1 =>
      match s1 with
      | String b s2 =>
          if (code a =? 0xC5) && (code b =? 0xBF) then String "s" (fold_name s2)
          else match s2 with
               | String c s3 =>
                   if (code a =? 0xE2) && (code b =? 0x84) && (code c =? 0xAA)
                   then String "k" (fold_name s3)
                   else String (lower_char a) (fold_name s1)
               | EmptyString => String (lower_char a) (fold_name s1)
               end
      | EmptyString => String (lower_char a) ""
      end
  | EmptyString => ""
  end.

Definition find_field {A} (fields : list (string * A)) (key : string) : option (string * A) :=
  match find (λ f, str_eq (fst f) key) fields with
  | Some f => Some f
  | None => find (λ f, str_eq (fold_name (fst f)) (fold_name key)) fields
  end.

(** [strconv.ParseUint(lit, 10, 64)] *)
Definition ParseUint64 (lit : string) : option Z :=
  match parse_dec lit with
  | Some z => if z <? two64 then Some z else None
  | None => None
  end.

(** Decoding a value into a type raises no error. *)
Fixpoint accepts (strict : bool) (t : GoType) (v : JValue) {struct v} : bool :=
  match v with
  | JNull => true
  | JBool _ => false
  | JNumber lit =>
      match t with
      | TUint64 | TPtr TUint64 => match ParseUint64 lit with Some _ => true | None => false end
      | _ => false
      end
  | JString _ => match t with TString | TPtr TString => true | _ => false end
  | JArray l =>
      match t with
      | TSlice t' | TPtr (TSlice t') => forallb (accepts strict t') l
      | _ => false
      end
  | JObject m =>
      match t with
      | TStruct fields | TPtr (TStruct fields) =>
          forallb (λ kv, let '(k, w) := kv in
            match find_field fields k with
            | Some (_, t') => accepts strict t' w
            | None => negb strict
            end) m
      | _ => false
      end
  end.

(** The value a field ends with: the last non-null member that selects it. *)
Definition assigned (fields : list (string * GoType)) (name : string)
    (m : list (string * JValue)) : option JValue :=
  foldl (λ acc kv,
    match find_field fields (fst kv), snd kv with
    | Some (n, _), JNull => acc
    | Some (n, _), v => if str_eq n name then Some v else acc
    | None, _ => acc
    end) None m.

Definition text_field (o : option JValue) : string :=
  match o with Some (JString s) => s | _ => "" end.
Definition uint64_field (o : option JValue) : Z :=
  match o with
  | Some (JNumber lit) => default 0 (ParseUint64 lit)
  | _ => 0
  end.

Definition object_members (v : JValue) : list (string * JValue) :=
  match v with JObject m => m | _ => [] end.

(** [json.Unmarshal] into a struct: the members its fields are read from. *)
Definition unmarshal (fields : list (string * GoType)) (s : string)
    : option (list (string * JValue)) :=
  match parse s with
  | Some v => if accepts false (TStruct fields) v then Some (object_members v) else None
  | None => None
  end.

End Json.
