(* ===== verification/Config.v ===== *)
(** * Configuration, durations and majorities

The protocol parameters (constants/), their governed overrides
(keeper_config.go), the vote counts of node operators on them
(types/type_config.go) and the majority rules every vote of the chain uses
(types/types.go). *)

From S2P Require Import Prelude GoStrings.

(** ** Parameters *)

Inductive ConfigName : Type :=
| Chain_BlockTimeSeconds
| Chain_PauseNodeMinutes
| BlockSign_DoublePenaltyPoints
| BlockSign_MissPenaltyPoints
| Churn_IntervalMinutes
| Churn_RetryIntervalMinutes
| Config_OperationalVotesMin
| BTC_ConfMultiplierBasisPoints
| BTC_ConfirmationsMin
| BTC_DefaultSatsPerVByte
| BTC_MaxConfirmations
| BTC_MaxMempoolAncestors
| BTC_MaxSatsPerVByte
| Deposit_AmountMinSats
| Deposit_PowDifficultyMin
| Deposit_PowDifficultyMax
| Deposit_PowExpiryMinutes
| Deposit_PowRetargetStepMax
| Deposit_PowSamplesMin
| Deposit_PowTargetPercentile
| Deposit_PowTargetSeconds
| Deposit_SweepRetryIntervalMinutes
| Deposit_RefundIfForgottenDays
| DoubleSign_MaxAgeMinutes
| Halt_ChainGlobal
| Halt_Churning
| Halt_SigningGlobal
| Halt_SolvencyCheck
| Keygen_FailJailMinutes
| Keygen_FailPenaltyPoints
| Keygen_RetryIntervalMinutes
| Keysign_FailJailMinutes
| Keysign_FailPenaltyPoints
| Keysign_PeriodMinutes
| Node_BadPenaltyPointsMin
| Node_BadRedline
| Vault_BaseMembersMin
| Node_BondSlotIncrementSats
| Node_BondStartAmountSats
| Node_PenaltyChurnOutThreshold
| Node_MissingBlocksChurnOut
| Node_MissingBlocksChurnOutMax
| Node_MissingBlocksTrackMax
| Node_SetDesired
| NodeSale_AuctionExpiryMaxMinutes
| NodeSale_AuctionExpiryMinMinutes
| NodeSale_BidAmountMinSats
| Observation_DelayFlexibilityMinutes
| Observation_MissPenaltyPoints
| Observation_SubmitPenaltyPoints
| Shielder_FeeShareScale
| Shielder_NoteAmountMinSats
| Signer_Concurrency
| TxOut_MaxAttempts
| UTXO_MaxSpendCount
| Upgrade_ProposalCountMax
| Vault_MigrationIntervalMinutes
| Vault_RetiredRecoveryAttemptsMax
| Withdrawal_FeeBasisPoints
| Withdrawal_BatchWindowMinutes.

(** [ConfigName.String()] *)
Definition ConfigName_String (n : ConfigName) : string :=
  match n with
  | Chain_BlockTimeSeconds => "Chain_BlockTimeSeconds"
  | Chain_PauseNodeMinutes => "Chain_PauseNodeMinutes"
  | BlockSign_DoublePenaltyPoints => "BlockSign_DoublePenaltyPoints"
  | BlockSign_MissPenaltyPoints => "BlockSign_MissPenaltyPoints"
  | Churn_IntervalMinutes => "Churn_IntervalMinutes"
  | Churn_RetryIntervalMinutes => "Churn_RetryIntervalMinutes"
  | Config_OperationalVotesMin => "Config_OperationalVotesMin"
  | BTC_ConfMultiplierBasisPoints => "BTC_ConfMultiplierBasisPoints"
  | BTC_ConfirmationsMin => "BTC_ConfirmationsMin"
  | BTC_DefaultSatsPerVByte => "BTC_DefaultSatsPerVByte"
  | BTC_MaxConfirmations => "BTC_MaxConfirmations"
  | BTC_MaxMempoolAncestors => "BTC_MaxMempoolAncestors"
  | BTC_MaxSatsPerVByte => "BTC_MaxSatsPerVByte"
  | Deposit_AmountMinSats => "Deposit_AmountMinSats"
  | Deposit_PowDifficultyMin => "Deposit_PowDifficultyMin"
  | Deposit_PowDifficultyMax => "Deposit_PowDifficultyMax"
  | Deposit_PowExpiryMinutes => "Deposit_PowExpiryMinutes"
  | Deposit_PowRetargetStepMax => "Deposit_PowRetargetStepMax"
  | Deposit_PowSamplesMin => "Deposit_PowSamplesMin"
  | Deposit_PowTargetPercentile => "Deposit_PowTargetPercentile"
  | Deposit_PowTargetSeconds => "Deposit_PowTargetSeconds"
  | Deposit_SweepRetryIntervalMinutes => "Deposit_SweepRetryIntervalMinutes"
  | Deposit_RefundIfForgottenDays => "Deposit_RefundIfForgottenDays"
  | DoubleSign_MaxAgeMinutes => "DoubleSign_MaxAgeMinutes"
  | Halt_ChainGlobal => "Halt_ChainGlobal"
  | Halt_Churning => "Halt_Churning"
  | Halt_SigningGlobal => "Halt_SigningGlobal"
  | Halt_SolvencyCheck => "Halt_SolvencyCheck"
  | Keygen_FailJailMinutes => "Keygen_FailJailMinutes"
  | Keygen_FailPenaltyPoints => "Keygen_FailPenaltyPoints"
  | Keygen_RetryIntervalMinutes => "Keygen_RetryIntervalMinutes"
  | Keysign_FailJailMinutes => "Keysign_FailJailMinutes"
  | Keysign_FailPenaltyPoints => "Keysign_FailPenaltyPoints"
  | Keysign_PeriodMinutes => "Keysign_PeriodMinutes"
  | Node_BadPenaltyPointsMin => "Node_BadPenaltyPointsMin"
  | Node_BadRedline => "Node_BadRedline"
  | Vault_BaseMembersMin => "Vault_BaseMembersMin"
  | Node_BondSlotIncrementSats => "Node_BondSlotIncrementSats"
  | Node_BondStartAmountSats => "Node_BondStartAmountSats"
  | Node_PenaltyChurnOutThreshold => "Node_PenaltyChurnOutThreshold"
  | Node_MissingBlocksChurnOut => "Node_MissingBlocksChurnOut"
  | Node_MissingBlocksChurnOutMax => "Node_MissingBlocksChurnOutMax"
  | Node_MissingBlocksTrackMax => "Node_MissingBlocksTrackMax"
  | Node_SetDesired => "Node_SetDesired"
  | NodeSale_AuctionExpiryMaxMinutes => "NodeSale_AuctionExpiryMaxMinutes"
  | NodeSale_AuctionExpiryMinMinutes => "NodeSale_AuctionExpiryMinMinutes"
  | NodeSale_BidAmountMinSats => "NodeSale_BidAmountMinSats"
  | Observation_DelayFlexibilityMinutes => "Observation_DelayFlexibilityMinutes"
  | Observation_MissPenaltyPoints => "Observation_MissPenaltyPoints"
  | Observation_SubmitPenaltyPoints => "Observation_SubmitPenaltyPoints"
  | Shielder_FeeShareScale => "Shielder_FeeShareScale"
  | Shielder_NoteAmountMinSats => "Shielder_NoteAmountMinSats"
  | Signer_Concurrency => "Signer_Concurrency"
  | TxOut_MaxAttempts => "TxOut_MaxAttempts"
  | UTXO_MaxSpendCount => "UTXO_MaxSpendCount"
  | Upgrade_ProposalCountMax => "Upgrade_ProposalCountMax"
  | Vault_MigrationIntervalMinutes => "Vault_MigrationIntervalMinutes"
  | Vault_RetiredRecoveryAttemptsMax => "Vault_RetiredRecoveryAttemptsMax"
  | Withdrawal_FeeBasisPoints => "Withdrawal_FeeBasisPoints"
  | Withdrawal_BatchWindowMinutes => "Withdrawal_BatchWindowMinutes"
  end.

(** The defaults of [NewConfigValue]. *)
Definition GetInt64Value (n : ConfigName) : Z :=
  match n with
  | Chain_BlockTimeSeconds => 6
  | Chain_PauseNodeMinutes => 72
  | BlockSign_DoublePenaltyPoints => 1000
  | BlockSign_MissPenaltyPoints => 1
  | Churn_IntervalMinutes => 4320
  | Churn_RetryIntervalMinutes => 72
  | Config_OperationalVotesMin => 3
  | BTC_ConfMultiplierBasisPoints => 10000
  | BTC_ConfirmationsMin => 1
  | BTC_DefaultSatsPerVByte => 25
  | BTC_MaxConfirmations => 0
  | BTC_MaxMempoolAncestors => 25
  | BTC_MaxSatsPerVByte => 9765
  | Deposit_AmountMinSats => 546
  | Deposit_PowDifficultyMin => 20
  | Deposit_PowDifficultyMax => 64
  | Deposit_PowExpiryMinutes => 0
  | Deposit_PowRetargetStepMax => 1
  | Deposit_PowSamplesMin => 8
  | Deposit_PowTargetPercentile => 90
  | Deposit_PowTargetSeconds => 10
  | Deposit_SweepRetryIntervalMinutes => 72
  | Deposit_RefundIfForgottenDays => 30
  | DoubleSign_MaxAgeMinutes => 3
  | Halt_ChainGlobal => 0
  | Halt_Churning => 0
  | Halt_SigningGlobal => 0
  | Halt_SolvencyCheck => 0
  | Keygen_FailJailMinutes => 432
  | Keygen_FailPenaltyPoints => 720
  | Keygen_RetryIntervalMinutes => 0
  | Keysign_FailJailMinutes => 6
  | Keysign_FailPenaltyPoints => 2
  | Keysign_PeriodMinutes => 30
  | Node_BadPenaltyPointsMin => 100
  | Node_BadRedline => 3
  | Vault_BaseMembersMin => 4
  | Node_BondSlotIncrementSats => 100000000
  | Node_BondStartAmountSats => 100000000
  | Node_PenaltyChurnOutThreshold => 100
  | Node_MissingBlocksChurnOut => 0
  | Node_MissingBlocksChurnOutMax => 0
  | Node_MissingBlocksTrackMax => 700
  | Node_SetDesired => 100
  | NodeSale_AuctionExpiryMaxMinutes => 4320
  | NodeSale_AuctionExpiryMinMinutes => 1
  | NodeSale_BidAmountMinSats => 546
  | Observation_DelayFlexibilityMinutes => 1
  | Observation_MissPenaltyPoints => 2
  | Observation_SubmitPenaltyPoints => 1
  | Shielder_FeeShareScale => 1000000000000
  | Shielder_NoteAmountMinSats => 100000
  | Signer_Concurrency => 10
  | TxOut_MaxAttempts => 0
  | UTXO_MaxSpendCount => 15
  | Upgrade_ProposalCountMax => 3
  | Vault_MigrationIntervalMinutes => 36
  | Vault_RetiredRecoveryAttemptsMax => 100
  | Withdrawal_FeeBasisPoints => 100
  | Withdrawal_BatchWindowMinutes => 10
  end.

(** The overrides live in the store under the upper-cased name; a negative
    override counts as none. *)
Definition GetConfig (configs : gmap string Z) (key : string) : Z :=
  default (-1) (configs !! ToUpper key).

Definition GetConfigInt64 (configs : gmap string Z) (n : ConfigName) : Z :=
  let val := GetConfig configs (ConfigName_String n) in
  if val <? 0 then GetInt64Value n else val.

(** ** Durations *)

Definition MinutesToBlocks (minutes blockTimeSeconds : Z) : Z :=
  if minutes <=? 0 then 0
  else
    let bt := if blockTimeSeconds <=? 0 then GetInt64Value Chain_BlockTimeSeconds
              else blockTimeSeconds in
    let seconds := minutes *i 60 in
    Z.quot (seconds +i bt -i 1) bt.

Definition getConfigDurationBlocks (configs : gmap string Z) (key : ConfigName) : Z :=
  MinutesToBlocks (GetConfigInt64 configs key) (GetConfigInt64 configs Chain_BlockTimeSeconds).

(** ** Majorities *)

Definition SuperMajorityFactor : Z := 3.
Definition SimpleMajorityFactor : Z := 2.

(** The quotient rounded up, as the three rules compute it. *)
Definition HasSuperMajority (signers total : Z) : bool :=
  if (total <? signers) || (signers <=? 0) then false
  else
    let min := Z.quot (total * 2) SuperMajorityFactor in
    let min := if 0 <? Z.rem (total * 2) SuperMajorityFactor then min + 1 else min in
    min <=? signers.

Definition HasSimpleMajority (signers total : Z) : bool :=
  if (total <? signers) || (signers <=? 0) then false
  else
    let min := Z.quot total SimpleMajorityFactor in
    let min := if 0 <? Z.rem total SimpleMajorityFactor then min + 1 else min in
    min <=? signers.

Definition HasMinority (signers total : Z) : bool :=
  if (total <? signers) || (signers <=? 0) then false
  else
    let min := Z.quot total SuperMajorityFactor in
    let min := if 0 <? Z.rem total SuperMajorityFactor then min + 1 else min in
    min <=? signers.

(** ** Votes on a parameter *)

Record NodeConfig := mkNodeConfig {
  nc_Key : string;
  nc_Value : Z;
  nc_Signer : string
}.

Definition NodeConfigs : Type := list NodeConfig.

Module NodeConfigs.
Definition matches (key : string) (acc : string) (c : NodeConfig) : bool :=
  str_eq (nc_Signer c) acc && EqualFold (nc_Key c) key.

Definition Has (m : NodeConfigs) (key acc : string) : bool :=
  existsb (matches key acc) m.

Fixpoint Get (m : NodeConfigs) (key acc : string) : Z * bool :=
  match m with
  | [] => (0, false)
  | c :: m' => if matches key acc c then (nc_Value c, true) else Get m' key acc
  end.

Fixpoint Set_ (m : NodeConfigs) (key : string) (val : Z) (acc : string) : NodeConfigs :=
  match m with
  | [] => [mkNodeConfig key val acc]
  | c :: m' =>
      if matches key acc c
      then mkNodeConfig (nc_Key c) val (nc_Signer c) :: m'
      else c :: Set_ m' key val acc
  end.

Fixpoint Delete (m : NodeConfigs) (key acc : string) : NodeConfigs :=
  match m with
  | [] => []
  | c :: m' => if matches key acc c then m' else c :: Delete m' key acc
  end.

(** The vote count per value and the signers already counted. *)
Definition count_step (key : string) (active : list string)
    (st : gmap Z Z * gset string) (c : NodeConfig) : gmap Z Z * gset string :=
  let '(counter, voted) := st in
  if negb (EqualFold (nc_Key c) key) then st
  else if bool_decide (nc_Signer c ∈ voted) then st
  else if bool_decide (nc_Signer c ∈ active)
  then (<[nc_Value c := default 0 (counter !! nc_Value c) + 1]> counter,
        {[nc_Signer c]} ∪ voted)
  else st.

Definition count_votes (m : NodeConfigs) (key : string) (active : list string) : gmap Z Z :=
  (foldl (count_step key active) (∅, ∅) m).1.

(** Go iterates over a map in an unspecified order: [iter] is that order. *)
Section Iteration.
Variable iter : gmap Z Z → list (Z * Z).

Fixpoint first_majority (maj : Z → Z → bool) (n : Z) (l : list (Z * Z)) : Z * bool :=
  match l with
  | [] => (0, false)
  | (val, count) :: l' => if maj count n then (val, true) else first_majority maj n l'
  end.

Definition countActive (m : NodeConfigs) (key : string) (active : list string)
    (maj : Z → Z → bool) : Z * bool :=
  first_majority maj (Z.of_nat (length active)) (iter (count_votes m key active)).

Definition ConfigHasSuperMajority (m : NodeConfigs) (key : string) (nas : list string) :=
  countActive m key nas HasSuperMajority.

Definition ConfigHasSimpleMajority (m : NodeConfigs) (key : string) (nas : list string) :=
  countActive m key nas HasSimpleMajority.

Definition most_voted (best : Z * Z) (vc : Z * Z) : Z * Z :=
  if best.2 <? vc.2 then vc else best.

Definition ValueOfEconomic (m : NodeConfigs) (key : string) (active : list string) : Z :=
  let '(value, maxVotes) := foldl most_voted (-1, 0) (iter (count_votes m key active)) in
  if 3 * maxVotes <? 2 * Z.of_nat (length active) then -1 else value.

Definition most_voted_tie (best : Z * Z * bool) (vc : Z * Z) : Z * Z * bool :=
  let '(value, maxVotes, tie) := best in
  if maxVotes <? vc.2 then (vc.1, vc.2, false)
  else if vc.2 =? maxVotes then (value, maxVotes, true)
  else best.

Definition ValueOfOperational (m : NodeConfigs) (key : string) (minVotes : Z)
    (active : list string) : Z :=
  let '(value, maxVotes, tie) :=
    foldl most_voted_tie (-1, 0, false) (iter (count_votes m key active)) in
  if tie || (maxVotes <? minVotes) then -1 else value.
End Iteration.
End NodeConfigs.

(** ** Lemmas *)

Lemma super_majority_spec s t :
  0 <= t → HasSuperMajority s t = true ↔ 0 < s <= t ∧ 2 * t <= 3 * s.
Proof.
  intros Ht. unfold HasSuperMajority, SuperMajorityFactor.
  pose proof (Z.quot_rem' (t * 2) 3). pose proof (Z.rem_bound_pos (t * 2) 3 ltac:(lia) ltac:(lia)).
  destruct ((t <? s) || (s <=? 0)) eqn:E; [lia|].
  destruct (0 <? Z.rem (t * 2) 3) eqn:E2; lia.
Qed.

Lemma minority_spec s t :
  0 <= t → HasMinority s t = true ↔ 0 < s <= t ∧ t <= 3 * s.
Proof.
  intros Ht. unfold HasMinority, SuperMajorityFactor.
  pose proof (Z.quot_rem' t 3). pose proof (Z.rem_bound_pos t 3 ltac:(lia) ltac:(lia)).
  destruct ((t <? s) || (s <=? 0)) eqn:E; [lia|].
  destruct (0 <? Z.rem t 3) eqn:E2; lia.
Qed.

Lemma simple_majority_spec s t :
  0 <= t → HasSimpleMajority s t = true ↔ 0 < s <= t ∧ t <= 2 * s.
Proof.
  intros Ht. unfold HasSimpleMajority, SimpleMajorityFactor.
  pose proof (Z.quot_rem' t 2). pose proof (Z.rem_bound_pos t 2 ltac:(lia) ltac:(lia)).
  destruct ((t <? s) || (s <=? 0)) eqn:E; [lia|].
  destruct (0 <? Z.rem t 2) eqn:E2; lia.
Qed.

(** Two sets of nodes and what they share. *)
Lemma size_inter_union (X Y : gset string) :
  (size (X ∪ Y) + size (X ∩ Y) = size X + size Y)%nat.
Proof.
  rewrite size_union_alt.
  assert (Hy : size Y = (size (Y ∖ X) + size (X ∩ Y))%nat); [|lia].
  rewrite <- size_union by set_solver. f_equal. set_unfold.
  intros x. destruct (decide (x ∈ X)); tauto.
Qed.

(** *** Vote counts *)

Module Votes.
Definition sum_counts {K} (l : list (K * Z)) : Z := foldr (λ vc acc, vc.2 + acc) 0 l.

Lemma sum_counts_perm {K} (l l' : list (K * Z)) : l ≡ₚ l' → sum_counts l = sum_counts l'.
Proof. induction 1; simpl; lia. Qed.

Lemma sum_counts_nonneg {K} (l : list (K * Z)) : Forall (λ vc, 0 < vc.2) l → 0 <= sum_counts l.
Proof. induction 1; simpl; lia. Qed.

Lemma sum_counts_mem {K} (l : list (K * Z)) vc :
  Forall (λ vc, 0 < vc.2) l → vc ∈ l → vc.2 <= sum_counts l.
Proof.
  induction 1 as [|x l Hx Hl IH]; [set_solver|].
  apply sum_counts_nonneg in Hl. intros [->|Hin]%elem_of_cons; simpl; [lia|].
  apply IH in Hin. lia.
Qed.

Lemma sum_counts_two {K} (l : list (K * Z)) v1 v2 c1 c2 :
  Forall (λ vc, 0 < vc.2) l → (v1, c1) ∈ l → (v2, c2) ∈ l → v1 ≠ v2 →
  c1 + c2 <= sum_counts l.
Proof.
  induction 1 as [|x l Hx Hl IH]; [set_solver|]. intros H1 H2 Hne.
  rewrite elem_of_cons in H1, H2. simpl.
  destruct H1 as [<-|H1], H2 as [E|H2]; simplify_eq/=;
    [apply (sum_counts_mem _ _ Hl) in H2; simpl in *; lia
    |apply (sum_counts_mem _ _ Hl) in H1; simpl in *; lia
    |specialize (IH H1 H2 Hne); lia].
Qed.

(** The counts are positive, and together count distinct active signers. *)
Definition counted (active : list string) (st : gmap Z Z * gset string) : Prop :=
  map_Forall (λ _ c, 0 < c) st.1
  ∧ sum_counts (map_to_list st.1) = Z.of_nat (size st.2)
  ∧ st.2 ⊆ list_to_set active.

Lemma sum_counts_insert `{Countable K} (m : gmap K Z) k :
  sum_counts (map_to_list (<[k := default 0 (m !! k) + 1]> m))
  = sum_counts (map_to_list m) + 1.
Proof.
  destruct (m !! k) as [c|] eqn:E; simpl.
  - rewrite <- (insert_delete_id m k c E) at 2. rewrite <- insert_delete_eq.
    rewrite (sum_counts_perm _ _ (map_to_list_insert _ _ _ (lookup_delete_eq m k))).
    rewrite (sum_counts_perm _ _ (map_to_list_insert _ _ _ (lookup_delete_eq m k))).
    simpl. lia.
  - rewrite (sum_counts_perm _ _ (map_to_list_insert _ _ _ E)). simpl. lia.
Qed.

Lemma count_step_counted key active st c :
  counted active st → counted active (NodeConfigs.count_step key active st c).
Proof.
  destruct st as [counter voted]. unfold NodeConfigs.count_step. intros (Hp & Hs & Hv).
  destruct (negb _); [done|]. case_bool_decide; [done|]. case_bool_decide; [|done].
  split; [|split]; simpl in *.
  - apply map_Forall_insert_2; [|done].
    destruct (counter !! nc_Value c) eqn:E; simpl; [|lia]. apply Hp in E. lia.
  - rewrite sum_counts_insert, size_union, size_singleton by set_solver. lia.
  - set_solver.
Qed.

Lemma count_votes_counted m key active :
  ∃ voted, counted active (NodeConfigs.count_votes m key active, voted).
Proof.
  unfold NodeConfigs.count_votes.
  assert (H : ∀ st, counted active st →
    counted active (foldl (NodeConfigs.count_step key active) st m)).
  { induction m as [|c m IH]; intros st Hst; [done|]. by apply IH, count_step_counted. }
  specialize (H (∅, ∅)). destruct (foldl _ _ _) as [counter voted] eqn:E.
  exists voted. apply H. split; [apply map_Forall_empty|]. split; [|set_solver].
  reflexivity.
Qed.

Lemma size_subset_length (X : gset string) l :
  X ⊆ list_to_set l → (size X <= length l)%nat.
Proof.
  intros H. apply subseteq_size in H. etrans; [exact H|]. clear H.
  induction l as [|x l IH]; [done|]. cbn [list_to_set length].
  rewrite size_union_alt, size_singleton.
  assert ((size (list_to_set l ∖ {[x]} : gset string)
    <= size (list_to_set l : gset string))%nat) by (apply subseteq_size; set_solver).
  lia.
Qed.

Definition iterates (iter : gmap Z Z → list (Z * Z)) : Prop :=
  ∀ m, iter m ≡ₚ map_to_list m.

(** What every iteration order over the counts sees. *)
Lemma iter_counts iter m key active :
  iterates iter →
  Forall (λ vc, 0 < vc.2) (iter (NodeConfigs.count_votes m key active))
  ∧ sum_counts (iter (NodeConfigs.count_votes m key active))
      <= Z.of_nat (length active)
  ∧ ∀ v c, (v, c) ∈ iter (NodeConfigs.count_votes m key active)
      ↔ NodeConfigs.count_votes m key active !! v = Some c.
Proof.
  unfold iterates. intros Hi. destruct (count_votes_counted m key active) as (voted & Hp & Hs & Hv).
  simpl in *. rewrite (sum_counts_perm _ _ (Hi _)), Hs.
  split; [|split].
  - apply Forall_forall. intros [v c] Hin.
    rewrite Hi, elem_of_map_to_list in Hin. exact (Hp v c Hin).
  - apply size_subset_length in Hv. lia.
  - intros v c. by rewrite Hi, elem_of_map_to_list.
Qed.

Lemma first_majority_spec maj n l :
  NodeConfigs.first_majority maj n l = (0, false)
    ∧ (∀ v c, (v, c) ∈ l → maj c n = false)
  ∨ ∃ v c, (v, c) ∈ l ∧ maj c n = true ∧ NodeConfigs.first_majority maj n l = (v, true).
Proof.
  induction l as [|[v c] l IH]; simpl.
  - left. split; [done|]. intros v c Hin. by apply elem_of_nil in Hin.
  - destruct (maj c n) eqn:E.
    + right. exists v, c. split; [left|done].
    + destruct IH as [[-> Hn]|(v' & c' & Hin & Hm & ->)].
      * left. split; [done|]. intros v' c' [Heq|Hin]%elem_of_cons; [by simplify_eq|eauto].
      * right. exists v', c'. split; [by right|done].
Qed.

(** A state of the tie-tracking fold, up to the value kept in a tie. *)
Definition same_best (s t : Z * Z * bool) : Prop :=
  s.1.2 = t.1.2 ∧ s.2 = t.2 ∧ (s.2 = false → s.1.1 = t.1.1).

#[export] Instance same_best_equiv : Equivalence same_best.
Proof.
  split.
  - by intros x.
  - intros x y (H1 & H2 & H3). split; [done|]. split; [done|].
    intros H. symmetry. apply H3. congruence.
  - intros x y z (H1 & H2 & H3) (H4 & H5 & H6). split; [congruence|].
    split; [congruence|]. intros H. rewrite H3 by done. apply H6. congruence.
Qed.

#[export] Instance most_voted_tie_proper vc :
  Proper (same_best ==> same_best) (λ s, NodeConfigs.most_voted_tie s vc).
Proof.
  intros [[v m] t] [[v' m'] t'] (H1 & H2 & H3). simpl in *. subst.
  destruct (m' <? vc.2); [done|]. by destruct (vc.2 =? m').
Qed.

Lemma most_voted_tie_comm s vc wc :
  same_best (NodeConfigs.most_voted_tie (NodeConfigs.most_voted_tie s vc) wc)
            (NodeConfigs.most_voted_tie (NodeConfigs.most_voted_tie s wc) vc).
Proof.
  destruct s as [[v m] t], vc as [v1 c1], wc as [v2 c2].
  unfold NodeConfigs.most_voted_tie, same_best. simpl.
  repeat case_match; simplify_eq/=; try (exfalso; lia); split_and?;
    try done; try (intros; exfalso; congruence); try lia.
Qed.

Lemma fold_tie_perm l l' s s' :
  l ≡ₚ l' → same_best s s' →
  same_best (foldl NodeConfigs.most_voted_tie s l) (foldl NodeConfigs.most_voted_tie s' l').
Proof.
  intros Hl. revert s s'. induction Hl as [|x l l' Hl IH|x y l|l1 l2 l3 H1 IH1 H2 IH2];
    intros s s' Hs; simpl.
  - done.
  - apply IH. by apply (most_voted_tie_proper x).
  - assert (H : same_best (NodeConfigs.most_voted_tie (NodeConfigs.most_voted_tie s y) x)
      (NodeConfigs.most_voted_tie (NodeConfigs.most_voted_tie s' x) y)).
    { etrans; [apply most_voted_tie_comm|].
      by apply (most_voted_tie_proper y), (most_voted_tie_proper x). }
    revert H. generalize (NodeConfigs.most_voted_tie (NodeConfigs.most_voted_tie s y) x).
    generalize (NodeConfigs.most_voted_tie (NodeConfigs.most_voted_tie s' x) y).
    clear. induction l as [|z l IH]; intros t t' H; [done|]. simpl. apply IH.
    by apply (most_voted_tie_proper z).
  - etrans; [apply IH1, Hs|]. by apply IH2.
Qed.

(** The plain fold keeps the same best value, and a tie needs the votes of
    both values. *)
Lemma fold_tie_plain l v m t total :
  Forall (λ vc, 0 < vc.2) l → 0 <= m → m + (if t : bool then m else 0) <= total →
  let '(v', m', t') := foldl NodeConfigs.most_voted_tie (v, m, t) l in
  foldl NodeConfigs.most_voted (v, m) l = (v', m')
  ∧ 0 <= m' ∧ m' + (if t' : bool then m' else 0) <= total + sum_counts l.
Proof.
  revert v m t total. induction l as [|[w c] l IH]; intros v m t total Hl Hm Ht.
  { cbn. rewrite Z.add_0_r. done. }
  inversion_clear Hl as [|? ? Hc Hl']. cbn [snd] in Hc.
  assert (Hmv : NodeConfigs.most_voted (v, m) (w, c) = if m <? c then (w, c) else (v, m))
    by reflexivity.
  change (sum_counts ((w, c) :: l)) with (c + sum_counts l).
  cbn [foldl NodeConfigs.most_voted_tie snd fst]. rewrite Hmv. clear Hmv.
  assert (Hle : m <= total) by (destruct t; lia).
  destruct (m <? c) eqn:E1; [|destruct (c =? m) eqn:E2].
  - specialize (IH w c false (total + c) Hl'). destruct (foldl _ _ _) as [[v' m'] t'].
    rewrite Z.add_assoc. apply IH; cbn; lia.
  - specialize (IH v m true (total + c) Hl'). destruct (foldl _ _ _) as [[v' m'] t'].
    rewrite Z.add_assoc. apply IH; cbn; lia.
  - specialize (IH v m t (total + c) Hl'). destruct (foldl _ _ _) as [[v' m'] t'].
    rewrite Z.add_assoc. apply IH; destruct t; cbn; lia.
Qed.
End Votes.

Lemma operational_fold iter m key minVotes active :
  Votes.iterates iter →
  NodeConfigs.ValueOfOperational iter m key minVotes active
  = let '(v, mx, tie) := foldl NodeConfigs.most_voted_tie (-1, 0, false)
      (map_to_list (NodeConfigs.count_votes m key active)) in
    if tie || (mx <? minVotes) then -1 else v.
Proof.
  intros Hi. unfold NodeConfigs.ValueOfOperational.
  destruct (Votes.fold_tie_perm _ _ (-1, 0, false) (-1, 0, false)
    (Hi (NodeConfigs.count_votes m key active)) ltac:(by split)) as (H1 & H2 & H3).
  destruct (foldl _ _ (iter _)) as [[v mx] t], (foldl _ _ (map_to_list _)) as [[v' mx'] t'].
  cbn in *. subst mx' t'. destruct t; [done|]. by rewrite H3.
Qed.

Lemma economic_fold iter m key active :
  Votes.iterates iter →
  NodeConfigs.ValueOfEconomic iter m key active
  = let '(v, mx, tie) := foldl NodeConfigs.most_voted_tie (-1, 0, false)
      (map_to_list (NodeConfigs.count_votes m key active)) in
    if 3 * mx <? 2 * Z.of_nat (length active) then -1 else if tie : bool then -1 else v.
Proof.
  intros Hi. unfold NodeConfigs.ValueOfEconomic.
  destruct (Votes.iter_counts iter m key active Hi) as (Hpos & Hsum & _).
  destruct (Votes.fold_tie_perm _ _ (-1, 0, false) (-1, 0, false)
    (Hi (NodeConfigs.count_votes m key active)) ltac:(by split)) as (H1 & H2 & H3).
  pose proof (Votes.fold_tie_plain _ (-1) 0 false 0 Hpos ltac:(lia) ltac:(lia)) as H4.
  assert (Hn : length active = 0%nat → (foldl NodeConfigs.most_voted_tie (-1, 0, false)
    (iter (NodeConfigs.count_votes m key active))).2 = false).
  { intros Hn. rewrite Hn in Hsum. destruct (iter _) as [|vc l]; [done|].
    inversion_clear Hpos as [|? ? Hc Hl]. apply Votes.sum_counts_nonneg in Hl.
    cbn in Hsum. fold (Votes.sum_counts l) in Hsum. lia. }
  destruct (foldl NodeConfigs.most_voted_tie _ (iter _)) as [[v mx] t].
  destruct (foldl NodeConfigs.most_voted_tie _ (map_to_list _)) as [[v' mx'] t'].
  cbn in H1, H2, H3, Hn. subst mx' t'. destruct H4 as (-> & Hmx & Htot).
  destruct (3 * mx <? _) eqn:E; [done|]. destruct t; [|by rewrite H3].
  assert (length active = 0%nat) as Hl by lia. apply Hn in Hl. discriminate.
Qed.

Lemma supermajority_votes_unique iter m key active v1 v2 c1 c2 :
  Votes.iterates iter →
  (v1, c1) ∈ iter (NodeConfigs.count_votes m key active) →
  (v2, c2) ∈ iter (NodeConfigs.count_votes m key active) →
  HasSuperMajority c1 (Z.of_nat (length active)) = true →
  HasSuperMajority c2 (Z.of_nat (length active)) = true →
  v1 = v2.
Proof.
  intros Hi H1 H2 [? ?]%super_majority_spec [? ?]%super_majority_spec; [|lia..].
  destruct (Votes.iter_counts iter m key active Hi) as (Hpos & Hsum & _).
  destruct (decide (v1 = v2)) as [|Hne]; [done|].
  pose proof (Votes.sum_counts_two _ _ _ _ _ Hpos H1 H2 Hne). lia.
Qed.

(** ** Properties *)

(** Any two supermajorities of one set of nodes share at least a third of
    it: two conflicting votes cannot both pass unless a third of the nodes
    voted twice. *)
Theorem supermajorities_intersect (nodes voters1 voters2 : gset string) :
  voters1 ⊆ nodes → voters2 ⊆ nodes →
  HasSuperMajority (Z.of_nat (size voters1)) (Z.of_nat (size nodes)) = true →
  HasSuperMajority (Z.of_nat (size voters2)) (Z.of_nat (size nodes)) = true →
  Z.of_nat (size nodes) <= 3 * Z.of_nat (size (voters1 ∩ voters2)).
Proof.
  intros H1 H2 [_ Hs1]%super_majority_spec [_ Hs2]%super_majority_spec; [|lia..].
  assert (Hu : (size (voters1 ∪ voters2) <= size nodes)%nat)
    by (apply subseteq_size; set_solver).
  pose proof (size_inter_union voters1 voters2). lia.
Qed.

Lemma supermajorities_intersect_witness :
  Z.of_nat (size ({["a"; "b"; "c"]} : gset string))
  <= 3 * Z.of_nat (size ({["a"; "b"]} ∩ {["b"; "c"]} : gset string)).
Proof.
  apply (supermajorities_intersect {["a"; "b"; "c"]} {["a"; "b"]} {["b"; "c"]});
    [set_solver|set_solver|reflexivity|reflexivity].
Defined.

(** The outcome of a vote on a parameter does not depend on the order in
    which Go iterates over the vote counts, for the three rules the handler
    uses: supermajority, economic (two thirds) and operational (most votes). *)
Theorem config_vote_deterministic (iter iter' : gmap Z Z → list (Z * Z))
    (m : NodeConfigs) (key : string) (active : list string) (minVotes : Z) :
  Votes.iterates iter → Votes.iterates iter' →
  NodeConfigs.ConfigHasSuperMajority iter m key active
    = NodeConfigs.ConfigHasSuperMajority iter' m key active
  ∧ NodeConfigs.ValueOfEconomic iter m key active
    = NodeConfigs.ValueOfEconomic iter' m key active
  ∧ NodeConfigs.ValueOfOperational iter m key minVotes active
    = NodeConfigs.ValueOfOperational iter' m key minVotes active.
Proof.
  intros Hi Hi'. split; [|by rewrite !economic_fold, !operational_fold].
  unfold NodeConfigs.ConfigHasSuperMajority, NodeConfigs.countActive.
  assert (Hmem : ∀ v c, (v, c) ∈ iter (NodeConfigs.count_votes m key active)
    ↔ (v, c) ∈ iter' (NodeConfigs.count_votes m key active)).
  { intros v c. destruct (Votes.iter_counts iter m key active Hi) as (_ & _ & ->).
    by destruct (Votes.iter_counts iter' m key active Hi') as (_ & _ & ->). }
  destruct (Votes.first_majority_spec HasSuperMajority (Z.of_nat (length active))
    (iter (NodeConfigs.count_votes m key active))) as [[-> Hn]|(v & c & Hin & Hm & ->)],
    (Votes.first_majority_spec HasSuperMajority (Z.of_nat (length active))
    (iter' (NodeConfigs.count_votes m key active))) as [[-> Hn']|(v' & c' & Hin' & Hm' & ->)].
  - done.
  - apply Hmem, Hn in Hin'. congruence.
  - apply Hmem, Hn' in Hin. congruence.
  - apply Hmem in Hin'. f_equal.
    exact (supermajority_votes_unique iter m key active v v' c c' Hi Hin Hin' Hm Hm').
Qed.

Lemma config_vote_deterministic_witness :
  let m := [mkNodeConfig "HALTSIGNING" 7 "a"; mkNodeConfig "haltsigning" 7 "b";
            mkNodeConfig "HALTSIGNING" 9 "c"] in
  let rev_iter := (λ c : gmap Z Z, rev (map_to_list c)) in
  NodeConfigs.ConfigHasSuperMajority map_to_list m "HaltSigning" ["a"; "b"; "c"]
    = NodeConfigs.ConfigHasSuperMajority rev_iter m "HaltSigning" ["a"; "b"; "c"]
  ∧ NodeConfigs.ValueOfEconomic map_to_list m "HaltSigning" ["a"; "b"; "c"]
    = NodeConfigs.ValueOfEconomic rev_iter m "HaltSigning" ["a"; "b"; "c"]
  ∧ NodeConfigs.ValueOfOperational map_to_list m "HaltSigning" 2 ["a"; "b"; "c"]
    = NodeConfigs.ValueOfOperational rev_iter m "HaltSigning" 2 ["a"; "b"; "c"].
Proof.
  apply config_vote_deterministic.
  - intros c. reflexivity.
  - intros c. symmetry. apply Permutation_rev.
Defined.

(** A simple-majority vote on a parameter can depend on the iteration
    order: with an even number of nodes both halves of a split vote pass the
    rule, and the value first met wins. *)
Theorem simple_majority_order_dependent :
  ∃ iter iter' m key active,
    Votes.iterates iter ∧ Votes.iterates iter'
    ∧ NodeConfigs.ConfigHasSimpleMajority iter m key active = (7, true)
    ∧ NodeConfigs.ConfigHasSimpleMajority iter' m key active = (9, true).
Proof.
  exists map_to_list, (λ c, rev (map_to_list c)),
    [mkNodeConfig "K" 7 "a"; mkNodeConfig "K" 9 "b"], "K", ["a"; "b"].
  split; [intros c; reflexivity|]. split; [intros c; symmetry; apply Permutation_rev|].
  first [split; vm_compute; reflexivity | idtac].
Qed.

(** A duration in minutes becomes the least number of blocks that lasts at
    least as long, as long as the seconds fit an [int64]. *)
Theorem MinutesToBlocks_ceil (minutes bt : Z) :
  0 < minutes → 0 < bt → minutes * 60 + bt < two63 →
  let blocks := MinutesToBlocks minutes bt in
  0 < blocks ∧ minutes * 60 <= blocks * bt ∧ (blocks - 1) * bt < minutes * 60.
Proof.
  intros Hm Hb Hfit. unfold MinutesToBlocks.
  destruct (minutes <=? 0) eqn:E1; [lia|]. destruct (bt <=? 0) eqn:E2; [lia|].
  rewrite (i64_small (minutes * 60)), (i64_small (minutes * 60 + bt)),
    (i64_small (minutes * 60 + bt - 1)) by u64_lia.
  rewrite Z.quot_div_nonneg by lia. cbn zeta.
  Z.to_euclidean_division_equations. nia.
Qed.

Lemma MinutesToBlocks_ceil_witness :
  let blocks := MinutesToBlocks 4320 7 in
  0 < blocks ∧ 4320 * 60 <= blocks * 7 ∧ (blocks - 1) * 7 < 4320 * 60.
Proof. apply (MinutesToBlocks_ceil 4320 7); reflexivity. Defined.
