(* ===== verification/Common.v ===== *)
(** * Shared types of the chain (common/)

Chains, assets, coins and gas; transaction ids; addresses and public keys;
shares, medians and rounding; the derivation paths of vault addresses.
A [cosmos.Uint] is a non-negative [Z], its additions panic beyond 256
bits.  Bech32, Bitcoin address decoding and curve arithmetic are the
third-party packages of the class [Ext]. *)

From S2P Require Import Prelude GoStrings Sha256.

Inductive BTCNet := MainNetParams | TestNet3Params | RegressionNetParams.

Class Ext := {
  (** [bech32.Decode]: the human-readable part of a well-formed text. *)
  bech32_hrp : string → option string;
  (** [btcutil.DecodeAddress]: [Some true] for a raw public key. *)
  btc_decode_address : BTCNet → string → option bool;
  (** [cosmos.GetPubKeyFromBech32(AccPub, _)] and the account address of the
      key, as text. *)
  acc_pubkey_address : string → option string;
  (** [cosmos.GetPubKeyFromBech32(ConsPub, _)] succeeds. *)
  cons_pubkey_valid : string → bool;
  (** [cosmos.AccAddressFromBech32], as the canonical text of the account. *)
  acc_from_bech32 : string → option string;
  (** [DeriveBTCTaprootPubKey] then [btcutil.NewAddressTaproot]. *)
  taproot_address_text : string → Z → option string
}.

(** ** Chains and assets *)

Definition BTCChain : string := "BTC".

Definition Chain_Equals (c c2 : string) : bool := EqualFold (ToUpper c) (ToUpper c2).
Definition Chain_IsEmpty (c : string) : bool := is_blank (ToUpper c).

Record Asset := mkAsset {
  a_Chain : string;
  a_Symbol : string;
  a_Ticker : string;
  a_Secured : bool
}.

Definition EmptyAsset : Asset := mkAsset "" "" "" false.
Definition BTCAsset : Asset := mkAsset BTCChain "BTC" "BTC" false.

Definition Chain_GetGasAsset (c : string) : Asset :=
  if str_eq c BTCChain then BTCAsset else EmptyAsset.

Definition Asset_Equals (a a2 : Asset) : bool :=
  Chain_Equals (a_Chain a) (a_Chain a2)
  && EqualFold (ToUpper (a_Symbol a)) (ToUpper (a_Symbol a2))
  && EqualFold (ToUpper (a_Ticker a)) (ToUpper (a_Ticker a2))
  && Bool.eqb (a_Secured a) (a_Secured a2).

Definition Asset_IsEmpty (a : Asset) : bool :=
  Chain_IsEmpty (a_Chain a) || is_blank (ToUpper (a_Symbol a))
  || is_blank (ToUpper (a_Ticker a)).

Definition Asset_String (a : Asset) : string :=
  ToUpper (a_Chain a) ++ (if a_Secured a then "-" else ".") ++ ToUpper (a_Symbol a).

(** ** Coins *)

Record Coin := mkCoin {
  c_Asset : Asset;
  c_Amount : Z;
  c_Decimals : Z
}.

#[export] Instance Coin_eta : Eta Coin := fun r =>
  mkCoin (c_Asset r) (c_Amount r) (c_Decimals r).

Definition NewCoin (asset : Asset) (amount : Z) : Coin := mkCoin asset amount 0.
Definition NoCoin : Coin := NewCoin EmptyAsset 0.

Definition Coin_Equals (c cc : Coin) : bool :=
  Asset_Equals (c_Asset c) (c_Asset cc) && (c_Amount c =? c_Amount cc).

Definition Coin_IsEmpty (c : Coin) : bool :=
  Asset_IsEmpty (c_Asset c) || (c_Amount c =? 0).

Definition Coin_Valid (c : Coin) : res unit :=
  if Asset_IsEmpty (c_Asset c) then Err "denom cannot be empty"
  else if c_Amount c =? 0 then Err "amount cannot be zero"
  else Ok tt.

Definition Coin_String (c : Coin) : string :=
  itoa (c_Amount c) ++ " " ++ Asset_String (c_Asset c).

Definition SafeSub (input1 input2 : Z) : Z :=
  if input1 <? input2 then 0 else input1 - input2.

Module Coins.
Definition Valid (cs : list Coin) : res unit := rfold (λ _ c, Coin_Valid c) tt cs.

Fixpoint all_equal (l1 l2 : list Coin) : bool :=
  match l1, l2 with
  | c1 :: l1', c2 :: l2' => Coin_Equals c1 c2 && all_equal l1' l2'
  | _, _ => true
  end.

Definition by_asset (c c2 : Coin) : bool :=
  str_lt (Asset_String (c_Asset c)) (Asset_String (c_Asset c2)).

Definition EqualsEx (cs cs2 : list Coin) : bool :=
  (length cs =? length cs2)%nat
  && all_equal (insert_sort by_asset cs) (insert_sort by_asset cs2).

Definition IsEmpty (cs : list Coin) : bool := forallb Coin_IsEmpty cs.
Definition Contains (cs : list Coin) (c : Coin) : bool := existsb (Coin_Equals c) cs.

Fixpoint GetCoin (cs : list Coin) (asset : Asset) : Coin :=
  match cs with
  | [] => NoCoin
  | item :: cs' => if Asset_Equals asset (c_Asset item) then item else GetCoin cs' asset
  end.

Definition Distinct (cs : list Coin) : list Coin :=
  foldl (λ acc item, if Contains acc item then acc else acc ++ [item])%list [] cs.

(** The first coin of the asset is increased; a new asset is appended. *)
Fixpoint Add1 (cs : list Coin) (c : Coin) : res (list Coin) :=
  match cs with
  | [] => Ok [c]
  | item :: cs' =>
      if Asset_Equals (c_Asset item) (c_Asset c) then
        amount ← uint_add (c_Amount item) (c_Amount c);
        Ok (item <| c_Amount := amount |> :: cs')
      else rest ← Add1 cs' c; Ok (item :: rest)
  end.

Definition Add (cs addCoins : list Coin) : res (list Coin) := rfold Add1 cs addCoins.

Fixpoint SafeSub1 (cs : list Coin) (c : Coin) : list Coin :=
  match cs with
  | [] => []
  | item :: cs' =>
      if Asset_Equals (c_Asset item) (c_Asset c)
      then item <| c_Amount := Common.SafeSub (c_Amount item) (c_Amount c) |> :: cs'
      else item :: SafeSub1 cs' c
  end.

Definition SafeSub (cs subCoins : list Coin) : list Coin := foldl SafeSub1 cs subCoins.

Definition NoneEmpty (cs : list Coin) : list Coin :=
  List.filter (λ c, negb (Coin_IsEmpty c)) cs.

Definition String_ (cs : list Coin) : string := join ", " (map Coin_String cs).
End Coins.

(** [Gas] is a [Coins] whose comparison also sorts both sides by asset. *)
Module Gas.
Definition Valid := Coins.Valid.
Definition IsEmpty := Coins.IsEmpty.
Definition Add := Coins.Add.
Definition SafeSub := Coins.SafeSub.
Definition Equals := Coins.EqualsEx.
Definition ToCoins (g : list Coin) : list Coin :=
  map (λ c, NewCoin (c_Asset c) (c_Amount c)) g.
Definition NoneEmpty := Coins.NoneEmpty.
End Gas.

(** ** Shares, medians, rounding *)

Definition GetUncappedShare (part total allocation : Z) : res Z :=
  if (part =? 0) || (total =? 0) || (allocation =? 0) then Ok 0
  else if part =? total then Ok allocation
  else
    let r := Z.quot (allocation * part + Z.shiftr total 1) total in
    if r <? two256 then Ok r else Panic "Uint overflow".

Definition GetSafeShare (part total allocation : Z) : res Z :=
  GetUncappedShare (if total <=? part then total else part) total allocation.

Definition GetMedianUint (vals : list Z) : res Z :=
  let sorted := insert_sort Z.ltb vals in
  let n := length vals in
  if (n =? 0)%nat then Ok 0
  else if (0 <? n mod 2)%nat then Ok (default 0 (sorted !! (n / 2)%nat))
  else
    sum ← uint_add (default 0 (sorted !! (n / 2 - 1)%nat)) (default 0 (sorted !! (n / 2)%nat));
    Ok (sum / 2).

Definition GetMedianInt64 (vals : list Z) : Z :=
  match vals with
  | [] => 0
  | [v] => v
  | _ =>
      let sorted := insert_sort Z.ltb vals in
      let n := length vals in
      if (0 <? n mod 2)%nat then default 0 (sorted !! (n / 2)%nat)
      else Z.quot (default 0 (sorted !! (n / 2 - 1)%nat) +i default 0 (sorted !! (n / 2)%nat)) 2
  end.

Definition WeightedMean (vals weights : list Z) : res Z :=
  totalWeight ← rfold uint_add 0 weights;
  if totalWeight =? 0 then Err "total weight is zero"
  else if negb (length vals =? length weights)%nat
  then Panic "number of values and weights do not match"
  else
    weightedTotal ← rfold (λ acc vw, p ← uint_mul vw.1 vw.2; uint_add acc p) 0 (zip vals weights);
    Ok (weightedTotal / totalWeight).

(** The decimal magnitude; 20 digits cover a [uint64]. *)
Fixpoint magnitude (fuel : nat) (temp : Z) : Z :=
  match fuel with
  | O => 0
  | S f => if temp =? 0 then 0 else 1 + magnitude f (temp / 10)
  end.

Definition RoundSignificantFigures (number significantDigits : Z) : res Z :=
  if number =? 0 then Ok 0
  else
    let m := magnitude 20 number in
    if m <=? significantDigits then Ok number
    else
      let divisor := foldl (λ d _, d *u 10) 1 (seq 0 (Z.to_nat (m - significantDigits))) in
      if divisor =? 0 then Panic "integer divide by zero"
      else Ok (number / divisor *u divisor).

Definition ConvertDecimals (amount fromDecimals toDecimals : Z) : res Z :=
  if (fromDecimals <? 0) || (toDecimals <? 0) then Err "decimals must be positive"
  else if fromDecimals =? toDecimals then Ok amount
  else
    let diff := 10 ^ Z.abs (fromDecimals - toDecimals) in
    if toDecimals <? fromDecimals then Ok (amount / diff) else Ok (amount * diff).

(** ** Transaction ids *)

Module TxID.
Definition is_hex_char (c : ascii) : bool :=
  let n := Z.of_nat (nat_of_ascii c) in
  ((48 <=? n) && (n <=? 57)) || ((97 <=? n) && (n <=? 102)) || ((65 <=? n) && (n <=? 70)).

(** [^[0-9a-fA-F]{64}-[0-9]+$] *)
Definition is_cosmos_indexed (hash : string) : bool :=
  all_chars is_hex_char (String.substring 0 64 hash)
  && str_eq (String.substring 64 1 hash) "-"
  && negb (str_eq (String.substring 65 (String.length hash) hash) "")
  && all_chars is_digit (String.substring 65 (String.length hash) hash).

Definition NewTxID (hash : string) : res string :=
  let n := Z.of_nat (String.length hash) in
  if (64 <? n) && is_cosmos_indexed hash then Ok hash
  else if n =? 64 then Ok (ToUpper hash)
  else if n =? 66 then
    if HasPrefix hash "0x" then Ok (ToUpper hash) else Err "txid error: must be 66 characters"
  else if (n =? 87) || (n =? 88) then Ok hash
  else Err "txid error: must be 64 characters".

Definition IsEmpty (t : string) : bool := is_blank t.
Definition Equals (t t2 : string) : bool := EqualFold t t2.

Definition BlankTxID : string :=
  "0000000000000000000000000000000000000000000000000000000000000000".
End TxID.

(** ** Addresses and public keys *)

Definition NoAddress : string := "".
Definition NoopAddress : string := "noop".
Definition BondEscrowAddress : string := "bond_escrow".

Module Address.
Definition Equals (a a2 : string) : bool := EqualFold a a2.
Definition IsEmpty (a : string) : bool := is_blank a.
Definition IsNoop (a : string) : bool := Equals a NoopAddress.
Definition IsBondEscrow (a : string) : bool := Equals a BondEscrowAddress.

(** [^[:_A-Za-z0-9]*$] *)
Definition alphaNum (s : string) : bool :=
  all_chars (λ c, let n := Z.of_nat (nat_of_ascii c) in
    ((48 <=? n) && (n <=? 58)) || ((65 <=? n) && (n <=? 90))
    || ((97 <=? n) && (n <=? 122)) || (n =? 95)) s.

Section Ext.
Context `{Ext}.

(** The mainnet build. *)
Definition newAddress (address : string) : res string :=
  match btc_decode_address MainNetParams address with
  | Some false => Ok address
  | _ => Err "address format not supported"
  end.

Definition NewAddress (address : string) : res string :=
  if (String.length address =? 0)%nat then Ok NoAddress
  else if EqualFold address BondEscrowAddress then Ok BondEscrowAddress
  else if EqualFold address NoopAddress then Ok NoopAddress
  else if negb (alphaNum address) then Err "address format not supported"
  else match bech32_hrp address with
       | Some _ => Ok address
       | None => newAddress address
       end.

Definition is_some {A} (o : option A) : bool :=
  match o with Some _ => true | None => false end.

Definition IsChain (a chain : string) : bool :=
  if str_eq chain BTCChain then
    match bech32_hrp a with
    | Some prefix =>
        if str_eq prefix "bc" || str_eq prefix "tb" then true
        else is_some (btc_decode_address MainNetParams a)
             || is_some (btc_decode_address TestNet3Params a)
             || is_some (btc_decode_address RegressionNetParams a)
    | None =>
        is_some (btc_decode_address MainNetParams a)
        || is_some (btc_decode_address TestNet3Params a)
        || is_some (btc_decode_address RegressionNetParams a)
    end
  else false.

Definition GetChain (a : string) : string := if IsChain a BTCChain then BTCChain else "".
End Ext.
End Address.

Module PubKey.
Definition IsEmpty (p : string) : bool := (String.length p =? 0)%nat.
Definition Equals (p p2 : string) : bool := str_eq p p2.

Section Ext.
Context `{Ext}.

Definition NewPubKey (key : string) : res string :=
  if (String.length key =? 0)%nat then Ok ""
  else match acc_pubkey_address key with
       | Some _ => Ok key
       | None => Err "not bech32 encoded pub key"
       end.

Definition GetThorAddress (p : string) : res string :=
  match acc_pubkey_address p with
  | Some addr => Ok addr
  | None => Err "invalid pub key"
  end.

(** [cosmos.GetPubKeyFromBech32(Bech32PubKeyTypeConsPub, _)], as a check. *)
Definition check_cons_pubkey (nodePubKey : string) : res unit :=
  if cons_pubkey_valid nodePubKey then Ok tt else Err "invalid node pubkey".
End Ext.

Definition Contains (ps : list string) (pk : string) : bool := existsb (Equals pk) ps.

Definition PubKeys_Equals (p newPks : list string) : bool :=
  (length p =? length newPks)%nat
  && bool_decide (insert_sort str_lt p = insert_sort str_lt newPks).
End PubKey.

(** An account address is its bech32 text; [Empty] is the empty text. *)
Definition Acc_Empty (a : string) : bool := is_empty a.
Definition Acc_Equals (a b : string) : bool := str_eq a b.

Definition AccAddressFromBech32 `{Ext} (s : string) : res string :=
  match acc_from_bech32 s with Some a => Ok a | None => Err "invalid bech32 address" end.

(** ** Vault paths *)

Module VaultPath.
Inductive VaultDepositPathType := VaultDepositPathUser | VaultDepositPathNode
  | OtherPathType (s : string).

Definition path_type_string (t : VaultDepositPathType) : string :=
  match t with
  | VaultDepositPathUser => "user"
  | VaultDepositPathNode => "node"
  | OtherPathType s => s
  end.

Definition MainVaultPathIndex : Z := 0.
Definition DepositAddressLookahead : Z := 4096.
Definition DepositPathCommitmentRoot : Z := 0.
Definition depositPathSegmentMask : Z := 4294967295.

Definition VaultDepositPathIndex (pathType : VaultDepositPathType)
    (depositIndex commitmentIndex : Z) : res Z :=
  if depositPathSegmentMask <? depositIndex then Err "deposit path index out of range"
  else if negb (commitmentIndex =? DepositPathCommitmentRoot)
  then Err "vault deposit addresses only support root commitment path"
  else match pathType with
       | VaultDepositPathUser | VaultDepositPathNode => Ok (depositIndex +u 1)
       | OtherPathType _ => Err "unknown vault deposit path type"
       end.

Definition VaultDepositPath (pathType : VaultDepositPathType)
    (depositIndex commitmentIndex : Z) : string :=
  match VaultDepositPathIndex pathType depositIndex commitmentIndex with
  | Ok pathIndex => "m/86'/0'/0'/0/" ++ itoa pathIndex
  | _ => ""
  end.

Definition UserSecretPath (pathType : VaultDepositPathType)
    (depositIndex commitmentIndex : Z) : string :=
  "tc84'/btc'/" ++ path_type_string pathType ++ "'/" ++ itoa depositIndex ++ "'/"
  ++ itoa commitmentIndex ++ "'".

Definition VaultDepositLookaheadPathIndexes (pathType : VaultDepositPathType)
    : res (list Z) :=
  rfold (λ acc n,
    pathIndex ← VaultDepositPathIndex pathType (Z.of_nat n) DepositPathCommitmentRoot;
    Ok (acc ++ [pathIndex])%list) [] (seq 0 (Z.to_nat DepositAddressLookahead)).

Definition DeriveBTCTaprootAddress `{Ext} (pubkey : string) (pathIndex : Z) : res string :=
  match taproot_address_text pubkey pathIndex with
  | Some addr => Address.NewAddress addr
  | None => Err "fail to derive taproot address"
  end.
End VaultPath.

(** ** Transactions *)

Record TxInput := mkTxInput {
  in_TxId : string;
  in_Vout : Z;
  in_AmountSats : Z
}.

Record Tx := mkTx {
  tx_ID : string;
  tx_Chain : string;
  tx_FromAddress : string;
  tx_ToAddress : string;
  tx_Coins : list Coin;
  tx_Gas : list Coin;
  tx_SourceVout : Z;
  tx_SourceInputs : list TxInput
}.

Definition BTCOutpointScopedTxID (tx : Tx) : string :=
  if negb (Chain_Equals (tx_Chain tx) BTCChain) || TxID.IsEmpty (tx_ID tx)
     || (tx_SourceVout tx =? 0)
  then tx_ID tx
  else
    let sum := Sha256.Sum256Hex
      ("thornado:btc-outpoint:" ++ tx_ID tx ++ ":" ++ itoa (tx_SourceVout tx)) in
    match TxID.NewTxID sum with Ok id => id | _ => tx_ID tx end.

Module Tx.
Definition EqualsExIgnoreGas (tx tx2 : Tx) : bool :=
  TxID.Equals (tx_ID tx) (tx_ID tx2)
  && Chain_Equals (tx_Chain tx) (tx_Chain tx2)
  && Address.Equals (tx_FromAddress tx) (tx_FromAddress tx2)
  && Address.Equals (tx_ToAddress tx) (tx_ToAddress tx2)
  && Coins.EqualsEx (tx_Coins tx) (tx_Coins tx2)
  && (tx_SourceVout tx =? tx_SourceVout tx2).

Definition EqualsEx (tx tx2 : Tx) : bool :=
  TxID.Equals (tx_ID tx) (tx_ID tx2)
  && Chain_Equals (tx_Chain tx) (tx_Chain tx2)
  && Address.Equals (tx_FromAddress tx) (tx_FromAddress tx2)
  && Address.Equals (tx_ToAddress tx) (tx_ToAddress tx2)
  && Coins.EqualsEx (tx_Coins tx) (tx_Coins tx2)
  && Gas.Equals (tx_Gas tx) (tx_Gas tx2)
  && (tx_SourceVout tx =? tx_SourceVout tx2).

Definition IsEmpty (tx : Tx) : bool := TxID.IsEmpty (tx_ID tx).

Definition Valid (tx : Tx) : res unit :=
  if TxID.IsEmpty (tx_ID tx) then Err "Tx ID cannot be empty"
  else if Address.IsEmpty (tx_FromAddress tx) then Err "from address cannot be empty"
  else if Address.IsEmpty (tx_ToAddress tx) then Err "to address cannot be empty"
  else if Chain_IsEmpty (tx_Chain tx) then Err "chain cannot be empty"
  else if (length (tx_Coins tx) =? 0)%nat then Err "must have at least 1 coin"
  else
    _ ← Coins.Valid (tx_Coins tx);
    if negb (Chain_Equals (tx_Chain tx) BTCChain) && (length (tx_Gas tx) =? 0)%nat
    then Err "must have at least 1 gas coin"
    else Gas.Valid (tx_Gas tx).

Definition Hash (tx : Tx) (blockHeight : Z) : string :=
  Sha256.Sum256Hex (ToUpper (tx_Chain tx) ++ "|" ++ tx_FromAddress tx ++ "|"
    ++ Coins.String_ (tx_Coins tx) ++ "|" ++ tx_ToAddress tx ++ "|" ++ itoa blockHeight).
End Tx.

(** ** Lemmas *)

Lemma Chain_Equals_spec a b : Chain_Equals a b = true ↔ ToUpper a = ToUpper b.
Proof. unfold Chain_Equals. by rewrite EqualFold_upper, !ToUpper_idem. Qed.

(** Assets are compared by the upper case of their names. *)
Definition asset_key (a : Asset) : string * string * string * bool :=
  (ToUpper (a_Chain a), ToUpper (a_Symbol a), ToUpper (a_Ticker a), a_Secured a).

Lemma Asset_Equals_spec a b : Asset_Equals a b = true ↔ asset_key a = asset_key b.
Proof.
  unfold Asset_Equals, asset_key. rewrite !andb_true_iff, Chain_Equals_spec.
  rewrite !EqualFold_upper, !ToUpper_idem, Bool.eqb_true_iff.
  split; [intros [[[-> ->] ->] ->]; done|]. intros [= -> -> -> ->]. done.
Qed.

Lemma Asset_Equals_refl a : Asset_Equals a a = true.
Proof. by apply Asset_Equals_spec. Qed.

Lemma Asset_Equals_false a b : Asset_Equals a b = false ↔ asset_key a ≠ asset_key b.
Proof. rewrite <- not_true_iff_false. by rewrite Asset_Equals_spec. Qed.

Lemma Asset_Equals_iff a b a' b' :
  (asset_key a = asset_key b ↔ asset_key a' = asset_key b') →
  Asset_Equals a b = Asset_Equals a' b'.
Proof.
  intros H. destruct (Asset_Equals a b) eqn:E, (Asset_Equals a' b') eqn:E'; try done;
    rewrite ?Asset_Equals_spec, ?Asset_Equals_false in *; tauto.
Qed.

Module CoinsFacts.
  (** What a list of coins holds of an asset. *)
Definition amount (cs : list Coin) (a : Asset) : Z := c_Amount (Coins.GetCoin cs a).

Definition delta (a : Asset) (c : Coin) : Z :=
  if Asset_Equals a (c_Asset c) then c_Amount c else 0.

Definition total (a : Asset) (cs : list Coin) : Z := foldr (λ c acc, delta a c + acc) 0 cs.

Lemma total_cons a c cs : total a (c :: cs) = delta a c + total a cs.
Proof. done. Qed.

Lemma Add1_amount cs c cs' a :
  Coins.Add1 cs c = Ok cs' → amount cs' a = amount cs a + delta a c.
Proof.
  unfold amount, delta. revert cs'. induction cs as [|item cs IH]; intros cs'; cbn.
  - intros [= <-]. cbn. by destruct (Asset_Equals a (c_Asset c)).
  - destruct (Asset_Equals (c_Asset item) (c_Asset c)) eqn:E.
    + unfold uint_add. destruct (_ <? two256); cbn; [|done]. intros [= <-]. cbn.
      apply Asset_Equals_spec in E.
      rewrite (Asset_Equals_iff a (c_Asset c) a (c_Asset item)) by (by rewrite E).
      destruct (Asset_Equals a (c_Asset item)); cbn; lia.
    + destruct (Coins.Add1 cs c) as [rest| |]; cbn; [|done|done]. intros [= <-]. cbn.
      destruct (Asset_Equals a (c_Asset item)) eqn:E'.
      * replace (Asset_Equals a (c_Asset c)) with false; [lia|].
        symmetry. apply Asset_Equals_false. apply Asset_Equals_spec in E'.
        apply Asset_Equals_false in E. congruence.
      * by apply IH.
Qed.

Lemma Add_amount cs adds cs' a :
  Coins.Add cs adds = Ok cs' → amount cs' a = amount cs a + total a adds.
Proof.
  unfold Coins.Add. revert cs. induction adds as [|c adds IH]; intros cs; cbn [rfold].
  - intros [= ->]. cbn. lia.
  - rewrite total_cons. cbn. destruct (Coins.Add1 cs c) as [cs1| |] eqn:E; cbn; [|done|done].
    intros H. rewrite (IH _ H), (Add1_amount _ _ _ a E). lia.
Qed.

Lemma SafeSub1_amount cs c a :
  0 <= amount cs a → 0 <= c_Amount c →
  amount (Coins.SafeSub1 cs c) a = Z.max 0 (amount cs a - delta a c).
Proof.
  unfold amount, delta. intros H Hc. induction cs as [|item cs IH]; cbn in *.
  - destruct (Asset_Equals a (c_Asset c)); lia.
  - destruct (Asset_Equals (c_Asset item) (c_Asset c)) eqn:E; cbn.
    + apply Asset_Equals_spec in E.
      rewrite (Asset_Equals_iff a (c_Asset c) a (c_Asset item)) by (by rewrite E).
      destruct (Asset_Equals a (c_Asset item)); cbn; [|lia].
      unfold SafeSub. destruct (_ <? _) eqn:E'; lia.
    + destruct (Asset_Equals a (c_Asset item)) eqn:E'; [|by apply IH].
      replace (Asset_Equals a (c_Asset c)) with false; [lia|].
      symmetry. apply Asset_Equals_false. apply Asset_Equals_spec in E'.
      apply Asset_Equals_false in E. congruence.
Qed.

Lemma total_nonneg a cs : Forall (λ c, 0 <= c_Amount c) cs → 0 <= total a cs.
Proof.
  induction 1 as [|c cs Hc Hcs IH]; [done|]. rewrite total_cons. unfold delta.
  destruct (Asset_Equals a (c_Asset c)); lia.
Qed.

Lemma SafeSub_amount cs subs a :
  0 <= amount cs a → Forall (λ c, 0 <= c_Amount c) subs →
  amount (Coins.SafeSub cs subs) a = Z.max 0 (amount cs a - total a subs).
Proof.
  unfold Coins.SafeSub. intros H Hs. revert cs H.
  induction Hs as [|c subs Hc Hs IH]; intros cs H; [cbn; lia|].
  cbn [foldl]. rewrite total_cons, IH by (rewrite SafeSub1_amount; lia).
  rewrite SafeSub1_amount by done.
  pose proof (total_nonneg a subs Hs). lia.
Qed.

Lemma SafeSub1_length cs c : length (Coins.SafeSub1 cs c) = length cs.
Proof. induction cs as [|i cs IH]; cbn; [done|]. destruct (Asset_Equals _ _); cbn; congruence. Qed.
End CoinsFacts.

Lemma GetUncappedShare_exact part total allocation r :
  0 < part → 0 < total → 0 < allocation → part ≠ total →
  GetUncappedShare part total allocation = Ok r →
  2 * (allocation * part) - total < 2 * (r * total) <= 2 * (allocation * part) + total.
Proof.
  intros Hp Ht Ha Hne. unfold GetUncappedShare.
  destruct (_ || _) eqn:E; [lia|]. destruct (part =? total) eqn:E2; [lia|].
  rewrite Z.shiftr_div_pow2, Z.quot_div_nonneg by (try apply Z.add_nonneg_nonneg;
    try apply Z.div_pos; nia). change (2 ^ 1) with 2.
  destruct (_ <? two256); [|done]. intros [= <-].
  Z.to_euclidean_division_equations. nia.
Qed.

Lemma GetSafeShare_le part total allocation r :
  0 <= part → 0 <= total → 0 <= allocation →
  GetSafeShare part total allocation = Ok r → 0 <= r <= allocation.
Proof.
  intros Hp Ht Ha. unfold GetSafeShare. set (p := if total <=? part then total else part).
  assert (Hle : 0 <= p <= total) by (unfold p; destruct (total <=? part) eqn:E; lia).
  clearbody p. unfold GetUncappedShare.
  destruct (_ || _) eqn:E; [intros [= <-]; lia|].
  destruct (p =? total) eqn:E2; [intros [= <-]; lia|].
  assert (Hh : 0 <= Z.shiftr total 1 < total).
  { rewrite Z.shiftr_div_pow2 by lia. change (2 ^ 1) with 2.
    Z.to_euclidean_division_equations. lia. }
  rewrite Z.quot_div_nonneg by nia. destruct (_ <? two256); [|done]. intros [= <-].
  split; [apply Z.div_pos; nia|]. apply Z.lt_succ_r, Z.div_lt_upper_bound; nia.
Qed.

Lemma VaultDepositPathIndex_ok pathType depositIndex r :
  0 <= depositIndex →
  VaultPath.VaultDepositPathIndex pathType depositIndex VaultPath.DepositPathCommitmentRoot
    = Ok r →
  r = depositIndex + 1 ∧ 1 <= r <= 2 ^ 32.
Proof.
  intros H0. unfold VaultPath.VaultDepositPathIndex, VaultPath.depositPathSegmentMask.
  destruct (_ <? depositIndex) eqn:E; [done|]. cbn.
  destruct pathType; [| |done]; rewrite u64_small by u64_lia; intros [= <-]; lia.
Qed.

Lemma NewTxID_64 h : String.length h = 64%nat → TxID.NewTxID h = Ok (ToUpper h).
Proof. intros H. unfold TxID.NewTxID. by rewrite H. Qed.

Lemma ToUpper_length s : String.length (ToUpper s) = String.length s.
Proof. apply smap_length. Qed.

Lemma string_app_inj_l (p s t : string) : p ++ s = p ++ t → s = t.
Proof. induction p as [|c p IH]; cbn; [done|]. intros [= H]. auto. Qed.

(** ** Properties *)

(** Adding coins to a vault balance adds, per asset, exactly the amounts
    of the added coins of that asset, and leaves the other assets alone. *)
Theorem coins_add_amounts (cs adds cs' : list Coin) (a : Asset) :
  Coins.Add cs adds = Ok cs' →
  c_Amount (Coins.GetCoin cs' a)
  = c_Amount (Coins.GetCoin cs a)
    + foldr (λ c acc, (if Asset_Equals a (c_Asset c) then c_Amount c else 0) + acc) 0 adds.
Proof. apply CoinsFacts.Add_amount. Qed.

Lemma coins_add_amounts_witness :
  let eth := mkAsset "BTC" "ETH" "ETH" false in
  c_Amount (Coins.GetCoin [NewCoin BTCAsset 15; NewCoin eth 7] BTCAsset) = 5 + (10 + (0 + 0)).
Proof.
  apply (coins_add_amounts [NewCoin BTCAsset 5]
    [NewCoin BTCAsset 10; NewCoin (mkAsset "BTC" "ETH" "ETH" false) 7]).
  vm_compute. reflexivity.
Defined.

(** Subtracting coins from a balance saturates at zero: per asset, the
    result is the old amount less everything subtracted, or nothing. *)
Theorem coins_safe_sub_amounts (cs subs : list Coin) (a : Asset) :
  0 <= c_Amount (Coins.GetCoin cs a) →
  Forall (λ c, 0 <= c_Amount c) subs →
  c_Amount (Coins.GetCoin (Coins.SafeSub cs subs) a)
  = Z.max 0 (c_Amount (Coins.GetCoin cs a)
      - foldr (λ c acc, (if Asset_Equals a (c_Asset c) then c_Amount c else 0) + acc) 0 subs).
Proof. apply CoinsFacts.SafeSub_amount. Qed.

Lemma coins_safe_sub_amounts_witness :
  c_Amount (Coins.GetCoin
    (Coins.SafeSub [NewCoin BTCAsset 5] [NewCoin BTCAsset 3; NewCoin BTCAsset 4]) BTCAsset)
  = Z.max 0 (5 - (3 + (4 + 0))).
Proof.
  apply (coins_safe_sub_amounts [NewCoin BTCAsset 5]
    [NewCoin BTCAsset 3; NewCoin BTCAsset 4] BTCAsset).
  - vm_compute. discriminate.
  - repeat constructor; vm_compute; discriminate.
Defined.

(** A share is the exact proportion rounded to the nearest unit (half up),
    and a safe share never exceeds the allocation. *)
Theorem share_rounding (part total allocation r r' : Z) :
  0 < part → 0 < total → 0 < allocation → part ≠ total →
  GetUncappedShare part total allocation = Ok r →
  GetSafeShare part total allocation = Ok r' →
  - total < 2 * (r * total - allocation * part) <= total ∧ 0 <= r' <= allocation.
Proof.
  intros Hp Ht Ha Hne Hr Hr'.
  pose proof (GetUncappedShare_exact _ _ _ _ Hp Ht Ha Hne Hr).
  split; [lia|]. eapply GetSafeShare_le; [..|exact Hr']; lia.
Qed.

Lemma share_rounding_witness :
  - 3 < 2 * (67 * 3 - 100 * 2) <= 3 ∧ 0 <= 67 <= 100.
Proof.
  apply (share_rounding 2 3 100 67 67); first [reflexivity | discriminate].
Defined.

(** The deposit path of an index is injective, fits 32 bits and is never
    the vault's main path: no two deposits of a vault share an address path,
    and none shares the vault's own. *)
Theorem deposit_path_injective (t t' : VaultPath.VaultDepositPathType) (i i' r r' : Z) :
  0 <= i → 0 <= i' →
  VaultPath.VaultDepositPathIndex t i VaultPath.DepositPathCommitmentRoot = Ok r →
  VaultPath.VaultDepositPathIndex t' i' VaultPath.DepositPathCommitmentRoot = Ok r' →
  r ≠ VaultPath.MainVaultPathIndex ∧ 0 < r <= 2 ^ 32 ∧ (r = r' → i = i').
Proof.
  intros Hi Hi' Hr Hr'. apply VaultDepositPathIndex_ok in Hr as [Hr Hb]; [|done].
  apply VaultDepositPathIndex_ok in Hr' as [Hr' _]; [|done].
  unfold VaultPath.MainVaultPathIndex. lia.
Qed.

Lemma deposit_path_injective_witness :
  1 ≠ VaultPath.MainVaultPathIndex ∧ 0 < 1 <= 2 ^ 32 ∧ (1 = 8 → 0 = 7).
Proof.
  apply (deposit_path_injective VaultPath.VaultDepositPathUser VaultPath.VaultDepositPathNode
    0 7 1 8); first [reflexivity | discriminate].
Defined.

(** Outputs of one Bitcoin transaction get different deposit ids: the id
    of an output is the digest of a text that determines the output, so equal
    ids of different outputs are a SHA-256 collision of their two texts; and a
    scoped id is always a well-formed transaction id. *)
Theorem outpoint_scoped_id (tx : Tx) (vout vout' : Z) :
  Chain_Equals (tx_Chain tx) BTCChain = true → TxID.IsEmpty (tx_ID tx) = false →
  0 < vout → 0 < vout' → vout ≠ vout' →
  let id v := BTCOutpointScopedTxID (mkTx (tx_ID tx) (tx_Chain tx) (tx_FromAddress tx)
    (tx_ToAddress tx) (tx_Coins tx) (tx_Gas tx) v (tx_SourceInputs tx)) in
  let text v := "thornado:btc-outpoint:" ++ tx_ID tx ++ ":" ++ itoa v in
  TxID.NewTxID (id vout) = Ok (id vout)
  ∧ id vout = Sha256.Sum256Hex (text vout) ∧ text vout ≠ text vout'
  ∧ (id vout = id vout' → Sha256.Sum256Hex (text vout) = Sha256.Sum256Hex (text vout')).
Proof.
  intros Hc He Hv Hv' Hne id text.
  assert (Hid : ∀ v, 0 < v → id v = Sha256.Sum256Hex
    ("thornado:btc-outpoint:" ++ tx_ID tx ++ ":" ++ itoa v)).
  { intros v Hpos. unfold id, BTCOutpointScopedTxID. cbn [tx_Chain tx_ID tx_SourceVout].
    rewrite Hc, He. destruct (v =? 0) eqn:E; [lia|]. cbn [negb orb].
    rewrite NewTxID_64 by apply Sha256.Sum256Hex_length.
    apply Sha256.Sum256Hex_upper. }
  split.
  - rewrite Hid, NewTxID_64 by (done || apply Sha256.Sum256Hex_length).
    by rewrite Sha256.Sum256Hex_upper.
  - rewrite !Hid by done. fold (text vout) (text vout').
    split; [reflexivity|]. split; [|intros Heq; exact Heq].
    intros Ht. unfold text in Ht. do 3 apply string_app_inj_l in Ht. apply itoa_inj in Ht; lia.
Qed.

Lemma outpoint_scoped_id_witness :
  let id v := BTCOutpointScopedTxID (mkTx "aa" "btc" "" "" [] [] v []) in
  TxID.NewTxID (id 1) = Ok (id 1)
  ∧ id 1 = Sha256.Sum256Hex "thornado:btc-outpoint:aa:1".
Proof.
  destruct (outpoint_scoped_id (mkTx "aa" "btc" "" "" [] [] 0 []) 1 2) as (H1 & H2 & _);
    [reflexivity|reflexivity|reflexivity|reflexivity|discriminate|].
  split; [exact H1|exact H2].
Defined.

(** Parsing a transaction id is idempotent for the 64-character hashes of
    Bitcoin, but not for the 66-character form: its upper-cased result is
    rejected by the parser. *)
Theorem NewTxID_idempotent (h t : string) :
  TxID.NewTxID h = Ok t →
  if (String.length h =? 66)%nat && negb (TxID.is_cosmos_indexed h)
  then ∃ e, TxID.NewTxID t = Err e
  else TxID.NewTxID t = Ok t.
Proof.
  unfold TxID.NewTxID at 1. intros Ht.
  destruct ((64 <? Z.of_nat (String.length h)) && TxID.is_cosmos_indexed h) eqn:E1.
  - injection Ht as <-. apply andb_true_iff in E1 as [E1 E1'].
    rewrite E1', andb_false_r. unfold TxID.NewTxID. by rewrite E1, E1'.
  - destruct (Z.of_nat (String.length h) =? 64) eqn:E2; [|
      destruct (Z.of_nat (String.length h) =? 66) eqn:E3].
    + injection Ht as <-. rewrite (proj2 (Nat.eqb_neq _ _)) by lia. cbn [andb].
      rewrite NewTxID_64 by (rewrite ToUpper_length; lia). by rewrite ToUpper_idem.
    + destruct (HasPrefix h "0x") eqn:Ep; [|done]. injection Ht as <-.
      rewrite (proj2 (Nat.eqb_eq _ _)) by lia.
      assert (Hlt : (64 <? Z.of_nat (String.length h)) = true) by lia.
      rewrite Hlt in E1. cbn in E1. rewrite E1. cbn [negb andb].
      destruct h as [|c0 [|c1 h]]; [done|done|]. unfold HasPrefix in Ep.
      cbn [String.prefix] in Ep. destruct (ascii_dec "0" c0) as [<-|]; [|done].
      destruct (ascii_dec "x" c1) as [<-|]; [|done].
      exists "txid error: must be 66 characters". unfold TxID.NewTxID.
      rewrite ToUpper_length, E2, E3, Hlt. cbn [andb]. reflexivity.
    + destruct (_ || _) eqn:E4; [|done]. injection Ht as <-.
      rewrite (proj2 (Nat.eqb_neq _ _)) by lia. cbn [andb].
      unfold TxID.NewTxID. by rewrite E1, E2, E3, E4.
Qed.

Lemma NewTxID_idempotent_witness :
  ∃ e, TxID.NewTxID ("0X" ++ TxID.BlankTxID) = Err e.
Proof.
  apply (NewTxID_idempotent ("0x" ++ TxID.BlankTxID) ("0X" ++ TxID.BlankTxID)).
  vm_compute. reflexivity.
Defined.

(** A small concrete instance of the external services, to run the model: keys
and accounts are their own addresses. *)
Module ToyExt.
Definition toy_ext : Ext := {|
  bech32_hrp := λ s, if HasPrefix s "thor" then Some "thor" else None;
  btc_decode_address := λ _ _, Some false;
  acc_pubkey_address := λ s, if is_empty s then None else Some s;
  cons_pubkey_valid := λ _, true;
  acc_from_bech32 := λ s, if is_empty s then None else Some s;
  taproot_address_text := λ s i, Some (s ++ itoa i)
|}.
End ToyExt.
