(* ===== verification/Types.v ===== *)
(** * State records of the chain (x/thornado/types/)

    The records the key-value store holds, field by field, with the zero value
    of each (a Go composite literal is a zero value with fields replaced) and
    the [Valid] and [Key] methods.  [uint64], [int64] and [uint32] fields are
    [Z]; [cosmos.Uint] amounts are non-negative [Z]. *)

From S2P Require Import Prelude GoStrings Sha256 Common.

(** ** Statuses *)

Definition DepositStatusAddressIssued : string := "address_issued".
Definition DepositStatusDepositObserved : string := "deposit_observed".
Definition DepositStatusDepositMatched : string := "deposit_matched".
Definition DepositStatusReturnQueued : string := "return_queued".
Definition DepositStatusReturnComplete : string := "return_complete".
Definition DepositStatusSettled : string := "settled".
Definition DepositStatusCommitted : string := "committed".
Definition DepositStatusKeysignQueued : string := "keysign_queued".
Definition DepositStatusErrata : string := "errata".

Definition ShielderRedeemStatusAuthorized : string := "authorized".
Definition ShielderRedeemStatusSettled : string := "settled".

Definition DepositSettlementUser : string := "user".
Definition DepositSettlementOperatorBond : string := "operator_bond".
Definition DepositSettlementOperatorSale : string := "operator_sale".
Definition DepositSettlementOperatorFee : string := "operator_fee".

Definition NodeSlotAuctionOpen : string := "open".
Definition NodeSlotAuctionSelected : string := "selected".
Definition NodeSlotAuctionExpired : string := "expired".
Definition NodeSlotAuctionSettled : string := "settled".

Definition ShielderRedeemPolicyUserBTC : string := "user_btc".
Definition ShielderRedeemPolicyBondEscrow : string := "bond_escrow".
Definition ShielderRedeemPolicyBidDeposit : string := "bid_deposit".

Definition TxOutTypeOut : string := "out".
Definition TxOutTypeRefund : string := "refund".
Definition TxOutTypeMigrate : string := "migrate".
Definition TxOutTypeSweep : string := "sweep".
Definition TxOutTypeConsolidate : string := "consolidate".

Definition TxOutStatusPendingBatch : string := "pending_batch".
Definition TxOutStatusPendingSign : string := "pending_sign".
Definition TxOutStatusPendingRetry : string := "pending_retry".
Definition TxOutStatusCancelled : string := "cancelled".
Definition TxOutStatusComplete : string := "complete".

Definition BaseName : string := "base".
Definition MaxNodeOperatorFeeBasisPoints : Z := 10000.

(** ** Shielder records *)

Record DepositSession := mkDepositSession {
  ds_Owner : string;
  ds_PowToken : string;
  ds_DepositAddress : string;
  ds_VaultPubKey : string;
  ds_DepositPathIndex : Z;
  ds_DepositPath : string;
  ds_DepositPathType : string;
  ds_DepositNonce : Z;
  ds_OperatorPubKey : string;
  ds_NodePubKey : string;
  ds_AuctionID : string;
  ds_CreatedHeight : Z;
  ds_ExpiresAtHeight : Z;
  ds_PurgeAtHeight : Z;
  ds_RefundEligibleHeight : Z;
  ds_PowDurationMs : Z;
  ds_PowDifficulty : Z;
  ds_Status : string;
  ds_DepositID : string;
  ds_InboundTxID : string;
  ds_SourceVout : Z;
  ds_BTCConfirmations : Z;
  ds_BTCConfirmationsRequired : Z;
  ds_BTCObservedHeight : Z
}.

#[export] Instance DepositSession_eta : Eta DepositSession := fun r =>
  mkDepositSession (ds_Owner r) (ds_PowToken r) (ds_DepositAddress r) (ds_VaultPubKey r)
    (ds_DepositPathIndex r) (ds_DepositPath r) (ds_DepositPathType r)
    (ds_DepositNonce r) (ds_OperatorPubKey r) (ds_NodePubKey r) (ds_AuctionID r)
    (ds_CreatedHeight r) (ds_ExpiresAtHeight r) (ds_PurgeAtHeight r)
    (ds_RefundEligibleHeight r) (ds_PowDurationMs r) (ds_PowDifficulty r) (ds_Status r)
    (ds_DepositID r) (ds_InboundTxID r) (ds_SourceVout r) (ds_BTCConfirmations r)
    (ds_BTCConfirmationsRequired r) (ds_BTCObservedHeight r).

Definition DepositSession_zero : DepositSession :=
  mkDepositSession "" "" "" "" 0 "" "" 0 "" "" "" 0 0 0 0 0 0 "" "" "" 0 0 0 0.

Record DepositRecord := mkDepositRecord {
  dr_DepositID : string;
  dr_Owner : string;
  dr_AmountSats : Z;
  dr_SweepComplete : bool;
  dr_ShieldedSats : Z;
  dr_DepositAddress : string;
  dr_ReturnAddress : string;
  dr_VaultPubKey : string;
  dr_DepositPathIndex : Z;
  dr_DepositPath : string;
  dr_DepositPathType : string;
  dr_DepositNonce : Z;
  dr_OperatorPubKey : string;
  dr_NodePubKey : string;
  dr_AuctionID : string;
  dr_Settlement : string;
  dr_SellerPayoutSats : Z;
  dr_ProtocolBondSats : Z;
  dr_NodeSlot : Z;
  dr_BondConfirmed : bool;
  dr_MatchedHeight : Z;
  dr_CreatedHeight : Z;
  dr_ExpiresAtHeight : Z;
  dr_PurgeAtHeight : Z;
  dr_RefundEligibleHeight : Z;
  dr_RefundQueuedHeight : Z;
  dr_PowDurationMs : Z;
  dr_PowDifficulty : Z;
  dr_Status : string;
  dr_InboundTxID : string;
  dr_SourceVout : Z;
  dr_BTCConfirmations : Z;
  dr_BTCConfirmationsRequired : Z;
  dr_BTCObservedHeight : Z
}.

#[export] Instance DepositRecord_eta : Eta DepositRecord := fun r =>
  mkDepositRecord (dr_DepositID r) (dr_Owner r) (dr_AmountSats r) (dr_SweepComplete r)
    (dr_ShieldedSats r) (dr_DepositAddress r) (dr_ReturnAddress r) (dr_VaultPubKey r)
    (dr_DepositPathIndex r) (dr_DepositPath r) (dr_DepositPathType r)
    (dr_DepositNonce r) (dr_OperatorPubKey r) (dr_NodePubKey r) (dr_AuctionID r)
    (dr_Settlement r) (dr_SellerPayoutSats r) (dr_ProtocolBondSats r) (dr_NodeSlot r)
    (dr_BondConfirmed r) (dr_MatchedHeight r) (dr_CreatedHeight r)
    (dr_ExpiresAtHeight r) (dr_PurgeAtHeight r) (dr_RefundEligibleHeight r)
    (dr_RefundQueuedHeight r) (dr_PowDurationMs r) (dr_PowDifficulty r) (dr_Status r)
    (dr_InboundTxID r) (dr_SourceVout r) (dr_BTCConfirmations r)
    (dr_BTCConfirmationsRequired r) (dr_BTCObservedHeight r).

Definition DepositRecord_zero : DepositRecord :=
  mkDepositRecord "" "" 0 false 0 "" "" "" 0 "" "" 0 "" "" "" "" 0 0 0 false 0 0 0 0 0 0
    0 0 "" "" 0 0 0 0.

Record DepositAddress := mkDepositAddress {
  da_Address : string;
  da_VaultPubKey : string;
  da_PathIndex : Z;
  da_Path : string;
  da_PathType : string;
  da_DepositNonce : Z;
  da_Owner : string;
  da_PowToken : string;
  da_OperatorPubKey : string;
  da_NodePubKey : string;
  da_AuctionID : string;
  da_CreatedHeight : Z;
  da_ExpiresAtHeight : Z;
  da_PurgeAtHeight : Z;
  da_PowDurationMs : Z;
  da_PowDifficulty : Z
}.

#[export] Instance DepositAddress_eta : Eta DepositAddress := fun r =>
  mkDepositAddress (da_Address r) (da_VaultPubKey r) (da_PathIndex r) (da_Path r)
    (da_PathType r) (da_DepositNonce r) (da_Owner r) (da_PowToken r)
    (da_OperatorPubKey r) (da_NodePubKey r) (da_AuctionID r) (da_CreatedHeight r)
    (da_ExpiresAtHeight r) (da_PurgeAtHeight r) (da_PowDurationMs r)
    (da_PowDifficulty r).

Definition DepositAddress_zero : DepositAddress :=
  mkDepositAddress "" "" 0 "" "" 0 "" "" "" "" "" 0 0 0 0 0.

Record DepositPowTiming := mkDepositPowTiming {
  pt_PowToken : string;
  pt_Owner : string;
  pt_DurationMs : Z;
  pt_Difficulty : Z;
  pt_CreatedHeight : Z;
  pt_DepositID : string;
  pt_DepositAmountSats : Z;
  pt_MatchedHeight : Z;
  pt_Deposited : bool
}.

#[export] Instance DepositPowTiming_eta : Eta DepositPowTiming := fun r =>
  mkDepositPowTiming (pt_PowToken r) (pt_Owner r) (pt_DurationMs r) (pt_Difficulty r)
    (pt_CreatedHeight r) (pt_DepositID r) (pt_DepositAmountSats r) (pt_MatchedHeight r)
    (pt_Deposited r).

Definition DepositPowTiming_zero : DepositPowTiming :=
  mkDepositPowTiming "" "" 0 0 0 "" 0 0 false.

Record DepositPowDifficultyState := mkDepositPowDifficultyState {
  pd_Difficulty : Z;
  pd_LastRetargetHeight : Z;
  pd_SampleCount : Z;
  pd_WeightedP90Ms : Z;
  pd_UpdatedHeight : Z
}.

#[export] Instance DepositPowDifficultyState_eta : Eta DepositPowDifficultyState := fun r =>
  mkDepositPowDifficultyState (pd_Difficulty r) (pd_LastRetargetHeight r)
    (pd_SampleCount r) (pd_WeightedP90Ms r) (pd_UpdatedHeight r).

Definition DepositPowDifficultyState_zero : DepositPowDifficultyState :=
  mkDepositPowDifficultyState 0 0 0 0 0.

Record ShielderNodeBond := mkShielderNodeBond {
  nb_NodePubKey : string;
  nb_OperatorPubKey : string;
  nb_NodeAddress : string;
  nb_Slot : Z;
  nb_PendingSats : Z;
  nb_BondSats : Z;
  nb_FeeDebtSats : Z;
  nb_FeeShareActive : bool;
  nb_OperatorFeeBasisPoints : Z;
  nb_OperatorFeeAccruedSats : Z;
  nb_FeePerBondShare : Z;
  nb_FeePerBondShareRemainder : Z;
  nb_PendingFeeDepositID : string;
  nb_PendingOperatorFeeDepositID : string;
  nb_Bonders : list string;
  nb_Sold : bool;
  nb_SoldAuctionID : string;
  nb_CreatedHeight : Z;
  nb_UpdatedHeight : Z
}.

#[export] Instance ShielderNodeBond_eta : Eta ShielderNodeBond := fun r =>
  mkShielderNodeBond (nb_NodePubKey r) (nb_OperatorPubKey r) (nb_NodeAddress r)
    (nb_Slot r) (nb_PendingSats r) (nb_BondSats r) (nb_FeeDebtSats r)
    (nb_FeeShareActive r) (nb_OperatorFeeBasisPoints r) (nb_OperatorFeeAccruedSats r)
    (nb_FeePerBondShare r) (nb_FeePerBondShareRemainder r) (nb_PendingFeeDepositID r)
    (nb_PendingOperatorFeeDepositID r) (nb_Bonders r) (nb_Sold r) (nb_SoldAuctionID r)
    (nb_CreatedHeight r) (nb_UpdatedHeight r).

Definition ShielderNodeBond_zero : ShielderNodeBond :=
  mkShielderNodeBond "" "" "" 0 0 0 0 false 0 0 0 0 "" "" [] false "" 0 0.

Record ShielderNodeBonder := mkShielderNodeBonder {
  br_NodePubKey : string;
  br_Bonder : string;
  br_PendingSats : Z;
  br_PrincipalSats : Z;
  br_FeeDebtShare : Z;
  br_PendingFeeDepositID : string;
  br_SaleEntitlementID : string;
  br_SalePayoutSats : Z;
  br_CreatedHeight : Z;
  br_UpdatedHeight : Z
}.

#[export] Instance ShielderNodeBonder_eta : Eta ShielderNodeBonder := fun r =>
  mkShielderNodeBonder (br_NodePubKey r) (br_Bonder r) (br_PendingSats r)
    (br_PrincipalSats r) (br_FeeDebtShare r) (br_PendingFeeDepositID r)
    (br_SaleEntitlementID r) (br_SalePayoutSats r) (br_CreatedHeight r)
    (br_UpdatedHeight r).

Definition ShielderNodeBonder_zero : ShielderNodeBonder :=
  mkShielderNodeBonder "" "" 0 0 0 "" "" 0 0 0.

Record NodeSlotAuction := mkNodeSlotAuction {
  au_AuctionID : string;
  au_Seller : string;
  au_SellerOperatorPubKey : string;
  au_SellerNodePubKey : string;
  au_Slot : Z;
  au_OriginalBondSats : Z;
  au_ReserveSats : Z;
  au_ExpiryHeight : Z;
  au_SelectedBidID : string;
  au_Status : string;
  au_CreatedHeight : Z;
  au_UpdatedHeight : Z
}.

#[export] Instance NodeSlotAuction_eta : Eta NodeSlotAuction := fun r =>
  mkNodeSlotAuction (au_AuctionID r) (au_Seller r) (au_SellerOperatorPubKey r)
    (au_SellerNodePubKey r) (au_Slot r) (au_OriginalBondSats r) (au_ReserveSats r)
    (au_ExpiryHeight r) (au_SelectedBidID r) (au_Status r) (au_CreatedHeight r)
    (au_UpdatedHeight r).

Definition NodeSlotAuction_zero : NodeSlotAuction :=
  mkNodeSlotAuction "" "" "" "" 0 0 0 0 "" "" 0 0.

Record NodeSlotBid := mkNodeSlotBid {
  bd_BidID : string;
  bd_AuctionID : string;
  bd_Bidder : string;
  bd_OperatorPubKey : string;
  bd_NodePubKey : string;
  bd_DepositAddress : string;
  bd_DepositID : string;
  bd_AmountSats : Z;
  bd_Selected : bool;
  bd_Settled : bool;
  bd_CreatedHeight : Z;
  bd_UpdatedHeight : Z
}.

#[export] Instance NodeSlotBid_eta : Eta NodeSlotBid := fun r =>
  mkNodeSlotBid (bd_BidID r) (bd_AuctionID r) (bd_Bidder r) (bd_OperatorPubKey r)
    (bd_NodePubKey r) (bd_DepositAddress r) (bd_DepositID r) (bd_AmountSats r)
    (bd_Selected r) (bd_Settled r) (bd_CreatedHeight r) (bd_UpdatedHeight r).

Definition NodeSlotBid_zero : NodeSlotBid :=
  mkNodeSlotBid "" "" "" "" "" "" "" 0 false false 0 0.

Record FeePool := mkFeePool {
  fp_PendingSats : Z;
  fp_TotalSlots : Z;
  fp_FeePerSlotShare : Z;
  fp_TotalCollectedSats : Z;
  fp_TotalClaimedSats : Z
}.

#[export] Instance FeePool_eta : Eta FeePool := fun r =>
  mkFeePool (fp_PendingSats r) (fp_TotalSlots r) (fp_FeePerSlotShare r)
    (fp_TotalCollectedSats r) (fp_TotalClaimedSats r).

Definition FeePool_zero : FeePool :=
  mkFeePool 0 0 0 0 0.

Record StoredShielderNoteRecord := mkStoredShielderNoteRecord {
  sn_Commitment : string;
  sn_DenominationSats : Z;
  sn_CreatedHeight : Z;
  sn_LeafIndex : Z
}.

#[export] Instance StoredShielderNoteRecord_eta : Eta StoredShielderNoteRecord := fun r =>
  mkStoredShielderNoteRecord (sn_Commitment r) (sn_DenominationSats r)
    (sn_CreatedHeight r) (sn_LeafIndex r).

Definition StoredShielderNoteRecord_zero : StoredShielderNoteRecord :=
  mkStoredShielderNoteRecord "" 0 0 0.

Record StoredShielderTreeState := mkStoredShielderTreeState {
  ts_DenominationSats : Z;
  ts_NextIndex : Z;
  ts_FilledSubtrees : list string;
  ts_Root : string
}.

#[export] Instance StoredShielderTreeState_eta : Eta StoredShielderTreeState := fun r =>
  mkStoredShielderTreeState (ts_DenominationSats r) (ts_NextIndex r)
    (ts_FilledSubtrees r) (ts_Root r).

Definition StoredShielderTreeState_zero : StoredShielderTreeState :=
  mkStoredShielderTreeState 0 0 [] "".

Record StoredShielderNullifierRecord := mkStoredShielderNullifierRecord {
  nr_NullifierHash : string;
  nr_WithdrawalID : string;
  nr_CreatedHeight : Z
}.

#[export] Instance StoredShielderNullifierRecord_eta : Eta StoredShielderNullifierRecord := fun r =>
  mkStoredShielderNullifierRecord (nr_NullifierHash r) (nr_WithdrawalID r)
    (nr_CreatedHeight r).

Definition StoredShielderNullifierRecord_zero : StoredShielderNullifierRecord :=
  mkStoredShielderNullifierRecord "" "" 0.

Record ShielderRedeem := mkShielderRedeem {
  sr_WithdrawalID : string;
  sr_NullifierHash : string;
  sr_MerkleRoot : string;
  sr_Recipient : string;
  sr_RecipientPolicy : string;
  sr_BidID : string;
  sr_NodePubKey : string;
  sr_AmountSats : Z;
  sr_FeeSats : Z;
  sr_InHash : string;
  sr_OutHash : string;
  sr_VaultPubKey : string;
  sr_RequestedHeight : Z;
  sr_Status : string
}.

#[export] Instance ShielderRedeem_eta : Eta ShielderRedeem := fun r =>
  mkShielderRedeem (sr_WithdrawalID r) (sr_NullifierHash r) (sr_MerkleRoot r)
    (sr_Recipient r) (sr_RecipientPolicy r) (sr_BidID r) (sr_NodePubKey r)
    (sr_AmountSats r) (sr_FeeSats r) (sr_InHash r) (sr_OutHash r) (sr_VaultPubKey r)
    (sr_RequestedHeight r) (sr_Status r).

Definition ShielderRedeem_zero : ShielderRedeem :=
  mkShielderRedeem "" "" "" "" "" "" "" 0 0 "" "" "" 0 "".

(** ** Outbound transactions *)

Record TxOutInput := mkTxOutInput {
  ti_TxId : string;
  ti_Vout : Z;
  ti_AmountSats : Z;
  ti_PathIndex : Z
}.

#[export] Instance TxOutInput_eta : Eta TxOutInput := fun r =>
  mkTxOutInput (ti_TxId r) (ti_Vout r) (ti_AmountSats r) (ti_PathIndex r).

Definition TxOutInput_zero : TxOutInput :=
  mkTxOutInput "" 0 0 0.

Record TxOutItem := mkTxOutItem {
  to_Chain : string;
  to_ToAddress : string;
  to_VaultPubKey : string;
  to_Coin : Coin;
  to_MaxGas : list Coin;
  to_GasRate : Z;
  to_InHash : string;
  to_OutHash : string;
  to_ModuleName : string;
  to_Aggregator : string;
  to_AggregatorTargetAsset : string;
  to_AggregatorTargetLimit : option Z;
  to_VaultPubKeyEddsa : string;
  to_VaultPathIndex : Z;
  to_TxType : string;
  to_OutVout : Z;
  to_SourceInputs : list TxOutInput
}.

#[export] Instance TxOutItem_eta : Eta TxOutItem := fun r =>
  mkTxOutItem (to_Chain r) (to_ToAddress r) (to_VaultPubKey r) (to_Coin r) (to_MaxGas r)
    (to_GasRate r) (to_InHash r) (to_OutHash r) (to_ModuleName r) (to_Aggregator r)
    (to_AggregatorTargetAsset r) (to_AggregatorTargetLimit r) (to_VaultPubKeyEddsa r)
    (to_VaultPathIndex r) (to_TxType r) (to_OutVout r) (to_SourceInputs r).

Definition TxOutItem_zero : TxOutItem :=
  mkTxOutItem "" "" "" NoCoin [] 0 "" "" "" "" "" None "" 0 "" 0 [].

Record TxOut := mkTxOut {
  txo_Height : Z;
  txo_TxArray : list TxOutItem;
  txo_Epoch : Z;
  txo_Status : string;
  txo_SigningLeader : string;
  txo_SigningAttempt : Z;
  txo_RetryUntilHeight : Z
}.

#[export] Instance TxOut_eta : Eta TxOut := fun r =>
  mkTxOut (txo_Height r) (txo_TxArray r) (txo_Epoch r) (txo_Status r) (txo_SigningLeader r)
    (txo_SigningAttempt r) (txo_RetryUntilHeight r).

Definition TxOut_zero : TxOut :=
  mkTxOut 0 [] 0 "" "" 0 0.

(** ** Signing times (type_frost_metric.go) *)

Record NodeFrostTime := mkNodeFrostTime { ft_Address : string; ft_FrostTime : Z }.
#[export] Instance NodeFrostTime_eta : Eta NodeFrostTime := fun r =>
  mkNodeFrostTime (ft_Address r) (ft_FrostTime r).

(** [FrostKeygenMetric] and [FrostKeysignMetric]: the key is the vault's public
    key or the transaction's id. *)
Record FrostMetric := mkFrostMetric { fm_Key : string; fm_NodeFrostTimes : list NodeFrostTime }.
#[export] Instance FrostMetric_eta : Eta FrostMetric := fun r =>
  mkFrostMetric (fm_Key r) (fm_NodeFrostTimes r).

Module FrostMetrics.
(** The first entry of the node is overwritten; a new one is appended. *)
Fixpoint set_time (addr : string) (time : Z) (times : list NodeFrostTime) : list NodeFrostTime :=
  match times with
  | [] => [mkNodeFrostTime addr time]
  | t :: times =>
      if Acc_Equals (ft_Address t) addr then (t <| ft_FrostTime := time |>) :: times
      else t :: set_time addr time times
  end.
Definition AddNodeFrostTime (m : FrostMetric) (addr : string) (time : Z) : FrostMetric :=
  m <| fm_NodeFrostTimes := set_time addr time (fm_NodeFrostTimes m) |>.

Definition getMedianTime (times : list NodeFrostTime) : Z :=
  let sorted := insert_sort (λ a b, ft_FrostTime a <? ft_FrostTime b) times in
  let at_index i := default 0 (ft_FrostTime <$> sorted !! i) in
  let n := length times in
  let mid := (n / 2)%nat in
  if (n =? 0)%nat then 0
  else if Nat.odd n then at_index mid
  else Z.quot (at_index (mid - 1)%nat +i at_index mid) 2.
End FrostMetrics.

(** ** Nodes *)

Inductive NodeStatus :=
  NodeUnknown | NodeWhiteListed | NodeStandby | NodeSelected | NodeActive | NodeDisabled.
#[export] Instance NodeStatus_eq_dec : EqDecision NodeStatus.
Proof. solve_decision. Defined.

Inductive NodeType := TypeNode | TypeVault | TypeUnknown.
#[export] Instance NodeType_eq_dec : EqDecision NodeType.
Proof. solve_decision. Defined.

Record PubKeySet := mkPubKeySet { pks_Secp256k1 : string; pks_Ed25519 : string }.
Definition EmptyPubKeySet : PubKeySet := mkPubKeySet "" "".

Record NodeAccount := mkNodeAccount {
  na_NodeAddress : string;
  na_Status : NodeStatus;
  na_PubKeySet : PubKeySet;
  na_NodeConsPubKey : string;
  na_Bond : Z;
  na_ActiveBlockHeight : Z;
  na_BondAddress : string;
  na_StatusSince : Z;
  na_SignerMembership : list string;
  na_RequestedToLeave : bool;
  na_ForcedToLeave : bool;
  na_LeaveScore : Z;
  na_IPAddress : string;
  na_Version : string;
  na_Type : NodeType;
  na_MissingBlocks : Z;
  na_Maintenance : bool
}.

#[export] Instance NodeAccount_eta : Eta NodeAccount := fun r =>
  mkNodeAccount (na_NodeAddress r) (na_Status r) (na_PubKeySet r) (na_NodeConsPubKey r)
    (na_Bond r) (na_ActiveBlockHeight r) (na_BondAddress r) (na_StatusSince r)
    (na_SignerMembership r) (na_RequestedToLeave r) (na_ForcedToLeave r)
    (na_LeaveScore r) (na_IPAddress r) (na_Version r) (na_Type r) (na_MissingBlocks r)
    (na_Maintenance r).

Definition NodeAccount_zero : NodeAccount :=
  mkNodeAccount "" NodeUnknown EmptyPubKeySet "" 0 0 "" 0 [] false false 0 "" ""
    TypeNode 0 false.

(** [LastChangedHeight] is zero in a record that was never stored. *)
Record MinJoinLast := mkMinJoinLast {
  mj_LastChangedHeight : Z;
  mj_Version : string
}.
Definition MinJoinLast_zero : MinJoinLast := mkMinJoinLast 0 "".

Record Jail := mkJail {
  jl_NodeAddress : string;
  jl_ReleaseHeight : Z;
  jl_Reason : string
}.

#[export] Instance Jail_eta : Eta Jail := fun r =>
  mkJail (jl_NodeAddress r) (jl_ReleaseHeight r) (jl_Reason r).

Definition NewJail (addr : string) : Jail := mkJail addr 0 "".

(** ** Key generation ceremonies *)

Inductive KeygenType := UnknownKeygen | BaseVaultKeygen.
#[export] Instance KeygenType_eq_dec : EqDecision KeygenType.
Proof. solve_decision. Defined.

Definition KeygenType_String (t : KeygenType) : string :=
  match t with UnknownKeygen => "UnknownKeygen" | BaseVaultKeygen => "BaseVaultKeygen" end.

Record Keygen := mkKeygen {
  kg_ID : string;
  kg_Type : KeygenType;
  kg_Members : list string
}.

Record KeygenBlock := mkKeygenBlock {
  kb_Height : Z;
  kb_Keygens : list Keygen
}.

#[export] Instance KeygenBlock_eta : Eta KeygenBlock := fun r =>
  mkKeygenBlock (kb_Height r) (kb_Keygens r).

Definition NewKeygenBlock (height : Z) : KeygenBlock := mkKeygenBlock height [].

(** ** Vaults and network fees *)

Inductive VaultType := UnknownVault | BaseVault.
#[export] Instance VaultType_eq_dec : EqDecision VaultType.
Proof. solve_decision. Defined.

Inductive VaultStatus := InactiveVault | ActiveVault | RetiringVault | InitVault.
#[export] Instance VaultStatus_eq_dec : EqDecision VaultStatus.
Proof. solve_decision. Defined.

Record Vault := mkVault {
  va_BlockHeight : Z;
  va_PubKey : string;
  va_Coins : list Coin;
  va_Type : VaultType;
  va_Status : VaultStatus;
  va_StatusSince : Z;
  va_Membership : list string;
  va_Chains : list string;
  va_InboundTxCount : Z;
  va_OutboundTxCount : Z;
  va_PendingTxBlockHeights : list Z;
  va_Frozen : list string;
  va_PubKeyEddsa : string
}.

#[export] Instance Vault_eta : Eta Vault := fun r =>
  mkVault (va_BlockHeight r) (va_PubKey r) (va_Coins r) (va_Type r) (va_Status r)
    (va_StatusSince r) (va_Membership r) (va_Chains r) (va_InboundTxCount r)
    (va_OutboundTxCount r) (va_PendingTxBlockHeights r) (va_Frozen r) (va_PubKeyEddsa r).

Definition Vault_zero : Vault :=
  mkVault 0 "" [] UnknownVault InactiveVault 0 [] [] 0 0 [] [] "".

Record NetworkFee := mkNetworkFee {
  nf_Chain : string;
  nf_TransactionSize : Z;
  nf_TransactionFeeRate : Z
}.

#[export] Instance NetworkFee_eta : Eta NetworkFee := fun r =>
  mkNetworkFee (nf_Chain r) (nf_TransactionSize r) (nf_TransactionFeeRate r).

Definition NetworkFee_zero : NetworkFee :=
  mkNetworkFee "" 0 0.

(** ** Observed transactions *)

Inductive Status := Status_incomplete | Status_done | Status_reverted.
#[export] Instance Status_eq_dec : EqDecision Status.
Proof. solve_decision. Defined.

Definition Tx_zero : Tx := mkTx "" "" "" "" [] [] 0 [].

Record ObservedTx := mkObservedTx {
  ot_Tx : Tx;
  ot_Status : Status;
  ot_OutHashes : list string;
  ot_BlockHeight : Z;
  ot_Signers : list string;
  ot_ObservedPubKey : string;
  ot_KeysignMs : Z;
  ot_FinaliseHeight : Z;
  ot_Aggregator : string;
  ot_AggregatorTarget : string;
  ot_AggregatorTargetLimit : option Z
}.

#[export] Instance ObservedTx_eta : Eta ObservedTx := fun r =>
  mkObservedTx (ot_Tx r) (ot_Status r) (ot_OutHashes r) (ot_BlockHeight r)
    (ot_Signers r) (ot_ObservedPubKey r) (ot_KeysignMs r) (ot_FinaliseHeight r)
    (ot_Aggregator r) (ot_AggregatorTarget r) (ot_AggregatorTargetLimit r).

Definition ObservedTx_zero : ObservedTx :=
  mkObservedTx Tx_zero Status_incomplete [] 0 [] "" 0 0 "" "" None.

(** ** Validation *)

(** The guards of a [Valid] method, in order. *)
Fixpoint first_error (guards : list (bool * string)) : res unit :=
  match guards with
  | [] => Ok tt
  | (b, e) :: rest => if b then Err e else first_error rest
  end.

Definition DepositSession_Key (m : DepositSession) : string := ds_Owner m.

Definition DepositSession_Valid (m : DepositSession) : res unit :=
  first_error
    [(Acc_Empty (ds_Owner m), "missing deposit owner");
     (is_blank (ds_PowToken m), "missing deposit pow token");
     (Address.IsEmpty (ds_DepositAddress m), "missing deposit address");
     (PubKey.IsEmpty (ds_VaultPubKey m), "missing deposit vault pubkey")].

Definition IsNodeBond (m : DepositRecord) : bool := negb (is_blank (dr_NodePubKey m)).

Definition DepositRecord_Valid (m : DepositRecord) : res unit :=
  first_error
    [(TxID.IsEmpty (dr_DepositID m), "missing deposit id");
     (Acc_Empty (dr_Owner m), "missing deposit owner");
     (dr_AmountSats m =? 0, "missing deposit amount");
     (dr_AmountSats m <? dr_ShieldedSats m, "shielded amount exceeds deposit amount");
     (Address.IsEmpty (dr_DepositAddress m), "missing deposit address");
     (PubKey.IsEmpty (dr_VaultPubKey m) && negb (Address.IsNoop (dr_DepositAddress m)),
      "missing deposit vault pubkey")].

Definition DepositPowTiming_Key (m : DepositPowTiming) : string := TrimSpace (pt_PowToken m).

Definition DepositPowTiming_Valid (m : DepositPowTiming) : res unit :=
  first_error
    [(is_blank (pt_PowToken m), "missing deposit pow token");
     (Acc_Empty (pt_Owner m), "missing deposit pow owner");
     (pt_Difficulty m <? 0, "invalid deposit pow difficulty")].

Definition DepositAddress_Valid (m : DepositAddress) : res unit :=
  first_error
    [(Address.IsEmpty (da_Address m), "missing deposit address");
     (PubKey.IsEmpty (da_VaultPubKey m), "missing deposit address vault pubkey");
     (da_PathIndex m =? VaultPath.MainVaultPathIndex,
      "deposit address path index cannot be zero");
     (Acc_Empty (da_Owner m), "missing deposit address owner");
     (is_blank (da_PowToken m), "missing deposit address pow token")].

Definition NodeSlotAuction_Key (m : NodeSlotAuction) : string := TrimSpace (au_AuctionID m).

Definition NodeSlotAuction_Valid (m : NodeSlotAuction) : res unit :=
  first_error
    [(is_blank (au_AuctionID m), "missing node slot auction id");
     (Acc_Empty (au_Seller m), "missing node slot auction seller");
     (PubKey.IsEmpty (au_SellerOperatorPubKey m),
      "missing node slot auction seller operator pubkey");
     (is_blank (au_SellerNodePubKey m), "missing node slot auction seller node pubkey");
     (au_OriginalBondSats m =? 0, "missing node slot auction original bond");
     (au_ExpiryHeight m <=? 0, "missing node slot auction expiry");
     (is_blank (au_Status m), "missing node slot auction status")].

Definition NodeSlotBid_Key (m : NodeSlotBid) : string := TrimSpace (bd_BidID m).

Definition NodeSlotBid_Valid (m : NodeSlotBid) : res unit :=
  first_error
    [(is_blank (bd_BidID m), "missing node slot bid id");
     (is_blank (bd_AuctionID m), "missing node slot bid auction id");
     (Acc_Empty (bd_Bidder m), "missing node slot bid bidder");
     (PubKey.IsEmpty (bd_OperatorPubKey m), "missing node slot bid operator pubkey");
     (is_blank (bd_NodePubKey m), "missing node slot bid node pubkey")].

Definition ShielderNodeBond_Key (m : ShielderNodeBond) : string := TrimSpace (nb_NodePubKey m).

Definition ShielderNodeBond_Valid (m : ShielderNodeBond) : res unit :=
  first_error
    [(is_blank (nb_NodePubKey m), "missing shielder node pubkey");
     (PubKey.IsEmpty (nb_OperatorPubKey m), "missing shielder node operator pubkey");
     (Acc_Empty (nb_NodeAddress m), "missing shielder node node address")].

Definition ShielderNodeBonderKey (nodePubKey bonder : string) : string :=
  TrimSpace nodePubKey ++ "/" ++ bonder.

Definition ShielderNodeBonder_Key (m : ShielderNodeBonder) : string :=
  ShielderNodeBonderKey (br_NodePubKey m) (br_Bonder m).

Definition ShielderNodeBonder_Valid (m : ShielderNodeBonder) : res unit :=
  first_error
    [(is_blank (br_NodePubKey m), "missing shielder node bonder node pubkey");
     (Acc_Empty (br_Bonder m), "missing shielder node bonder address")].

Definition StoredShielderTreeState_Valid (m : StoredShielderTreeState) : res unit :=
  first_error [(ts_DenominationSats m =? 0, "missing shielder tree denomination")].

Definition StoredShielderNoteRecord_Key (m : StoredShielderNoteRecord) : string :=
  TrimSpace (sn_Commitment m).

Definition StoredShielderNoteRecord_Valid (m : StoredShielderNoteRecord) : res unit :=
  first_error
    [(is_blank (sn_Commitment m), "missing shielder note commitment");
     (sn_DenominationSats m =? 0, "missing shielder note denomination")].

Definition ShielderRedeem_Valid `{Ext} (m : ShielderRedeem) : res unit :=
  first_error
    [(is_blank (sr_WithdrawalID m), "missing shielder redeem id");
     (is_blank (sr_NullifierHash m), "missing shielder nullifier hash");
     (is_blank (sr_MerkleRoot m), "missing shielder merkle root");
     (Address.IsEmpty (sr_Recipient m), "missing shielder redeem recipient");
     (negb (Address.IsBondEscrow (sr_Recipient m))
      && negb (Chain_Equals (Address.GetChain (sr_Recipient m)) BTCChain),
      "shielder redeem recipient must be bitcoin or bond escrow");
     (sr_AmountSats m =? 0, "missing shielder redeem amount");
     (sr_AmountSats m <=? sr_FeeSats m, "shielder redeem fee exceeds amount");
     (TxID.IsEmpty (sr_InHash m), "missing shielder redeem in hash");
     (PubKey.IsEmpty (sr_VaultPubKey m), "missing shielder redeem vault pubkey")].

(** ** Outbound items *)

Definition NormalizeTxOutType (txType : string) : string :=
  let t := ToLower (TrimSpace txType) in
  if str_eq t TxOutTypeRefund then TxOutTypeRefund
  else if str_eq t TxOutTypeMigrate then TxOutTypeMigrate
  else if str_eq t TxOutTypeSweep then TxOutTypeSweep
  else if str_eq t TxOutTypeConsolidate then TxOutTypeConsolidate
  else TxOutTypeOut.

Definition IsBatchableTxOutType (txType : string) : bool :=
  let t := NormalizeTxOutType txType in str_eq t TxOutTypeOut || str_eq t TxOutTypeRefund.

Definition IsInternalTxOutType (txType : string) : bool :=
  let t := NormalizeTxOutType txType in
  str_eq t TxOutTypeSweep || str_eq t TxOutTypeConsolidate || str_eq t TxOutTypeMigrate.

Definition GetTxType (toi : TxOutItem) : string := NormalizeTxOutType (to_TxType toi).

Definition GetModuleName (toi : TxOutItem) : string :=
  if str_eq (to_ModuleName toi) "" then BaseName else to_ModuleName toi.

Definition TxOutItem_Valid (m : TxOutItem) : res unit :=
  _ ← first_error
    [(Chain_IsEmpty (to_Chain m), "chain cannot be empty");
     (TxID.IsEmpty (to_InHash m), "In Hash cannot be empty");
     (Address.IsEmpty (to_ToAddress m), "To address cannot be empty");
     (PubKey.IsEmpty (to_VaultPubKey m), "vault pubkey cannot be empty");
     (to_GasRate m =? 0, "gas rate is zero");
     (Asset_IsEmpty (Chain_GetGasAsset (to_Chain m)), "invalid base asset")];
  _ ← Coin_Valid (to_Coin m);
  Gas.Valid (to_MaxGas m).

Definition TxOutItem_Equals (m toi2 : TxOutItem) : bool :=
  Chain_Equals (to_Chain m) (to_Chain toi2)
  && Address.Equals (to_ToAddress m) (to_ToAddress toi2)
  && PubKey.Equals (to_VaultPubKey m) (to_VaultPubKey toi2)
  && Coin_Equals (to_Coin m) (to_Coin toi2)
  && TxID.Equals (to_InHash m) (to_InHash toi2)
  && (to_GasRate m =? to_GasRate toi2).

Definition txOutSourceInputsString (inputs : list TxOutInput) : string :=
  join "," (insert_sort str_lt
    (map (λ i, ti_TxId i ++ ":" ++ itoa (ti_Vout i) ++ ":" ++ itoa (ti_AmountSats i)) inputs)).

Definition TxOutItem_Hash (toi : TxOutItem) : string :=
  Sha256.Sum256Hex
    (ToUpper (to_Chain toi) ++ "|" ++ to_ToAddress toi ++ "|" ++ to_VaultPubKey toi ++ "|"
     ++ Coin_String (to_Coin toi) ++ "|" ++ to_InHash toi ++ "|"
     ++ txOutSourceInputsString (to_SourceInputs toi)).

Definition NewTxOut (height : Z) : TxOut := TxOut_zero <| txo_Height := height |>.

Definition TxOut_IsEmpty (m : TxOut) : bool := (length (txo_TxArray m) =? 0)%nat.

Definition TxOut_Valid (m : TxOut) : res unit :=
  rfold (λ _ toi, TxOutItem_Valid toi) tt (txo_TxArray m).

Definition txOutComplete (txOut : TxOut) : bool :=
  match txo_TxArray txOut with
  | [] => false
  | items => forallb (λ item, negb (TxID.IsEmpty (to_OutHash item))) items
  end.

Definition NetworkFee_Valid (m : NetworkFee) : res unit :=
  first_error
    [(Chain_IsEmpty (nf_Chain m), "chain can't be empty");
     (nf_TransactionSize m <=? 0, "transaction size can't be zero or negative");
     (nf_TransactionFeeRate m <=? 0, "transaction fee rate can't be zero")].

(** ** Node accounts *)

Definition UpdateStatus (m : NodeAccount) (status : NodeStatus) (height : Z) : NodeAccount :=
  if bool_decide (na_Status m = status) then m
  else
    let m := m <| na_Status := status |> <| na_StatusSince := height |> in
    if bool_decide (status = NodeActive) then m else m <| na_ActiveBlockHeight := 0 |>.

Definition NewNodeAccount (nodeAddress : string) (status : NodeStatus)
    (nodePubKeySet : PubKeySet) (nodeConsPubKey : string) (bond : Z) (bondAddress : string)
    (height : Z) : NodeAccount :=
  let na := NodeAccount_zero
    <| na_NodeAddress := nodeAddress |>
    <| na_PubKeySet := nodePubKeySet |>
    <| na_NodeConsPubKey := nodeConsPubKey |>
    <| na_Bond := bond |>
    <| na_BondAddress := bondAddress |> in
  UpdateStatus na status height.

Definition NodeAccount_IsEmpty (m : NodeAccount) : bool :=
  Acc_Empty (na_NodeAddress m) || bool_decide (na_Status m = NodeUnknown).

Definition NodeAccount_Valid (m : NodeAccount) : res unit :=
  first_error
    [(Acc_Empty (na_NodeAddress m), "node thor address is empty");
     (Address.IsEmpty (na_BondAddress m), "bond address is empty");
     (bool_decide (na_Status m = NodeUnknown), "node status cannot be unknown")].

(** [math.Max(0, float64(p))] is exact for penalties below 2^53. *)
Definition CalcBondUnits (m : NodeAccount) (height penaltypoints : Z) : Z :=
  let penaltypoints := Z.max 0 penaltypoints in
  if (height <? 0) || (na_ActiveBlockHeight m <? 0) then 0
  else
    let blockCount := height -i (na_ActiveBlockHeight m +i penaltypoints) in
    if blockCount <? 0 then 0 else blockCount.

Section Membership.
Context `{Ext}.

(** The members that parse as public keys. *)
Definition parse_pubkeys (l : list string) : list string :=
  omap (λ pk, match PubKey.NewPubKey pk with Ok p => Some p | _ => None end) l.

Definition GetSignerMembership (m : NodeAccount) : list string :=
  parse_pubkeys (na_SignerMembership m).

Definition TryAddSignerPubKey (m : NodeAccount) (key : string) : NodeAccount :=
  if PubKey.IsEmpty key then m
  else if PubKey.Contains (GetSignerMembership m) key then m
  else m <| na_SignerMembership := (na_SignerMembership m ++ [key])%list |>.

(** The last index of the key in the parsed list. *)
Definition last_index (key : string) (l : list string) : option nat :=
  foldl (λ acc '(i, item), if PubKey.Equals item key then Some i else acc) None
    (imap pair l).

(** The index found in the parsed list is deleted from the raw list. *)
Definition TryRemoveSignerPubKey (m : NodeAccount) (key : string) : NodeAccount :=
  if PubKey.IsEmpty key then m
  else match last_index key (GetSignerMembership m) with
       | Some i => m <| na_SignerMembership :=
           (take i (na_SignerMembership m) ++ drop (S i) (na_SignerMembership m))%list |>
       | None => m
       end.
End Membership.

Definition IsNodeKeys (nas : list NodeAccount) (addr : string) : bool :=
  existsb (λ na, bool_decide (na_Status na = NodeActive) && Acc_Equals addr (na_NodeAddress na)) nas.
