(* ===== verification/Vaults.v ===== *)
(** * Vaults (x/thornado/types/type_vault.go)

The balance a vault carries, the deduction of the outbounds that are still
pending, and the bookkeeping of pending transaction heights. *)

From S2P Require Import Prelude GoStrings Common Types.

(** [common.NewChain]: three to ten capital letters, and only bitcoin. *)
Definition is_capital (c : ascii) : bool :=
  (65 <=? Z.of_nat (nat_of_ascii c)) && (Z.of_nat (nat_of_ascii c) <=? 90).

Definition Chain_Valid (c : string) : res unit :=
  first_error
    [((String.length c <? 3)%nat, "chain id len is less than 3");
     ((10 <? String.length c)%nat, "chain id len is more than 10");
     (negb (all_chars is_capital c), "chain id can consist only of uppercase letters")].

Definition NewChain (chainID : string) : res string :=
  let chain := ToUpper chainID in
  _ ← Chain_Valid chain;
  if negb (Chain_Equals chain BTCChain) then Err "unsupported chain" else Ok chain.

Definition Chains_Has (chains : list string) (c : string) : bool :=
  existsb (λ ch, Chain_Equals ch c) chains.

Module Vault.
Definition NewVault (height : Z) (status : VaultStatus) (vtype : VaultType) (pk : string)
    (chains : list string) : Vault :=
  Vault_zero <| va_BlockHeight := height |> <| va_StatusSince := height |>
    <| va_PubKey := pk |> <| va_Type := vtype |> <| va_Status := status |>
    <| va_Chains := chains |>.

Definition NewVaultV2 (height : Z) (status : VaultStatus) (vtype : VaultType)
    (ecdsaPubKey : string) (chains : list string) (eddsaPubKey : string) : Vault :=
  (NewVault height status vtype ecdsaPubKey chains) <| va_PubKeyEddsa := eddsaPubKey |>.

Definition GetChains (m : Vault) : list string :=
  omap (λ c, match NewChain c with Ok chain => Some chain | _ => None end) (va_Chains m).

Definition GetMembership `{Ext} (m : Vault) : list string := parse_pubkeys (va_Membership m).

Definition IsType (m : Vault) (vtype : VaultType) : bool :=
  match va_Type m, vtype with
  | UnknownVault, UnknownVault | BaseVault, BaseVault => true
  | _, _ => false
  end.
Definition IsBase (m : Vault) : bool := IsType m BaseVault.

Definition status_eqb (s t : VaultStatus) : bool :=
  match s, t with
  | InactiveVault, InactiveVault | ActiveVault, ActiveVault
  | RetiringVault, RetiringVault | InitVault, InitVault => true
  | _, _ => false
  end.
Definition IsActive (m : Vault) : bool := status_eqb (va_Status m) ActiveVault.
Definition IsRetiring (m : Vault) : bool := status_eqb (va_Status m) RetiringVault.
Definition IsEmpty (m : Vault) : bool := PubKey.IsEmpty (va_PubKey m).

Definition Contains `{Ext} (m : Vault) (pubkey : string) : bool :=
  PubKey.Contains (GetMembership m) pubkey.

Definition MembershipEquals `{Ext} (m : Vault) (pks : list string) : bool :=
  (length (va_Membership m) =? length pks)%nat && forallb (Contains m) pks.

Definition UpdateStatus (m : Vault) (s : VaultStatus) (height : Z) : Vault :=
  m <| va_Status := s |> <| va_StatusSince := height |>.

Definition Valid `{Ext} (m : Vault) : res unit :=
  if PubKey.IsEmpty (va_PubKey m) then Err "pubkey cannot be empty"
  else match PubKey.NewPubKey (va_PubKey m) with
       | Ok _ => Ok tt
       | _ => Err "invalid vault pubkey"
       end.

Definition HasFunds (m : Vault) : bool :=
  existsb (λ coin, negb (c_Amount coin =? 0)) (va_Coins m).

Definition of_chain (chain : string) (coin : Coin) : bool :=
  Chain_Equals (a_Chain (c_Asset coin)) chain && negb (c_Amount coin =? 0).

Definition HasFundsForChain (m : Vault) (chain : string) : bool :=
  existsb (of_chain chain) (va_Coins m).

Definition CoinLength (m : Vault) : nat :=
  length (List.filter (λ coin, negb (c_Amount coin =? 0)) (va_Coins m)).

Definition CoinLengthByChain (m : Vault) (c : string) : nat :=
  length (List.filter (of_chain c) (va_Coins m)).

Definition GetCoin (m : Vault) (asset : Asset) : Coin :=
  match List.find (λ coin, Asset_Equals (c_Asset coin) asset) (va_Coins m) with
  | Some coin => coin
  | None => NewCoin asset 0
  end.

Definition HasAsset (m : Vault) (asset : Asset) : bool :=
  negb (c_Amount (GetCoin m asset) =? 0).

(** A member is listed once per matching observer. *)
Definition GetMembers `{Ext} (m : Vault) (activeObservers : list string) : res (list string) :=
  rfold (λ signers k,
    addr ← PubKey.GetThorAddress k;
    Ok (signers ++ map (λ _, k) (List.filter (λ item, Acc_Equals item addr) activeObservers))%list)
    [] (GetMembership m).

(** The first coin of the asset grows; a new asset also adds its chain. *)
Definition addFund (m : Vault) (coin : Coin) : res Vault :=
  coins ← Coins.Add1 (va_Coins m) coin;
  if existsb (λ y, Asset_Equals (c_Asset y) (c_Asset coin)) (va_Coins m)
  then Ok (m <| va_Coins := coins |>)
  else
    let chain := a_Chain (c_Asset coin) in
    let chains := if Chains_Has (GetChains m) chain then va_Chains m
                  else (va_Chains m ++ [ToUpper chain])%list in
    Ok (m <| va_Chains := chains |> <| va_Coins := coins |>).

Definition AddFunds (m : Vault) (coins : list Coin) : res Vault := rfold addFund m coins.

Definition subFund (m : Vault) (coin : Coin) : Vault :=
  m <| va_Coins := Coins.SafeSub1 (va_Coins m) coin |>.

Definition SubFunds (m : Vault) (coins : list Coin) : Vault := foldl subFund m coins.

Definition gas_coin (item : TxOutItem) : Coin :=
  if Gas.IsEmpty (to_MaxGas item) then NoCoin
  else Coins.GetCoin (Gas.ToCoins (to_MaxGas item)) (Chain_GetGasAsset (to_Chain item)).

Definition deduct_coin (item : TxOutItem) (c : Coin) : Coin :=
  let c := if Asset_Equals (c_Asset c) (c_Asset (to_Coin item))
           then c <| c_Amount := SafeSub (c_Amount c) (c_Amount (to_Coin item)) |> else c in
  if Asset_Equals (c_Asset c) (c_Asset (gas_coin item))
  then c <| c_Amount := SafeSub (c_Amount c) (c_Amount (gas_coin item)) |> else c.

Definition pending_from (m : Vault) (item : TxOutItem) : bool :=
  PubKey.Equals (to_VaultPubKey item) (va_PubKey m) && TxID.IsEmpty (to_OutHash item).

Definition DeductVaultPendingOutbounds (m : Vault) (pendingOutbounds : list TxOutItem) : Vault :=
  foldl (λ m item,
    if pending_from m item then m <| va_Coins := map (deduct_coin item) (va_Coins m) |> else m)
    m pendingOutbounds.

Definition AppendPendingTxBlockHeights (m : Vault) (blockHeight signingPeriod : Z) : Vault :=
  m <| va_PendingTxBlockHeights :=
    blockHeight :: List.filter (λ item, blockHeight -i item <=? signingPeriod)
      (va_PendingTxBlockHeights m) |>.

Fixpoint remove_first (h : Z) (l : list Z) : list Z :=
  match l with
  | [] => []
  | item :: l' => if item =? h then l' else item :: remove_first h l'
  end.

Definition RemovePendingTxBlockHeights (m : Vault) (blockHeight : Z) : Vault :=
  m <| va_PendingTxBlockHeights := remove_first blockHeight (va_PendingTxBlockHeights m) |>.

Definition LenPendingTxBlockHeights (m : Vault) (currentBlockHeight maxBlocks : Z) : nat :=
  length (List.filter (λ item, currentBlockHeight -i item <=? maxBlocks)
    (va_PendingTxBlockHeights m)).

Definition DeriveBTCAddress `{Ext} (m : Vault) (pathIndex : Z) : res string :=
  if IsEmpty m then Ok NoAddress
  else VaultPath.DeriveBTCTaprootAddress (va_PubKey m) pathIndex.

(** [Vaults] *)
Definition SortBy (vs : list Vault) (sortBy : Asset) : list Vault :=
  insert_sort (λ v w, c_Amount (GetCoin w sortBy) <? c_Amount (GetCoin v sortBy)) vs.

Definition Has (vs : list Vault) (target : Coin) : list Vault :=
  List.filter (λ v, c_Amount target <=? c_Amount (GetCoin v (c_Asset target))) vs.

Definition SelectByMinCoin (vs : list Vault) (asset : Asset) : Vault :=
  match vs with
  | [v] => v
  | _ => foldl (λ vault v,
      if IsEmpty vault || (c_Amount (GetCoin v asset) <? c_Amount (GetCoin vault asset))
      then v else vault) Vault_zero vs
  end.

Definition SelectByMaxCoin (vs : list Vault) (asset : Asset) : Vault :=
  match vs with
  | [v] => v
  | _ => foldl (λ vault v,
      if IsEmpty vault || (c_Amount (GetCoin vault asset) <? c_Amount (GetCoin v asset))
      then v else vault) Vault_zero vs
  end.
End Vault.

(** ** Lemmas *)

Module VaultFacts.
Import CoinsFacts.

(** What the vault holds of an asset. *)
Definition balance (m : Vault) (a : Asset) : Z := amount (va_Coins m) a.

(** What a pending outbound of the vault takes from the asset. *)
Definition outgoing (a : Asset) (item : TxOutItem) : Z :=
  delta a (to_Coin item) + delta a (Vault.gas_coin item).

Definition outgoing_total (m : Vault) (a : Asset) (items : list TxOutItem) : Z :=
  foldr (λ item acc, outgoing a item + acc) 0 (List.filter (Vault.pending_from m) items).

Lemma SafeSub_max x y : SafeSub x y = Z.max 0 (x - y).
Proof. unfold SafeSub. destruct (x <? y) eqn:E; lia. Qed.

Lemma find_amount cs a :
  c_Amount (match List.find (λ coin, Asset_Equals (c_Asset coin) a) cs with
            | Some coin => coin | None => NewCoin a 0 end) = amount cs a.
Proof.
  unfold amount. induction cs as [|c cs IH]; [done|]. cbn.
  rewrite (Asset_Equals_iff a (c_Asset c) (c_Asset c) a) by (by split; intros ->).
  by destruct (Asset_Equals (c_Asset c) a).
Qed.

Lemma GetCoin_balance m a : c_Amount (Vault.GetCoin m a) = balance m a.
Proof. apply find_amount. Qed.

Lemma addFund_coins m c m' :
  Vault.addFund m c = Ok m' →
  Coins.Add1 (va_Coins m) c = Ok (va_Coins m') ∧ va_PubKey m' = va_PubKey m.
Proof. unfold Vault.addFund. intros H. go_inv. by destruct (existsb _ _); go_inv. Qed.

Lemma AddFunds_coins m cs m' :
  Vault.AddFunds m cs = Ok m' →
  Coins.Add (va_Coins m) cs = Ok (va_Coins m') ∧ va_PubKey m' = va_PubKey m.
Proof.
  unfold Vault.AddFunds, Coins.Add. revert m. induction cs as [|c cs IH]; intros m; simpl.
  - by intros [= ->].
  - intros H. go_inv. apply addFund_coins in H0 as [H0 <-]. apply IH in H as [H ->].
    by rewrite H0.
Qed.

Lemma SubFunds_coins m cs : va_Coins (Vault.SubFunds m cs) = Coins.SafeSub (va_Coins m) cs.
Proof.
  unfold Vault.SubFunds, Coins.SafeSub. revert m. induction cs as [|c cs IH]; intros m; [done|].
  simpl. by rewrite IH.
Qed.

Lemma deduct_amount item cs a :
  0 <= amount cs a → 0 <= c_Amount (to_Coin item) → 0 <= c_Amount (Vault.gas_coin item) →
  amount (map (Vault.deduct_coin item) cs) a = Z.max 0 (amount cs a - outgoing a item).
Proof.
  unfold amount, outgoing, delta. intros H Hc Hg. induction cs as [|c cs IH]; cbn in *.
  - destruct (Asset_Equals a _), (Asset_Equals a _); lia.
  - assert (Hk : c_Asset (Vault.deduct_coin item c) = c_Asset c).
    { unfold Vault.deduct_coin. by repeat destruct (Asset_Equals _ _). }
    rewrite Hk. destruct (Asset_Equals a (c_Asset c)) eqn:E; [|by apply IH].
    apply Asset_Equals_spec in E. unfold Vault.deduct_coin.
    set (b1 := Asset_Equals (c_Asset c) (c_Asset (to_Coin item))).
    replace (c_Asset (if b1 then _ else c)) with (c_Asset c) by (by destruct b1).
    unfold b1.
    rewrite (Asset_Equals_iff a (c_Asset (to_Coin item)) (c_Asset c) (c_Asset (to_Coin item)))
      by (by rewrite E).
    rewrite (Asset_Equals_iff a (c_Asset (Vault.gas_coin item)) (c_Asset c)
      (c_Asset (Vault.gas_coin item))) by (by rewrite E).
    destruct (Asset_Equals (c_Asset c) (c_Asset (to_Coin item))),
      (Asset_Equals (c_Asset c) (c_Asset (Vault.gas_coin item)));
      rec_simpl; rewrite ?SafeSub_max; lia.
Qed.

Lemma outgoing_nonneg a item :
  0 <= c_Amount (to_Coin item) → 0 <= c_Amount (Vault.gas_coin item) → 0 <= outgoing a item.
Proof. unfold outgoing, delta. repeat destruct (Asset_Equals _ _); lia. Qed.

Lemma remove_first_count h l x :
  count_occ Z.eq_dec (Vault.remove_first h l) x =
  (count_occ Z.eq_dec l x - (if Z.eq_dec h x then 1 else 0))%nat.
Proof.
  induction l as [|y l IH]; simpl; [by destruct (Z.eq_dec h x)|].
  destruct (y =? h) eqn:E.
  - apply Z.eqb_eq in E as ->. destruct (Z.eq_dec h x); lia.
  - apply Z.eqb_neq in E. simpl. destruct (Z.eq_dec y x), (Z.eq_dec h x); lia.
Qed.
End VaultFacts.

(** ** Properties *)

Import VaultFacts.

(** Funds received by a vault and funds leaving it change each asset by
exactly the sum of the coins of that asset: an addition is exact (or the
256-bit sum panics), a subtraction stops at zero, and the vault's public key
stays. *)
Theorem vault_funds (m m' : Vault) (cs : list Coin) (a : Asset) :
  0 <= balance m a → Forall (λ c, 0 <= c_Amount c) cs →
  (Vault.AddFunds m cs = Ok m' →
     c_Amount (Vault.GetCoin m' a) = c_Amount (Vault.GetCoin m a) + CoinsFacts.total a cs
     ∧ va_PubKey m' = va_PubKey m)
  ∧ c_Amount (Vault.GetCoin (Vault.SubFunds m cs) a)
      = Z.max 0 (c_Amount (Vault.GetCoin m a) - CoinsFacts.total a cs).
Proof.
  intros Hm Hcs. rewrite !GetCoin_balance. split.
  - intros [HA ?]%AddFunds_coins. unfold balance. by rewrite (CoinsFacts.Add_amount _ _ _ a HA).
  - unfold balance. rewrite SubFunds_coins. by apply CoinsFacts.SafeSub_amount.
Qed.

Definition vault_example : Vault :=
  (Vault.NewVault 10 ActiveVault BaseVault "vpk" []) <| va_Coins := [NewCoin BTCAsset 50] |>.

Definition vault_received : Vault :=
  vault_example <| va_Coins := [NewCoin BTCAsset 61] |>.

Lemma vault_funds_witness :
  c_Amount (Vault.GetCoin vault_received BTCAsset)
    = c_Amount (Vault.GetCoin vault_example BTCAsset) + 11.
Proof.
  destruct (vault_funds vault_example vault_received
    [NewCoin BTCAsset 5; NewCoin BTCAsset 6] BTCAsset) as [HA _].
  - by vm_compute.
  - repeat (apply Forall_cons; split; [by vm_compute|]). apply Forall_nil_2.
  - destruct HA as [HA _]; [vm_compute; reflexivity|].
    rewrite HA. vm_compute. reflexivity.
Defined.

(** Deducting the pending outbounds leaves, for every asset, the balance
minus what the unsigned outbounds of this very vault take in coins and
maximal gas, and zero when they exceed it; outbounds of other vaults and
outbounds with an out-hash do not count. *)
Theorem pending_outbounds_deducted (m : Vault) (items : list TxOutItem) (a : Asset) :
  0 <= balance m a →
  Forall (λ i, 0 <= c_Amount (to_Coin i) ∧ 0 <= c_Amount (Vault.gas_coin i)) items →
  c_Amount (Vault.GetCoin (Vault.DeductVaultPendingOutbounds m items) a)
    = Z.max 0 (c_Amount (Vault.GetCoin m a) - outgoing_total m a items).
Proof.
  rewrite !GetCoin_balance. unfold outgoing_total, Vault.DeductVaultPendingOutbounds.
  intros Hm Hi. revert m Hm. induction Hi as [|i items [Hc Hg] Hi IH]; intros m Hm; simpl.
  { unfold balance in *. lia. }
  destruct (Vault.pending_from m i) eqn:E; [|by apply IH].
  assert (Hfilter : ∀ l, List.filter (Vault.pending_from
    (m <| va_Coins := map (Vault.deduct_coin i) (va_Coins m) |>)) l
    = List.filter (Vault.pending_from m) l) by done.
  pose proof (outgoing_nonneg a i Hc Hg).
  rewrite IH; unfold balance; simpl; rewrite deduct_amount by done; [|lia].
  assert (0 <= foldr (λ item acc, outgoing a item + acc) 0
    (List.filter (Vault.pending_from m) items)).
  { clear IH E Hfilter. induction Hi as [|j items [Hc' Hg'] Hi IH]; simpl; [lia|].
    pose proof (outgoing_nonneg a j Hc' Hg'). destruct (Vault.pending_from m j); simpl; lia. }
  rewrite Hfilter. lia.
Qed.

Lemma pending_outbounds_deducted_witness :
  let item := TxOutItem_zero <| to_Chain := BTCChain |> <| to_VaultPubKey := "vpk" |>
    <| to_Coin := NewCoin BTCAsset 30 |> <| to_MaxGas := [NewCoin BTCAsset 4] |> in
  c_Amount (Vault.GetCoin (Vault.DeductVaultPendingOutbounds vault_example [item]) BTCAsset) = 16.
Proof.
  cbv zeta.
  rewrite pending_outbounds_deducted.
  - by vm_compute.
  - by vm_compute.
  - apply Forall_cons; split; [by vm_compute|]. apply Forall_nil_2.
Defined.

(** Recording a height makes it pending and forgets only heights older
than the signing period; removing a height removes one occurrence of it and
nothing else, so appending and removing the same height returns the pruned
list. *)
Theorem pending_heights (m : Vault) (h period x : Z) :
  va_PendingTxBlockHeights
    (Vault.RemovePendingTxBlockHeights (Vault.AppendPendingTxBlockHeights m h period) h)
    = List.filter (λ item, h -i item <=? period) (va_PendingTxBlockHeights m)
  ∧ count_occ Z.eq_dec (va_PendingTxBlockHeights (Vault.RemovePendingTxBlockHeights m h)) x
    = (count_occ Z.eq_dec (va_PendingTxBlockHeights m) x
       - (if Z.eq_dec h x then 1 else 0))%nat
  ∧ (0 <= period → Vault.LenPendingTxBlockHeights
       (Vault.AppendPendingTxBlockHeights m h period) h period
     = S (Vault.LenPendingTxBlockHeights m h period)).
Proof.
  split; [|split].
  - cbn. by rewrite Z.eqb_refl.
  - apply remove_first_count.
  - intros Hp. unfold Vault.LenPendingTxBlockHeights, Vault.AppendPendingTxBlockHeights.
    rec_simpl. cbn [List.filter].
    replace (h -i h <=? period) with true by (by rewrite Z.sub_diag; symmetry; apply Z.leb_le).
    cbn [length]. f_equal. induction (va_PendingTxBlockHeights m) as [|y l IH]; [done|].
    cbn [List.filter]. destruct (h -i y <=? period) eqn:E; [|done].
    cbn [List.filter]. rewrite E. cbn. by rewrite IH.
Qed.

Lemma pending_heights_witness :
  Vault.LenPendingTxBlockHeights (Vault.AppendPendingTxBlockHeights
    (vault_example <| va_PendingTxBlockHeights := [1; 8] |>) 10 5) 10 5 = 2%nat.
Proof.
  destruct (pending_heights (vault_example <| va_PendingTxBlockHeights := [1; 8] |>) 10 5 0)
    as (_ & _ & H).
  rewrite H; [reflexivity|lia].
Defined.
