(* ===== verification/Voters.v ===== *)
(** * Votes of the observing nodes (common/type_observed_tx.go, x/thornado/types/type_*_voter.go)

Observed transactions and the voters that collect them, and the voters of
errata, solvency, network-fee, key-generation and key-signing-failure
reports. *)

From S2P Require Import Prelude GoStrings Config Common Types Vaults.

(** The voter types repeat the same signer list code; it is written once over
the list they carry. *)
Class SignerList (V : Type) := {
  sl_signers : V → list string;
  sl_set : list string → V → V;
  sl_signers_set l v : sl_signers (sl_set l v) = l
}.

Section Signers.
Context `{Ext} {V : Type} `{SignerList V}.

Definition parse_accounts (l : list string) : list string :=
  omap (λ a, match AccAddressFromBech32 a with Ok addr => Some addr | _ => None end) l.

Definition GetSigners (m : V) : list string := parse_accounts (sl_signers m).

Definition HasSigned (m : V) (signer : string) : bool :=
  existsb (λ sign, Acc_Equals sign signer) (GetSigners m).

Definition Sign (m : V) (signer : string) : bool * V :=
  if HasSigned m signer then (false, m)
  else (true, sl_set (sl_signers m ++ [signer])%list m).
End Signers.

(** The signers that are active nodes; a signer listed twice counts twice. *)
Definition node_votes (nas : list NodeAccount) (signers : list string) : Z :=
  Z.of_nat (length (List.filter (IsNodeKeys nas) signers)).

(** ** Observed transactions *)

#[export] Instance ObservedTx_signers : SignerList ObservedTx := {|
  sl_signers := ot_Signers;
  sl_set l m := m <| ot_Signers := l |>;
  sl_signers_set l m := eq_refl
|}.

Module Observed.
Definition NewObservedTx (tx : Tx) (height : Z) (pk : string) (finalisedHeight : Z) : ObservedTx :=
  ObservedTx_zero <| ot_Tx := tx |> <| ot_BlockHeight := height |>
    <| ot_ObservedPubKey := pk |> <| ot_FinaliseHeight := finalisedHeight |>.

Definition Valid (m : ObservedTx) : res unit :=
  _ ← Tx.Valid (ot_Tx m);
  first_error
    [(ot_BlockHeight m <=? 0, "block height can't be zero");
     (PubKey.IsEmpty (ot_ObservedPubKey m), "observed vault pubkey is empty");
     (ot_FinaliseHeight m <=? 0, "finalise block height can't be zero")].

Definition IsEmpty (m : ObservedTx) : bool := Tx.IsEmpty (ot_Tx m).

Definition limit (m : ObservedTx) : Z := default 0 (ot_AggregatorTargetLimit m).

Definition Equals (m tx2 : ObservedTx) : bool :=
  Tx.EqualsEx (ot_Tx m) (ot_Tx tx2)
  && PubKey.Equals (ot_ObservedPubKey m) (ot_ObservedPubKey tx2)
  && (ot_BlockHeight m =? ot_BlockHeight tx2)
  && (ot_FinaliseHeight m =? ot_FinaliseHeight tx2)
  && EqualFold (ot_Aggregator m) (ot_Aggregator tx2)
  && EqualFold (ot_AggregatorTarget m) (ot_AggregatorTarget tx2)
  && (limit m =? limit tx2).

Definition IsFinal (m : ObservedTx) : bool := ot_FinaliseHeight m =? ot_BlockHeight m.

Definition GetOutHashes (m : ObservedTx) : list string :=
  omap (λ o, match TxID.NewTxID o with Ok t => Some t | _ => None end) (ot_OutHashes m).

Definition IsDone (m : ObservedTx) (numOuts : nat) : bool := (numOuts <=? length (ot_OutHashes m))%nat.

Definition SetDone (m : ObservedTx) (hash : string) (numOuts : nat) : ObservedTx :=
  if negb (TxID.Equals hash TxID.BlankTxID) && existsb (λ done, TxID.Equals done hash) (GetOutHashes m)
  then m
  else
    let m := m <| ot_OutHashes := (ot_OutHashes m ++ [hash])%list |> in
    if IsDone m numOuts then m <| ot_Status := Status_done |> else m.

Definition Contains (txs : list ObservedTx) (tx : ObservedTx) : bool :=
  existsb (λ item, Equals item tx) txs.
End Observed.

(** ** The voter of one transaction *)

Record ObservedTxVoter := mkObservedTxVoter {
  ov_TxID : string;
  ov_Tx : ObservedTx;
  ov_Height : Z;
  ov_Txs : list ObservedTx;
  ov_Actions : list TxOutItem;
  ov_OutTxs : list Tx;
  ov_FinalisedHeight : Z;
  ov_UpdatedVault : bool;
  ov_Reverted : bool;
  ov_OutboundHeight : Z;
  ov_UnfinalizedHeight : Z
}.

#[export] Instance ObservedTxVoter_eta : Eta ObservedTxVoter := fun r =>
  mkObservedTxVoter (ov_TxID r) (ov_Tx r) (ov_Height r) (ov_Txs r) (ov_Actions r) (ov_OutTxs r)
    (ov_FinalisedHeight r) (ov_UpdatedVault r) (ov_Reverted r) (ov_OutboundHeight r)
    (ov_UnfinalizedHeight r).

Definition ObservedTxVoter_zero : ObservedTxVoter :=
  mkObservedTxVoter "" ObservedTx_zero 0 [] [] [] 0 false false 0 0.

Definition NewObservedTxVoter (txID : string) (txs : list ObservedTx) : ObservedTxVoter :=
  ObservedTxVoter_zero <| ov_TxID := txID |> <| ov_Txs := txs |>.

Module TxVoter.
Definition Valid (m : ObservedTxVoter) : res unit :=
  if TxID.IsEmpty (ov_TxID m) then Err "cannot have an empty tx id"
  else rfold (λ _ tx, Observed.Valid tx) tt (ov_Txs m).

(** The amounts of the coin of an asset, gas included, as [cosmos.Uint]. *)
Definition spent (coin : Coin) (gas : list Coin) (asset : Asset) : res Z :=
  uint_add (c_Amount coin) (c_Amount (Coins.GetCoin (Gas.ToCoins gas) asset)).

Definition action_matches (outboundTx : Tx) (toi : TxOutItem) : res bool :=
  let asset := Chain_GetGasAsset (to_Chain toi) in
  matchCoin ←
    (if Coins.Contains (tx_Coins outboundTx) (to_Coin toi) then Ok true
     else if Asset_Equals (c_Asset (to_Coin toi)) asset then
       intendToSpend ← spent (to_Coin toi) (to_MaxGas toi) asset;
       actualSpend ← spent (Coins.GetCoin (tx_Coins outboundTx) asset) (tx_Gas outboundTx) asset;
       Ok (intendToSpend =? actualSpend)
     else Ok false);
  Ok (Address.Equals (to_ToAddress toi) (tx_ToAddress outboundTx)
      && Chain_Equals (to_Chain toi) (tx_Chain outboundTx) && matchCoin).

Fixpoint match_actions (outboundTx : Tx) (actions : list TxOutItem) : res bool :=
  match actions with
  | [] => Ok false
  | toi :: rest =>
      found ← action_matches outboundTx toi;
      if found : bool then Ok true else match_actions outboundTx rest
  end.

Definition matchActionItem (m : ObservedTxVoter) (outboundTx : Tx) : res bool :=
  match_actions outboundTx (ov_Actions m).

Definition AddOutTx (m : ObservedTxVoter) (tx : Tx) : res (bool * ObservedTxVoter) :=
  matched ← matchActionItem m tx;
  Ok (if negb matched then (false, m)
      else if negb (TxID.Equals (tx_ID tx) TxID.BlankTxID)
              && existsb (λ t, TxID.Equals (tx_ID tx) (tx_ID t)) (ov_OutTxs m)
      then (true, m)
      else
        let numOuts := length (ov_Actions m) in
        let done t := Observed.SetDone t (tx_ID tx) numOuts in
        let m := m <| ov_OutTxs := (ov_OutTxs m ++ [tx])%list |> in
        let m := m <| ov_Txs := map done (ov_Txs m) |> in
        (true, if negb (Observed.IsEmpty (ov_Tx m)) then m <| ov_Tx := done (ov_Tx m) |> else m)).

Definition IsDone (m : ObservedTxVoter) : bool := (length (ov_Actions m) <=? length (ov_OutTxs m))%nat.

(** The index of the last transaction equal to [tx]. *)
Fixpoint last_equal (tx : ObservedTx) (txs : list ObservedTx) : option nat :=
  match txs with
  | [] => None
  | t :: rest =>
      match last_equal tx rest with
      | Some i => Some (S i)
      | None => if Observed.Equals t tx then Some O else None
      end
  end.

Section Votes.
Context `{Ext}.

Definition Add (m : ObservedTxVoter) (observedTx : ObservedTx) (signer : string)
    : bool * ObservedTxVoter :=
  if existsb (λ t, Observed.Equals t observedTx && HasSigned t signer) (ov_Txs m) then (false, m)
  else match last_equal observedTx (ov_Txs m) with
       | Some votedIdx =>
           match ov_Txs m !! votedIdx with
           | Some t =>
               let '(added, t) := Sign t signer in
               (added, m <| ov_Txs := <[votedIdx := t]> (ov_Txs m) |>)
           | None => (false, m)
           end
       | None =>
           (true, m <| ov_Txs := (ov_Txs m ++ [observedTx <| ot_Signers := [signer] |>])%list |>)
       end.

(** The distinct active nodes that signed a transaction equal to [txFinal],
    of the wanted finality. *)
Definition supporters (m : ObservedTxVoter) (accounts : list NodeAccount) (final : bool)
    (txFinal : ObservedTx) : gset string :=
  foldl (λ voters txIn,
    if negb (Bool.eqb (Observed.IsFinal txIn) final) then voters
    else if negb (Tx.EqualsEx (ot_Tx txFinal) (ot_Tx txIn)) then voters
    else foldl (λ voters signer,
           if bool_decide (signer ∈ voters) then voters
           else if IsNodeKeys accounts signer then {[signer]} ∪ voters else voters)
         voters (GetSigners txIn)) ∅ (ov_Txs m).

Definition reached (m : ObservedTxVoter) (accounts : list NodeAccount) (final : bool)
    (txFinal : ObservedTx) : bool :=
  Bool.eqb (Observed.IsFinal txFinal) final
  && HasSuperMajority (Z.of_nat (size (supporters m accounts final txFinal)))
       (Z.of_nat (length accounts)).

Definition getConsensusTx (m : ObservedTxVoter) (accounts : list NodeAccount) (final : bool)
    : ObservedTx :=
  match List.find (reached m accounts final) (ov_Txs m) with
  | Some tx => tx
  | None => ObservedTx_zero
  end.

Definition GetTx (m : ObservedTxVoter) (nodeAccounts : list NodeAccount) : ObservedTx :=
  if negb (Observed.IsEmpty (ov_Tx m)) && Observed.IsFinal (ov_Tx m) then ov_Tx m
  else
    let finalTx := getConsensusTx m nodeAccounts true in
    if negb (Observed.IsEmpty finalTx) then finalTx
    else
      let discoverTx := getConsensusTx m nodeAccounts false in
      if negb (Observed.IsEmpty discoverTx) then discoverTx else ov_Tx m.

Definition HasConsensus (m : ObservedTxVoter) (nodeAccounts : list NodeAccount) : bool :=
  negb (Observed.IsEmpty (GetTx m nodeAccounts)).

Definition HasFinalised (m : ObservedTxVoter) (nodeAccounts : list NodeAccount) : bool :=
  let finalTx := GetTx m nodeAccounts in
  if Observed.IsEmpty finalTx then false else Observed.IsFinal finalTx.

Definition setStatus (m : ObservedTxVoter) (toStatus : Status) : ObservedTxVoter :=
  let m := m <| ov_Txs := map (λ t, t <| ot_Status := toStatus |>) (ov_Txs m) |> in
  if negb (Observed.IsEmpty (ov_Tx m)) then m <| ov_Tx := (ov_Tx m) <| ot_Status := toStatus |> |> else m.

Definition SetReverted (m : ObservedTxVoter) : ObservedTxVoter :=
  (setStatus m Status_reverted) <| ov_Reverted := true |>.

Definition SetDone (m : ObservedTxVoter) : ObservedTxVoter := setStatus m Status_done.

Definition add_new (acc : list string) (signer : string) : list string :=
  if existsb (str_eq signer) acc then acc else (acc ++ [signer])%list.

Definition GetConsensusSigners (m : ObservedTxVoter) : list string :=
  if Observed.IsEmpty (ov_Tx m) then []
  else foldl (λ signers tx,
    if negb (Bool.eqb (Observed.IsFinal tx) (Observed.IsFinal (ov_Tx m))) then signers
    else if negb (Tx.EqualsEx (ot_Tx tx) (ot_Tx (ov_Tx m))) then signers
    else foldl add_new signers (GetSigners tx)) [] (ov_Txs m).
End Votes.
End TxVoter.

(** ** The other voters *)

Record ErrataTxVoter := mkErrataTxVoter {
  ev_TxID : string;
  ev_Chain : string;
  ev_BlockHeight : Z;
  ev_Signers : list string
}.
#[export] Instance ErrataTxVoter_eta : Eta ErrataTxVoter := fun r =>
  mkErrataTxVoter (ev_TxID r) (ev_Chain r) (ev_BlockHeight r) (ev_Signers r).
#[export] Instance ErrataTxVoter_signers : SignerList ErrataTxVoter := {|
  sl_signers := ev_Signers;
  sl_set l m := m <| ev_Signers := l |>;
  sl_signers_set l m := eq_refl
|}.

Record SolvencyVoter := mkSolvencyVoter {
  sv_Id : string;
  sv_Chain : string;
  sv_PubKey : string;
  sv_Coins : list Coin;
  sv_Height : Z;
  sv_ConsensusBlockHeight : Z;
  sv_Signers : list string
}.
#[export] Instance SolvencyVoter_eta : Eta SolvencyVoter := fun r =>
  mkSolvencyVoter (sv_Id r) (sv_Chain r) (sv_PubKey r) (sv_Coins r) (sv_Height r)
    (sv_ConsensusBlockHeight r) (sv_Signers r).
#[export] Instance SolvencyVoter_signers : SignerList SolvencyVoter := {|
  sl_signers := sv_Signers;
  sl_set l m := m <| sv_Signers := l |>;
  sl_signers_set l m := eq_refl
|}.

Record ObservedNetworkFeeVoter := mkObservedNetworkFeeVoter {
  nv_BlockHeight : Z;
  nv_ReportBlockHeight : Z;
  nv_Chain : string;
  nv_Signers : list string;
  nv_FeeRate : Z;
  nv_TransactionSize : Z
}.
#[export] Instance ObservedNetworkFeeVoter_eta : Eta ObservedNetworkFeeVoter := fun r =>
  mkObservedNetworkFeeVoter (nv_BlockHeight r) (nv_ReportBlockHeight r) (nv_Chain r)
    (nv_Signers r) (nv_FeeRate r) (nv_TransactionSize r).
#[export] Instance ObservedNetworkFeeVoter_signers : SignerList ObservedNetworkFeeVoter := {|
  sl_signers := nv_Signers;
  sl_set l m := m <| nv_Signers := l |>;
  sl_signers_set l m := eq_refl
|}.

Record FrostKeysignFailVoter := mkFrostKeysignFailVoter {
  kf_ID : string;
  kf_Height : Z;
  kf_Signers : list string;
  kf_LastRoundCount : Z
}.
#[export] Instance FrostKeysignFailVoter_eta : Eta FrostKeysignFailVoter := fun r =>
  mkFrostKeysignFailVoter (kf_ID r) (kf_Height r) (kf_Signers r) (kf_LastRoundCount r).
#[export] Instance FrostKeysignFailVoter_signers : SignerList FrostKeysignFailVoter := {|
  sl_signers := kf_Signers;
  sl_set l m := m <| kf_Signers := l |>;
  sl_signers_set l m := eq_refl
|}.

Record FrostVoter := mkFrostVoter {
  fv_ID : string;
  fv_VaultPubKey : string;
  fv_PubKeys : list string;
  fv_BlockHeight : Z;
  fv_Chains : list string;
  fv_Signers : list string;
  fv_MajorityConsensusBlockHeight : Z;
  fv_Secp256K1Signatures : list string;
  fv_VaultPubKeyEddsa : string
}.
#[export] Instance FrostVoter_eta : Eta FrostVoter := fun r =>
  mkFrostVoter (fv_ID r) (fv_VaultPubKey r) (fv_PubKeys r) (fv_BlockHeight r) (fv_Chains r)
    (fv_Signers r) (fv_MajorityConsensusBlockHeight r) (fv_Secp256K1Signatures r)
    (fv_VaultPubKeyEddsa r).
#[export] Instance FrostVoter_signers : SignerList FrostVoter := {|
  sl_signers := fv_Signers;
  sl_set l m := m <| fv_Signers := l |>;
  sl_signers_set l m := eq_refl
|}.

Definition NewErrataTxVoter (txID chain : string) : ErrataTxVoter := mkErrataTxVoter txID chain 0 [].
Definition ErrataTxVoter_Empty (m : ErrataTxVoter) : bool :=
  TxID.IsEmpty (ev_TxID m) || Chain_IsEmpty (ev_Chain m).
Definition ErrataTxVoter_String (m : ErrataTxVoter) : string :=
  ToUpper (ev_Chain m) ++ "-" ++ ev_TxID m.

Definition NewSolvencyVoter (id chain pubKey : string) (coins : list Coin) (height : Z)
    : SolvencyVoter := mkSolvencyVoter id chain pubKey coins height 0 [].
Definition SolvencyVoter_Empty (m : SolvencyVoter) : bool :=
  TxID.IsEmpty (sv_Id m) || Chain_IsEmpty (sv_Chain m) || (sv_Height m <=? 0)
  || (length (sv_Signers m) =? 0)%nat.

Definition NewObservedNetworkFeeVoter (reportBlockHeight : Z) (chain : string)
    : ObservedNetworkFeeVoter := mkObservedNetworkFeeVoter 0 reportBlockHeight chain [] 0 0.
Definition ObservedNetworkFeeVoter_ID (m : ObservedNetworkFeeVoter) : string :=
  ToUpper (nv_Chain m) ++ "-" ++ itoa (nv_ReportBlockHeight m) ++ "-" ++ itoa (nv_FeeRate m)
  ++ "-" ++ itoa (nv_TransactionSize m).
Definition ObservedNetworkFeeVoter_IsEmpty (m : ObservedNetworkFeeVoter) : bool :=
  Chain_IsEmpty (nv_Chain m) && (nv_ReportBlockHeight m =? 0).

Definition NewFrostKeysignFailVoter (id : string) (height : Z) : FrostKeysignFailVoter :=
  mkFrostKeysignFailVoter id height [] 0.
Definition FrostKeysignFailVoter_Empty (m : FrostKeysignFailVoter) : bool :=
  (String.length (kf_ID m) =? 0)%nat || (kf_Height m =? 0).

Definition NewFrostVoter (id : string) (pks : list string) (pool vaultPubKeyEddsa : string)
    : FrostVoter := mkFrostVoter id pool pks 0 [] [] 0 [] vaultPubKeyEddsa.

Section Consensus.
Context `{Ext}.

Definition ErrataTxVoter_HasConsensus (m : ErrataTxVoter) (nas : list NodeAccount) : bool :=
  HasSuperMajority (node_votes nas (GetSigners m)) (Z.of_nat (length nas)).

Definition SolvencyVoter_HasConsensus (m : SolvencyVoter) (nas : list NodeAccount) : bool :=
  HasMinority (node_votes nas (GetSigners m)) (Z.of_nat (length nas)).

Definition ObservedNetworkFeeVoter_HasConsensus (m : ObservedNetworkFeeVoter)
    (nas : list NodeAccount) : bool :=
  HasSuperMajority (node_votes nas (GetSigners m)) (Z.of_nat (length nas)).

(** Membership alone counts, whatever the status of the account. *)
Definition MemberSignerCount (m : FrostKeysignFailVoter) (nas : list NodeAccount) : Z :=
  Z.of_nat (length (List.filter (λ signer,
    existsb (λ item, Acc_Equals signer (na_NodeAddress item)) nas) (GetSigners m))).

Definition FrostKeysignFailVoter_HasConsensus (m : FrostKeysignFailVoter)
    (nas : list NodeAccount) : bool :=
  HasSimpleMajority (MemberSignerCount m nas) (Z.of_nat (length nas)).

(** *** Key generation *)

Definition FrostVoter_GetChains (m : FrostVoter) : list string :=
  omap (λ c, match NewChain c with Ok chain => Some chain | _ => None end) (fv_Chains m).

Definition FrostVoter_GetPubKeys (m : FrostVoter) : list string := parse_pubkeys (fv_PubKeys m).

Definition is_member (m : FrostVoter) (signer : string) : bool :=
  existsb (λ pk, match PubKey.GetThorAddress pk with
                 | Ok addr => Acc_Equals addr signer
                 | _ => false
                 end) (FrostVoter_GetPubKeys m).

Definition FrostVoter_Sign (m : FrostVoter) (signer : string) (chains : list string)
    (secp256k1Signature : string) : bool * FrostVoter :=
  if HasSigned m signer then (false, m)
  else if is_member m signer then
    let m := m <| fv_Signers := (fv_Signers m ++ [signer])%list |>
      <| fv_Chains := (fv_Chains m ++ chains)%list |> in
    (true, if (0 <? String.length secp256k1Signature)%nat
           then m <| fv_Secp256K1Signatures :=
                  (fv_Secp256K1Signatures m ++ [secp256k1Signature])%list |>
           else m)
  else (false, m).

Definition count_strings (l : list string) : gmap string Z :=
  foldl (λ counts x, <[x := default 0 (counts !! x) + 1]> counts) ∅ l.

Definition FrostVoter_total (m : FrostVoter) : Z := Z.of_nat (length (fv_PubKeys m)).

(** The chains are sorted afterwards, so the order of the map is immaterial. *)
Definition ConsensusChains (m : FrostVoter) : list string :=
  insert_sort str_lt (map fst (List.filter (λ cc, HasSuperMajority cc.2 (FrostVoter_total m))
    (map_to_list (count_strings (FrostVoter_GetChains m))))).

Definition HasCompleteConsensus (m : FrostVoter) : bool :=
  (length (fv_Signers m) =? length (fv_PubKeys m))%nat.

(** [iter] is the order in which Go ranges over the counts. *)
Definition ConsensusCheckSignature (iter : gmap string Z → list (string * Z)) (m : FrostVoter)
    : string * bool :=
  match List.find (λ sc, HasSuperMajority sc.2 (FrostVoter_total m))
          (iter (count_strings (fv_Secp256K1Signatures m))) with
  | Some sc => (sc.1, true)
  | None => ("", false)
  end.

Definition FrostVoter_HasConsensus (m : FrostVoter) : bool :=
  HasSuperMajority (Z.of_nat (length (fv_Signers m))) (FrostVoter_total m).

Definition FrostVoter_IsEmpty (m : FrostVoter) : bool :=
  (String.length (fv_ID m) =? 0)%nat || (String.length (fv_VaultPubKey m) =? 0)%nat
  || (length (fv_PubKeys m) =? 0)%nat.
End Consensus.

(** ** Lemmas *)

(** *** Equality of transactions

[EqualsEx] compares the keys below, so it is an equivalence. *)

Definition coin_key (c : Coin) : string * string * string * bool * Z :=
  (asset_key (c_Asset c), c_Amount c).
Definition coins_key (cs : list Coin) := map coin_key (insert_sort Coins.by_asset cs).
Definition tx_key (tx : Tx) :=
  (ToUpper (tx_ID tx), ToUpper (tx_Chain tx), ToUpper (tx_FromAddress tx),
   ToUpper (tx_ToAddress tx), coins_key (tx_Coins tx), coins_key (tx_Gas tx), tx_SourceVout tx).

Lemma Coin_Equals_spec c d : Coin_Equals c d = true ↔ coin_key c = coin_key d.
Proof.
  unfold Coin_Equals, coin_key. rewrite andb_true_iff, Asset_Equals_spec, Z.eqb_eq.
  split; [by intros [-> ->]|]. intros Hk. apply pair_equal_spec in Hk as [-> ->]. done.
Qed.

Lemma all_equal_spec l1 l2 : length l1 = length l2 →
  Coins.all_equal l1 l2 = true ↔ map coin_key l1 = map coin_key l2.
Proof.
  revert l2. induction l1 as [|c l1 IH]; intros [|d l2] Hl; try done. cbn in *.
  rewrite andb_true_iff, Coin_Equals_spec, IH by lia.
  split; [by intros [-> ->]|]. intros Hk. split; [exact (f_equal (hd (coin_key c)) Hk)|exact (f_equal (@tl _) Hk)].
Qed.

Lemma Coins_EqualsEx_spec cs cs2 : Coins.EqualsEx cs cs2 = true ↔ coins_key cs = coins_key cs2.
Proof.
  unfold Coins.EqualsEx, coins_key. rewrite andb_true_iff, Nat.eqb_eq.
  assert (Hl : ∀ l, length (insert_sort Coins.by_asset l) = length l)
    by (intros l; by rewrite insert_sort_perm).
  split.
  - intros [H1 H2]. apply all_equal_spec; [by rewrite !Hl|done].
  - intros H. assert (Hlen : length cs = length cs2).
    { apply (f_equal length) in H. rewrite !length_map, !Hl in H. done. }
    split; [done|]. apply all_equal_spec; [by rewrite !Hl|done].
Qed.

Lemma Tx_EqualsEx_spec tx tx2 : Tx.EqualsEx tx tx2 = true ↔ tx_key tx = tx_key tx2.
Proof.
  unfold Tx.EqualsEx, tx_key, TxID.Equals, Address.Equals, Gas.Equals.
  rewrite !andb_true_iff, !EqualFold_upper, Chain_Equals_spec, !Coins_EqualsEx_spec, Z.eqb_eq.
  split; [by intros [[[[[[-> ->] ->] ->] ->] ->] ->]|].
  intros Hk. repeat apply pair_equal_spec in Hk as [Hk ?]. done.
Qed.

#[export] Instance tx_equiv : Equivalence (λ tx tx2, Tx.EqualsEx tx tx2 = true).
Proof.
  split.
  - intros x. by apply Tx_EqualsEx_spec.
  - intros x y H. by apply Tx_EqualsEx_spec, eq_sym, Tx_EqualsEx_spec.
  - intros x y z H1 H2. apply Tx_EqualsEx_spec in H1, H2. apply Tx_EqualsEx_spec. congruence.
Qed.

Lemma Observed_Equals_tx t tx : Observed.Equals t tx = true →
  Tx.EqualsEx (ot_Tx t) (ot_Tx tx) = true ∧ Observed.IsFinal t = Observed.IsFinal tx.
Proof.
  unfold Observed.Equals, Observed.IsFinal. rewrite !andb_true_iff, !Z.eqb_eq.
  intros [[[[[[? _] ->] ->] _] _] _]. done.
Qed.

(** *** Signers *)

Section SignerFacts.
Context `{Ext}.

Lemma elem_of_parse_accounts a l :
  a ∈ parse_accounts l ↔ ∃ x, x ∈ l ∧ AccAddressFromBech32 x = Ok a.
Proof.
  unfold parse_accounts. rewrite list_elem_of_omap. split.
  - intros (x & Hx & Hp). exists x. split; [done|]. destruct (AccAddressFromBech32 x); by simplify_eq.
  - intros (x & Hx & Hp). exists x. by rewrite Hp.
Qed.

Lemma has_signed_spec {V} `{SignerList V} (m : V) a : HasSigned m a = true ↔ a ∈ GetSigners m.
Proof.
  unfold HasSigned. rewrite existsb_exists. split.
  - intros (x & Hx & He). apply str_eq_true in He as ->. by apply list_elem_of_In.
  - intros Ha. exists a. split; [by apply list_elem_of_In|]. by apply str_eq_true.
Qed.

(** Signing adds the signer once. *)
Lemma sign_signers {V} `{SignerList V} (m : V) a :
  AccAddressFromBech32 a = Ok a →
  GetSigners (Sign m a).2 = TxVoter.add_new (GetSigners m) a.
Proof.
  intros Ha. unfold Sign.
  assert (He : existsb (str_eq a) (GetSigners m) = HasSigned m a).
  { unfold HasSigned, Acc_Equals, str_eq. induction (GetSigners m) as [|x l IH]; [done|].
    cbn. rewrite IH. f_equal. by apply bool_decide_ext. }
  unfold TxVoter.add_new. rewrite He. destruct (HasSigned m a); [done|]. cbn.
  unfold GetSigners at 1. rewrite sl_signers_set.
  unfold parse_accounts. rewrite omap_app. cbn. by rewrite Ha.
Qed.

Lemma elem_of_add_new x acc a : x ∈ TxVoter.add_new acc a ↔ x ∈ acc ∨ x = a.
Proof.
  unfold TxVoter.add_new. destruct (existsb (str_eq a) acc) eqn:E; [|set_solver].
  apply existsb_exists in E as (y & Hy%list_elem_of_In & ->%str_eq_true). set_solver.
Qed.

Lemma add_new_NoDup acc a : NoDup acc → NoDup (TxVoter.add_new acc a).
Proof.
  intros Hn. unfold TxVoter.add_new. destruct (existsb (str_eq a) acc) eqn:E; [done|].
  apply NoDup_app. split_and!; [done| |apply NoDup_singleton].
  intros x Hx ->%list_elem_of_singleton. apply not_true_iff_false in E. apply E, existsb_exists.
  exists a. split; [by apply list_elem_of_In|by apply str_eq_true].
Qed.

(** Any sequence of signers. *)
Definition sign_all {V} `{SignerList V} (m : V) (signers : list string) : V :=
  foldl (λ m a, (Sign m a).2) m signers.

Lemma sign_all_signers {V} `{SignerList V} signers : ∀ m : V,
  Forall (λ a, AccAddressFromBech32 a = Ok a) signers → NoDup (GetSigners m) →
  NoDup (GetSigners (sign_all m signers))
  ∧ ∀ a, a ∈ GetSigners (sign_all m signers) ↔ a ∈ GetSigners m ∨ a ∈ signers.
Proof.
  unfold sign_all. induction signers as [|a signers IH]; intros m Hf Hn; cbn.
  - split; [done|]. set_solver.
  - inversion_clear Hf as [|? ? Ha Hf']. destruct (IH (Sign m a).2 Hf') as [H1 H2].
    { rewrite sign_signers by done. by apply add_new_NoDup. }
    split; [done|]. intros x. rewrite H2, sign_signers, elem_of_add_new by done. set_solver.
Qed.
End SignerFacts.

Definition node_set (accounts : list NodeAccount) : gset string :=
  list_to_set (map na_NodeAddress accounts).

Lemma IsNodeKeys_set accounts a : IsNodeKeys accounts a = true → a ∈ node_set accounts.
Proof.
  unfold IsNodeKeys, node_set. rewrite existsb_exists. intros (na & Hna & [_ He]%andb_true_iff).
  apply str_eq_true in He as ->. apply elem_of_list_to_set, list_elem_of_fmap. exists na.
  split; [done|]. by apply list_elem_of_In.
Qed.

Lemma node_set_size accounts : (size (node_set accounts) <= length accounts)%nat.
Proof. rewrite <- (length_map na_NodeAddress). by apply Votes.size_subset_length. Qed.

(** *** Support of a transaction *)

Section Support.
Context `{Ext}.
Import TxVoter.

Lemma fold_voters accounts l : ∀ (voters : gset string) a,
  a ∈ foldl (λ voters signer,
        if bool_decide (signer ∈ voters) then voters
        else if IsNodeKeys accounts signer then {[signer]} ∪ voters else voters) voters l
  ↔ a ∈ voters ∨ (a ∈ l ∧ IsNodeKeys accounts a = true).
Proof.
  induction l as [|x l IH]; intros voters a; cbn; [set_solver|]. rewrite IH.
  case_bool_decide as Hx; [|destruct (IsNodeKeys accounts x) eqn:E];
    rewrite elem_of_cons; set_unfold; intuition (subst; try congruence; auto).
Qed.

(** [a] signed a transaction equal to [tx], of the same finality. *)
Definition backs (m : ObservedTxVoter) (final : bool) (tx : Tx) (a : string) : Prop :=
  ∃ t, t ∈ ov_Txs m ∧ Observed.IsFinal t = final ∧ Tx.EqualsEx tx (ot_Tx t) = true
    ∧ a ∈ GetSigners t.

Lemma elem_of_supporters m accounts final tx a :
  a ∈ supporters m accounts final tx
  ↔ backs m final (ot_Tx tx) a ∧ IsNodeKeys accounts a = true.
Proof.
  unfold supporters, backs.
  assert (Hgen : ∀ l (voters : gset string),
    a ∈ foldl (λ voters txIn,
      if negb (Bool.eqb (Observed.IsFinal txIn) final) then voters
      else if negb (Tx.EqualsEx (ot_Tx tx) (ot_Tx txIn)) then voters
      else foldl (λ voters signer,
           if bool_decide (signer ∈ voters) then voters
           else if IsNodeKeys accounts signer then {[signer]} ∪ voters else voters)
         voters (GetSigners txIn)) voters l
    ↔ a ∈ voters ∨ ((∃ t, t ∈ l ∧ Observed.IsFinal t = final
        ∧ Tx.EqualsEx (ot_Tx tx) (ot_Tx t) = true ∧ a ∈ GetSigners t)
      ∧ IsNodeKeys accounts a = true)).
  { induction l as [|t l IH]; intros voters; cbn [foldl]; [set_solver|]. rewrite IH.
    destruct (Bool.eqb (Observed.IsFinal t) final) eqn:Ef; cbn [negb].
    - apply eqb_prop in Ef. destruct (Tx.EqualsEx (ot_Tx tx) (ot_Tx t)) eqn:Et; cbn [negb].
      + rewrite fold_voters. set_solver.
      + set_unfold. split; [by naive_solver|]. intros [?|[(t' & [->|?] & ? & ? & ?) ?]];
          [by left|congruence|by right; eauto 10].
    - apply eqb_false_iff in Ef. set_unfold. split; [by naive_solver|].
      intros [?|[(t' & [->|?] & ? & ? & ?) ?]]; [by left|congruence|by right; eauto 10]. }
  rewrite Hgen. set_solver.
Qed.

Lemma supporters_nodes m accounts final tx :
  supporters m accounts final tx ⊆ node_set accounts.
Proof. intros a Ha. apply elem_of_supporters in Ha as [_ Ha]. by apply IsNodeKeys_set. Qed.

Lemma supporters_size m accounts final tx :
  (size (supporters m accounts final tx) <= length accounts)%nat.
Proof.
  etrans; [apply subseteq_size, supporters_nodes|apply node_set_size].
Qed.

Lemma consensus_found m accounts final tx :
  getConsensusTx m accounts final = tx → Observed.IsEmpty tx = false →
  tx ∈ ov_Txs m ∧ reached m accounts final tx = true.
Proof.
  unfold getConsensusTx. destruct (List.find _ (ov_Txs m)) as [t|] eqn:E.
  - intros <- _. apply find_some in E as [E1%list_elem_of_In E2]. done.
  - by intros <-.
Qed.

Lemma consensus_exists m accounts final t :
  (∀ t, t ∈ ov_Txs m → Observed.IsEmpty t = false) →
  t ∈ ov_Txs m → reached m accounts final t = true →
  Observed.IsEmpty (getConsensusTx m accounts final) = false.
Proof.
  intros Hne Ht Hr. unfold getConsensusTx.
  destruct (List.find _ (ov_Txs m)) as [t'|] eqn:E.
  - apply find_some in E as [E1%list_elem_of_In _]. by apply Hne.
  - rewrite (find_none _ _ E t) in Hr; [done|by apply list_elem_of_In].
Qed.

Lemma last_equal_some tx txs i : last_equal tx txs = Some i →
  ∃ t, txs !! i = Some t ∧ Observed.Equals t tx = true.
Proof.
  revert i. induction txs as [|t txs IH]; intros i; cbn; [done|].
  destruct (last_equal tx txs) as [j|]; [intros [= <-]; by apply IH|].
  destruct (Observed.Equals t tx) eqn:E; [|done]. intros [= <-]. by exists t.
Qed.

(** The vote is recorded, whatever was recorded before it. *)
Lemma add_backs m tx a :
  AccAddressFromBech32 a = Ok a → backs (Add m tx a).2 (Observed.IsFinal tx) (ot_Tx tx) a.
Proof.
  intros Ha. unfold Add.
  destruct (existsb _ (ov_Txs m)) eqn:Eany.
  - apply existsb_exists in Eany as (t & Ht%list_elem_of_In & [He Hs]%andb_true_iff).
    apply has_signed_spec in Hs. apply Observed_Equals_tx in He as [He Hf].
    exists t. split_and!; try done. by apply tx_equiv.
  - destruct (last_equal tx (ov_Txs m)) as [i|] eqn:El.
    + apply last_equal_some in El as (t & Hl & He). rewrite Hl.
      pose proof (sign_signers t a Ha) as Hsig. destruct (Sign t a) as [added t'] eqn:Es.
      apply Observed_Equals_tx in He as [He Hf].
      assert (Hsame : ot_Tx t' = ot_Tx t ∧ Observed.IsFinal t' = Observed.IsFinal t).
      { unfold Sign in Es. destruct (HasSigned t a); injection Es as <- <-; done. }
      destruct Hsame as [Ht1 Ht2]. exists t'. cbn [snd]. rec_simpl. split_and!.
      * apply list_elem_of_lookup. exists i. apply list_lookup_insert_eq.
        by eapply lookup_lt_Some.
      * congruence.
      * rewrite Ht1. by apply tx_equiv.
      * cbn [snd] in Hsig. rewrite Hsig, elem_of_add_new. by right.
    + eexists. cbn [snd]. rec_simpl. split_and!;
        [apply elem_of_app; right; by apply list_elem_of_singleton|done|by apply tx_equiv|].
      unfold GetSigners, parse_accounts. cbn. rewrite Ha. set_solver.
Qed.

(** Earlier votes stay. *)
Lemma add_keeps m tx a final tx0 b :
  backs m final tx0 b → backs (Add m tx a).2 final tx0 b.
Proof.
  intros (t & Ht & Hf & He & Hb). unfold Add.
  destruct (existsb _ (ov_Txs m)); [by exists t|].
  destruct (last_equal tx (ov_Txs m)) as [i|] eqn:El.
  - apply last_equal_some in El as (ti & Hl & _). rewrite Hl.
    destruct (Sign ti a) as [added t'] eqn:Es. cbn [snd]. rec_simpl.
    apply list_elem_of_lookup in Ht as [j Hj]. destruct (decide (i = j)) as [<-|Hne].
    + rewrite Hl in Hj. injection Hj as <-. exists t'.
      assert (Hs : ot_Tx t' = ot_Tx ti ∧ Observed.IsFinal t' = Observed.IsFinal ti
        ∧ (b ∈ GetSigners ti → b ∈ GetSigners t')).
      { unfold Sign in Es. destruct (HasSigned ti a); injection Es as <- <-; split_and!; try done.
        unfold GetSigners, parse_accounts. intros Hin. cbn. rewrite omap_app. set_solver. }
      destruct Hs as (-> & -> & Hs). split_and!; auto. rec_simpl.
      apply list_elem_of_lookup. exists i. apply list_lookup_insert_eq. by eapply lookup_lt_Some.
    + exists t. split_and!; try done. rec_simpl.
      apply list_elem_of_lookup. exists j. by rewrite list_lookup_insert_ne.
  - exists t. cbn [snd]. rec_simpl. split_and!; try done. rec_simpl. set_solver.
Qed.

Lemma add_nonempty m tx a :
  Observed.IsEmpty tx = false → (∀ t, t ∈ ov_Txs m → Observed.IsEmpty t = false) →
  ∀ t, t ∈ ov_Txs (Add m tx a).2 → Observed.IsEmpty t = false.
Proof.
  intros Hx Hm t. unfold Add. destruct (existsb _ (ov_Txs m)); [apply Hm|].
  destruct (last_equal tx (ov_Txs m)) as [i|] eqn:El.
  - apply last_equal_some in El as (ti & Hl & _). rewrite Hl.
    destruct (Sign ti a) as [added t'] eqn:Es. cbn [snd]. rec_simpl. intros Ht.
    apply list_elem_of_lookup in Ht as [j Hj]. destruct (decide (i = j)) as [<-|Hne].
    + rewrite list_lookup_insert_eq in Hj by (by eapply lookup_lt_Some). injection Hj as <-.
      assert (ot_Tx t' = ot_Tx ti) as Ht'.
      { unfold Sign in Es. destruct (HasSigned ti a); by injection Es as <- <-. }
      unfold Observed.IsEmpty. rewrite Ht'. apply Hm. by eapply list_elem_of_lookup_2.
    + rewrite list_lookup_insert_ne in Hj by done. apply Hm. by eapply list_elem_of_lookup_2.
  - cbn [snd]. rec_simpl. rewrite elem_of_app, list_elem_of_singleton. intros [Ht| ->]; [by apply Hm|done].
Qed.

Definition add_all (m : ObservedTxVoter) (tx : ObservedTx) (signers : list string) : ObservedTxVoter :=
  foldl (λ m a, (Add m tx a).2) m signers.

Lemma add_all_backs tx signers : ∀ m,
  Observed.IsEmpty tx = false → (∀ t, t ∈ ov_Txs m → Observed.IsEmpty t = false) →
  Forall (λ a, AccAddressFromBech32 a = Ok a) signers →
  (∀ t, t ∈ ov_Txs (add_all m tx signers) → Observed.IsEmpty t = false)
  ∧ ∀ a, a ∈ signers ∨ backs m (Observed.IsFinal tx) (ot_Tx tx) a →
      backs (add_all m tx signers) (Observed.IsFinal tx) (ot_Tx tx) a.
Proof.
  unfold add_all. induction signers as [|a signers IH]; intros m Hx Hm Hf; cbn [foldl].
  - split; [done|]. intros a [Ha|Ha]; [by apply not_elem_of_nil in Ha|done].
  - inversion_clear Hf as [|? ? Ha Hf'].
    destruct (IH (Add m tx a).2 Hx (add_nonempty _ _ _ Hx Hm) Hf') as [H1 H2].
    split; [done|]. intros b [Hb|Hb].
    + apply elem_of_cons in Hb as [->|Hb]; apply H2; [right; by apply add_backs|by left].
    + apply H2. right. by apply add_keeps.
Qed.
End Support.

(** *** Key generation *)

Section FrostFacts.
Context `{Ext}.

(** A keygen voter and the votes it has taken. *)
Inductive frost_reachable (id : string) (pks : list string) (pool eddsa : string)
    : FrostVoter → Prop :=
| frost_new : frost_reachable id pks pool eddsa (NewFrostVoter id pks pool eddsa)
| frost_sign m signer chains sig :
    frost_reachable id pks pool eddsa m → AccAddressFromBech32 signer = Ok signer →
    frost_reachable id pks pool eddsa (FrostVoter_Sign m signer chains sig).2.

Definition member_addresses (pks : list string) : list string :=
  omap (λ pk, match PubKey.GetThorAddress pk with Ok addr => Some addr | _ => None end)
    (parse_pubkeys pks).

Lemma omap_length {A B} (f : A → option B) l : (length (omap f l) <= length l)%nat.
Proof. induction l as [|x l IH]; cbn; [lia|]. destruct (f x); cbn; lia. Qed.

Lemma is_member_spec m a : is_member m a = true ↔ a ∈ member_addresses (fv_PubKeys m).
Proof.
  unfold is_member, member_addresses, FrostVoter_GetPubKeys.
  rewrite existsb_exists, list_elem_of_omap. split.
  - intros (pk & Hpk & Ha). exists pk. split; [by apply list_elem_of_In|].
    destruct (PubKey.GetThorAddress pk); try done. by apply str_eq_true in Ha as ->.
  - intros (pk & Hpk & Ha). exists pk. split; [by apply list_elem_of_In|].
    destruct (PubKey.GetThorAddress pk); try done. injection Ha as ->. by apply str_eq_true.
Qed.

(** The signers are distinct members, at most one signature each. *)
Lemma frost_signers id pks pool eddsa m :
  frost_reachable id pks pool eddsa m →
  fv_PubKeys m = pks ∧ GetSigners m = fv_Signers m ∧ NoDup (fv_Signers m)
  ∧ (∀ a, a ∈ fv_Signers m → a ∈ member_addresses pks)
  ∧ (length (fv_Secp256K1Signatures m) <= length (fv_Signers m))%nat.
Proof.
  induction 1 as [|m signer chains sig Hr IH Ha]; [split_and!; try done; [constructor|set_solver]|].
  destruct IH as (Hp & Hg & Hn & Hm & Hl). unfold FrostVoter_Sign.
  destruct (HasSigned m signer) eqn:Es; [done|]. destruct (is_member m signer) eqn:Em; [|done].
  apply is_member_spec in Em. rewrite Hp in Em.
  assert (Hnew : signer ∉ fv_Signers m).
  { rewrite <- Hg. intros Hin. apply has_signed_spec in Hin. congruence. }
  assert (Hadd : GetSigners (m <| fv_Signers := (fv_Signers m ++ [signer])%list |>)
    = (fv_Signers m ++ [signer])%list).
  { unfold GetSigners, parse_accounts in *. cbn in *. rewrite omap_app, Hg. cbn. by rewrite Ha. }
  assert (Hall : NoDup (fv_Signers m ++ [signer])
    ∧ ∀ a, a ∈ (fv_Signers m ++ [signer])%list → a ∈ member_addresses pks).
  { split; [apply NoDup_app; split_and!; [done|set_solver|apply NoDup_singleton]|set_solver]. }
  destruct Hall as [Hall1 Hall2].
  destruct (0 <? String.length sig)%nat; cbn [snd]; rec_simpl; split_and!; try done;
    rewrite ?length_app; cbn; lia.
Qed.

Lemma frost_signers_total id pks pool eddsa m :
  frost_reachable id pks pool eddsa m →
  Z.of_nat (length (fv_Secp256K1Signatures m)) <= Z.of_nat (length (fv_Signers m))
    <= FrostVoter_total m.
Proof.
  intros (Hp & _ & Hn & Hm & Hl)%frost_signers. unfold FrostVoter_total. rewrite Hp.
  assert (length (fv_Signers m) <= length pks)%nat; [|lia].
  etrans; [apply submseteq_length, NoDup_submseteq; [done|exact Hm]|].
  unfold member_addresses, parse_pubkeys. etrans; apply omap_length.
Qed.

Lemma count_strings_spec l :
  map_Forall (λ _ c, 0 < c) (count_strings l)
  ∧ Votes.sum_counts (map_to_list (count_strings l)) = Z.of_nat (length l).
Proof.
  unfold count_strings.
  assert (Hgen : ∀ m : gmap string Z, map_Forall (λ _ c, 0 < c) m →
    map_Forall (λ _ c, 0 < c) (foldl (λ counts x, <[x := default 0 (counts !! x) + 1]> counts) m l)
    ∧ Votes.sum_counts (map_to_list
        (foldl (λ counts x, <[x := default 0 (counts !! x) + 1]> counts) m l))
      = Votes.sum_counts (map_to_list m) + Z.of_nat (length l)).
  { induction l as [|x l IH]; intros m Hm; cbn; [split; [done|lia]|].
    destruct (IH (<[x := default 0 (m !! x) + 1]> m)) as [H1 H2].
    { apply map_Forall_insert_2; [|done]. destruct (m !! x) eqn:E; cbn; [|lia]. apply Hm in E. lia. }
    split; [done|]. rewrite H2, Votes.sum_counts_insert. lia. }
  destruct (Hgen ∅) as [H1 H2]; [apply map_Forall_empty|]. split; [done|]. rewrite H2. reflexivity.
Qed.
End FrostFacts.

(** ** Properties *)

(** C39. A transaction the voter settles on was signed, as observed, by distinct
    active nodes that are at least two thirds of the accounts, and any other
    recorded transaction with that support shares a third of the accounts with
    it: without that many double votes the observed transaction is unique. *)
Theorem observed_consensus_quorum `{Ext} (m : ObservedTxVoter) (accounts : list NodeAccount)
    (final : bool) (tx : ObservedTx) :
  TxVoter.getConsensusTx m accounts final = tx → Observed.IsEmpty tx = false →
  let support t := TxVoter.supporters m accounts (Observed.IsFinal t) t in
  let total := Z.of_nat (length accounts) in
  tx ∈ ov_Txs m ∧ Observed.IsFinal tx = final
  ∧ 2 * total <= 3 * Z.of_nat (size (support tx))
  ∧ (∀ a, a ∈ support tx → IsNodeKeys accounts a = true ∧
      ∃ t, t ∈ ov_Txs m ∧ Tx.EqualsEx (ot_Tx tx) (ot_Tx t) = true ∧ a ∈ GetSigners t)
  ∧ (∀ t, t ∈ ov_Txs m → TxVoter.reached m accounts (Observed.IsFinal t) t = true →
      total <= 3 * Z.of_nat (size (support tx ∩ support t))).
Proof.
  intros Hc Hne. cbv zeta. destruct (consensus_found m accounts final tx Hc Hne) as [Hin Hr].
  unfold TxVoter.reached in Hr. apply andb_true_iff in Hr as [Hf%eqb_prop Hm]. rewrite <- Hf in *.
  apply super_majority_spec in Hm as [_ Hm]; [|lia]. split_and!; try done.
  - intros a Ha. apply elem_of_supporters in Ha as [(t & ? & ? & ? & ?) ?]. split; [done|eauto].
  - intros t Ht Hrt. unfold TxVoter.reached in Hrt. apply andb_true_iff in Hrt as [_ Hm2].
    apply super_majority_spec in Hm2 as [_ Hm2]; [|lia].
    set (X := TxVoter.supporters m accounts (Observed.IsFinal tx) tx) in *.
    set (Y := TxVoter.supporters m accounts (Observed.IsFinal t) t) in *.
    assert (Hu : (size (X ∪ Y) <= length accounts)%nat).
    { etrans; [apply subseteq_size, union_least; apply supporters_nodes|apply node_set_size]. }
    pose proof (size_inter_union X Y). lia.
Qed.

(** C40. Observation makes progress: when active nodes that are two thirds of
    the accounts have each added the same transaction to the voter, in any
    order and whatever was voted before, the voter has consensus. *)
Theorem observed_consensus_reached `{Ext} (m : ObservedTxVoter) (accounts : list NodeAccount)
    (tx : ObservedTx) (signers : list string) :
  Observed.IsEmpty tx = false → (∀ t, t ∈ ov_Txs m → Observed.IsEmpty t = false) →
  Forall (λ a, AccAddressFromBech32 a = Ok a ∧ IsNodeKeys accounts a = true) signers →
  0 < Z.of_nat (length signers) →
  2 * Z.of_nat (length accounts) <= 3 * Z.of_nat (size (list_to_set signers : gset string)) →
  TxVoter.HasConsensus (add_all m tx signers) accounts = true.
Proof.
  intros Hx Hm Hs Hpos Hq.
  destruct (add_all_backs tx signers m Hx Hm) as [Hne Hb].
  { eapply Forall_impl; [exact Hs|]. by intros a [? _]. }
  set (m' := add_all m tx signers) in *.
  assert (Hback : ∃ t, t ∈ ov_Txs m' ∧ TxVoter.reached m' accounts (Observed.IsFinal tx) t = true).
  { destruct signers as [|a0 signers]; [cbn in Hpos; lia|].
    destruct (Hb a0) as (t & Ht & Hf & He & _); [left; by left|].
    exists t. split; [done|]. unfold TxVoter.reached. rewrite Hf, eqb_reflx.
    assert (Hsub : list_to_set (a0 :: signers) ⊆ TxVoter.supporters m' accounts (Observed.IsFinal tx) t).
    { intros a Ha%elem_of_list_to_set. apply elem_of_supporters. split.
      - destruct (Hb a) as (t' & Ht' & Hf' & He' & Hs'); [by left|].
        exists t'. split_and!; try done.
        apply Tx_EqualsEx_spec. apply Tx_EqualsEx_spec in He, He'. congruence.
      - rewrite Forall_forall in Hs. by apply Hs. }
    apply subseteq_size in Hsub. pose proof (supporters_size m' accounts (Observed.IsFinal tx) t).
    apply super_majority_spec; [lia|].
    assert (Hone : (0 < size (list_to_set (a0 :: signers) : gset string))%nat).
    { cbn [list_to_set]. rewrite size_union_alt, size_singleton. lia. }
    lia. }
  destruct Hback as (t & Ht & Hr). unfold TxVoter.HasConsensus, TxVoter.GetTx.
  pose proof (consensus_exists m' accounts _ t Hne Ht Hr) as Hc.
  destruct (negb (Observed.IsEmpty (ov_Tx m')) && _) eqn:E;
    [by apply andb_true_iff in E as [E _]|].
  destruct (Observed.IsFinal tx).
  - rewrite Hc. cbn. by rewrite Hc.
  - destruct (Observed.IsEmpty (TxVoter.getConsensusTx m' accounts true)) eqn:E1; cbn.
    + rewrite Hc. cbn. by rewrite Hc.
    + by rewrite E1.
Qed.

(** However often the nodes sign an errata, its consensus counts each
    active node once: it holds exactly when the distinct active signers are a
    supermajority of the accounts. *)
Theorem votes_counted_once `{Ext} (m : ErrataTxVoter) (accounts : list NodeAccount)
    (signers : list string) :
  NoDup (GetSigners m) → Forall (λ a, AccAddressFromBech32 a = Ok a) signers →
  let voters : gset string := list_to_set (GetSigners m ++ signers) in
  ErrataTxVoter_HasConsensus (sign_all m signers) accounts
  = HasSuperMajority (Z.of_nat (size (filter (λ a, IsNodeKeys accounts a = true) voters)))
      (Z.of_nat (length accounts)).
Proof.
  intros Hn Hf. cbv zeta. unfold ErrataTxVoter_HasConsensus, node_votes. f_equal. f_equal.
  destruct (sign_all_signers signers m Hf Hn) as [Hn' Hin].
  set (l := GetSigners (sign_all m signers)) in *.
  assert (Heq : filter (λ a, IsNodeKeys accounts a = true)
      (list_to_set (GetSigners m ++ signers) : gset string)
    = list_to_set (List.filter (IsNodeKeys accounts) l)).
  { apply set_eq. intros a. rewrite elem_of_filter, !elem_of_list_to_set, elem_of_app, <- Hin.
    rewrite !list_elem_of_In, filter_In. tauto. }
  rewrite Heq, size_list_to_set; [done|]. apply NoDup_ListNoDup, List.NoDup_filter.
  by apply NoDup_ListNoDup.
Qed.

(** A key generation is voted on by its members only, once each, and the
    check signature it settles on does not depend on the order in which Go
    ranges over the counts. *)
Theorem keygen_votes_deterministic `{Ext} (id : string) (pks : list string) (pool eddsa : string)
    (m : FrostVoter) (iter iter' : gmap string Z → list (string * Z)) :
  frost_reachable id pks pool eddsa m →
  (∀ counts, iter counts ≡ₚ map_to_list counts) → (∀ counts, iter' counts ≡ₚ map_to_list counts) →
  NoDup (fv_Signers m) ∧ (∀ a, a ∈ fv_Signers m → a ∈ member_addresses pks)
  ∧ Z.of_nat (length (fv_Signers m)) <= FrostVoter_total m
  ∧ ConsensusCheckSignature iter m = ConsensusCheckSignature iter' m.
Proof.
  intros Hr Hi Hi'. pose proof (frost_signers_total _ _ _ _ _ Hr) as Ht.
  destruct (frost_signers _ _ _ _ _ Hr) as (_ & _ & Hn & Hm & _). split_and!; try done; [lia|].
  unfold ConsensusCheckSignature.
  destruct (count_strings_spec (fv_Secp256K1Signatures m)) as [Hpos Hsum].
  set (counts := count_strings (fv_Secp256K1Signatures m)) in *.
  assert (Hall : Forall (λ vc, 0 < vc.2) (map_to_list counts)).
  { apply Forall_forall. intros [s c] Hin%elem_of_map_to_list. by eapply Hpos. }
  assert (Huniq : ∀ sc sc', sc ∈ map_to_list counts → sc' ∈ map_to_list counts →
    HasSuperMajority sc.2 (FrostVoter_total m) = true →
    HasSuperMajority sc'.2 (FrostVoter_total m) = true → sc = sc').
  { intros [s c] [s' c'] H1 H2. cbn. intros [? ?]%super_majority_spec [? ?]%super_majority_spec;
      [|unfold FrostVoter_total; lia..].
    destruct (decide (s = s')) as [<-|Hne].
    - apply elem_of_map_to_list in H1, H2. congruence.
    - pose proof (Votes.sum_counts_two _ _ _ _ _ Hall H1 H2 Hne). lia. }
  destruct (List.find _ (iter counts)) as [sc|] eqn:E, (List.find _ (iter' counts)) as [sc'|] eqn:E'.
  - apply find_some in E as [E%list_elem_of_In ?], E' as [E'%list_elem_of_In ?].
    rewrite Hi in E. rewrite Hi' in E'. by rewrite (Huniq sc sc').
  - apply find_some in E as [E%list_elem_of_In Hs]. rewrite Hi, <- Hi' in E.
    apply list_elem_of_In in E. rewrite (find_none _ _ E' _ E) in Hs. done.
  - apply find_some in E' as [E'%list_elem_of_In Hs]. rewrite Hi', <- Hi in E'.
    apply list_elem_of_In in E'. rewrite (find_none _ _ E _ E') in Hs. done.
  - done.
Qed.

Import ToyExt.
#[local] Existing Instance toy_ext.

Definition three_nodes : list NodeAccount :=
  map (λ a, NodeAccount_zero <| na_NodeAddress := a |> <| na_Status := NodeActive |>)
    ["alice"; "bob"; "carol"].
Definition seen_tx : ObservedTx :=
  Observed.NewObservedTx (mkTx "T" BTCChain "from" "to" [NewCoin BTCAsset 5] [] 0 []) 7 "vault" 7.
Definition seen_voter : ObservedTxVoter :=
  add_all (NewObservedTxVoter "T" []) seen_tx ["alice"; "bob"; "alice"; "carol"].

Lemma observed_consensus_quorum_witness :
  2 * Z.of_nat (length three_nodes)
  <= 3 * Z.of_nat (size (TxVoter.supporters seen_voter three_nodes true
       (TxVoter.getConsensusTx seen_voter three_nodes true))).
Proof.
  destruct (observed_consensus_quorum seen_voter three_nodes true
    (TxVoter.getConsensusTx seen_voter three_nodes true)) as (_ & Hf & H & _);
    [reflexivity|vm_compute; reflexivity|]. rewrite Hf in H. exact H.
Defined.

Lemma observed_consensus_reached_witness :
  TxVoter.HasConsensus seen_voter three_nodes = true.
Proof.
  apply (observed_consensus_reached (NewObservedTxVoter "T" []) three_nodes seen_tx
    ["alice"; "bob"; "alice"; "carol"]).
  - reflexivity.
  - intros t Ht. by apply not_elem_of_nil in Ht.
  - repeat constructor.
  - reflexivity.
  - vm_compute. discriminate.
Defined.

Lemma votes_counted_once_witness :
  ErrataTxVoter_HasConsensus (sign_all (NewErrataTxVoter "T" BTCChain) ["bob"; "bob"]) three_nodes
  = false.
Proof.
  rewrite (votes_counted_once (NewErrataTxVoter "T" BTCChain) three_nodes ["bob"; "bob"]);
    [vm_compute; reflexivity|constructor|repeat constructor].
Defined.

Definition keygen_example : FrostVoter :=
  (FrostVoter_Sign (FrostVoter_Sign (NewFrostVoter "k" ["alice"; "bob"; "carol"] "vault" "")
    "alice" [BTCChain] "sig").2 "bob" [BTCChain] "sig").2.

Lemma keygen_votes_deterministic_witness :
  ConsensusCheckSignature map_to_list keygen_example
  = ConsensusCheckSignature (λ counts, rev (map_to_list counts)) keygen_example.
Proof.
  apply (keygen_votes_deterministic "k" ["alice"; "bob"; "carol"] "vault" "" keygen_example
    map_to_list (λ counts, rev (map_to_list counts))).
  - apply frost_sign; [apply frost_sign; [apply frost_new|]|]; reflexivity.
  - done.
  - intros counts. symmetry. apply Permutation_rev.
Defined.
