(* ===== verification/Keeper.v ===== *)
(** * The keeper (x/thornado/keeper/v1)

The key-value store with one field per database prefix, and the typed
accessors of keeper_shielder.go, keeper_txout.go, keeper_txin.go,
keeper_vault.go, keeper_node_account.go, keeper_network_fee.go, and of the
voter, observer, height and halt records.  [GetKey] upper-cases
its keys, so a map is keyed by the upper-cased text and iterates in the order
of the keys.  The tree prefixes are keyed by zero-padded numbers, which sort
as the numbers do.  The JSON and protobuf codecs round-trip the records and
are not modelled; neither are the text values of earlier store layouts. *)

From S2P Require Import Prelude GoStrings Config Common Types Vaults Voters.

Record KVStore := mkKVStore {
  kv_deposit_session : gmap string DepositSession;
  kv_deposit_pow : gmap string string;
  kv_deposit_pow_timing : gmap string DepositPowTiming;
  kv_deposit_pow_difficulty : option DepositPowDifficultyState;
  kv_deposit_address : gmap string DepositAddress;
  kv_vault_deposit_path_index : gmap string Z;
  kv_deposit_record : gmap string DepositRecord;
  kv_shielder_commitment : gset string;
  kv_shielder_note_pubkey : gmap string StoredShielderNoteRecord;
  kv_shielder_denom_commitment : gmap (Z * Z) string;
  kv_shielder_tree_state : gmap Z StoredShielderTreeState;
  kv_shielder_merkle_root : gset (Z * string);
  kv_shielder_withdrawal : gmap string ShielderRedeem;
  kv_shielder_withdrawal_outhash : gmap string string;
  kv_shielder_nullifier : gmap string StoredShielderNullifierRecord;
  kv_shielder_node_bond : gmap string ShielderNodeBond;
  kv_shielder_node_bonder : gmap string ShielderNodeBonder;
  kv_shielder_node_bond_slot : option Z;
  kv_fee_pool : option FeePool;
  kv_shielder_fee_note_pubkey : gset string;
  kv_node_slot_auction : gmap string NodeSlotAuction;
  kv_node_slot_bid : gmap string NodeSlotBid;
  kv_node_slot_auction_bid : gmap string string;
  kv_config : gmap string Z;
  kv_node_account : gmap string NodeAccount;
  kv_penalty : gmap string Z;
  kv_vault : gmap string Vault;
  kv_vault_base_index : list string;
  kv_vault_base_eddsa_index : gmap string (list string);
  kv_txout : gmap string TxOut;
  kv_network_fee : gmap string NetworkFee;
  kv_observed_txin : gmap string ObservedTxVoter;
  kv_observed_txout : gmap string ObservedTxVoter;
  kv_observed_link : gmap string (list string);
  kv_errata_tx : gmap string ErrataTxVoter;
  kv_solvency_voter : gmap string SolvencyVoter;
  kv_network_fee_voter : gmap string ObservedNetworkFeeVoter;
  kv_frost : gmap string FrostVoter;
  kv_frost_keysign_failure : gmap string FrostKeysignFailVoter;
  kv_observing_addresses : list string;
  kv_last_signed_height : option Z;
  kv_last_chain_height : gmap string Z;
  kv_unmatched_outbound : gmap string Z;
  kv_last_observe_height : gmap string Z;
  kv_frost_keygen_metric : gmap string FrostMetric;
  kv_frost_keysign_metric : gmap string FrostMetric;
  kv_frost_keysign_metric_latest : option FrostMetric;
  kv_node_jail : gmap string Jail;
  kv_min_join_last : option MinJoinLast;
  kv_keygen : gmap string KeygenBlock;
  kv_node_config : gmap string NodeConfigs;
  kv_node_pause_chain : gmap string Z
}.

#[export] Instance KVStore_eta : Eta KVStore := fun r =>
  mkKVStore (kv_deposit_session r) (kv_deposit_pow r) (kv_deposit_pow_timing r)
    (kv_deposit_pow_difficulty r) (kv_deposit_address r) (kv_vault_deposit_path_index r)
    (kv_deposit_record r) (kv_shielder_commitment r) (kv_shielder_note_pubkey r)
    (kv_shielder_denom_commitment r) (kv_shielder_tree_state r) (kv_shielder_merkle_root
    r) (kv_shielder_withdrawal r) (kv_shielder_withdrawal_outhash r)
    (kv_shielder_nullifier r) (kv_shielder_node_bond r) (kv_shielder_node_bonder r)
    (kv_shielder_node_bond_slot r) (kv_fee_pool r) (kv_shielder_fee_note_pubkey r)
    (kv_node_slot_auction r) (kv_node_slot_bid r) (kv_node_slot_auction_bid r)
    (kv_config r) (kv_node_account r) (kv_penalty r) (kv_vault r) (kv_vault_base_index
    r) (kv_vault_base_eddsa_index r) (kv_txout r) (kv_network_fee r) (kv_observed_txin
    r) (kv_observed_txout r) (kv_observed_link r) (kv_errata_tx r) (kv_solvency_voter r)
    (kv_network_fee_voter r) (kv_frost r) (kv_frost_keysign_failure r)
    (kv_observing_addresses r) (kv_last_signed_height r) (kv_last_chain_height r)
    (kv_unmatched_outbound r) (kv_last_observe_height r) (kv_frost_keygen_metric r)
    (kv_frost_keysign_metric r) (kv_frost_keysign_metric_latest r) (kv_node_jail r)
    (kv_min_join_last r) (kv_keygen r) (kv_node_config r) (kv_node_pause_chain r).

Definition KVStore_empty : KVStore :=
  mkKVStore ∅ ∅ ∅ None ∅ ∅ ∅ ∅ ∅ ∅ ∅ ∅ ∅ ∅ ∅ ∅ ∅ None None ∅ ∅ ∅ ∅ ∅ ∅ ∅ ∅ [] ∅ ∅ ∅ ∅ ∅
    ∅ ∅ ∅ ∅ ∅ ∅ [] None ∅ ∅ ∅ ∅ ∅ None ∅ None ∅ ∅ ∅.

(** The part of [cosmos.Context] the code reads. *)
Record Ctx := mkCtx { BlockHeight : Z }.

Abbreviation KM := (M KVStore).

(** ** Generic accessors *)

Section Access.
Context {A : Type} (f : KVStore → gmap string A) {st : Setter f}.

Definition getShielderJSON (key : string) : KM (option A) :=
  gets (λ s, f s !! ToUpper key).
Definition setShielderJSON (key : string) (record : A) : KM unit :=
  modify (set_field f <[ToUpper key := record]>).
Definition del (key : string) : KM unit := modify (set_field f (delete (ToUpper key))).
Definition getIterator : KM (list A) := gets (λ s, sorted_values (f s)).
Definition getIteratorAfter (cursor : string) : KM (list A) :=
  let cursor := TrimSpace cursor in
  gets (λ s,
    if is_empty cursor then sorted_values (f s)
    else (List.filter (λ kv, str_lt (ToUpper cursor) kv.1) (sorted_items (f s))).*2).
End Access.

Section AccessSet.
Context (f : KVStore → gset string) {st : Setter f}.

Definition has (key : string) : KM bool := gets (λ s, bool_decide (ToUpper key ∈ f s)).
Definition mark (key : string) : KM unit :=
  modify (set_field f (λ X, {[ToUpper key]} ∪ X)).
End AccessSet.

Definition from_option {A} (d : A) (o : option A) : A :=
  match o with Some a => a | None => d end.

(** ** Configuration *)

Definition GetConfigInt64 (n : ConfigName) : KM Z :=
  gets (λ s, Config.GetConfigInt64 (kv_config s) n).
Definition getConfigDurationBlocks (n : ConfigName) : KM Z :=
  gets (λ s, Config.getConfigDurationBlocks (kv_config s) n).

Definition SetConfig (key : string) (value : Z) : KM unit := setShielderJSON kv_config key value.

Section Keeper.
Context `{Ext}.

(** ** Deposits *)

Definition SetDepositSession (session : DepositSession) : KM unit :=
  _ ← lift (DepositSession_Valid session);
  _ ← setShielderJSON kv_deposit_session (DepositSession_Key session) session;
  setShielderJSON kv_deposit_pow (ds_PowToken session) (DepositSession_Key session).

Definition GetDepositSession (owner : string) : KM DepositSession :=
  o ← getShielderJSON kv_deposit_session owner;
  mret (from_option (DepositSession_zero <| ds_Owner := owner |>) o).

Definition GetDepositSessionByPowToken (powToken : string) : KM DepositSession :=
  o ← getShielderJSON kv_deposit_pow (TrimSpace powToken);
  match o with
  | Some owner =>
      if is_empty owner then fail "deposit pow token not found"
      else addr ← lift (AccAddressFromBech32 owner); GetDepositSession addr
  | None => fail "deposit pow token not found"
  end.

Definition SetDepositPowTiming (record : DepositPowTiming) : KM unit :=
  _ ← lift (DepositPowTiming_Valid record);
  setShielderJSON kv_deposit_pow_timing (DepositPowTiming_Key record) record.

Definition GetDepositPowTiming (powToken : string) : KM DepositPowTiming :=
  o ← getShielderJSON kv_deposit_pow_timing (TrimSpace (TrimSpace powToken));
  mret (from_option DepositPowTiming_zero o).

Definition SetDepositPowDifficultyState (state : DepositPowDifficultyState) : KM unit :=
  modify (λ s, s <| kv_deposit_pow_difficulty := Some state |>).

Definition GetDepositPowDifficultyState : KM DepositPowDifficultyState :=
  gets (λ s, from_option DepositPowDifficultyState_zero (kv_deposit_pow_difficulty s)).

Definition SetDepositAddress (record : DepositAddress) : KM unit :=
  _ ← lift (DepositAddress_Valid record);
  setShielderJSON kv_deposit_address (da_Address record) record.

Definition GetDepositAddress (address : string) : KM DepositAddress :=
  o ← getShielderJSON kv_deposit_address address;
  mret (from_option (DepositAddress_zero <| da_Address := address |>) o).

Definition DeleteDepositAddress (address : string) : KM unit :=
  if Address.IsEmpty address then mret tt else del kv_deposit_address address.

(** One cursor per vault, whatever the path type. *)
Definition vaultDepositPathCursorKey (vaultPubKey : string)
    (pathType : VaultPath.VaultDepositPathType) : string := vaultPubKey.

Definition GetNextVaultDepositPathIndex (vaultPubKey : string)
    (pathType : VaultPath.VaultDepositPathType) : KM Z :=
  _ ← fail_if (PubKey.IsEmpty vaultPubKey) "missing vault pubkey";
  o ← getShielderJSON kv_vault_deposit_path_index
        (vaultDepositPathCursorKey vaultPubKey pathType);
  mret (from_option 0 o).

Definition SetNextVaultDepositPathIndex (vaultPubKey : string)
    (pathType : VaultPath.VaultDepositPathType) (index : Z) : KM unit :=
  _ ← fail_if (PubKey.IsEmpty vaultPubKey) "missing vault pubkey";
  setShielderJSON kv_vault_deposit_path_index
    (vaultDepositPathCursorKey vaultPubKey pathType) index.

Definition AllocateVaultDepositPathIndex (vaultPubKey : string)
    (pathType : VaultPath.VaultDepositPathType) : KM (Z * Z) :=
  depositIndex ← GetNextVaultDepositPathIndex vaultPubKey pathType;
  pathIndex ← lift (VaultPath.VaultDepositPathIndex pathType depositIndex
                      VaultPath.DepositPathCommitmentRoot);
  _ ← SetNextVaultDepositPathIndex vaultPubKey pathType (depositIndex +u 1);
  mret (depositIndex, pathIndex).

Definition SetDepositRecord (deposit : DepositRecord) : KM unit :=
  _ ← lift (DepositRecord_Valid deposit);
  setShielderJSON kv_deposit_record (dr_DepositID deposit) deposit.

Definition GetDepositRecord (depositID : string) : KM DepositRecord :=
  o ← getShielderJSON kv_deposit_record depositID;
  mret (from_option DepositRecord_zero o).

(** ** Notes and trees *)

Definition SetShielderCommitment (commitment : string) : KM unit :=
  let commitment := TrimSpace commitment in
  _ ← fail_if (is_empty commitment) "missing shielder commitment";
  mark kv_shielder_commitment commitment.

Definition ShielderCommitmentExists (commitment : string) : KM bool :=
  has kv_shielder_commitment (TrimSpace commitment).

Definition SetShielderNoteRecord (record : StoredShielderNoteRecord) : KM unit :=
  _ ← lift (StoredShielderNoteRecord_Valid record);
  setShielderJSON kv_shielder_note_pubkey (StoredShielderNoteRecord_Key record) record.

Definition SetShielderDenominationLeaf (denominationSats index : Z) (commitment : string)
    : KM unit :=
  let commitment := TrimSpace commitment in
  _ ← fail_if (denominationSats =? 0) "missing shielder commitment denomination";
  _ ← fail_if (is_empty commitment) "missing shielder commitment";
  modify (set_field kv_shielder_denom_commitment <[(denominationSats, index) := commitment]>).

(** The leaves of a denomination with their indexes, in index order. *)
Definition denomination_leaves (leaves : gmap (Z * Z) string) (denominationSats : Z)
    : list (Z * string) :=
  insert_sort (λ x y, x.1 <? y.1)
    ((λ kv, (kv.1.2, kv.2)) <$> filter (λ kv, kv.1.1 = denominationSats) (map_to_list leaves)).

Definition GetShielderDenominationCommitments (denominationSats : Z) : KM (list string) :=
  _ ← fail_if (denominationSats =? 0) "missing shielder commitment denomination";
  gets (λ s, (denomination_leaves (kv_shielder_denom_commitment s) denominationSats).*2).

Definition SetShielderTreeState (state : StoredShielderTreeState) : KM unit :=
  _ ← lift (StoredShielderTreeState_Valid state);
  modify (set_field kv_shielder_tree_state <[ts_DenominationSats state := state]>).

Definition GetShielderTreeState (denominationSats : Z) : KM (option StoredShielderTreeState) :=
  gets (λ s, kv_shielder_tree_state s !! denominationSats).

Definition SetShielderMerkleRoot (denominationSats : Z) (root : string) : KM unit :=
  let root := TrimSpace root in
  _ ← fail_if (denominationSats =? 0) "missing shielder merkle root denomination";
  _ ← fail_if (is_empty root) "missing shielder merkle root";
  modify (set_field kv_shielder_merkle_root (λ X, {[(denominationSats, TrimSpace root)]} ∪ X)).

Definition ShielderMerkleRootExists (denominationSats : Z) (root : string) : KM bool :=
  if denominationSats =? 0 then mret false
  else
    let root := TrimSpace root in
    if is_empty root then mret false
    else gets (λ s, bool_decide ((denominationSats, TrimSpace root) ∈ kv_shielder_merkle_root s)).

(** ** Redeems and nullifiers *)

Definition SetShielderRedeem (withdrawal : ShielderRedeem) : KM unit :=
  _ ← lift (ShielderRedeem_Valid withdrawal);
  setShielderJSON kv_shielder_withdrawal (sr_WithdrawalID withdrawal) withdrawal.

Definition GetShielderRedeem (withdrawalID : string) : KM ShielderRedeem :=
  o ← getShielderJSON kv_shielder_withdrawal withdrawalID;
  mret (from_option (ShielderRedeem_zero <| sr_WithdrawalID := withdrawalID |>) o).

Definition SetShielderRedeemOutHash (outHash withdrawalID : string) : KM unit :=
  let outHash := TrimSpace outHash in
  let withdrawalID := TrimSpace withdrawalID in
  _ ← fail_if (is_empty outHash) "missing shielder redeem out hash";
  _ ← fail_if (is_empty withdrawalID) "missing shielder redeem id";
  setShielderJSON kv_shielder_withdrawal_outhash outHash withdrawalID.

Definition GetShielderRedeemByOutHash (outHash : string) : KM (ShielderRedeem * bool) :=
  o ← getShielderJSON kv_shielder_withdrawal_outhash (TrimSpace outHash);
  let withdrawalID := from_option "" o in
  if is_blank withdrawalID then mret (ShielderRedeem_zero, false)
  else redeem ← GetShielderRedeem withdrawalID; mret (redeem, true).

Definition DeleteShielderRedeemOutHash (outHash : string) : KM unit :=
  let outHash := TrimSpace outHash in
  if is_empty outHash then mret tt else del kv_shielder_withdrawal_outhash outHash.

(** [getShielderNullifierRecord] for records written by this code. *)
Definition getShielderNullifierRecord (nullifierHash : string)
    : KM (option StoredShielderNullifierRecord) :=
  o ← getShielderJSON kv_shielder_nullifier (TrimSpace nullifierHash);
  mret (match o with
        | Some record =>
            Some (if is_blank (nr_NullifierHash record)
                  then record <| nr_NullifierHash := TrimSpace nullifierHash |> else record)
        | None => None
        end).

Definition GetShielderRedeemByNullifier (nullifierHash : string) : KM ShielderRedeem :=
  o ← getShielderNullifierRecord (TrimSpace nullifierHash);
  match o with
  | Some record =>
      if is_blank (nr_WithdrawalID record) then mret ShielderRedeem_zero
      else GetShielderRedeem (nr_WithdrawalID record)
  | None => mret ShielderRedeem_zero
  end.

Definition SetShielderNullifierSpent (ctx : Ctx) (nullifierHash withdrawalID : string)
    : KM unit :=
  let nullifierHash := TrimSpace nullifierHash in
  _ ← fail_if (is_empty nullifierHash) "missing shielder nullifier";
  _ ← fail_if (is_blank withdrawalID) "missing shielder redeem id";
  withdrawal ← GetShielderRedeem (TrimSpace withdrawalID);
  let createdHeight :=
    if 0 <? sr_RequestedHeight withdrawal then sr_RequestedHeight withdrawal
    else BlockHeight ctx in
  setShielderJSON kv_shielder_nullifier nullifierHash
    (StoredShielderNullifierRecord_zero
       <| nr_NullifierHash := nullifierHash |>
       <| nr_WithdrawalID := TrimSpace withdrawalID |>
       <| nr_CreatedHeight := createdHeight |>).

Definition ShielderNullifierSpent (nullifierHash : string) : KM bool :=
  o ← getShielderJSON kv_shielder_nullifier (TrimSpace nullifierHash);
  mret (match o with Some _ => true | None => false end).

(** ** Node bonds and fees *)

Definition GetNextShielderNodeBondSlot : KM Z :=
  gets (λ s, from_option 1 (kv_shielder_node_bond_slot s)).

Definition SetNextShielderNodeBondSlot (slot : Z) : KM unit :=
  modify (λ s, s <| kv_shielder_node_bond_slot := Some slot |>).

Definition AllocateShielderNodeBondSlot : KM Z :=
  slot ← GetNextShielderNodeBondSlot;
  _ ← SetNextShielderNodeBondSlot (slot +u 1);
  mret slot.

Definition SetShielderNodeBond (bond : ShielderNodeBond) : KM unit :=
  _ ← lift (ShielderNodeBond_Valid bond);
  setShielderJSON kv_shielder_node_bond (ShielderNodeBond_Key bond) bond.

Definition GetShielderNodeBond (nodePubKey : string) : KM ShielderNodeBond :=
  o ← getShielderJSON kv_shielder_node_bond (TrimSpace (TrimSpace nodePubKey));
  mret (from_option ShielderNodeBond_zero o).

Definition SetShielderNodeBonder (bonder : ShielderNodeBonder) : KM unit :=
  _ ← lift (ShielderNodeBonder_Valid bonder);
  setShielderJSON kv_shielder_node_bonder (ShielderNodeBonder_Key bonder) bonder.

(** A missing bonder is returned with its key fields filled in. *)
Definition GetShielderNodeBonder (nodePubKey bonder : string) : KM ShielderNodeBonder :=
  let record := ShielderNodeBonder_zero
    <| br_NodePubKey := TrimSpace nodePubKey |> <| br_Bonder := bonder |> in
  o ← getShielderJSON kv_shielder_node_bonder (ShielderNodeBonder_Key record);
  mret (from_option record o).

Definition DeleteShielderNodeBonder (nodePubKey bonder : string) : KM unit :=
  del kv_shielder_node_bonder (ShielderNodeBonderKey (TrimSpace nodePubKey) bonder).

Definition SetFeePool (pool : FeePool) : KM unit :=
  modify (λ s, s <| kv_fee_pool := Some pool |>).

Definition GetFeePool : KM FeePool := gets (λ s, from_option FeePool_zero (kv_fee_pool s)).

Definition SetShielderFeeNotePubKey (pubKey : string) : KM unit :=
  let pubKey := TrimSpace pubKey in
  _ ← fail_if (is_empty pubKey) "missing shielder fee note pubkey";
  mark kv_shielder_fee_note_pubkey pubKey.

Definition ShielderFeeNotePubKeyUsed (pubKey : string) : KM bool :=
  let pubKey := TrimSpace pubKey in
  if is_empty pubKey then mret false else has kv_shielder_fee_note_pubkey pubKey.

(** ** Auctions *)

Definition SetNodeSlotAuction (auction : NodeSlotAuction) : KM unit :=
  _ ← lift (NodeSlotAuction_Valid auction);
  setShielderJSON kv_node_slot_auction (NodeSlotAuction_Key auction) auction.

Definition GetNodeSlotAuction (auctionID : string) : KM NodeSlotAuction :=
  let record := NodeSlotAuction_zero <| au_AuctionID := TrimSpace auctionID |> in
  o ← getShielderJSON kv_node_slot_auction (NodeSlotAuction_Key record);
  mret (from_option record o).

Definition SetNodeSlotBid (bid : NodeSlotBid) : KM unit :=
  _ ← lift (NodeSlotBid_Valid bid);
  _ ← setShielderJSON kv_node_slot_bid (NodeSlotBid_Key bid) bid;
  setShielderJSON kv_node_slot_auction_bid (bd_AuctionID bid ++ bd_BidID bid) (bd_BidID bid).

Definition GetNodeSlotBid (bidID : string) : KM NodeSlotBid :=
  o ← getShielderJSON kv_node_slot_bid (TrimSpace (TrimSpace bidID));
  mret (from_option NodeSlotBid_zero o).

(** ** Outbounds (keeper_txout.go) *)

Definition GetTxOut (height : Z) : KM TxOut :=
  o ← getShielderJSON kv_txout (itoa height);
  mret (from_option (NewTxOut height) o).

Definition SetTxOut (blockOut : TxOut) : KM unit :=
  if TxOut_IsEmpty blockOut then mret tt
  else
    let blockOut := if is_empty (txo_Status blockOut)
      then blockOut <| txo_Status := TxOutStatusPendingSign |> else blockOut in
    let blockOut := if txOutComplete blockOut
      then blockOut <| txo_Status := TxOutStatusComplete |> else blockOut in
    setShielderJSON kv_txout (itoa (txo_Height blockOut)) blockOut.

Definition ClearTxOut (height : Z) : KM unit := del kv_txout (itoa height).

(** The first height at or after [height] whose block is free. *)
Fixpoint first_free_txout (n : nat) (height : Z) : KM (option TxOut) :=
  match n with
  | O => mret None
  | S n' =>
      candidate ← GetTxOut height;
      if TxOut_IsEmpty candidate || is_empty (txo_Status candidate)
      then mret (Some candidate)
      else first_free_txout n' (height +i 1)
  end.

Definition AppendTxOut (height : Z) (item : TxOutItem) : KM unit :=
  let item := item <| to_TxType := GetTxType item |> in
  block ← first_free_txout 1000 height;
  match block with
  | None => fail "fail to find empty txout slot from height"
  | Some block =>
      SetTxOut (block <| txo_Status := TxOutStatusPendingSign |>
        <| txo_TxArray := (txo_TxArray block ++ [item])%list |>)
  end.

(** ** Node accounts (keeper_node_account.go) *)

Definition EmptyPubKeySet : PubKeySet := Types.EmptyPubKeySet.

Definition GetNodeAccount (ctx : Ctx) (addr : string) : KM NodeAccount :=
  o ← getShielderJSON kv_node_account addr;
  mret (from_option (NewNodeAccount addr NodeUnknown EmptyPubKeySet "" 0 "" (BlockHeight ctx)) o).

Definition GetNodeAccountByPubKey (ctx : Ctx) (pk : string) : KM NodeAccount :=
  addr ← lift (PubKey.GetThorAddress pk); GetNodeAccount ctx addr.

Definition GetNodeAccountPenaltyPoints (addr : string) : KM Z :=
  o ← getShielderJSON kv_penalty addr; mret (from_option 0 o).

Definition SetNodeAccountPenaltyPoints (addr : string) (pts : Z) : KM unit :=
  setShielderJSON kv_penalty addr (if pts <? 0 then 0 else pts).

Definition ResetNodeAccountPenaltyPoints (addr : string) : KM unit := del kv_penalty addr.

Definition IncNodeAccountPenaltyPoints (addr : string) (pts : Z) : KM unit :=
  current ← GetNodeAccountPenaltyPoints addr;
  SetNodeAccountPenaltyPoints addr (current +i pts).

Definition DecNodeAccountPenaltyPoints (addr : string) (pts : Z) : KM unit :=
  current ← GetNodeAccountPenaltyPoints addr;
  SetNodeAccountPenaltyPoints addr (current -i pts).

Definition SetNodeAccount (ctx : Ctx) (na : NodeAccount) : KM unit :=
  if NodeAccount_IsEmpty na then mret tt
  else
    na ← (if bool_decide (na_Status na = NodeActive) && (na_ActiveBlockHeight na =? 0) then
            _ ← ResetNodeAccountPenaltyPoints (na_NodeAddress na);
            mret (na <| na_ActiveBlockHeight := BlockHeight ctx |>)
          else mret na);
    setShielderJSON kv_node_account (na_NodeAddress na) na.

Definition ListNodesByStatus (status : NodeStatus) : KM (list NodeAccount) :=
  nas ← getIterator kv_node_account;
  mret (List.filter (λ na, bool_decide (na_Type na = TypeNode)
    && bool_decide (na_Status na = status)) nas).

Definition ListActiveNodes : KM (list NodeAccount) := ListNodesByStatus NodeActive.

Definition ListNodesWithBond : KM (list NodeAccount) :=
  nas ← getIterator kv_node_account;
  mret (List.filter (λ na, bool_decide (na_Type na = TypeNode) && negb (na_Bond na =? 0)) nas).

Definition PubKeySet_IsEmpty (p : PubKeySet) : bool :=
  PubKey.IsEmpty (pks_Secp256k1 p) && PubKey.IsEmpty (pks_Ed25519 p).

Definition PubKeySet_Contains (p : PubKeySet) (pk : string) : bool :=
  PubKey.Equals (pks_Ed25519 p) pk || PubKey.Equals (pks_Secp256k1 p) pk.

Definition keys_clash (consensusPubKey : string) (pubKeys : PubKeySet) (na : NodeAccount) : bool :=
  str_eq (na_NodeConsPubKey na) consensusPubKey
  || PubKeySet_Contains (na_PubKeySet na) (pks_Secp256k1 pubKeys)
  || (negb (PubKey.IsEmpty (pks_Ed25519 pubKeys))
      && PubKeySet_Contains (na_PubKeySet na) (pks_Ed25519 pubKeys)).

Definition EnsureNodeKeysUnique (signer consensusPubKey : string) (pubKeys : PubKeySet)
    : KM unit :=
  _ ← fail_if (is_blank consensusPubKey) "Node Consensus Key cannot be empty";
  _ ← fail_if (PubKeySet_IsEmpty pubKeys) "PubKeySet cannot be empty";
  nas ← getIterator kv_node_account;
  mfor (λ na,
    if Acc_Equals (na_NodeAddress na) signer then mret tt
    else fail_if (keys_clash consensusPubKey pubKeys na) "already exist") nas.

(** ** Vaults (keeper_vault.go) *)

Definition getBaseEDDSAIndex (pubKeyEDDSA : string) : KM string :=
  o ← getShielderJSON kv_vault_base_eddsa_index pubKeyEDDSA;
  match o with
  | None => mret ""
  | Some [] => panic "index out of range"
  | Some (pk :: _) => mret pk
  end.

Definition addBaseEDDSAIndex (pubKeyEDDSA pubkeyECDSA : string) : KM unit :=
  setShielderJSON kv_vault_base_eddsa_index pubKeyEDDSA [pubkeyECDSA].

(** A chain of EDDSA aliases is followed; a cycle of them never returns. *)
Fixpoint GetVault_fuel (fuel : nat) (ctx : Ctx) (pk : string) : KM Vault :=
  match fuel with
  | O => panic "stack overflow"
  | S fuel' =>
      o ← getShielderJSON kv_vault pk;
      match o with
      | None =>
          ecdsaPubKey ← getBaseEDDSAIndex pk;
          if negb (PubKey.IsEmpty ecdsaPubKey) then GetVault_fuel fuel' ctx ecdsaPubKey
          else fail "vault not found"
      | Some record =>
          let record := if PubKey.IsEmpty (va_PubKey record)
            then record <| va_PubKey := pk |> else record in
          mret (if va_BlockHeight record =? 0
                then record <| va_BlockHeight := BlockHeight ctx |> else record)
      end
  end.

(** Longer than any chain of distinct aliases. *)
Definition GetVault (ctx : Ctx) (pk : string) : KM Vault :=
  n ← gets (λ s, size (kv_vault_base_eddsa_index s));
  GetVault_fuel (S (S n)) ctx pk.

Definition parse_index (record : list string) : res (list string) :=
  rfold (λ pks x, pk ← PubKey.NewPubKey x; Ok (pks ++ [pk])%list) [] record.

Definition getBaseIndex : KM (list string) :=
  record ← gets kv_vault_base_index; lift (parse_index record).

Definition addBaseIndex (pubkey : string) : KM unit :=
  pks ← getBaseIndex;
  if PubKey.Contains pks pubkey then mret tt
  else modify (λ s, s <| kv_vault_base_index := (pks ++ [pubkey])%list |>).

Definition RemoveFromBaseIndex (pubkey : string) : KM unit :=
  pks ← getBaseIndex;
  modify (λ s, s <| kv_vault_base_index :=
    List.filter (λ pk, negb (PubKey.Equals pk pubkey)) pks |>).

Definition SetVault (vault : Vault) : KM unit :=
  _ ← (if Vault.IsBase vault then
         _ ← addBaseIndex (va_PubKey vault);
         if negb (PubKey.IsEmpty (va_PubKeyEddsa vault))
         then addBaseEDDSAIndex (va_PubKeyEddsa vault) (va_PubKey vault) else mret tt
       else mret tt);
  setShielderJSON kv_vault (va_PubKey vault) vault.

Definition VaultExists (pk : string) : KM bool :=
  eddsaPubKey ← getBaseEDDSAIndex pk;
  o ← getShielderJSON kv_vault pk;
  mret (match o with Some _ => true | None => negb (PubKey.IsEmpty eddsaPubKey) end).

Definition GetBaseVaults (ctx : Ctx) : KM (list Vault) :=
  pks ← getBaseIndex;
  mfold (λ baseVaults pk,
    vault ← GetVault ctx pk;
    mret (if Vault.IsBase vault then (baseVaults ++ [vault])%list else baseVaults)) [] pks.

Definition GetBaseVaultsByStatus (ctx : Ctx) (status : VaultStatus) : KM (list Vault) :=
  all ← GetBaseVaults ctx;
  mret (List.filter (λ vault, Vault.status_eqb (va_Status vault) status) all).

(** A missing vault is not an error; an index that does not parse is logged. *)
Definition DeleteVault (ctx : Ctx) (pubkey : string) : KM unit :=
  r ← try (GetVault ctx pubkey);
  match r with
  | Ok vault =>
      _ ← fail_if (Vault.HasFunds vault) "unable to delete vault: it still contains funds";
      _ ← (if Vault.IsBase vault then _ ← try (RemoveFromBaseIndex pubkey); mret tt
           else mret tt);
      del kv_vault (va_PubKey vault)
  | Err e => if str_eq e "vault not found" then mret tt else fail e
  | Panic e => panic e
  end.

(** Every unsigned outbound of the asset within a signing period. *)
Definition GetPendingOutbounds (ctx : Ctx) (asset : Asset) : KM (list TxOutItem) :=
  period ← GetConfigInt64 Keysign_PeriodMinutes;
  blockTime ← GetConfigInt64 Chain_BlockTimeSeconds;
  let signingPeriod := MinutesToBlocks period blockTime in
  let start := BlockHeight ctx -i signingPeriod in
  let startHeight := if start <? 1 then 1 else start in
  let endHeight := BlockHeight ctx +i signingPeriod in
  mfold (λ outbounds height,
    blockOut ← GetTxOut height;
    mret (outbounds ++ List.filter (λ item,
      Asset_Equals (c_Asset (to_Coin item)) asset && TxID.IsEmpty (to_OutHash item))
      (txo_TxArray blockOut))%list)
    [] (seqZ startHeight (endHeight - startHeight + 1)).

(** ** Network fees *)

Definition GetNetworkFee (chain : string) : KM NetworkFee :=
  o ← getShielderJSON kv_network_fee (ToUpper chain);
  mret (from_option (NetworkFee_zero <| nf_Chain := chain |>) o).

Definition SaveNetworkFee (chain : string) (networkFee : NetworkFee) : KM unit :=
  _ ← lift (NetworkFee_Valid networkFee);
  setShielderJSON kv_network_fee (ToUpper chain) networkFee.
(** ** Voters (keeper_txin.go, keeper_errata.go, keeper_solvency_voter.go,
keeper_observed_network_fee_voter.go, keeper_frost.go,
keeper_frost_keysign_fail.go) *)

Definition SetObservedTxInVoter (tx : ObservedTxVoter) : KM unit :=
  setShielderJSON kv_observed_txin (ov_TxID tx) tx.
Definition SetObservedTxOutVoter (tx : ObservedTxVoter) : KM unit :=
  setShielderJSON kv_observed_txout (ov_TxID tx) tx.
Definition GetObservedTxInVoter (hash : string) : KM ObservedTxVoter :=
  o ← getShielderJSON kv_observed_txin hash;
  mret (from_option (ObservedTxVoter_zero <| ov_TxID := hash |>) o).
Definition GetObservedTxOutVoter (hash : string) : KM ObservedTxVoter :=
  o ← getShielderJSON kv_observed_txout hash;
  mret (from_option (ObservedTxVoter_zero <| ov_TxID := hash |>) o).

Definition SetObservedLink (inhash outhash : string) : KM unit :=
  o ← getShielderJSON kv_observed_link inhash;
  let record := from_option [] o in
  if existsb (str_eq outhash) record then mret tt
  else setShielderJSON kv_observed_link inhash (record ++ [outhash])%list.
Definition GetObservedLink (inhash : string) : KM (list string) :=
  o ← getShielderJSON kv_observed_link inhash;
  mret (omap (λ s, match TxID.NewTxID s with Ok hash => Some hash | _ => None end)
          (from_option [] o)).

Definition SetErrataTxVoter (errata : ErrataTxVoter) : KM unit :=
  setShielderJSON kv_errata_tx (ErrataTxVoter_String errata) errata.
Definition GetErrataTxVoter (txID chain : string) : KM ErrataTxVoter :=
  let record := NewErrataTxVoter txID chain in
  o ← getShielderJSON kv_errata_tx (ErrataTxVoter_String record);
  mret (from_option record o).

Definition SolvencyVoter_zero : SolvencyVoter := NewSolvencyVoter "" "" "" [] 0.
Definition SetSolvencyVoter (solvencyVoter : SolvencyVoter) : KM unit :=
  setShielderJSON kv_solvency_voter
    (ToUpper (sv_Chain solvencyVoter) ++ "-" ++ sv_Id solvencyVoter) solvencyVoter.
Definition GetSolvencyVoter (txID chain : string) : KM SolvencyVoter :=
  o ← getShielderJSON kv_solvency_voter (ToUpper chain ++ "-" ++ txID);
  mret (from_option SolvencyVoter_zero o).

Definition SetObservedNetworkFeeVoter (networkFeeVoter : ObservedNetworkFeeVoter) : KM unit :=
  setShielderJSON kv_network_fee_voter (ObservedNetworkFeeVoter_ID networkFeeVoter) networkFeeVoter.
Definition GetObservedNetworkFeeVoter (height : Z) (chain : string) (rate size : Z)
    : KM ObservedNetworkFeeVoter :=
  let record := NewObservedNetworkFeeVoter height chain in
  let record := if 0 <? rate then record <| nv_FeeRate := rate |> else record in
  let record := if 0 <? size then record <| nv_TransactionSize := size |> else record in
  o ← getShielderJSON kv_network_fee_voter (ObservedNetworkFeeVoter_ID record);
  mret (from_option record o).

Definition SetFrostVoter (frost : FrostVoter) : KM unit :=
  setShielderJSON kv_frost (fv_ID frost) frost.
Definition GetFrostVoter (id : string) : KM FrostVoter :=
  o ← getShielderJSON kv_frost id; mret (from_option (NewFrostVoter id [] "" "") o).

Definition SetFrostKeysignFailVoter (frost : FrostKeysignFailVoter) : KM unit :=
  setShielderJSON kv_frost_keysign_failure (kf_ID frost) frost.
Definition GetFrostKeysignFailVoter (id : string) : KM FrostKeysignFailVoter :=
  o ← getShielderJSON kv_frost_keysign_failure id;
  mret (from_option (NewFrostKeysignFailVoter id 0) o).

(** ** Observers (keeper_observer.go) *)

Definition GetObservingAddresses : KM (list string) :=
  gets kv_observing_addresses.
Definition AddObservingAddresses (inAddresses : list string) : KM unit :=
  if (length inAddresses =? 0)%nat then mret tt
  else
    curr ← GetObservingAddresses;
    modify (λ s, s <| kv_observing_addresses :=
      foldl TxVoter.add_new [] (curr ++ inAddresses)%list |>).
Definition ClearObservingAddresses : KM unit := modify (λ s, s <| kv_observing_addresses := [] |>).

(** ** Heights and halts (keeper_last_height.go, keeper_halt.go) *)

Definition GetLastSignedHeight : KM Z := gets (λ s, from_option 0 (kv_last_signed_height s)).
Definition SetLastSignedHeight (height : Z) : KM unit :=
  lastHeight ← GetLastSignedHeight;
  if height <? lastHeight then mret tt
  else modify (λ s, s <| kv_last_signed_height := Some height |>).

Definition GetLastChainHeight (chain : string) : KM Z :=
  o ← getShielderJSON kv_last_chain_height (ToUpper chain); mret (from_option 0 o).
Definition ForceSetLastChainHeight (chain : string) (height : Z) : KM unit :=
  setShielderJSON kv_last_chain_height (ToUpper chain) height.
Definition SetLastChainHeight (chain : string) (height : Z) : KM unit :=
  lastHeight ← GetLastChainHeight chain;
  _ ← fail_if (height <? lastHeight) "last block height is larger, block height can't go backward";
  ForceSetLastChainHeight chain height.

Definition IsChainHalted (ctx : Ctx) : KM bool :=
  haltChain ← GetConfigInt64 Halt_ChainGlobal;
  if (0 <? haltChain) && (haltChain <=? BlockHeight ctx) then mret true
  else
    pauseChain ← gets (λ s, Config.GetConfig (kv_config s) "NodePauseChainGlobal");
    if BlockHeight ctx <=? pauseChain then mret true
    else
      haltChain ← GetConfigInt64 Halt_SolvencyCheck;
      mret ((0 <? haltChain) && (haltChain <=? BlockHeight ctx)).

Definition observe_key (address chain : string) : string := address ++ "/" ++ chain.
Definition SetLastObserveHeight (chain address : string) (height : Z) : KM unit :=
  o ← getShielderJSON kv_last_observe_height (observe_key address chain);
  match o with
  | Some lastHeight =>
      if height <? lastHeight then mret tt
      else setShielderJSON kv_last_observe_height (observe_key address chain) height
  | None => setShielderJSON kv_last_observe_height (observe_key address chain) height
  end.
Definition ForceSetLastObserveHeight (chain address : string) (height : Z) : KM unit :=
  setShielderJSON kv_last_observe_height (observe_key address chain) height.

(** ** Signing times (keeper_frost.go) *)

Definition GetFrostKeygenMetric (pubkey : string) : KM FrostMetric :=
  o ← getShielderJSON kv_frost_keygen_metric pubkey; mret (from_option (mkFrostMetric pubkey []) o).
Definition SetFrostKeygenMetric (metric : FrostMetric) : KM unit :=
  setShielderJSON kv_frost_keygen_metric (fm_Key metric) metric.
Definition GetFrostKeysignMetric (txID : string) : KM FrostMetric :=
  o ← getShielderJSON kv_frost_keysign_metric txID; mret (from_option (mkFrostMetric txID []) o).
Definition SetFrostKeysignMetric (metric : FrostMetric) : KM unit :=
  _ ← setShielderJSON kv_frost_keysign_metric (fm_Key metric) metric;
  modify (λ s, s <| kv_frost_keysign_metric_latest := Some metric |>).
Definition GetLatestFrostKeysignMetric : KM FrostMetric :=
  gets (λ s, from_option (mkFrostMetric "" []) (kv_frost_keysign_metric_latest s)).

Definition SetUnmatchedOutboundHeight (txID : string) (height : Z) : KM unit :=
  setShielderJSON kv_unmatched_outbound (ToLower txID) height.
Definition GetUnmatchedOutboundHeight (txID : string) : KM Z :=
  o ← getShielderJSON kv_unmatched_outbound (ToLower txID); mret (from_option 0 o).
Definition DeleteUnmatchedOutbound (txID : string) : KM unit :=
  del kv_unmatched_outbound (ToLower txID).
End Keeper.

(** ** Decomposing keeper calls *)

#[export] Hint Unfold SetDepositSession GetDepositSession SetDepositPowTiming
  GetDepositPowTiming SetDepositPowDifficultyState GetDepositPowDifficultyState
  SetDepositAddress GetDepositAddress DeleteDepositAddress
  GetNextVaultDepositPathIndex SetNextVaultDepositPathIndex
  AllocateVaultDepositPathIndex SetDepositRecord GetDepositRecord
  SetShielderCommitment ShielderCommitmentExists SetShielderNoteRecord
  SetShielderDenominationLeaf GetShielderDenominationCommitments
  SetShielderTreeState GetShielderTreeState SetShielderMerkleRoot
  ShielderMerkleRootExists SetShielderRedeem GetShielderRedeem
  SetShielderRedeemOutHash GetShielderRedeemByOutHash DeleteShielderRedeemOutHash
  SetShielderNullifierSpent ShielderNullifierSpent GetNextShielderNodeBondSlot
  SetNextShielderNodeBondSlot AllocateShielderNodeBondSlot SetShielderNodeBond
  GetShielderNodeBond SetShielderNodeBonder GetShielderNodeBonder
  DeleteShielderNodeBonder SetFeePool GetFeePool SetShielderFeeNotePubKey
  ShielderFeeNotePubKeyUsed SetNodeSlotAuction GetNodeSlotAuction SetNodeSlotBid
  GetNodeSlotBid GetTxOut SetTxOut ClearTxOut GetObservedTxInVoter
  SetObservedTxInVoter GetObservedTxOutVoter SetObservedTxOutVoter GetNetworkFee GetNodeAccount SetNodeAccount
  getShielderJSON setShielderJSON del getIterator has mark
  GetConfigInt64 getConfigDurationBlocks : keeper.

(** Decomposes the successful run [H] down to reads and writes. *)
Ltac keeper_inv := repeat (progress (autounfold with keeper in *; cbv zeta in *; go_inv)).
