(* ===== verification/BtcBatch.v ===== *)
(** * Bitcoin outbound batches (x/thornado/btc_gas.go)

Outbound items are collected per vault into one transaction of an epoch: the
block that takes an item, the unspent outputs of the vault, the inputs chosen
for a batch, its fee, and how value and fee are split over the items. *)

From S2P Require Import Prelude GoStrings Config Common Types Vaults Voters Keeper.

(** The Bitcoin libraries ([btcd], [btcutil]). *)
Class BtcWire := {
  (** [chainhash.NewHashFromStr] succeeds. *)
  hash_from_str_ok : string → bool;
  (** The length of the output script the code builds for an address of a
      supported kind; [None] when it does not decode or is not supported. *)
  output_script_len : string → option Z;
  (** [common.DeriveBTCTaprootPubKey] succeeds; the key has 32 bytes. *)
  taproot_pubkey_ok : string → Z → bool;
  (** [SerializeSizeStripped] and [SerializeSize] of a transaction with the
      given number of inputs, each with one witness item of the given length,
      and outputs with scripts of the given lengths. *)
  msg_tx_sizes : nat → Z → list Z → Z * Z
}.

Definition btcMaxBatchRecipients : Z := 9.
Definition btcMaxBatchVins : Z := 64.
Definition btcTaprootKeyspendWitnessLen : Z := 65.
Definition DustThreshold : Z := 1000.
Definition DefaultCoinDecimals : Z := 8.
Definition One : Z := 100000000.

(** [cosmos.Uint.Uint64] *)
Definition to_uint64 (z : Z) : res Z := if z <? two64 then Ok z else Panic "Uint64() out of bound".

Definition uint_sum (l : list Z) : res Z := rfold uint_add 0 l.

Section Gas.
Context `{Ext}.

Definition btcGasRateFromKeeper : KM Z :=
  networkFee ← GetNetworkFee BTCChain;
  _ ← lift (NetworkFee_Valid networkFee);
  _ ← fail_if (two63 - 1 <? nf_TransactionFeeRate networkFee) "bitcoin gas rate exceeds int64";
  mret (nf_TransactionFeeRate networkFee).

(** [BTCChain.NativeGasToThornado] multiplies and divides by the same unit. *)
Definition btcGasCoinFromNativeSats (sats : Z) : res Coin :=
  scaled ← uint_mul sats One;
  Ok ((NewCoin BTCAsset (scaled / One)) <| c_Decimals := DefaultCoinDecimals |>).

Definition btcOutputScript `{BtcWire} (addr : string) : res Z :=
  match output_script_len addr with
  | Some n => Ok n
  | None => Err "fail to decode bitcoin address"
  end.

Definition btcVaultOutputScript `{BtcWire} (pubKey : string) (pathIndex : Z) : res Z :=
  if taproot_pubkey_ok pubKey pathIndex then Ok 34 else Err "fail to derive taproot key".

Definition btcEstimatedVSize `{BtcWire} (vaultPubKey : string) (vaultPathIndex : Z)
    (outputAddrs : list string) (inputs : list TxOutInput) (hasChange : bool) : res Z :=
  if (length inputs =? 0)%nat
  then Err "cannot estimate bitcoin tx size without source inputs"
  else if negb (forallb (λ input, hash_from_str_ok (ti_TxId input)) inputs)
  then Err "invalid bitcoin source input txid"
  else
    scripts ← rfold (λ acc addr, script ← btcOutputScript addr; Ok (acc ++ [script])%list)
      [] outputAddrs;
    scripts ← (if hasChange then
                 changeScript ← btcVaultOutputScript vaultPubKey vaultPathIndex;
                 Ok (scripts ++ [changeScript])%list
               else Ok scripts);
    let '(strippedSize, totalSize) :=
      msg_tx_sizes (length inputs) btcTaprootKeyspendWitnessLen scripts in
    Ok (Z.quot (strippedSize * 3 + totalSize + 3) 4).

Definition btcExactGasCoin `{BtcWire} (vaultPubKey : string) (vaultPathIndex : Z)
    (outputAddrs : list string) (inputs : list TxOutInput) (gasRate : Z) (hasChange : bool)
    : res Coin :=
  if gasRate <=? 0 then Err "invalid bitcoin gas rate"
  else
    vSize ← btcEstimatedVSize vaultPubKey vaultPathIndex outputAddrs inputs hasChange;
    btcGasCoinFromNativeSats (u64 gasRate *u u64 vSize).
End Gas.

(** ** Inputs *)

(** When the running total would overflow, all inputs are added again to the
    part already summed. *)
Fixpoint source_inputs_total (all inputs : list TxOutInput) (total : Z) : res Z :=
  match inputs with
  | [] => Ok total
  | input :: rest =>
      if two64 - 1 - total <? ti_AmountSats input
      then rfold (λ wideTotal i, uint_add wideTotal (ti_AmountSats i)) total all
      else source_inputs_total all rest (total + ti_AmountSats input)
  end.

Definition btcSourceInputsAmount (inputs : list TxOutInput) : res Z :=
  source_inputs_total inputs inputs 0.

Definition btcSourceInputKey (txID : string) (vout : Z) : string :=
  ToLower txID ++ ":" ++ itoa vout.

Definition input_key (input : TxOutInput) : string := btcSourceInputKey (ti_TxId input) (ti_Vout input).

(** The fields [btcTxOutInputKey] keeps. *)
Definition btcTxOutInputKey (input : TxOutInput) : string * Z * Z :=
  (ti_TxId input, ti_Vout input, ti_AmountSats input).

(** Removes one entry of a multiset given as counts. *)
Definition take_count (matched : gmap (string * Z * Z) Z) (key : string * Z * Z)
    : option (gmap (string * Z * Z) Z) :=
  let n := default 0 (matched !! key) in
  if n =? 0 then None else Some (<[key := n - 1]> matched).

Fixpoint take_counts (matched : gmap (string * Z * Z) Z) (b : list TxOutInput) : bool :=
  match b with
  | [] => true
  | input :: b' =>
      match take_count matched (btcTxOutInputKey input) with
      | None => false
      | Some matched' => take_counts matched' b'
      end
  end.

(** The counts are [uint16]. *)
Definition count_inputs (a : list TxOutInput) : gmap (string * Z * Z) Z :=
  foldl (λ matched input,
    let key := btcTxOutInputKey input in
    <[key := (default 0 (matched !! key) + 1) mod 65536]> matched) ∅ a.

Definition same_input (input other : TxOutInput) : bool :=
  TxID.Equals (ti_TxId input) (ti_TxId other) && (ti_Vout input =? ti_Vout other)
  && (ti_AmountSats input =? ti_AmountSats other).

(** The first unmatched entry equal to [input] is marked. *)
Fixpoint mark_first (input : TxOutInput) (b : list (TxOutInput * bool))
    : option (list (TxOutInput * bool)) :=
  match b with
  | [] => None
  | (other, matched) :: b' =>
      if negb matched && same_input input other then Some ((other, true) :: b')
      else match mark_first input b' with
           | Some rest => Some ((other, matched) :: rest)
           | None => None
           end
  end.

Fixpoint mark_all (a : list TxOutInput) (b : list (TxOutInput * bool)) : bool :=
  match a with
  | [] => true
  | input :: a' =>
      match mark_first input b with None => false | Some b' => mark_all a' b' end
  end.

Definition btcTxOutInputsEqual (a b : list TxOutInput) : bool :=
  if negb (length a =? length b)%nat then false
  else if (8 <? length a)%nat then take_counts (count_inputs a) b
  else mark_all a (map (λ input, (input, false)) b).

(** ** Kinds of items *)

Definition btcPinnedSourceInputs (item : TxOutItem) : bool :=
  if TxID.IsEmpty (to_InHash item) then false
  else existsb (λ input, TxID.Equals (ti_TxId input) (to_InHash item)) (to_SourceInputs item).

Definition btcPinnedSourceInputsCompatible (a b : TxOutItem) : bool :=
  let aPinned := btcPinnedSourceInputs a in
  let bPinned := btcPinnedSourceInputs b in
  if negb aPinned && negb bPinned then true
  else aPinned && bPinned && btcTxOutInputsEqual (to_SourceInputs a) (to_SourceInputs b).

Definition btcBatchableTxOut (item : TxOutItem) : bool :=
  Chain_Equals (to_Chain item) BTCChain
  && (to_VaultPathIndex item =? VaultPath.MainVaultPathIndex)
  && IsBatchableTxOutType (to_TxType item).

Definition btcSameBatchSource (a b : TxOutItem) : bool :=
  btcBatchableTxOut a && btcBatchableTxOut b && Chain_Equals (to_Chain a) (to_Chain b)
  && PubKey.Equals (to_VaultPubKey a) (to_VaultPubKey b)
  && (to_VaultPathIndex a =? to_VaultPathIndex b) && btcPinnedSourceInputsCompatible a b.

Definition btcEpochBatchItem (item : TxOutItem) : bool :=
  if negb (Chain_Equals (to_Chain item) BTCChain) then false
  else
    let t := NormalizeTxOutType (GetTxType item) in
    if str_eq t TxOutTypeSweep then negb (to_VaultPathIndex item =? VaultPath.MainVaultPathIndex)
    else to_VaultPathIndex item =? VaultPath.MainVaultPathIndex.

Definition btcBatchVinOnlyItem (item : TxOutItem) : bool :=
  if negb (btcEpochBatchItem item) then false
  else
    let t := NormalizeTxOutType (GetTxType item) in
    if str_eq t TxOutTypeSweep then true
    else if str_eq t TxOutTypeMigrate then btcPinnedSourceInputs item
    else false.

Definition btcBatchRemainderItem (item : TxOutItem) : bool :=
  if negb (btcEpochBatchItem item) || btcBatchVinOnlyItem item then false
  else IsInternalTxOutType (to_TxType item).

(** How many items of a block carry inputs only, an output, the remainder. *)
Definition count_kinds (items : list TxOutItem) : Z * Z * Z :=
  foldl (λ '(vinOnly, vouts, remainders) item,
    if btcBatchVinOnlyItem item then (vinOnly + 1, vouts, remainders)
    else if btcBatchRemainderItem item then (vinOnly, vouts + 1, remainders + 1)
    else (vinOnly, vouts + 1, remainders)) (0, 0, 0) items.

Definition btcBatchHasRoom (txOut : TxOut) (incoming : TxOutItem) : bool :=
  let '(vinOnly, vouts, remainders) := count_kinds (txo_TxArray txOut) in
  if btcBatchVinOnlyItem incoming then vinOnly <? btcMaxBatchVins
  else if btcBatchRemainderItem incoming
  then (remainders =? 0) && (vouts <? btcMaxBatchRecipients)
  else vouts <? btcMaxBatchRecipients.

(** The vault of a block whose items all belong to one epoch batch. *)
Definition txOutBatchVault (txOut : TxOut) : option string :=
  match txo_TxArray txOut with
  | [] => None
  | first :: _ =>
      let vault := to_VaultPubKey first in
      if PubKey.IsEmpty vault then None
      else if forallb (λ item, btcEpochBatchItem item && PubKey.Equals (to_VaultPubKey item) vault)
                (txo_TxArray txOut)
      then Some vault else None
  end.

(** ** Unspent outputs of a vault *)

Record btcSourceCandidate := mkCandidate { cand_input : TxOutInput; cand_height : Z }.

(** [sort.Slice] by height: stored blocks have distinct heights. *)
Definition txOutsAscending (maxHeight : Z) (includeMax : bool) : KM (list TxOut) :=
  all ← getIterator kv_txout;
  mret (insert_sort (λ x y, txo_Height x <? txo_Height y)
    (List.filter (λ txOut, negb ((maxHeight <? txo_Height txOut)
       || (negb includeMax && (txo_Height txOut =? maxHeight)))) all)).

Definition btcObservedOutboundChangeAmount (tx : Tx) : res Z :=
  let sourceTotal := foldl (λ acc input, acc +u in_AmountSats input) 0 (tx_SourceInputs tx) in
  if sourceTotal =? 0 then Ok 0
  else
    btcCoin ← to_uint64 (c_Amount (Coins.GetCoin (tx_Coins tx) BTCAsset));
    btcGas ← to_uint64 (c_Amount (Coins.GetCoin (Gas.ToCoins (tx_Gas tx)) BTCAsset));
    Ok (if sourceTotal <=? btcCoin +u btcGas then 0 else sourceTotal -u btcCoin -u btcGas).

(** The least unused output index; at most [size used] indexes are used. *)
Fixpoint next_vout (fuel : nat) (used : gset Z) (vout : Z) : Z :=
  match fuel with
  | O => vout
  | S fuel' => if bool_decide (vout ∈ used) then next_vout fuel' used (vout + 1) else vout
  end.
Definition nextBTCChangeVout (used : gset Z) : Z := next_vout (size used) used 0.

(** What the scan of the store has found so far. *)
Record Sources := mkSources {
  src_candidates : gmap string btcSourceCandidate;
  src_spent : gset string;
  src_used : gmap string (gset Z)
}.
#[export] Instance Sources_eta : Eta Sources := fun r =>
  mkSources (src_candidates r) (src_spent r) (src_used r).

Definition markSpentBTCSourceInputs (spent : gset string) (inputs : list TxInput) : gset string :=
  foldl (λ spent input, {[btcSourceInputKey (in_TxId input) (in_Vout input)]} ∪ spent) spent inputs.

Definition used_vouts (acc : Sources) (key : string) : gset Z := default ∅ (src_used acc !! key).

Definition add_candidate (acc : Sources) (txId : string) (vout amountSats height : Z) : Sources :=
  let key := btcSourceInputKey txId vout in
  match src_candidates acc !! key with
  | Some _ => acc
  | None => acc <| src_candidates :=
      <[key := mkCandidate (mkTxOutInput txId vout amountSats 0) height]> (src_candidates acc) |>
  end.

Section Batch.
Context `{Ext} `{BtcWire} (ctx : Ctx).

(** The items of the batch being refreshed do not count as spending. *)
Definition samePendingBatch (vault : Vault) (ignoreTxOutHeight height : Z) (item : TxOutItem)
    : bool :=
  (height =? ignoreTxOutHeight) && TxID.IsEmpty (to_OutHash item)
  && Chain_Equals (to_Chain item) BTCChain
  && PubKey.Equals (to_VaultPubKey item) (va_PubKey vault) && btcEpochBatchItem item.

Definition scan_txout_item (vault : Vault) (sourceAddr : string) (ignoreTxOutHeight height : Z)
    (acc : Sources) (item : TxOutItem) : KM Sources :=
  let acc :=
    if Chain_Equals (to_Chain item) BTCChain && negb (length (to_SourceInputs item) =? 0)%nat
       && negb (samePendingBatch vault ignoreTxOutHeight height item)
    then acc <| src_spent := foldl (λ spent input, {[input_key input]} ∪ spent)
                               (src_spent acc) (to_SourceInputs item) |>
    else acc in
  acc ←
    (if TxID.IsEmpty (to_OutHash item) then mret acc
     else
       let key := ToLower (to_OutHash item) in
       let used := used_vouts acc key in
       let used := if btcBatchVinOnlyItem item then used else {[to_OutVout item]} ∪ used in
       let acc := acc <| src_used := <[key := used]> (src_used acc) |> in
       voter ← GetObservedTxOutVoter (to_OutHash item);
       mret (acc <| src_spent :=
         foldl (λ spent observed, markSpentBTCSourceInputs spent (tx_SourceInputs (ot_Tx observed)))
           (markSpentBTCSourceInputs (src_spent acc) (tx_SourceInputs (ot_Tx (ov_Tx voter))))
           (ov_Txs voter) |>));
  if TxID.IsEmpty (to_OutHash item) || negb (Chain_Equals (to_Chain item) BTCChain)
     || negb (Asset_Equals (c_Asset (to_Coin item)) BTCAsset)
     || negb (Address.Equals (to_ToAddress item) sourceAddr) || (c_Amount (to_Coin item) =? 0)
  then mret acc
  else match src_candidates acc !! btcSourceInputKey (to_OutHash item) (to_OutVout item) with
       | Some _ => mret acc
       | None =>
           amountSats ← lift (to_uint64 (c_Amount (to_Coin item)));
           mret (add_candidate acc (to_OutHash item) (to_OutVout item) amountSats height)
       end.

Definition scan_observed_out (vault : Vault) (sourceAddr : string) (acc : Sources)
    (observed : ObservedTx) : res Sources :=
  let tx := ot_Tx observed in
  if negb (Chain_Equals (tx_Chain tx) BTCChain)
     || negb (PubKey.Equals (ot_ObservedPubKey observed) (va_PubKey vault)) then Ok acc
  else
    let acc := acc <| src_spent := markSpentBTCSourceInputs (src_spent acc) (tx_SourceInputs tx) |> in
    if (length (tx_SourceInputs tx) =? 0)%nat || TxID.IsEmpty (tx_ID tx) then Ok acc
    else
      amount ← (if Address.Equals (tx_ToAddress tx) sourceAddr
                then to_uint64 (c_Amount (Coins.GetCoin (tx_Coins tx) BTCAsset))
                else btcObservedOutboundChangeAmount tx);
      Ok (if amount =? 0 then acc
          else
            let vout := nextBTCChangeVout (used_vouts acc (ToLower (tx_ID tx))) in
            add_candidate acc (tx_ID tx) vout amount (ot_BlockHeight observed)).

Definition scan_observed_in (sourceAddr : string) (acc : Sources) (voter : ObservedTxVoter)
    : res Sources :=
  let tx := ot_Tx (ov_Tx voter) in
  if negb (Chain_Equals (tx_Chain tx) BTCChain)
     || negb (Address.Equals (tx_ToAddress tx) sourceAddr) || TxID.IsEmpty (tx_ID tx) then Ok acc
  else
    let coin := Coins.GetCoin (tx_Coins tx) BTCAsset in
    if Coin_IsEmpty coin || (c_Amount coin =? 0) then Ok acc
    else match src_candidates acc !! btcSourceInputKey (tx_ID tx) (tx_SourceVout tx) with
         | Some _ => Ok acc
         | None =>
             amountSats ← to_uint64 (c_Amount coin);
             Ok (add_candidate acc (tx_ID tx) (tx_SourceVout tx) amountSats (ov_Height voter))
         end.

(** Largest first, then oldest, then by key. *)
Definition candidate_lt (x y : btcSourceCandidate) : bool :=
  let a := cand_input x in
  let b := cand_input y in
  if negb (ti_AmountSats a =? ti_AmountSats b) then ti_AmountSats b <? ti_AmountSats a
  else if negb (cand_height x =? cand_height y) then cand_height x <? cand_height y
  else str_lt (input_key a) (input_key b).

Definition spendable (acc : Sources) : list btcSourceCandidate :=
  map snd (List.filter (λ kc, negb (bool_decide (kc.1 ∈ src_spent acc)
      || (ti_AmountSats (cand_input kc.2) =? 0)))
    (map_to_list (src_candidates acc))).

Definition btcVaultSourceCandidates (vault : Vault) (sourceAddr : string) (ignoreTxOutHeight : Z)
    : KM (list btcSourceCandidate) :=
  blocks ← txOutsAscending (BlockHeight ctx) true;
  acc ← mfold (λ acc blk,
      mfold (scan_txout_item vault sourceAddr ignoreTxOutHeight (txo_Height blk)) acc
        (txo_TxArray blk))
    (mkSources ∅ ∅ ∅) blocks;
  outVoters ← getIterator kv_observed_txout;
  acc ← lift (rfold (λ acc voter, rfold (scan_observed_out vault sourceAddr) acc (ov_Txs voter))
    acc outVoters);
  inVoters ← getIterator kv_observed_txin;
  acc ← lift (rfold (scan_observed_in sourceAddr) acc inVoters);
  mret (insert_sort candidate_lt (spendable acc)).

(** Inputs are taken in order until they cover [required]. *)
Fixpoint take_inputs (maxInputs : Z) (required total : Z) (inputs : list TxOutInput)
    (candidates : list btcSourceCandidate) : Z * list TxOutInput :=
  match candidates with
  | [] => (total, inputs)
  | candidate :: rest =>
      if maxInputs <=? Z.of_nat (length inputs) then (total, inputs)
      else
        let inputs := (inputs ++ [cand_input candidate])%list in
        let total := total +u ti_AmountSats (cand_input candidate) in
        if required <=? total then (total, inputs)
        else take_inputs maxInputs required total inputs rest
  end.

Definition btcSelectVaultSourceInputs (vault : Vault) (sourceAddr : string)
    (required ignoreTxOutHeight : Z) : KM (list TxOutInput) :=
  candidates ← btcVaultSourceCandidates vault sourceAddr ignoreTxOutHeight;
  maxInputs ← GetConfigInt64 UTXO_MaxSpendCount;
  let maxInputs := if maxInputs <? 1 then 1 else maxInputs in
  let '(total, inputs) := take_inputs maxInputs required 0 [] candidates in
  mret (if total <? required then [] else inputs).

(** ** Legacy groups *)

Section Select.
Context (vault : Vault) (vaultPathIndex : Z) (sourceAddr : string) (outputAddrs : list string)
  (outputAmount gasRate ignoreTxOutHeight : Z) (hasChange : bool).

Fixpoint select_attempts (attempts : nat) (required : Z) (selected : list TxOutInput)
    : KM (list TxOutInput) :=
  match attempts with
  | O =>
      sourceTotal ← lift (btcSourceInputsAmount selected);
      if sourceTotal <? required then fail "insufficient bitcoin source inputs"
      else mret selected
  | S attempts' =>
      selected ← btcSelectVaultSourceInputs vault sourceAddr required ignoreTxOutHeight;
      _ ← fail_if (length selected =? 0)%nat "no bitcoin source inputs available";
      maxGasCoin ← lift (btcExactGasCoin (va_PubKey vault) vaultPathIndex outputAddrs selected
                           gasRate hasChange);
      nextRequired ← lift (uint_add outputAmount (c_Amount maxGasCoin));
      if nextRequired =? required then mret selected
      else
        sourceTotal ← lift (btcSourceInputsAmount selected);
        if nextRequired <=? sourceTotal then mret selected
        else select_attempts attempts' nextRequired selected
  end.

Definition selectBTCVaultSourceInputsForOutputs : KM (list TxOutInput) :=
  select_attempts 3 outputAmount [].
End Select.

(** [parts] equal shares, the first ones a satoshi larger. *)
Definition btcSplitGasCoin (total : Coin) (parts : nat) : res (list Coin) :=
  if (parts <=? 1)%nat then Ok [total]
  else
    totalAmount ← to_uint64 (c_Amount total);
    let base := totalAmount / Z.of_nat parts in
    let remainder := totalAmount mod Z.of_nat parts in
    Ok (map (λ i,
      (NewCoin (c_Asset total) (if Z.of_nat i <? remainder then base + 1 else base))
        <| c_Decimals := c_Decimals total |>) (seq 0 parts)).

(** ** Refreshing a group of items *)

(** An input a sweep pins without a path yet is stamped with its own path. *)
Definition btcItemPinnedInputs (item : TxOutItem) : list TxOutInput :=
  let path := to_VaultPathIndex item in
  let stamp := map (λ input, input <| ti_PathIndex := path |>) in
  let on_path := List.filter (λ input, ti_PathIndex input =? path) in
  if negb (path =? VaultPath.MainVaultPathIndex) then
    let byPath := on_path (to_SourceInputs item) in
    let stamped := existsb (λ input, negb (ti_PathIndex input =? VaultPath.MainVaultPathIndex))
                     (to_SourceInputs item) in
    if (0 <? length byPath)%nat then byPath
    else if negb stamped then stamp (to_SourceInputs item)
    else []
  else
    let all := List.filter (λ input, TxID.Equals (ti_TxId input) (to_InHash item))
                 (to_SourceInputs item) in
    let byPath := on_path all in
    if (0 <? length byPath)%nat then byPath else stamp all.

(** Pins are collected once each, in the order of the items. *)
Definition add_pin (acc : list TxOutInput * gset string) (pin : TxOutInput)
    : list TxOutInput * gset string :=
  let '(pins, seenPins) := acc in
  if bool_decide (input_key pin ∈ seenPins) then acc
  else ((pins ++ [pin])%list, {[input_key pin]} ∪ seenPins).

Definition item_pins (acc : list TxOutInput * gset string) (item : TxOutItem)
    : res (list TxOutInput * gset string) :=
  let isVinOnly := btcBatchVinOnlyItem item in
  if negb isVinOnly && negb (btcPinnedSourceInputs item) then Ok acc
  else match btcItemPinnedInputs item with
       | [] => if isVinOnly then Err "bitcoin vin-only txout item has no pinned source input"
               else Ok acc
       | itemPins => Ok (foldl add_pin acc itemPins)
       end.

Definition collect_pins (items : list TxOutItem) : res (list TxOutInput) :=
  acc ← rfold item_pins ([], ∅) items; Ok acc.1.

(** The root outputs that join the pins: three attempts, as the fee grows with
the number of inputs. *)
Section Union.
Context (vault : Vault) (rootAddr : string) (outputAddrs : list string) (gasRate : Z)
  (hasChange : bool) (pins : list TxOutInput) (pinnedValue fixedTotal needed height : Z).

Definition btcMaxGas (union : list TxOutInput) : res Coin :=
  btcExactGasCoin (va_PubKey vault) VaultPath.MainVaultPathIndex outputAddrs union gasRate hasChange.

Fixpoint union_attempts (attempts : nat) (union : list TxOutInput) : KM (list TxOutInput) :=
  match attempts with
  | O => mret union
  | S attempts' =>
      maxGasCoin ← lift (if (0 <? length union)%nat then btcMaxGas union
                         else btcGasCoinFromNativeSats 0);
      required ← lift (uint_add needed (c_Amount maxGasCoin));
      unionValue ← lift (btcSourceInputsAmount union);
      if required <=? unionValue then mret union
      else
        shortfall ← lift (uint_sub required (Z.min pinnedValue required));
        rootInputs ← btcSelectVaultSourceInputs vault rootAddr shortfall height;
        if (length rootInputs =? 0)%nat then
          spend ← lift (uint_add fixedTotal (c_Amount maxGasCoin));
          if negb hasChange && (spend <? pinnedValue) then mret pins
          else fail "no bitcoin source inputs available for vault epoch batch"
        else
          let union := (pins ++ rootInputs)%list in
          _ ← fail_if (btcMaxBatchVins <? Z.of_nat (length union))
                "bitcoin epoch batch needs too many vins";
          union_attempts attempts' union
  end.
End Union.

Definition indexed_items (txOut : TxOut) (group : list nat) : list (nat * TxOutItem) :=
  omap (λ idx, match txo_TxArray txOut !! idx with Some item => Some (idx, item) | None => None end)
    group.

Definition set_items (txOut : TxOut) (items : list (nat * TxOutItem)) : TxOut :=
  txOut <| txo_TxArray := foldl (λ l ii, <[ii.1 := ii.2]> l) (txo_TxArray txOut) items |>.

(** The inputs, fee share and fee rate every item of a batch gets. *)
Definition stamp_item (union : list TxOutInput) (gasRate : Z) (item : TxOutItem) (share : Coin)
    : TxOutItem :=
  item <| to_SourceInputs := union |> <| to_MaxGas := [share] |> <| to_GasRate := gasRate |>.

Definition stamp_items (union : list TxOutInput) (gasRate : Z) (items : list (nat * TxOutItem))
    (shares : list Coin) : list (nat * TxOutItem) :=
  zip_with (λ ii share, (ii.1, stamp_item union gasRate ii.2 share)) items shares.

(** The value an item of an epoch batch ends up with. *)
Definition batch_coin (remainderCoin : Z) (item : TxOutItem) : TxOutItem :=
  if btcBatchVinOnlyItem item then item <| to_Coin := NewCoin BTCAsset 0 |>
  else if btcBatchRemainderItem item then item <| to_Coin := NewCoin BTCAsset remainderCoin |>
  else item.

(** What is paid to the items with a fixed value. *)
Definition is_vout (item : TxOutItem) : bool :=
  negb (btcBatchVinOnlyItem item) && negb (btcBatchRemainderItem item).

Definition settle_batch (union : list TxOutInput) (maxGasCoin : Coin) (fixedTotal gasRate : Z)
    (remainders : nat) (txOut : TxOut) (items : list (nat * TxOutItem)) : res TxOut :=
  unionValue ← btcSourceInputsAmount union;
  spendTotal ← uint_add fixedTotal (c_Amount maxGasCoin);
  if unionValue <? spendTotal then Err "insufficient bitcoin epoch batch inputs"
  else
    let remainderCoin := unionValue - spendTotal in
    if (remainders =? 1)%nat && (remainderCoin <=? DustThreshold)
    then Err "bitcoin epoch batch remainder is dust"
    else
      gasShares ← btcSplitGasCoin maxGasCoin (length items);
      Ok (set_items txOut (stamp_items union gasRate
            (map (λ ii, (ii.1, batch_coin remainderCoin ii.2)) items) gasShares)).

Definition refreshBTCEpochBatchGroup (txOut : TxOut) (group : list nat) : KM TxOut :=
  let items := indexed_items txOut group in
  match items with
  | [] => mret txOut
  | (_, first) :: _ =>
      vault ← GetVault ctx (to_VaultPubKey first);
      _ ← fail_if (PubKey.IsEmpty (va_PubKey vault)) "missing bitcoin txout vault";
      rootAddr ← lift (VaultPath.DeriveBTCTaprootAddress (va_PubKey vault)
                         VaultPath.MainVaultPathIndex);
      gasRate ← btcGasRateFromKeeper;
      _ ← fail_if (existsb (λ ii, negb (Asset_Equals (c_Asset (to_Coin ii.2)) BTCAsset)) items)
            "bitcoin txout item is not BTC";
      let batch := map snd items in
      let vouts := List.filter is_vout batch in
      let remainders := List.filter btcBatchRemainderItem batch in
      _ ← fail_if (1 <? length remainders)%nat "bitcoin epoch batch has several remainder items";
      pins ← lift (collect_pins batch);
      pinnedValue ← lift (btcSourceInputsAmount pins);
      fixedTotal ← lift (uint_sum (map (λ item, c_Amount (to_Coin item)) vouts));
      let outputAddrs := map to_ToAddress (vouts ++ remainders)%list in
      let remainderTarget :=
        match remainders with [] => 0 | item :: _ => c_Amount (to_Coin item) end in
      let hasChange := (length remainders =? 0)%nat in
      needed ← lift (uint_add fixedTotal remainderTarget);
      union ← union_attempts vault rootAddr outputAddrs gasRate hasChange pins pinnedValue
                fixedTotal needed (txo_Height txOut) 3 pins;
      _ ← fail_if (length union =? 0)%nat "missing bitcoin source inputs";
      maxGasCoin ← lift (btcMaxGas vault outputAddrs gasRate hasChange union);
      lift (settle_batch union maxGasCoin fixedTotal gasRate (length remainders) txOut items)
  end.

Definition refreshBTCLegacyTxOutGroup (txOut : TxOut) (group : list nat) : KM TxOut :=
  let items := indexed_items txOut group in
  match items with
  | [] => mret txOut
  | (idx, first) :: others =>
      vault ← GetVault ctx (to_VaultPubKey first);
      _ ← fail_if (PubKey.IsEmpty (va_PubKey vault)) "missing bitcoin txout vault";
      sourceAddr ← lift (VaultPath.DeriveBTCTaprootAddress (to_VaultPubKey first)
                           (to_VaultPathIndex first));
      gasRate ← btcGasRateFromKeeper;
      _ ← fail_if (existsb (λ ii, negb (Asset_Equals (c_Asset (to_Coin ii.2)) BTCAsset)) items)
            "bitcoin txout item is not BTC";
      let outputAddrs := map (λ ii, to_ToAddress ii.2) items in
      totalOutput ← lift (uint_sum (map (λ ii, c_Amount (to_Coin ii.2)) items));
      let internal := IsInternalTxOutType (to_TxType first) in
      inputs ← (match to_SourceInputs first with
                | [] => selectBTCVaultSourceInputsForOutputs vault (to_VaultPathIndex first)
                          sourceAddr outputAddrs totalOutput gasRate (txo_Height txOut)
                          (negb internal)
                | inputs => mret inputs
                end);
      _ ← fail_if (length inputs =? 0)%nat "missing bitcoin source inputs";
      maxGasCoin ← lift (btcExactGasCoin (to_VaultPubKey first) (to_VaultPathIndex first)
                           outputAddrs inputs gasRate (negb internal));
      items ← (if internal then
                 sourceAmount ← lift (btcSourceInputsAmount inputs);
                 _ ← fail_if (sourceAmount <=? c_Amount maxGasCoin)
                       "bitcoin internal txout source inputs cannot cover gas";
                 mret ((idx, first <| to_Coin :=
                          NewCoin BTCAsset (sourceAmount - c_Amount maxGasCoin) |>) :: others)
               else mret items);
      gasShares ← lift (btcSplitGasCoin maxGasCoin (length items));
      mret (set_items txOut (stamp_items inputs gasRate items gasShares))
  end.

Definition refreshBTCExactTxOutGroup (txOut : TxOut) (group : list nat) : KM TxOut :=
  match indexed_items txOut group with
  | [] => mret txOut
  | (_, first) :: _ =>
      if str_eq (txo_Status txOut) TxOutStatusPendingBatch && btcEpochBatchItem first
      then refreshBTCEpochBatchGroup txOut group
      else refreshBTCLegacyTxOutGroup txOut group
  end.

Definition btcTxOutItemNeedsExactRefresh (txOut : TxOut) (item : TxOutItem) : bool :=
  if negb (TxID.IsEmpty (to_OutHash item)) || negb (Chain_Equals (to_Chain item) BTCChain)
  then false
  else str_eq (txo_Status txOut) TxOutStatusPendingBatch
       || (length (to_SourceInputs item) =? 0)%nat || Gas.IsEmpty (to_MaxGas item)
       || (to_GasRate item =? 0).

(** The items after index [i] that are refreshed with it. *)
Definition same_group (txOut : TxOut) (item other : TxOutItem) : bool :=
  if str_eq (txo_Status txOut) TxOutStatusPendingBatch && btcEpochBatchItem item
  then btcEpochBatchItem other && PubKey.Equals (to_VaultPubKey other) (to_VaultPubKey item)
       && TxID.IsEmpty (to_OutHash other)
  else btcBatchableTxOut item && btcSameBatchSource item other && TxID.IsEmpty (to_OutHash other).

(** The block is changed in place: an error keeps the groups already done. *)
Fixpoint refresh_from (indexes handled : list nat) (txOut : TxOut) : KM (TxOut * res unit) :=
  match indexes with
  | [] => mret (txOut, Ok tt)
  | i :: rest =>
      match txo_TxArray txOut !! i with
      | None => refresh_from rest handled txOut
      | Some item =>
          if bool_decide (i ∈ handled) || negb (btcTxOutItemNeedsExactRefresh txOut item)
          then refresh_from rest handled txOut
          else
            let group := i :: List.filter (λ j, negb (bool_decide (j ∈ handled))
              && match txo_TxArray txOut !! j with
                 | Some other => same_group txOut item other
                 | None => false
                 end) rest in
            r ← try (refreshBTCExactTxOutGroup txOut group);
            match r with
            | Ok txOut => refresh_from rest (handled ++ group)%list txOut
            | Err e => mret (txOut, Err e)
            | Panic e => panic e
            end
      end
  end.

Definition refreshBTCExactTxOutBlock (txOut : TxOut) : KM (TxOut * res unit) :=
  refresh_from (seq 0 (length (txo_TxArray txOut))) [] txOut.

Definition refreshBTCExactTxOut (height : Z) : KM unit :=
  txOut ← GetTxOut height;
  if TxOut_IsEmpty txOut then mret tt
  else
    '(txOut, r) ← refreshBTCExactTxOutBlock txOut;
    _ ← lift r;
    SetTxOut txOut.

(** ** Queueing an item *)

Fixpoint next_empty_height (n : nat) (height : Z) : KM (option Z) :=
  match n with
  | O => mret None
  | S n' =>
      block ← GetTxOut height;
      if TxOut_IsEmpty block || is_empty (txo_Status block) then mret (Some height)
      else next_empty_height n' (height +i 1)
  end.

Definition nextEmptyTxOutHeight (start : Z) : KM Z :=
  o ← next_empty_height 1000 start;
  match o with Some height => mret height | None => fail "fail to find empty txout height" end.

(** The open block of the incoming item's vault with the least height, and the
    epoch number after the last one used. *)
Definition scan_batches (incoming : TxOutItem) (acc : option TxOut * Z) (txOut : TxOut)
    : option TxOut * Z :=
  let '(open, nextEpoch) := acc in
  match txOutBatchVault txOut with
  | None => acc
  | Some batchVault =>
      if negb (PubKey.Equals batchVault (to_VaultPubKey incoming)) then acc
      else
        let nextEpoch := if nextEpoch <? txo_Epoch txOut +u 1 then txo_Epoch txOut +u 1
                         else nextEpoch in
        if negb (str_eq (txo_Status txOut) TxOutStatusPendingBatch)
           || (txo_Height txOut <=? BlockHeight ctx) || negb (btcBatchHasRoom txOut incoming)
        then (open, nextEpoch)
        else match open with
             | Some o => if txo_Height txOut <? txo_Height o then (Some txOut, nextEpoch)
                         else (open, nextEpoch)
             | None => (Some txOut, nextEpoch)
             end
  end.

Definition btcVaultBatchTxOut (incoming : TxOutItem) : KM TxOut :=
  all ← getIterator kv_txout;
  let '(open, nextEpoch) := foldl (scan_batches incoming) (None, 0) all in
  match open with
  | Some txOut => mret txOut
  | None =>
      window ← GetConfigInt64 Withdrawal_BatchWindowMinutes;
      blockTime ← GetConfigInt64 Chain_BlockTimeSeconds;
      let windowBlocks := MinutesToBlocks window blockTime in
      let windowBlocks := if windowBlocks <? 0 then 0 else windowBlocks in
      height ← nextEmptyTxOutHeight (BlockHeight ctx +i windowBlocks);
      block ← GetTxOut height;
      mret (block <| txo_Epoch := nextEpoch |> <| txo_Status := TxOutStatusPendingBatch |>)
  end.

Definition txOutCanAppendImmediateBTCItem (txOut : TxOut) : bool :=
  TxOut_IsEmpty txOut || is_empty (txo_Status txOut).

Fixpoint immediate_slot (n : nat) (height : Z) : KM (option TxOut) :=
  match n with
  | O => mret None
  | S n' =>
      block ← GetTxOut height;
      if txOutCanAppendImmediateBTCItem block then mret (Some block)
      else immediate_slot n' (height +i 1)
  end.

Definition appendBTCExactTxOut (height : Z) (item : TxOutItem) : KM unit :=
  let item := item <| to_TxType := GetTxType item |> in
  if btcEpochBatchItem item then
    _ ← fail_if (PubKey.IsEmpty (to_VaultPubKey item))
          "fail to batch bitcoin txout: empty vault pubkey";
    block ← btcVaultBatchTxOut item;
    '(block, _) ← refreshBTCExactTxOutBlock
      (block <| txo_TxArray := (txo_TxArray block ++ [item])%list |>);
    SetTxOut block
  else
    o ← immediate_slot 1000 height;
    match o with
    | None => fail "fail to find bitcoin immediate txout slot"
    | Some block =>
        let block := if is_empty (txo_Status block)
          then block <| txo_Status := TxOutStatusPendingSign |> else block in
        '(block, r) ← refreshBTCExactTxOutBlock
          (block <| txo_TxArray := (txo_TxArray block ++ [item])%list |>);
        _ ← lift r;
        SetTxOut block
    end.
End Batch.

#[export] Hint Unfold btcGasRateFromKeeper txOutsAscending btcVaultSourceCandidates
  btcSelectVaultSourceInputs scan_txout_item selectBTCVaultSourceInputsForOutputs : flow.

(** ** Lemmas *)

(** *** Values *)

Definition inputs_value (inputs : list TxOutInput) : Z := sum_by ti_AmountSats inputs.
Definition coins_value (items : list TxOutItem) : Z := sum_by (λ i, c_Amount (to_Coin i)) items.
Definition gas_value (items : list TxOutItem) : Z :=
  sum_by (λ i, sum_by c_Amount (to_MaxGas i)) items.

Lemma uint_sum_ok l t : uint_sum l = Ok t → t = sum_by id l.
Proof.
  unfold uint_sum. assert (Hgen : ∀ acc, rfold uint_add acc l = Ok t → t = acc + sum_by id l).
  { induction l as [|x l IH]; intros acc; cbn [rfold].
    - intros [= ->]. rewrite sum_by_nil. lia.
    - intros (a & Ha & Ht)%rbind_Ok. unfold uint_add in Ha. destruct (acc + x <? two256); [|done].
      injection Ha as <-. apply IH in Ht. rewrite sum_by_cons. unfold id at 1. lia. }
  intros Ht%Hgen. lia.
Qed.

(** The amount is the sum of the inputs as long as it fits 64 bits. *)
Lemma source_inputs_amount inputs :
  Forall (λ i, 0 <= ti_AmountSats i) inputs → inputs_value inputs < two64 →
  btcSourceInputsAmount inputs = Ok (inputs_value inputs).
Proof.
  intros Hf Hlt. unfold btcSourceInputsAmount.
  assert (Hgen : ∀ l all total, Forall (λ i, 0 <= ti_AmountSats i) l → 0 <= total →
    total + inputs_value l < two64 →
    source_inputs_total all l total = Ok (total + inputs_value l)).
  { induction l as [|i l IH]; intros all total Hl Ht Hs; [by cbn; rewrite Z.add_0_r|].
    inversion_clear Hl as [|? ? Hi Hl']. unfold inputs_value in *. rewrite sum_by_cons in *. cbn.
    pose proof (sum_by_nonneg _ _ Hl').
    destruct (two64 - 1 - total <? ti_AmountSats i) eqn:E; [lia|].
    rewrite IH by (try done; lia). f_equal. lia. }
  by rewrite Hgen.
Qed.

Lemma count_below n r : 0 <= r <= Z.of_nat n →
  sum_by (λ i, if Z.of_nat i <? r then 1 else 0) (seq 0 n) = r.
Proof.
  revert r. induction n as [|n IH]; intros r Hr; [change (0 = r); lia|].
  rewrite seq_S, sum_by_app, sum_by_cons, sum_by_nil. cbv beta. change (0 + n)%nat with n.
  destruct (Z.of_nat n <? r) eqn:E.
  - apply Z.ltb_lt in E. assert (Hrn : r = Z.of_nat (S n)) by lia.
    rewrite (sum_by_ext _ (λ i, if Z.of_nat i <? Z.of_nat n then 1 else 0)).
    + rewrite IH; lia.
    + intros i Hi%elem_of_seq. rewrite !(proj2 (Z.ltb_lt _ _)) by lia. done.
  - rewrite IH by lia. lia.
Qed.

(** The shares of a fee add up to the fee. *)
Lemma split_gas_exact total parts shares :
  (0 < parts)%nat → 0 <= c_Amount total →
  btcSplitGasCoin total parts = Ok shares →
  length shares = parts ∧ sum_by c_Amount shares = c_Amount total.
Proof.
  intros Hp Ha. unfold btcSplitGasCoin. destruct (parts <=? 1)%nat eqn:E.
  - intros [= <-]. rewrite sum_by_cons, sum_by_nil. apply Nat.leb_le in E. cbn [length]. split; lia.
  - unfold to_uint64. destruct (_ <? two64); [|done]. intros [= <-].
    rewrite length_map, length_seq, sum_by_map. split; [done|].
    rewrite (sum_by_ext _ (λ i, c_Amount total / Z.of_nat parts
      + (if Z.of_nat i <? c_Amount total mod Z.of_nat parts then 1 else 0))).
    2:{ intros i _. rec_simpl. cbn. destruct (_ <? _); lia. }
    assert (Hsplit : ∀ l, sum_by (λ i, c_Amount total / Z.of_nat parts
        + (if Z.of_nat i <? c_Amount total mod Z.of_nat parts then 1 else 0)) l
      = Z.of_nat (length l) * (c_Amount total / Z.of_nat parts)
        + sum_by (λ i, if Z.of_nat i <? c_Amount total mod Z.of_nat parts then 1 else 0) l).
    { induction l as [|x l IH]; [rewrite !sum_by_nil; cbn [length]; lia|]. rewrite !sum_by_cons, IH. cbn [length]. lia. }
    rewrite Hsplit, length_seq, count_below.
    + pose proof (Z.div_mod (c_Amount total) (Z.of_nat parts)). lia.
    + pose proof (Z.mod_pos_bound (c_Amount total) (Z.of_nat parts)). lia.
Qed.

(** *** Items by index *)

Lemma indexed_items_ok txOut group :
  Forall (λ i, (i < length (txo_TxArray txOut))%nat) group →
  map fst (indexed_items txOut group) = group
  ∧ Forall (λ ii, txo_TxArray txOut !! ii.1 = Some ii.2) (indexed_items txOut group).
Proof.
  unfold indexed_items. induction 1 as [|i group Hi Hg [IH1 IH2]]; [done|].
  apply lookup_lt_is_Some_2 in Hi as [item Hi]. cbn. rewrite Hi. cbn. rewrite IH1. by split; [|constructor].
Qed.

Lemma set_items_lookup txOut items j :
  NoDup (map fst items) → Forall (λ ii, (ii.1 < length (txo_TxArray txOut))%nat) items →
  txo_TxArray (set_items txOut items) !! j
  = match List.find (λ ii, bool_decide (ii.1 = j)) items with
    | Some ii => Some ii.2
    | None => txo_TxArray txOut !! j
    end.
Proof.
  unfold set_items. rec_simpl. set (l := txo_TxArray txOut). clearbody l. clear txOut. revert l.
  induction items as [|[i item] items IH]; intros l Hn Hf; cbn; [done|].
  inversion_clear Hn as [|? ? Hi Hn']. inversion_clear Hf as [|? ? Hi' Hf'].
  rewrite IH; [|done|eapply Forall_impl; [exact Hf'|]; intros; by rewrite length_insert].
  case_bool_decide as Hij; cbn in Hij.
  - subst j. destruct (List.find _ items) as [ii|] eqn:E.
    + apply find_some in E as [Hin He]. apply bool_decide_eq_true in He. destruct Hi.
      apply list_elem_of_fmap. exists ii. split; [done|by apply list_elem_of_In].
    + by apply list_lookup_insert_eq.
  - destruct (List.find _ items); [done|]. by rewrite list_lookup_insert_ne.
Qed.

Definition items_at (txOut : TxOut) (group : list nat) : list TxOutItem :=
  omap (λ i, txo_TxArray txOut !! i) group.

Lemma items_at_indexed txOut items :
  Forall (λ ii, txo_TxArray txOut !! ii.1 = Some ii.2) items →
  items_at txOut (map fst items) = map snd items.
Proof. unfold items_at. induction 1 as [|ii items Hi Hf IH]; cbn; [done|]. by rewrite Hi, IH. Qed.

Lemma items_at_set txOut items :
  NoDup (map fst items) → Forall (λ ii, (ii.1 < length (txo_TxArray txOut))%nat) items →
  items_at (set_items txOut items) (map fst items) = map snd items.
Proof.
  intros Hn Hl. apply items_at_indexed, Forall_forall. intros ii Hii.
  rewrite set_items_lookup by done.
  destruct (List.find _ items) as [ii'|] eqn:E.
  - apply find_some in E as [Hin He]. apply bool_decide_eq_true in He.
    apply list_elem_of_In in Hin. apply list_elem_of_lookup in Hii as [i Hi], Hin as [j Hj].
    assert (i = j) as <-; [|congruence].
    eapply (NoDup_lookup _ _ _ ii.1 Hn); rewrite list_lookup_fmap; [by rewrite Hi|by rewrite Hj, <- He].
  - apply find_none with (x := ii) in E; [|by apply list_elem_of_In].
    by apply bool_decide_eq_false in E.
Qed.

Lemma remainder_not_vin item : btcBatchRemainderItem item = true → btcBatchVinOnlyItem item = false.
Proof.
  unfold btcBatchRemainderItem. destruct (btcBatchVinOnlyItem item); [|done].
  by rewrite orb_true_r.
Qed.

(** Inputs-only items end up with nothing, the remainder item with the rest. *)
Lemma batch_coins_value r items :
  coins_value (map (batch_coin r) items)
  = coins_value (List.filter is_vout items)
    + r * Z.of_nat (length (List.filter btcBatchRemainderItem items)).
Proof.
  unfold coins_value. induction items as [|item items IH]; [cbn; lia|].
  cbn [map List.filter]. rewrite sum_by_cons, IH. unfold batch_coin, is_vout.
  destruct (btcBatchRemainderItem item) eqn:Er.
  - rewrite (remainder_not_vin _ Er). cbn [negb andb length].
    change (c_Amount (to_Coin (item <| to_Coin := NewCoin BTCAsset r |>))) with r. lia.
  - destruct (btcBatchVinOnlyItem item); cbn [negb andb]; [|rewrite sum_by_cons; lia].
    change (c_Amount (to_Coin (item <| to_Coin := NewCoin BTCAsset 0 |>))) with 0. lia.
Qed.

Lemma stamp_values union gasRate items shares : length shares = length items →
  map fst (stamp_items union gasRate items shares) = map fst items
  ∧ coins_value (map snd (stamp_items union gasRate items shares)) = coins_value (map snd items)
  ∧ gas_value (map snd (stamp_items union gasRate items shares)) = sum_by c_Amount shares.
Proof.
  unfold stamp_items, coins_value, gas_value. revert shares.
  induction items as [|ii items IH]; intros [|share shares] Hl; try done.
  cbn in Hl. destruct (IH shares) as (I1 & I2 & I3); [lia|]. cbn [zip_with map fst snd].
  rewrite I1, !sum_by_cons, I2, I3. split_and!; try done.
  change (to_MaxGas (stamp_item union gasRate ii.2 share)) with [share].
  rewrite sum_by_cons, sum_by_nil. lia.
Qed.

Lemma stamp_fields union gasRate items shares :
  Forall (λ item, to_SourceInputs item = union ∧ to_GasRate item = gasRate)
    (map snd (stamp_items union gasRate items shares)).
Proof.
  unfold stamp_items. revert shares. induction items as [|ii items IH]; intros [|share shares];
    try constructor; [done|apply IH].
Qed.

(** What one settled batch transaction does with the value of its inputs. *)
Record batch_settled (txOut txOut' : TxOut) (group : list nat) (union : list TxOutInput)
    (gas : Z) : Prop := {
  bs_gas : gas_value (items_at txOut' group) = gas;
  bs_value : coins_value (items_at txOut' group) + gas <= inputs_value union;
  bs_exact : (∃ item, item ∈ items_at txOut group ∧ btcBatchRemainderItem item = true) →
    coins_value (items_at txOut' group) + gas = inputs_value union;
  bs_inputs : Forall (λ item, to_SourceInputs item = union) (items_at txOut' group);
  bs_fixed : ∀ i item, i ∈ group → txo_TxArray txOut !! i = Some item → is_vout item = true →
    ∃ item', txo_TxArray txOut' !! i = Some item' ∧ to_Coin item' = to_Coin item
      ∧ to_ToAddress item' = to_ToAddress item;
  bs_rest : ∀ i, i ∉ group → txo_TxArray txOut' !! i = txo_TxArray txOut !! i
}.

Lemma settle_batch_ok union maxGasCoin gasRate txOut txOut' group :
  let items := indexed_items txOut group in
  let remainders := List.filter btcBatchRemainderItem (map snd items) in
  NoDup group → Forall (λ i, (i < length (txo_TxArray txOut))%nat) group → group ≠ [] →
  (length remainders <= 1)%nat →
  Forall (λ i, 0 <= ti_AmountSats i) union → inputs_value union < two64 →
  0 <= c_Amount maxGasCoin →
  settle_batch union maxGasCoin (coins_value (List.filter is_vout (map snd items)))
    gasRate (length remainders) txOut items = Ok txOut' →
  batch_settled txOut txOut' group union (c_Amount maxGasCoin).
Proof.
  intros items remainders Hnd Hlt Hne Hrem Hpos Hsum Hgas.
  destruct (indexed_items_ok txOut group Hlt) as [Hfst Hat]. fold items in Hfst, Hat.
  unfold settle_batch. rewrite (source_inputs_amount union Hpos Hsum). cbn [mbind res_bind].
  intros (spendTotal & Hsp & Hrun)%rbind_Ok.
  unfold uint_add in Hsp. destruct (coins_value _ + _ <? two256) in Hsp; [|done]. injection Hsp as <-.
  destruct (inputs_value union <? _) eqn:Elt; [done|]. destruct (_ && _); [done|].
  apply rbind_Ok in Hrun as (shares & Hshares & [= <-]).
  set (rest := inputs_value union - _) in *.
  assert (Hlen : length items = length group) by (rewrite <- Hfst; by rewrite length_map).
  destruct (split_gas_exact maxGasCoin (length items) shares) as [Hl1 Hl2];
    [destruct group; [done|rewrite Hlen; cbn; lia]|done|done|].
  set (paid := map (λ ii, (ii.1, batch_coin rest ii.2)) items) in *.
  assert (Hpaid1 : map fst paid = group) by (unfold paid; rewrite map_map; exact Hfst).
  assert (Hpaid2 : map snd paid = map (batch_coin rest) (map snd items))
    by (unfold paid; rewrite !map_map; done).
  destruct (stamp_values union gasRate paid shares) as (S1 & S2 & S3).
  { unfold paid. by rewrite length_map. }
  pose proof (stamp_fields union gasRate paid shares) as S4.
  set (stamped := stamp_items union gasRate paid shares) in *.
  rewrite Hpaid1 in S1. rewrite Hpaid2, batch_coins_value in S2.
  assert (Hlt' : Forall (λ ii, (ii.1 < length (txo_TxArray txOut))%nat) stamped)
    by (rewrite <- S1 in Hlt; by apply Forall_map in Hlt).
  rewrite <- S1 in Hnd.
  assert (Hafter : items_at (set_items txOut stamped) group = map snd stamped).
  { rewrite <- S1 at 1. by apply items_at_set. }
  split.
  - rewrite Hafter, S3, Hl2. done.
  - rewrite Hafter, S2. fold remainders. destruct (length remainders) as [|[|n]]; lia.
  - intros (item & Hin & Hr). rewrite Hafter, S2. fold remainders.
    assert (item ∈ remainders).
    { apply list_elem_of_In, filter_In. split; [|done]. apply list_elem_of_In.
      rewrite <- Hfst, items_at_indexed in Hin by done. done. }
    destruct remainders as [|r1 [|r2 l]]; [by apply not_elem_of_nil in H|cbn [length]; lia|cbn in Hrem; lia].
  - rewrite Hafter. eapply Forall_impl; [exact S4|]. by intros item [? _].
  - intros i item Hi Hl Hv. rewrite set_items_lookup by done.
    destruct (List.find _ stamped) as [ii|] eqn:E.
    + apply find_some in E as [Hin He]. apply bool_decide_eq_true in He as <-.
      apply list_elem_of_In, elem_of_lookup_zip_with in Hin as (k & ii' & share & -> & Hk & _).
      unfold paid in Hk. rewrite list_lookup_fmap in Hk. destruct (items !! k) as [ii0|] eqn:Ek; [|done].
      injection Hk as <-. cbn in Hl. rewrite Forall_lookup in Hat. rewrite (Hat _ _ Ek) in Hl.
      injection Hl as <-. eexists. split; [done|]. cbn. unfold batch_coin.
      unfold is_vout in Hv. apply andb_true_iff in Hv as [Hv1%negb_true_iff Hv2%negb_true_iff].
      by rewrite Hv1, Hv2.
    + rewrite <- S1 in Hi. apply list_elem_of_fmap in Hi as (ii & -> & Hii).
      apply find_none with (x := ii) in E; [|by apply list_elem_of_In].
      by apply bool_decide_eq_false in E.
  - intros i Hi. rewrite set_items_lookup by done. rewrite <- S1 in Hi.
    destruct (List.find _ stamped) as [ii|] eqn:E; [|done].
    apply find_some in E as [Hin He]. apply bool_decide_eq_true in He. destruct Hi.
    apply list_elem_of_fmap. exists ii. split; [done|by apply list_elem_of_In].
Qed.

Lemma gas_coin_nonneg sats coin :
  0 <= sats → btcGasCoinFromNativeSats sats = Ok coin → 0 <= c_Amount coin.
Proof.
  intros Hs. unfold btcGasCoinFromNativeSats. intros (scaled & Hm & [= <-])%rbind_Ok.
  unfold uint_mul in Hm. destruct (_ <? two256) in Hm; [|done]. injection Hm as <-.
  rec_simpl. cbn. apply Z.div_pos; [|reflexivity]. unfold One. lia.
Qed.

Lemma exact_gas_nonneg `{BtcWire} pk path addrs inputs rate change coin :
  btcExactGasCoin pk path addrs inputs rate change = Ok coin → 0 <= c_Amount coin.
Proof.
  unfold btcExactGasCoin. destruct (rate <=? 0); [done|]. intros (v & _ & Hc)%rbind_Ok.
  eapply gas_coin_nonneg; [|exact Hc]. apply u64_range.
Qed.

(** *** Selected inputs *)

Definition input_keys (inputs : list TxOutInput) : list string := map input_key inputs.

Lemma take_inputs_spec maxInputs required cands : ∀ total inputs total' inputs',
  take_inputs maxInputs required total inputs cands = (total', inputs') →
  ∃ taken, taken `prefix_of` cands ∧ inputs' = (inputs ++ map cand_input taken)%list
    ∧ (Z.of_nat (length inputs) <= maxInputs → Z.of_nat (length inputs') <= maxInputs)
    ∧ (total = u64 (inputs_value inputs) → total' = u64 (inputs_value inputs')).
Proof.
  induction cands as [|c cands IH]; intros total inputs total' inputs'; cbn.
  - intros [= <- <-]. exists []. rewrite app_nil_r. split_and!; try done.
  - destruct (maxInputs <=? _) eqn:Em.
    { intros [= <- <-]. exists []. rewrite app_nil_r. split_and!; try done. apply prefix_nil. }
    assert (Hv : total = u64 (inputs_value inputs) →
      total +u ti_AmountSats (cand_input c) = u64 (inputs_value (inputs ++ [cand_input c])%list)).
    { intros ->. unfold inputs_value. rewrite u64_add_l, sum_by_app, sum_by_cons, sum_by_nil.
      f_equal. lia. }
    destruct (required <=? _).
    + intros [= <- <-]. exists [c]. split_and!; [by apply prefix_cons, prefix_nil|done| |done].
      rewrite length_app. cbn. lia.
    + intros Hr. destruct (IH _ _ _ _ Hr) as (taken & Hp & -> & Hl & Ht).
      exists (c :: taken). split_and!; [by apply prefix_cons|by rewrite <- app_assoc| |].
      * intros _. apply Hl. rewrite length_app. cbn. lia.
      * intros Heq. apply Ht, Hv, Heq.
Qed.

(** Candidates are stored under the keys of their inputs. *)
Definition sources_keyed (acc : Sources) : Prop :=
  map_Forall (λ k c, k = input_key (cand_input c)) (src_candidates acc).

Lemma spendable_ok acc : sources_keyed acc →
  NoDup (map (λ c, input_key (cand_input c)) (spendable acc))
  ∧ ∀ c, c ∈ spendable acc → input_key (cand_input c) ∉ src_spent acc.
Proof.
  intros Hk. unfold spendable.
  set (l := List.filter _ (map_to_list (src_candidates acc))).
  assert (Hl : ∀ kc, kc ∈ l → kc.1 = input_key (cand_input kc.2) ∧ kc.1 ∉ src_spent acc).
  { intros [k c] [Hin Hf]%list_elem_of_In%filter_In. apply list_elem_of_In, elem_of_map_to_list in Hin.
    split; [exact (Hk _ _ Hin)|]. apply negb_true_iff, orb_false_iff in Hf as [Hf _].
    by apply bool_decide_eq_false in Hf. }
  assert (Hn : NoDup l.*1).
  { pose proof (NoDup_fst_map_to_list (src_candidates acc)) as Hnd. unfold l. clear -Hnd.
    induction (map_to_list (src_candidates acc)) as [|kc r IH]; [constructor|].
    inversion_clear Hnd as [|? ? Hi Hr]. cbn. destruct (negb _); [|by apply IH].
    constructor; [|by apply IH]. intros Hin. apply Hi.
    apply list_elem_of_fmap in Hin as (kc' & -> & [Hin _]%list_elem_of_In%filter_In).
    apply list_elem_of_fmap. exists kc'. split; [done|by apply list_elem_of_In]. }
  split.
  - rewrite map_map. erewrite map_ext_in; [exact Hn|]. intros kc Hin. symmetry.
    by apply Hl, list_elem_of_In.
  - intros c (kc & -> & Hin)%list_elem_of_fmap. destruct (Hl kc Hin) as [<- Hs]. done.
Qed.

Lemma fold_spent (f : TxOutInput → string) l : ∀ X : gset string,
  X ⊆ foldl (λ spent i, {[f i]} ∪ spent) X l
  ∧ ∀ i, i ∈ l → f i ∈ foldl (λ spent i, {[f i]} ∪ spent) X l.
Proof.
  induction l as [|i l IH]; intros X; cbn; [split; [done|set_solver]|].
  destruct (IH ({[f i]} ∪ X)) as [H1 H2]. split; [set_solver|].
  intros j [->|Hj]%elem_of_cons; [set_solver|auto].
Qed.

Lemma mark_spent_mono spent inputs : spent ⊆ markSpentBTCSourceInputs spent inputs.
Proof.
  unfold markSpentBTCSourceInputs. revert spent.
  induction inputs as [|i l IH]; intros X; cbn; [done|]. etrans; [|apply IH]. set_solver.
Qed.

Lemma mark_spent_all txs : ∀ spent : gset string,
  spent ⊆ foldl (λ spent observed, markSpentBTCSourceInputs spent (tx_SourceInputs (ot_Tx observed)))
            spent txs.
Proof.
  induction txs as [|t txs IH]; intros X; cbn; [done|]. etrans; [apply mark_spent_mono|apply IH].
Qed.

(** What every step of the scan keeps. *)
Definition scanned (acc acc' : Sources) : Prop :=
  (sources_keyed acc → sources_keyed acc') ∧ src_spent acc ⊆ src_spent acc'.

Lemma scanned_refl acc : scanned acc acc.
Proof. done. Qed.

Lemma scanned_trans acc1 acc2 acc3 : scanned acc1 acc2 → scanned acc2 acc3 → scanned acc1 acc3.
Proof. intros [? ?] [? ?]. split; [auto|set_solver]. Qed.

Lemma add_candidate_keyed acc txId vout amount height :
  scanned acc (add_candidate acc txId vout amount height).
Proof.
  unfold add_candidate. destruct (src_candidates acc !! _); [done|].
  split; [|done]. unfold sources_keyed. rec_simpl. intros Hk. by apply map_Forall_insert_2.
Qed.

Lemma scan_item_ok `{Ext} vault addr ignore height acc item s acc' s' :
  scan_txout_item vault addr ignore height acc item s = (Ok acc', s') →
  s' = s ∧ scanned acc acc'
  ∧ (Chain_Equals (to_Chain item) BTCChain = true →
     samePendingBatch vault ignore height item = false →
     ∀ i, i ∈ to_SourceInputs item → input_key i ∈ src_spent acc').
Proof.
  unfold scan_txout_item. cbv zeta. intros Hrun.
  set (acc1 := if _ && _ && _ then _ else acc) in Hrun.
  assert (H1 : scanned acc acc1 ∧ (Chain_Equals (to_Chain item) BTCChain = true →
     samePendingBatch vault ignore height item = false →
     ∀ i, i ∈ to_SourceInputs item → input_key i ∈ src_spent acc1)).
  { unfold acc1. clear. destruct (_ && _ && _) eqn:E.
    - pose proof (fold_spent input_key (to_SourceInputs item) (src_spent acc)) as [Hs1 Hs2].
      split; [split; [done|rec_simpl; done]|]. intros _ _. rec_simpl. done.
    - split; [done|]. intros Hc Hs i Hi. rewrite Hc, Hs, andb_true_r in E. cbn in E.
      apply negb_false_iff, Nat.eqb_eq, nil_length_inv in E. rewrite E in Hi.
      by apply not_elem_of_nil in Hi. }
  destruct H1 as [H1 Hspent]. clearbody acc1.
  apply bind_Ok in Hrun as (acc2 & s1 & H2 & Hrun).
  assert (Hacc2 : s1 = s ∧ scanned acc1 acc2).
  { destruct (TxID.IsEmpty (to_OutHash item)); keeper_inv; [done|].
    split; [done|]. split; [done|]. rec_simpl.
    etrans; [|apply mark_spent_all]. apply mark_spent_mono. }
  destruct Hacc2 as [-> H2']. clear H2.
  assert (Hacc3 : s' = s ∧ scanned acc2 acc').
  { destruct (_ || _) in Hrun; [by keeper_inv|].
    destruct (src_candidates acc2 !! _); [by keeper_inv|]. keeper_inv. split; [done|].
    apply add_candidate_keyed. }
  destruct Hacc3 as [-> H3]. split_and!; [done|by eapply scanned_trans; [|eapply scanned_trans]|].
  intros Hc Hs i Hi. apply H3, H2'. by apply Hspent.
Qed.

Lemma scan_out_ok vault addr acc observed acc' :
  scan_observed_out vault addr acc observed = Ok acc' → scanned acc acc'.
Proof.
  unfold scan_observed_out. destruct (_ || _); [by intros [= <-]|].
  set (acc1 := acc <| src_spent := _ |>).
  assert (H1 : scanned acc acc1) by (split; [done|unfold acc1; rec_simpl; apply mark_spent_mono]).
  destruct (_ || _); [by intros [= <-]|].
  intros (amount & _ & [= <-])%rbind_Ok. destruct (amount =? 0); [done|].
  eapply scanned_trans; [exact H1|apply add_candidate_keyed].
Qed.

Lemma scan_in_ok addr acc voter acc' :
  scan_observed_in addr acc voter = Ok acc' → scanned acc acc'.
Proof.
  unfold scan_observed_in. destruct (_ || _); [by intros [= <-]|].
  destruct (_ || _); [by intros [= <-]|].
  destruct (src_candidates acc !! _); [by intros [= <-]|].
  intros (amount & _ & [= <-])%rbind_Ok. apply add_candidate_keyed.
Qed.

Lemma rfold_scanned {A} (f : Sources → A → res Sources) l :
  (∀ acc x acc', f acc x = Ok acc' → scanned acc acc') →
  ∀ acc acc', rfold f acc l = Ok acc' → scanned acc acc'.
Proof.
  intros Hf. induction l as [|x l IH]; intros acc acc'; cbn [rfold].
  - by intros [= <-].
  - intros (acc1 & H1 & H2)%rbind_Ok. eapply scanned_trans; [by eapply Hf|by apply IH].
Qed.

(** The scan of the blocks: nothing is written, and all their inputs count as
    spent. *)
Lemma scan_items_ok `{Ext} vault addr ignore height items s : ∀ acc acc' s',
  mfold (scan_txout_item vault addr ignore height) acc items s = (Ok acc', s') →
  s' = s ∧ scanned acc acc'
  ∧ ∀ item, item ∈ items → Chain_Equals (to_Chain item) BTCChain = true →
    samePendingBatch vault ignore height item = false →
    ∀ i, i ∈ to_SourceInputs item → input_key i ∈ src_spent acc'.
Proof.
  induction items as [|item items IH]; intros acc acc' s' Hrun; cbn [mfold] in Hrun.
  - apply mret_Ok in Hrun as [-> ->]. split_and!; [done|done|]. intros item Hi. by apply not_elem_of_nil in Hi.
  - apply bind_Ok in Hrun as (acc1 & s1 & H1 & Hrun).
    apply scan_item_ok in H1 as (-> & Hs1 & Hin1). apply IH in Hrun as (-> & Hs2 & Hin2).
    split_and!; [done|by eapply scanned_trans|].
    intros it [->|Hit]%elem_of_cons; [|by apply Hin2]. intros Hc Hs i Hi. apply Hs2. by apply Hin1.
Qed.

Lemma scan_blocks_ok `{Ext} vault addr ignore blocks s : ∀ acc acc' s',
  mfold (λ acc blk, mfold (scan_txout_item vault addr ignore (txo_Height blk)) acc (txo_TxArray blk))
    acc blocks s = (Ok acc', s') →
  s' = s ∧ scanned acc acc'
  ∧ ∀ blk item, blk ∈ blocks → item ∈ txo_TxArray blk →
    Chain_Equals (to_Chain item) BTCChain = true →
    samePendingBatch vault ignore (txo_Height blk) item = false →
    ∀ i, i ∈ to_SourceInputs item → input_key i ∈ src_spent acc'.
Proof.
  induction blocks as [|blk blocks IH]; intros acc acc' s' Hrun; cbn [mfold] in Hrun.
  - apply mret_Ok in Hrun as [-> ->]. split_and!; [done|done|]. intros b it Hb. by apply not_elem_of_nil in Hb.
  - apply bind_Ok in Hrun as (acc1 & s1 & H1 & Hrun).
    apply scan_items_ok in H1 as (-> & Hs1 & Hin1). apply IH in Hrun as (-> & Hs2 & Hin2).
    split_and!; [done|by eapply scanned_trans|].
    intros b it [->|Hb]%elem_of_cons; [|by apply Hin2].
    intros Hit Hc Hs i Hi. apply Hs2. by eapply Hin1.
Qed.

(** An input already spent by a queued or sent outbound of the store. *)
Definition spends (ctx : Ctx) (vault : Vault) (ignore : Z) (s : KVStore) (key : string) : Prop :=
  ∃ k blk item i, kv_txout s !! k = Some blk ∧ txo_Height blk <= BlockHeight ctx
    ∧ item ∈ txo_TxArray blk ∧ Chain_Equals (to_Chain item) BTCChain = true
    ∧ samePendingBatch vault ignore (txo_Height blk) item = false
    ∧ i ∈ to_SourceInputs item ∧ input_key i = key.

Lemma candidates_ok `{Ext} ctx vault addr ignore s cands s' :
  btcVaultSourceCandidates ctx vault addr ignore s = (Ok cands, s') →
  s' = s ∧ NoDup (map (λ c, input_key (cand_input c)) cands)
  ∧ ∀ c, c ∈ cands → ¬ spends ctx vault ignore s (input_key (cand_input c)).
Proof.
  unfold btcVaultSourceCandidates. intros (blocks & s1 & Hb & Hrun)%bind_Ok.
  assert (Hblk : s1 = s ∧ ∀ k blk, kv_txout s !! k = Some blk → txo_Height blk <= BlockHeight ctx →
    blk ∈ blocks).
  { unfold txOutsAscending in Hb. keeper_inv. split; [done|]. intros k blk Hk Hh.
    rewrite insert_sort_perm. apply list_elem_of_In, filter_In. split.
    - apply list_elem_of_In. unfold sorted_values. apply list_elem_of_fmap. exists (k, blk).
      split; [done|]. by apply elem_of_sorted_items.
    - cbn. destruct (BlockHeight ctx <? txo_Height blk) eqn:E; [lia|done]. }
  destruct Hblk as [-> Hblk]. apply bind_Ok in Hrun as (acc1 & s1 & H1 & Hrun).
  apply scan_blocks_ok in H1 as (-> & [Hk1 Hs1] & Hin).
  apply bind_Ok in Hrun as (outs & s1 & Ho & Hrun). unfold getIterator in Ho.
  apply gets_Ok in Ho as [_ ->]. apply bind_Ok in Hrun as (acc2 & s1 & H2 & Hrun).
  apply lift_Ok in H2 as [H2 ->]. apply bind_Ok in Hrun as (ins & s1 & Hi & Hrun).
  unfold getIterator in Hi. apply gets_Ok in Hi as [_ ->].
  apply bind_Ok in Hrun as (acc3 & s1 & H3 & Hrun). apply lift_Ok in H3 as [H3 ->].
  apply mret_Ok in Hrun as [-> ->].
  apply rfold_scanned in H2 as [Hk2 Hs2];
    [|intros a v a'; apply rfold_scanned; intros; by eapply scan_out_ok].
  apply rfold_scanned in H3 as [Hk3 Hs3]; [|intros; by eapply scan_in_ok].
  destruct (spendable_ok acc3) as [Hnd Hun]; [apply Hk3, Hk2, Hk1, map_Forall_empty|].
  split_and!; [done| |].
  - rewrite (Permutation_map _ (insert_sort_perm candidate_lt _)). done.
  - intros c Hc (k & blk & item & i & Hk & Hh & Hit & Hch & Hsp & Hi & He).
    rewrite insert_sort_perm in Hc. apply (Hun c Hc). rewrite <- He. apply Hs3, Hs2.
    eapply Hin; [by eapply Hblk|done..].
Qed.

(** The inputs chosen for a batch are distinct, spent by no queued or sent
    outbound, within the configured number, and cover what is required. *)
Lemma select_inputs_ok `{Ext} ctx vault addr required ignore s inputs s' :
  btcSelectVaultSourceInputs ctx vault addr required ignore s = (Ok inputs, s') →
  s' = s ∧ NoDup (input_keys inputs)
  ∧ Z.of_nat (length inputs) <= Z.max 1 (Config.GetConfigInt64 (kv_config s) UTXO_MaxSpendCount)
  ∧ (∀ i, i ∈ inputs → ¬ spends ctx vault ignore s (input_key i))
  ∧ (inputs ≠ [] → required <= u64 (inputs_value inputs)).
Proof.
  unfold btcSelectVaultSourceInputs. intros (cands & s1 & Hc & Hrun)%bind_Ok.
  apply candidates_ok in Hc as (-> & Hnd & Hun). apply bind_Ok in Hrun as (mx & s1 & Hm & Hrun).
  unfold GetConfigInt64 in Hm. apply gets_Ok in Hm as [Hm ->]. cbv zeta in Hrun.
  set (mx' := if mx <? 1 then 1 else mx) in Hrun.
  destruct (take_inputs mx' required 0 [] cands) as [total taken] eqn:Et.
  apply take_inputs_spec in Et as (pre & [rest ->] & -> & Hl & Ht).
  apply mret_Ok in Hrun as [-> ->].
  assert (Hmx : Z.of_nat (length (map cand_input pre)) <= Z.max 1 mx).
  { etrans; [apply Hl; cbn|]; unfold mx'; destruct (mx <? 1) eqn:E; lia. }
  rewrite Hm. split; [done|]. destruct (total <? required) eqn:Etr;
    [split_and!; [constructor|cbn; lia|intros i Hi; by apply not_elem_of_nil in Hi|done]|].
  split_and!.
  - rewrite map_app in Hnd. apply NoDup_app in Hnd as (Hnd & _ & _).
    cbn [app]. unfold input_keys. by rewrite map_map.
  - exact Hmx.
  - intros i (c & -> & Hi)%list_elem_of_fmap. apply Hun, elem_of_app. by left.
  - intros _. cbn [app] in *. rewrite <- Ht by done. lia.
Qed.

(** The union is the pins, or the pins followed by chosen root inputs. *)
Lemma union_ok `{Ext} `{BtcWire} ctx vault addr addrs rate change pins pv ft needed h attempts s :
  ∀ start union s',
  (start = pins ∨ ∃ root req, btcSelectVaultSourceInputs ctx vault addr req h s = (Ok root, s)
     ∧ start = (pins ++ root)%list) →
  union_attempts ctx vault addr addrs rate change pins pv ft needed h attempts start s
    = (Ok union, s') →
  s' = s ∧ (union = pins ∨ ∃ root req,
    btcSelectVaultSourceInputs ctx vault addr req h s = (Ok root, s) ∧ union = (pins ++ root)%list).
Proof.
  induction attempts as [|n IH]; intros start union s' Hstart; cbn [union_attempts].
  - intros [-> ->]%mret_Ok. done.
  - intros (gas & s1 & [_ ->]%lift_Ok & Hrun)%bind_Ok.
    apply bind_Ok in Hrun as (req & s1 & [_ ->]%lift_Ok & Hrun).
    apply bind_Ok in Hrun as (uv & s1 & [_ ->]%lift_Ok & Hrun).
    destruct (req <=? uv); [apply mret_Ok in Hrun as [-> ->]; done|].
    apply bind_Ok in Hrun as (short & s1 & [_ ->]%lift_Ok & Hrun).
    apply bind_Ok in Hrun as (root & s1 & Hsel & Hrun).
    pose proof (select_inputs_ok _ _ _ _ _ _ _ _ Hsel) as (-> & _).
    destruct (length root =? 0)%nat.
    + apply bind_Ok in Hrun as (sp & s1 & [_ ->]%lift_Ok & Hrun).
      destruct (_ && _) in Hrun; [apply mret_Ok in Hrun as [-> ->]; by split; [|left]|].
      by apply fail_Ok in Hrun.
    + apply bind_Ok in Hrun as (u & s1 & [_ ->]%fail_if_Ok & Hrun).
      eapply IH; [|exact Hrun]. right. by exists root, short.
Qed.

Lemma add_pin_NoDup pin pins seen pins' seen' :
  NoDup (input_keys pins) → (∀ k, k ∈ input_keys pins ↔ k ∈ seen) →
  add_pin (pins, seen) pin = (pins', seen') →
  NoDup (input_keys pins') ∧ (∀ k, k ∈ input_keys pins' ↔ k ∈ seen').
Proof.
  intros Hn Hs. unfold add_pin. case_bool_decide as Hin; intros [= <- <-]; [done|].
  unfold input_keys. rewrite map_app. cbn. split; [|set_solver].
  apply NoDup_app. split_and!; [done| |apply NoDup_singleton].
  intros k Hk ->%list_elem_of_singleton. apply Hin, Hs, Hk.
Qed.

Lemma collect_pins_NoDup items pins : collect_pins items = Ok pins → NoDup (input_keys pins).
Proof.
  unfold collect_pins. intros ([pins' seen'] & Hr & [= <-])%rbind_Ok. cbn.
  assert (Hgen : ∀ pins seen, NoDup (input_keys pins) → (∀ k, k ∈ input_keys pins ↔ k ∈ seen) →
    rfold item_pins (pins, seen) items = Ok (pins', seen') → NoDup (input_keys pins')).
  2:{ eapply (Hgen [] ∅); [constructor|set_solver|exact Hr]. }
  clear Hr. induction items as [|item items IH]; intros ps seen Hn Hs; cbn [rfold].
  - by intros [= -> ->].
  - intros ([ps1 seen1] & H1 & Hr)%rbind_Ok.
    assert (Hok : NoDup (input_keys ps1) ∧ ∀ k, k ∈ input_keys ps1 ↔ k ∈ seen1);
      [|destruct Hok; by eapply IH].
    unfold item_pins in H1. destruct (_ && _) in H1; [by simplify_eq|].
    destruct (btcItemPinnedInputs item) as [|pin pl] eqn:El.
    + destruct (btcBatchVinOnlyItem item); [done|]. by simplify_eq.
    + assert (Hf : foldl add_pin (ps, seen) (pin :: pl) = (ps1, seen1)) by (by inversion H1).
      revert Hf. generalize (pin :: pl). clear El H1. intros l. revert ps seen Hn Hs.
      induction l as [|p l IHl]; intros ps seen Hn Hs; cbn [foldl];
        [by intros [= <- <-]|].
      destruct (add_pin (ps, seen) p) as [ps2 seen2] eqn:E2.
      destruct (add_pin_NoDup _ _ _ _ _ Hn Hs E2). by apply IHl.
Qed.

Lemma get_vault_reads `{Ext} ctx pk s a s' : GetVault ctx pk s = (a, s') → s' = s.
Proof.
  apply (keeps_run (λ s, s)). unfold GetVault. keeps_tac.
  match goal with |- keeps _ (GetVault_fuel ?n _ _) => generalize n end.
  intros n. revert pk. induction n as [|n IH]; intros pk; cbn [GetVault_fuel]; [apply keeps_panic|].
  unfold getBaseEDDSAIndex, getShielderJSON. keeps_tac; apply IH.
Qed.

Lemma gas_rate_reads `{Ext} s a s' : btcGasRateFromKeeper s = (a, s') → s' = s.
Proof. apply (keeps_run (λ s, s)). frame_tac. Qed.

(** *** Frames: only [SetTxOut] writes *)

Section AppendFrame.
Context `{Ext} `{BtcWire} (ctx : Ctx) {T : Type} (p : KVStore → T).

Lemma get_vault_keeps pk : keeps p (GetVault ctx pk).
Proof.
  intros s. destruct (GetVault ctx pk s) as [a s'] eqn:E. by rewrite (get_vault_reads _ _ _ _ _ E).
Qed.

Lemma select_keeps vault path addr addrs amount rate ignore change n : ∀ required selected,
  keeps p (select_attempts ctx vault path addr addrs amount rate ignore change n required selected).
Proof.
  induction n as [|n IH]; intros required selected; cbn [select_attempts]; [keeps_tac|].
  frame_tac; apply IH.
Qed.

Lemma union_keeps vault addr addrs rate change pins pv ft needed h n : ∀ union,
  keeps p (union_attempts ctx vault addr addrs rate change pins pv ft needed h n union).
Proof.
  induction n as [|n IH]; intros union; cbn [union_attempts]; [keeps_tac|].
  frame_tac; apply IH.
Qed.

Lemma refresh_group_keeps txOut group : keeps p (refreshBTCExactTxOutGroup ctx txOut group).
Proof.
  unfold refreshBTCExactTxOutGroup, refreshBTCEpochBatchGroup, refreshBTCLegacyTxOutGroup,
    selectBTCVaultSourceInputsForOutputs.
  frame_tac; first [apply get_vault_keeps | apply select_keeps | apply union_keeps].
Qed.

Lemma refresh_keeps txOut : keeps p (refreshBTCExactTxOutBlock ctx txOut).
Proof.
  unfold refreshBTCExactTxOutBlock. generalize (seq 0 (length (txo_TxArray txOut))) as l.
  intros l. generalize (@nil nat) as handled. revert txOut.
  induction l as [|i l IH]; intros txOut handled; cbn [refresh_from]; keeps_tac;
    first [apply IH | apply refresh_group_keeps].
Qed.

Lemma append_keeps height item : (∀ f s, p (set_field kv_txout f s) = p s) →
  keeps p (appendBTCExactTxOut ctx height item).
Proof.
  intros Hset. unfold appendBTCExactTxOut, btcVaultBatchTxOut, nextEmptyTxOutHeight.
  assert (Hne : ∀ n h, keeps p (next_empty_height n h)).
  { induction n as [|n IH]; intros h; cbn [next_empty_height]; frame_tac; apply IH. }
  assert (Him : ∀ n h, keeps p (immediate_slot n h)).
  { induction n as [|n IH]; intros h; cbn [immediate_slot]; frame_tac; apply IH. }
  frame_tac;
    first [apply Hne | apply Him | apply refresh_keeps
          | apply keeps_modify; intros s; apply Hset].
Qed.
End AppendFrame.

Definition group_of (txOut : TxOut) (group : list nat) : Prop :=
  NoDup group ∧ group ≠ [] ∧ Forall (λ i, (i < length (txo_TxArray txOut))%nat) group.

(** *** Equal input lists *)

Definition canonical_ids (inputs : list TxOutInput) : Prop :=
  Forall (λ i, ToUpper (ti_TxId i) = ti_TxId i) inputs.

Lemma same_input_spec x y :
  ToUpper (ti_TxId x) = ti_TxId x → ToUpper (ti_TxId y) = ti_TxId y →
  same_input x y = true ↔ btcTxOutInputKey x = btcTxOutInputKey y.
Proof.
  intros Hx Hy. unfold same_input, btcTxOutInputKey, TxID.Equals.
  rewrite !andb_true_iff, EqualFold_upper, Hx, Hy, !Z.eqb_eq.
  split; [by intros [[-> ->] ->]|]. intros Hk. by repeat apply pair_equal_spec in Hk as [Hk ?].
Qed.

(** The entries not matched yet. *)
Definition unmatched (b : list (TxOutInput * bool)) : list TxOutInput :=
  map fst (List.filter (λ e, negb e.2) b).

Lemma mark_first_spec x b :
  ToUpper (ti_TxId x) = ti_TxId x → canonical_ids (map fst b) →
  match mark_first x b with
  | Some b' => map btcTxOutInputKey (unmatched b)
                 ≡ₚ btcTxOutInputKey x :: map btcTxOutInputKey (unmatched b') ∧ map fst b' = map fst b
  | None => btcTxOutInputKey x ∉ map btcTxOutInputKey (unmatched b)
  end.
Proof.
  intros Hx. unfold unmatched.
  induction b as [|[y matched] b IH]; intros Hb; cbn; [apply not_elem_of_nil|].
  inversion_clear Hb as [|? ? Hy Hb']. cbn in Hy. specialize (IH Hb').
  destruct matched; cbn [negb andb].
  - destruct (mark_first x b) as [b'|]; [|done]. destruct IH as [IH1 IH2]. cbn. by rewrite IH2.
  - destruct (same_input x y) eqn:E.
    + apply same_input_spec in E; [|done..]. cbn. by rewrite E.
    + destruct (mark_first x b) as [b'|]; cbn.
      * destruct IH as [IH1 IH2]. rewrite IH1, IH2. split; [apply perm_swap|done].
      * rewrite elem_of_cons. intros [Hk|Hk]; [|done].
        apply same_input_spec in Hk; [congruence|done..].
Qed.

Lemma mark_all_spec a : ∀ b,
  canonical_ids a → canonical_ids (map fst b) → length a = length (unmatched b) →
  mark_all a b = true ↔ map btcTxOutInputKey a ≡ₚ map btcTxOutInputKey (unmatched b).
Proof.
  induction a as [|x a IH]; intros b Ha Hb Hl; cbn [mark_all map].
  - destruct (unmatched b); [done|]. cbn in Hl. lia.
  - inversion_clear Ha as [|? ? Hx Ha']. pose proof (mark_first_spec x b Hx Hb) as Hm.
    destruct (mark_first x b) as [b'|].
    + destruct Hm as [Hm1 Hm2]. rewrite IH; [|done|by rewrite Hm2|].
      * rewrite Hm1. split; [by intros ->|apply Permutation_cons_inv].
      * apply Permutation_length in Hm1. cbn in *. rewrite !length_map in Hm1. lia.
    + split; [done|]. intros Hp. destruct Hm. rewrite <- Hp. by left.
Qed.

Definition occurrences (k : string * Z * Z) (l : list (string * Z * Z)) : Z :=
  sum_by (λ x, if bool_decide (x = k) then 1 else 0) l.

Lemma occurrences_zero k l : occurrences k l = 0 ↔ k ∉ l.
Proof.
  unfold occurrences. induction l as [|x l IH]; [by rewrite sum_by_nil; split; [intros _; apply not_elem_of_nil|]|].
  rewrite sum_by_cons, not_elem_of_cons, <- IH.
  assert (0 <= sum_by (λ x, if bool_decide (x = k) then 1 else 0) l).
  { apply sum_by_nonneg, Forall_forall. intros y _. by case_bool_decide. }
  case_bool_decide; split; intros; [lia|naive_solver|split; [congruence|lia]|lia].
Qed.

Lemma occurrences_le k l : 0 <= occurrences k l <= Z.of_nat (length l).
Proof.
  unfold occurrences. induction l as [|x l IH]; [by rewrite sum_by_nil|].
  rewrite sum_by_cons. cbn [length]. case_bool_decide; lia.
Qed.

(** The counts hold what is left of a list. *)
Definition counts (m : gmap (string * Z * Z) Z) (l : list (string * Z * Z)) : Prop :=
  ∀ k, default 0 (m !! k) = occurrences k l.

Lemma count_inputs_counts a : Z.of_nat (length a) < 65536 →
  counts (count_inputs a) (map btcTxOutInputKey a).
Proof.
  unfold count_inputs.
  assert (Hgen : ∀ l m past, counts m past → Z.of_nat (length past + length l) < 65536 →
    counts (foldl (λ m i, let key := btcTxOutInputKey i in
      <[key := (default 0 (m !! key) + 1) mod 65536]> m) m l) (rev (map btcTxOutInputKey l) ++ past)%list).
  { induction l as [|i l IH]; intros m past Hc Hl; cbn [foldl map rev app]; [done|].
    rewrite <- app_assoc. cbn [app]. apply IH; [|cbn [length] in *; lia]. intros k.
    pose proof (occurrences_le (btcTxOutInputKey i) past). cbn [length] in Hl. cbv zeta.
    unfold occurrences. rewrite sum_by_cons. fold (occurrences k past). case_bool_decide as Hk.
    - subst k. rewrite lookup_insert_eq. cbn. rewrite Hc, Z.mod_small; lia.
    - rewrite lookup_insert_ne by done. apply Hc. }
  intros Hl k. rewrite (Hgen a ∅ []) by (done || (cbn; lia)).
  rewrite app_nil_r. apply sum_by_perm. symmetry. apply Permutation_rev.
Qed.

Lemma take_counts_spec b : ∀ m l, counts m l → length b = length l →
  take_counts m b = true ↔ map btcTxOutInputKey b ≡ₚ l.
Proof.
  induction b as [|x b IH]; intros m l Hc Hl; cbn [take_counts map].
  - by destruct l.
  - unfold take_count. rewrite Hc. destruct (occurrences _ l =? 0) eqn:E.
    + apply Z.eqb_eq, occurrences_zero in E. split; [done|]. intros Hp. destruct E.
      rewrite <- Hp. by left.
    + apply Z.eqb_neq in E. assert (Hin : btcTxOutInputKey x ∈ l).
      { destruct (decide (btcTxOutInputKey x ∈ l)); [done|]. by apply occurrences_zero in n. }
      apply elem_of_Permutation in Hin as [l' Hp]. rewrite (IH _ l').
      * rewrite Hp. split; [by intros ->|apply Permutation_cons_inv].
      * intros k. pose proof (sum_by_perm (λ x, if bool_decide (x = k) then 1 else 0) _ _ Hp) as Ho.
        rewrite sum_by_cons in Ho. fold (occurrences k l) (occurrences k l') in Ho.
        case_bool_decide as Hk; [subst k; rewrite lookup_insert_eq; cbn; rewrite Hc; lia|].
        rewrite lookup_insert_ne by done. rewrite Hc. lia.
      * apply Permutation_length in Hp. cbn in *. lia.
Qed.

(** ** Properties *)


(** Two lists of inputs count as equal exactly when one is a permutation of
    the other, in the pairwise comparison of short lists and in the counting
    comparison of long ones alike. *)
Theorem inputs_equal_iff_permutation (a b : list TxOutInput) :
  canonical_ids a → canonical_ids b → Z.of_nat (length a) < 65536 →
  btcTxOutInputsEqual a b = true ↔ map btcTxOutInputKey a ≡ₚ map btcTxOutInputKey b.
Proof.
  intros Ha Hb Hl. unfold btcTxOutInputsEqual.
  destruct (length a =? length b)%nat eqn:E; cbn [negb].
  - apply Nat.eqb_eq in E. destruct (8 <? length a)%nat.
    + rewrite (take_counts_spec b _ (map btcTxOutInputKey a)); [|by apply count_inputs_counts|].
      * split; intros; by symmetry.
      * by rewrite length_map.
    + assert (Hu : unmatched (map (λ input, (input, false)) b) = b).
      { unfold unmatched. clear. induction b as [|x b IH]; cbn; [done|]. by rewrite IH. }
      rewrite mark_all_spec; rewrite ?Hu; try done. by rewrite map_map, map_id.
  - apply Nat.eqb_neq in E. split; [done|]. intros Hp%Permutation_length.
    by rewrite !length_map in Hp.
Qed.

(** A concrete instance: 34-byte scripts and the sizes of a segregated-witness
transaction. *)
Module ToyWire.
Definition toy_wire : BtcWire := {|
  hash_from_str_ok := λ _, true;
  output_script_len := λ _, Some 34;
  taproot_pubkey_ok := λ _ _, true;
  msg_tx_sizes := λ n w scripts,
    let stripped := 10 + 41 * Z.of_nat n + sum_by (λ len, 9 + len) scripts in
    (stripped, stripped + 2 + Z.of_nat n * (w + 2))
|}.
End ToyWire.
Import ToyExt ToyWire.
#[local] Existing Instance toy_ext.
#[local] Existing Instance toy_wire.

(** A vault whose only output is a direct deposit of 10,000 satoshis. *)
Definition direct_deposit : Tx :=
  mkTx "T" BTCChain "from" "vault0" [NewCoin BTCAsset 10000] [] 0 [].
Definition deposit_store : KVStore :=
  KVStore_empty
    <| kv_vault := {[ "VAULT" := Vault_zero <| va_PubKey := "vault" |> ]} |>
    <| kv_network_fee := {[ "BTC" := mkNetworkFee BTCChain 10 5 ]} |>
    <| kv_observed_txin := {[ "T" := ObservedTxVoter_zero <| ov_TxID := "T" |>
         <| ov_Tx := Observed.NewObservedTx direct_deposit 7 "vault" 7 |> ]} |>.

(** Its return to the sender, less the withdrawal fee, pinned to that output. *)
Definition deposit_return : TxOutItem :=
  TxOutItem_zero <| to_Chain := BTCChain |> <| to_ToAddress := "from" |>
    <| to_VaultPubKey := "vault" |> <| to_Coin := NewCoin BTCAsset 9900 |>
    <| to_InHash := "T" |> <| to_TxType := TxOutTypeRefund |>
    <| to_SourceInputs := [mkTxOutInput "T" 0 10000 0] |>.

(** The root outputs a batch adds may repeat a pinned one: an item's own pin
    does not count as spent while its batch is open. The return of a direct
    deposit whose fee exceeds what the withdrawal fee leaves is queued with its
    only input listed twice, and its value counted twice. *)
Theorem batch_repeats_pinned_input :
  let s' := (appendBTCExactTxOut (mkCtx 9) 9 deposit_return deposit_store).2 in
  ∃ blk item, kv_txout s' !! "109" = Some blk ∧ txo_TxArray blk = [item]
    ∧ input_keys (to_SourceInputs item) = ["t:0"; "t:0"]
    ∧ coins_value [item] + gas_value [item] = 10960.
Proof.
  vm_compute. eexists _, _. repeat split.
Qed.

(** The open batch of that return. *)
Definition return_batch : TxOut :=
  (NewTxOut 109) <| txo_Status := TxOutStatusPendingBatch |> <| txo_TxArray := [deposit_return] |>.


Lemma inputs_equal_iff_permutation_witness :
  btcTxOutInputsEqual [mkTxOutInput "A" 0 1 0; mkTxOutInput "B" 1 2 0]
    [mkTxOutInput "B" 1 2 7; mkTxOutInput "A" 0 1 0] = true.
Proof.
  apply inputs_equal_iff_permutation; [repeat constructor..|reflexivity|]. apply perm_swap.
Defined.
