(* ===== verification/GasMgr.v ===== *)
(** * The gas manager (x/thornado/manager_gas_current.go)

The gas spent per outbound asset in one block, and the fee, gas rate and
largest gas of a chain from the network fee the nodes voted. *)

From S2P Require Import Prelude GoStrings Config Common Types Vaults Voters Keeper BtcBatch.

(** [Chain.GetGasUnits], its divisor; the chain is compared exactly. *)
Definition gasRateUnitsPerOne (c : string) : Z := if str_eq c BTCChain then One else 1.
Definition GetGasAssetDecimal (c : string) : Z := DefaultCoinDecimals.

Definition NativeGasToThornado (c : string) (native : Z) : res Z :=
  scaled ← uint_mul native One; Ok (scaled / gasRateUnitsPerOne c).
Definition ThornadoToNativeGas (c : string) (thornado : Z) : res Z :=
  scaled ← uint_mul thornado (gasRateUnitsPerOne c); Ok (scaled / One).

Definition RoundToDecimal (amt dec : Z) : res Z :=
  if negb (dec =? 0) && (dec <? DefaultCoinDecimals) then
    let precisionAdjust := 10 ^ (DefaultCoinDecimals - dec) in
    uint_mul (amt / precisionAdjust) precisionAdjust
  else Ok amt.

Record OutAssetGas := mkOutAssetGas { og_outAsset : Asset; og_gas : list Coin }.

#[export] Instance OutAssetGas_eta : Eta OutAssetGas := fun r =>
  mkOutAssetGas (og_outAsset r) (og_gas r).

#[export] Instance Asset_eq_dec : EqDecision Asset.
Proof. solve_decision. Defined.
#[export] Instance Asset_countable : Countable Asset.
Proof.
  apply (inj_countable'
    (λ a, (a_Chain a, a_Symbol a, a_Ticker a, a_Secured a))
    (λ t, let '(c, s, t', b) := t in mkAsset c s t' b)).
  by intros [].
Defined.

Module GasMgr.

Record t := mkGasMgr { outAssetGas : list OutAssetGas; gasCount : gmap Asset Z }.

Definition newGasMgr : t := mkGasMgr [] ∅.
Definition reset (gm : t) : t := mkGasMgr [] ∅.
Definition BeginBlock (gm : t) : t := reset gm.

(** The first entry of the asset takes the gas; a new one is appended. *)
Fixpoint add_to (l : list OutAssetGas) (outAsset : Asset) (gas : list Coin) : res (list OutAssetGas) :=
  match l with
  | [] => Ok [mkOutAssetGas outAsset gas]
  | e :: l =>
      if negb (Asset_Equals (og_outAsset e) outAsset)
      then rest ← add_to l outAsset gas; Ok (e :: rest)
      else total ← Gas.Add (og_gas e) gas; Ok (e <| og_gas := total |> :: l)
  end.

(** Each distinct gas asset counts once. *)
Definition count_gas (gas : list Coin) (counts : gmap Asset Z) : gmap Asset Z :=
  (foldl (λ '(counts, incremented) c,
     if bool_decide (c_Asset c ∈ incremented) then (counts, incremented)
     else (<[c_Asset c := default 0 (counts !! c_Asset c) +i 1]> counts,
           {[c_Asset c]} ∪ incremented))
    (counts, ∅ : gset Asset) gas).1.

Definition AddGasAsset (gm : t) (outAsset : Asset) (gas : list Coin) (increaseTxCount : bool)
    : res t :=
  outs ← add_to (outAssetGas gm) outAsset gas;
  Ok (mkGasMgr outs (if increaseTxCount then count_gas gas (gasCount gm) else gasCount gm)).

Definition GetGas (gm : t) : res (list Coin) :=
  rfold (λ gas e, Gas.Add gas (og_gas e)) [] (outAssetGas gm).

Definition GetAssetOutboundFee (asset : Asset) : KM Z :=
  chainOutboundFee ← GetNetworkFee (a_Chain asset);
  match NetworkFee_Valid chainOutboundFee with
  | Ok _ =>
      fee ← lift (x ← uint_mul (nf_TransactionSize chainOutboundFee)
                        (nf_TransactionFeeRate chainOutboundFee);
                  uint_mul x One);
      mret (fee / gasRateUnitsPerOne (a_Chain asset))
  | _ => mret 0
  end.

(** The largest gas of a transaction of the network's size, and the rate. *)
Definition gas_details (networkFee : NetworkFee) (chain : string) : res (Coin * Z) :=
  let gasRate := nf_TransactionFeeRate networkFee in
  gasRate ← (if negb (Chain_Equals chain BTCChain)
             then x ← uint_mul gasRate 3; Ok (x / 2) else Ok gasRate);
  maxGasAmount ← uint_mul gasRate (nf_TransactionSize networkFee);
  scaled ← uint_mul maxGasAmount One;
  maxGasAmount1e8 ← RoundToDecimal (scaled / gasRateUnitsPerOne chain) (GetGasAssetDecimal chain);
  rate ← to_uint64 gasRate;
  Ok ((NewCoin (Chain_GetGasAsset chain) maxGasAmount1e8)
        <| c_Decimals := GetGasAssetDecimal chain |>, i64 rate).

Definition GetGasDetails (chain : string) : KM (Coin * Z) :=
  networkFee ← GetNetworkFee chain;
  _ ← lift (NetworkFee_Valid networkFee);
  lift (gas_details networkFee chain).

Definition GetGasRate (chain : string) : KM Z :=
  r ← try (GetGasDetails chain);
  match r with Ok (_, gasRate) => mret (u64 gasRate) | _ => mret 0 end.

Definition GetMaxGas (chain : string) : KM Coin :=
  '(maxGasCoin, _) ← GetGasDetails chain; mret maxGasCoin.

End GasMgr.

#[export] Hint Unfold GasMgr.GetGasDetails GasMgr.GetMaxGas : flow.
