(* ===== verification/Outbounds.v ===== *)
(** * The outbound queue (x/thornado/manager_txout_current.go)

The blocks of queued outbounds move through a small state machine: a batch
waits for its inputs and for the earlier batches of its vault, is signed under
a leader, and is retried under the next one.  Blocks that mix items which may
not share a transaction are split first. *)

From S2P Require Import Prelude GoStrings Sha256 Config Common Types Vaults Voters Keeper BtcBatch GasMgr.

(** ** Predicates on blocks *)

Definition txOutHasPendingBTCExactItems (txOut : TxOut) : bool :=
  existsb (btcTxOutItemNeedsExactRefresh txOut) (txo_TxArray txOut).

Definition pending_status (status : string) : bool :=
  str_eq status TxOutStatusPendingBatch || str_eq status TxOutStatusPendingSign
  || str_eq status TxOutStatusPendingRetry.

(** The distinct vaults of the items of an epoch batch, in order of appearance. *)
Definition add_vault (keys : list string) (item : TxOutItem) : list string :=
  if btcEpochBatchItem item && negb (existsb (str_eq (to_VaultPubKey item)) keys)
  then (keys ++ [to_VaultPubKey item])%list else keys.
Definition vault_order (items : list TxOutItem) : list string := foldl add_vault [] items.

Definition immediate_items (items : list TxOutItem) : list TxOutItem :=
  List.filter (λ item, negb (btcEpochBatchItem item)) items.
Definition vault_group (items : list TxOutItem) (key : string) : list TxOutItem :=
  List.filter (λ item, btcEpochBatchItem item && str_eq (to_VaultPubKey item) key) items.

Definition txOutNeedsBatchSplit (txOut : TxOut) : bool :=
  if negb (pending_status (txo_Status txOut)) then false
  else if (length (txo_TxArray txOut) <? 2)%nat then false
  else
    let hasBatchable := existsb btcEpochBatchItem (txo_TxArray txOut) in
    let hasImmediate := existsb (λ item, negb (btcEpochBatchItem item)) (txo_TxArray txOut) in
    (hasBatchable && hasImmediate) || (1 <? length (vault_order (txo_TxArray txOut)))%nat.

Definition txOutHasPendingItems (txOut : TxOut) : bool :=
  existsb (λ item, TxID.IsEmpty (to_OutHash item)) (txo_TxArray txOut).

(** Every unsigned item has inputs, and all of them the same ones. *)
Definition txOutBatchSourcesReady (txOut : TxOut) : bool :=
  let unsigned := List.filter (λ item, TxID.IsEmpty (to_OutHash item)) (txo_TxArray txOut) in
  forallb (λ item, negb (length (to_SourceInputs item) =? 0)%nat) unsigned
  && match unsigned with
     | first :: rest =>
         (length (txo_TxArray txOut) <=? 1)%nat
         || forallb (λ item, btcTxOutInputsEqual (to_SourceInputs first) (to_SourceInputs item)) rest
     | [] => true
     end.

(** An incomplete batch of the same vault at a smaller height. *)
Definition blocks_batch (txOut : TxOut) (vault : string) (other : TxOut) : bool :=
  (txo_Height other <? txo_Height txOut) && pending_status (txo_Status other)
  && txOutHasPendingItems other
  && match txOutBatchVault other with
     | Some otherVault => PubKey.Equals otherVault vault
     | None => false
     end.

Definition txOutEarlierVaultBatchPending (txOut : TxOut) (all : list TxOut) : bool :=
  match txOutBatchVault txOut with
  | None => false
  | Some vault => existsb (blocks_batch txOut vault) all
  end.

(** ** Splitting a block *)

(** What is left of the block itself. *)
Definition split_head (ctx : Ctx) (txOut : TxOut) (items : list TxOutItem) : TxOut :=
  let txOut := txOut <| txo_TxArray := items |> in
  if txo_Height txOut <=? BlockHeight ctx then
    txOut
      <| txo_Status := if str_eq (txo_Status txOut) TxOutStatusPendingSign
                          || str_eq (txo_Status txOut) TxOutStatusPendingRetry
                       then TxOutStatusPendingSign else TxOutStatusPendingBatch |>
      <| txo_SigningAttempt := 0 |>
      <| txo_RetryUntilHeight := 0 |>
  else txOut.

(** The further blocks, each at the next free height. *)
Fixpoint place_blocks (mk : list (Z → TxOut)) (nextHeight : Z) : KM (list TxOut) :=
  match mk with
  | [] => mret []
  | f :: mk =>
      height ← nextEmptyTxOutHeight nextHeight;
      rest ← place_blocks mk (height +i 1);
      mret (f height :: rest)
  end.

Definition batch_block (epoch : Z) (items : list TxOutItem) (height : Z) : TxOut :=
  TxOut_zero <| txo_Height := height |> <| txo_Epoch := epoch |>
    <| txo_Status := TxOutStatusPendingBatch |> <| txo_TxArray := items |>.
Definition immediate_block (item : TxOutItem) (height : Z) : TxOut :=
  TxOut_zero <| txo_Height := height |>
    <| txo_Status := TxOutStatusPendingSign |> <| txo_TxArray := [item] |>.

Definition splitMixedPendingBatch (ctx : Ctx) (txOut : TxOut) : KM (list TxOut) :=
  let items := txo_TxArray txOut in
  let immediate := immediate_items items in
  match vault_order items with
  | [] => mret [txOut]
  | first :: others =>
      if (length others =? 0)%nat && (length immediate =? 0)%nat then mret [txOut]
      else
        rest ← place_blocks
          (map (λ key, batch_block (txo_Epoch txOut) (vault_group items key)) others
           ++ map immediate_block immediate)%list
          (txo_Height txOut +i 1);
        mret (split_head ctx txOut (vault_group items first) :: rest)
  end.

Definition RepairMixedBTCPendingBatches (ctx : Ctx) : KM unit :=
  all ← getIterator kv_txout;
  mfor (λ txOut, blocks ← splitMixedPendingBatch ctx txOut; mfor SetTxOut blocks)
    (List.filter txOutNeedsBatchSplit all).

(** ** The signing leader *)

Section Queue.
Context `{Ext}.

Definition leader_members (active : list NodeAccount) (vaultPubKey : string) : list string :=
  map (λ node, pks_Secp256k1 (na_PubKeySet node))
    (List.filter (λ node,
       existsb (λ membership, EqualFold membership vaultPubKey) (na_SignerMembership node)
       && negb (PubKey.IsEmpty (pks_Secp256k1 (na_PubKeySet node)))) active).

(** [binary.BigEndian.Uint64] of the first eight bytes. *)
Definition leader_offset (txOut : TxOut) : Z :=
  foldl (λ a b, 256 * a + b) 0
    (take 8 (Sha256.Sum256 ("txout:" ++ itoa (txo_Epoch txOut) ++ ":" ++ itoa (txo_Height txOut)))).

Definition selectSigningLeader (txOut : TxOut) (attempt : Z) : KM string :=
  match txo_TxArray txOut with
  | [] => mret ""
  | item :: _ =>
      active ← ListActiveNodes;
      let members := insert_sort str_lt (leader_members active (to_VaultPubKey item)) in
      match members with
      | [] => mret ""
      | _ =>
          let index := (leader_offset txOut +u attempt) mod Z.of_nat (length members) in
          match PubKey.NewPubKey (nth (Z.to_nat index) members "") with
          | Ok leader => mret leader
          | _ => mret ""
          end
      end
  end.

(** ** One block's states at the end of a block *)

Definition promote (ctx : Ctx) (signingPeriod : Z) (all : list TxOut) (txOut : TxOut) : TxOut :=
  if str_eq (txo_Status txOut) TxOutStatusPendingBatch && (txo_Height txOut <=? BlockHeight ctx)
     && txOutBatchSourcesReady txOut && negb (txOutEarlierVaultBatchPending txOut all)
  then txOut
    <| txo_Status := TxOutStatusPendingSign |>
    <| txo_SigningAttempt :=
         if (0 <? signingPeriod) && (txo_Height txOut <? BlockHeight ctx)
         then u64 (Z.quot (BlockHeight ctx -i txo_Height txOut) signingPeriod) else 0 |>
    <| txo_RetryUntilHeight := 0 |>
  else txOut.

Definition expire_attempt (ctx : Ctx) (signingPeriod retryPeriod : Z) (txOut : TxOut) : TxOut :=
  if str_eq (txo_Status txOut) TxOutStatusPendingSign && txOutHasPendingItems txOut
     && (0 <? signingPeriod)
     && (txo_Height txOut +i (i64 (txo_SigningAttempt txOut +u 1) *i signingPeriod)
         <=? BlockHeight ctx)
  then txOut
    <| txo_Status := TxOutStatusPendingRetry |>
    <| txo_RetryUntilHeight := BlockHeight ctx +i retryPeriod |>
    <| txo_SigningLeader := "" |>
  else txOut.

Definition resume (ctx : Ctx) (txOut : TxOut) : TxOut :=
  if str_eq (txo_Status txOut) TxOutStatusPendingRetry
     && (txo_RetryUntilHeight txOut <=? BlockHeight ctx)
  then txOut
    <| txo_Status := TxOutStatusPendingSign |>
    <| txo_SigningAttempt := txo_SigningAttempt txOut +u 1 |>
    <| txo_RetryUntilHeight := 0 |>
  else txOut.

Definition assign_leader (txOut : TxOut) : KM TxOut :=
  if str_eq (txo_Status txOut) TxOutStatusPendingSign && txOutHasPendingItems txOut then
    leader ← selectSigningLeader txOut (txo_SigningAttempt txOut);
    mret (txOut <| txo_SigningLeader := leader |>)
  else mret txOut.

Definition advance_block (ctx : Ctx) (signingPeriod retryPeriod : Z) (all : list TxOut)
    (txOut : TxOut) : KM TxOut :=
  assign_leader (resume ctx (expire_attempt ctx signingPeriod retryPeriod
    (promote ctx signingPeriod all txOut))).

(** The blocks are advanced in place, one after the other. *)
Fixpoint advance_all (ctx : Ctx) (signingPeriod retryPeriod : Z) (done todo : list TxOut)
    : KM (list TxOut) :=
  match todo with
  | [] => mret done
  | txOut :: todo =>
      txOut' ← advance_block ctx signingPeriod retryPeriod (done ++ txOut :: todo)%list txOut;
      advance_all ctx signingPeriod retryPeriod (done ++ [txOut'])%list todo
  end.

Section Refresh.
Context `{BtcWire}.

(** The first pass: refresh, complete or split each block. *)
Definition prepare_block (ctx : Ctx) (txOut : TxOut) : KM (list TxOut) :=
  txOut ← (if txOutHasPendingBTCExactItems txOut
           then '(txOut, _) ← refreshBTCExactTxOutBlock ctx txOut; mret txOut
           else mret txOut);
  if negb (txOutHasPendingItems txOut) then mret [txOut <| txo_Status := TxOutStatusComplete |>]
  else if txOutNeedsBatchSplit txOut then
    blocks ← splitMixedPendingBatch ctx txOut;
    _ ← mfor SetTxOut blocks;
    mret blocks
  else mret [txOut].

Definition updateBatchStates (ctx : Ctx) : KM unit :=
  signingPeriod ← getConfigDurationBlocks Keysign_PeriodMinutes;
  retryPeriod ← getConfigDurationBlocks Withdrawal_BatchWindowMinutes;
  all ← getIterator kv_txout;
  updates ← mfold (λ updates txOut,
              blocks ← prepare_block ctx txOut; mret (updates ++ blocks)%list)
            [] (List.filter (λ txOut, negb (TxOut_IsEmpty txOut)) all);
  updates ← advance_all ctx signingPeriod retryPeriod [] updates;
  mfor SetTxOut updates.

(** ** Gas of the items of other chains *)

(** The first action of the inbound that equals the item. *)
Fixpoint update_action (f : TxOutItem → TxOutItem) (item : TxOutItem) (actions : list TxOutItem)
    : option (list TxOutItem) :=
  match actions with
  | [] => None
  | a :: actions =>
      if TxOutItem_Equals a item then Some (f a :: actions)
      else option_map (cons a) (update_action f item actions)
  end.

Definition update_inbound_action (f : TxOutItem → TxOutItem) (item : TxOutItem) : KM unit :=
  if str_eq (to_InHash item) TxID.BlankTxID then mret tt
  else
    voter ← GetObservedTxInVoter (to_InHash item);
    match update_action f item (ov_Actions voter) with
    | Some actions => SetObservedTxInVoter (voter <| ov_Actions := actions |>)
    | None => fail "fail to find tx out in ObservedTxVoter"
    end.

Definition updateTxOutGas (item : TxOutItem) (gas : list Coin) : KM unit :=
  update_inbound_action (λ a, a <| to_MaxGas := gas |>) item.
Definition updateTxOutGasRate (item : TxOutItem) (gasRate : Z) : KM unit :=
  update_inbound_action (λ a, a <| to_GasRate := gasRate |>) item.

(** The gas details already read in this block, by chain; [None] once failed. *)
Definition GasCache := gmap string (option (Coin * Z)).

Definition cached_gas (chain : string) (cache : GasCache) : KM (GasCache * option (Coin * Z)) :=
  match cache !! chain with
  | Some details => mret (cache, details)
  | None =>
      r ← try (GasMgr.GetGasDetails chain);
      let details := match r with Ok d => Some d | _ => None end in
      mret (<[chain := details]> cache, details)
  end.

(** An update of the inbound's voter that fails leaves the item as it was. *)
Definition with_voter (hasInboundVoter : bool) (m : KM unit) (new old : TxOutItem) : KM TxOutItem :=
  if hasInboundVoter then
    r ← try m;
    mret (match r with Ok _ => new | _ => old end)
  else mret new.

Definition refresh_gas (ctx : Ctx) (cache : GasCache) (tx : TxOutItem) : KM (GasCache * TxOutItem) :=
  if Chain_Equals (to_Chain tx) BTCChain then mret (cache, tx)
  else
    voter ← GetObservedTxInVoter (to_InHash tx);
    let hasInboundVoter := negb (Observed.IsEmpty (ov_Tx voter))
      || negb (length (ov_Actions voter) =? 0)%nat || negb (length (ov_OutTxs voter) =? 0)%nat in
    if hasInboundVoter && (0 <? ov_OutboundHeight voter)
       && (ov_OutboundHeight voter <? BlockHeight ctx)
    then mret (cache, tx)
    else
      '(cache, details) ← cached_gas (to_Chain tx) cache;
      match details with
      | None => mret (cache, tx)
      | Some (maxGasCoin, gasRate) =>
          item ← (if match to_MaxGas tx with
                     | [] => true
                     | first :: _ => negb (Coin_IsEmpty maxGasCoin)
                                     && negb (c_Amount maxGasCoin =? c_Amount first)
                     end
                  then with_voter hasInboundVoter (updateTxOutGas tx [maxGasCoin])
                         (tx <| to_MaxGas := [maxGasCoin] |>) tx
                  else mret tx);
          item ← (if (0 <? gasRate) && negb (to_GasRate item =? gasRate)
                  then with_voter hasInboundVoter (updateTxOutGasRate tx gasRate)
                         (item <| to_GasRate := gasRate |>) item
                  else mret item);
          mret (cache, item)
      end.

Definition GetBlockOut (ctx : Ctx) : KM TxOut := GetTxOut (BlockHeight ctx).

Definition EndBlock (ctx : Ctx) : KM unit :=
  _ ← try (updateBatchStates ctx);
  _ ← try (refreshBTCExactTxOut ctx (BlockHeight ctx));
  txOut ← GetBlockOut ctx;
  '(_, items) ← mfold (λ '(cache, items) tx,
                  '(cache, item) ← refresh_gas ctx cache tx;
                  mret (cache, items ++ [item])%list)
                (∅ : GasCache, []) (txo_TxArray txOut);
  SetTxOut (txOut <| txo_TxArray := items |>).
End Refresh.

(** ** Reading the queue *)

Definition GetOutboundItems (ctx : Ctx) : KM (list TxOutItem) :=
  block ← GetTxOut (BlockHeight ctx); mret (txo_TxArray block).

Definition GetOutboundItemByToAddress (ctx : Ctx) (to : string) : KM (list TxOutItem) :=
  items ← GetOutboundItems ctx;
  mret (List.filter (λ item, Address.Equals (to_ToAddress item) to) items).

Definition ClearOutboundItems (ctx : Ctx) : KM unit :=
  _ ← try (ClearTxOut (BlockHeight ctx)); mret tt.

(** ** Choosing the vaults of an outbound *)

(** [PubKey.GetAddress]; the chain is compared exactly. *)
Definition pubkey_address (p chain : string) : res string :=
  if PubKey.IsEmpty p then Ok NoAddress
  else if str_eq chain BTCChain then
    addr ← VaultPath.DeriveBTCTaprootAddress p VaultPath.MainVaultPathIndex;
    Address.NewAddress addr
  else Ok NoAddress.
(** Every chain signs with secp256k1. *)
Definition AlgoPubKey (m : Vault) (chain : string) : res string := Ok (va_PubKey m).
Definition vault_address (m : Vault) (chain : string) : res string :=
  pubKey ← AlgoPubKey m chain; pubkey_address pubKey chain.

(** The outbound may leave the vault: the vault's own address is known and is
    not the destination. *)
Definition sends_elsewhere (m : Vault) (toi : TxOutItem) : bool :=
  match vault_address m (to_Chain toi) with
  | Ok fromAddr => negb (Address.IsEmpty fromAddr || Address.Equals (to_ToAddress toi) fromAddr)
  | _ => false
  end.
Definition pays_gas (m : Vault) (toi : TxOutItem) (maxGasCoin : Coin) : bool :=
  let gasAsset := Vault.GetCoin m (Chain_GetGasAsset (to_Chain toi)) in
  negb (Coin_IsEmpty gasAsset || (c_Amount gasAsset <? c_Amount maxGasCoin)).

(** [common.NewChains] skips what it cannot parse. *)
Definition NewChains (raw : list string) : list string :=
  omap (λ c, match NewChain c with Ok chain => Some chain | _ => None end) raw.
Definition frozen_for (vault : Vault) (chain : string) : bool :=
  negb (length (va_Frozen vault) =? 0)%nat && Chains_Has (NewChains (va_Frozen vault)) chain.

(** A vault the fallback may choose, by the balance the store holds. *)
Definition can_fall_back (toi : TxOutItem) (maxGasCoin : Coin) (m : Vault) : bool :=
  sends_elsewhere m toi && pays_gas m toi maxGasCoin
  && negb (c_Amount (Vault.GetCoin m (c_Asset (to_Coin toi))) =? 0).

Definition fallback_step (ctx : Ctx) (toi : TxOutItem) (maxGasCoin : Coin)
    (best : Vault * Z) (vault : Vault) : KM (Vault * Z) :=
  if frozen_for vault (to_Chain toi) then mret best
  else
    r ← try (GetVault ctx (va_PubKey vault));
    match r with
    | Ok originalVault =>
        let amount := c_Amount (Vault.GetCoin originalVault (c_Asset (to_Coin toi))) in
        mret (if can_fall_back toi maxGasCoin originalVault && (best.2 <? amount)
              then (originalVault, amount) else best)
    | _ => mret best
    end.

Definition selectFallbackVault (ctx : Ctx) (toi : TxOutItem) (maxGasCoin : Coin)
    (vaults : list Vault) : KM Vault :=
  best ← mfold (fallback_step ctx toi maxGasCoin) (Vault_zero, 0) vaults;
  mret best.1.

(** How many vaults of that size the outbound would need. *)
Definition vaultsNecessary (toi : TxOutItem) (vault : Vault) : Z :=
  let estimate := c_Amount (to_Coin toi)
                  / c_Amount (Vault.GetCoin vault (c_Asset (to_Coin toi))) in
  if estimate <? two64 then estimate else two64 - 1.

Definition usable_vaults (toi : TxOutItem) (maxGasCoin : Coin) (vaults : list Vault) : list Vault :=
  if (1 <? length vaults)%nat then
    insert_sort (λ v w, vaultsNecessary toi v <? vaultsNecessary toi w)
      (List.filter (λ vault,
         negb (c_Amount (Vault.GetCoin vault (c_Asset (to_Coin toi))) =? 0)
         && negb (frozen_for vault (a_Chain (c_Asset maxGasCoin)))) vaults)
  else vaults.

(** What the vault can give to the outbound; 0 where it is skipped. *)
Definition vault_offer (transactionFeeAmount : Z) (maxGasCoin : Coin) (toi : TxOutItem)
    (vault : Vault) : Z :=
  let vaultCoinAmount := c_Amount (Vault.GetCoin vault (c_Asset (to_Coin toi))) in
  if negb (sends_elsewhere vault toi) then 0
  else if vaultCoinAmount <=? transactionFeeAmount then 0
  else if negb (pays_gas vault toi maxGasCoin) then 0
  else if Asset_Equals (c_Asset (to_Coin toi)) (c_Asset maxGasCoin)
  then SafeSub vaultCoinAmount (c_Amount maxGasCoin)
  else vaultCoinAmount.

Definition with_amount (toi : TxOutItem) (amount : Z) : TxOutItem :=
  toi <| to_Coin := (to_Coin toi) <| c_Amount := amount |> |>.
Definition of_vault (toi : TxOutItem) (vault : Vault) : TxOutItem :=
  toi <| to_VaultPubKey := va_PubKey vault |> <| to_VaultPubKeyEddsa := va_PubKeyEddsa vault |>.

(** One output per vault, until the amount is spent. *)
Fixpoint take_from (transactionFeeAmount : Z) (maxGasCoin : Coin) (toi : TxOutItem)
    (vaults : list Vault) : list TxOutItem * TxOutItem :=
  match vaults with
  | [] => ([], toi)
  | vault :: vaults =>
      let offer := vault_offer transactionFeeAmount maxGasCoin toi vault in
      if offer =? 0 then take_from transactionFeeAmount maxGasCoin toi vaults
      else
        let toi := of_vault toi vault in
        if c_Amount (to_Coin toi) <=? offer then ([toi], with_amount toi 0)
        else
          let remainingAmount := SafeSub (c_Amount (to_Coin toi)) offer in
          let output := with_amount toi (SafeSub (c_Amount (to_Coin toi)) remainingAmount) in
          let '(outputs, toi) :=
            take_from transactionFeeAmount maxGasCoin (with_amount toi remainingAmount) vaults in
          (output :: outputs, toi)
  end.

(** The first output of least amount takes the remainder. *)
Definition smaller (outputs : list TxOutItem) (best : nat * Z) (i : nat) : nat * Z :=
  let amount := c_Amount (to_Coin (nth i outputs TxOutItem_zero)) in
  if amount <? best.2 then (i, amount) else best.
Definition smallest_index (outputs : list TxOutItem) : nat :=
  (foldl (smaller outputs) (0%nat, c_Amount (to_Coin (nth 0 outputs TxOutItem_zero)))
    (seq 1 (length outputs - 1))).1.

Definition add_remainder (outputs : list TxOutItem) (remainder : Z) : res (list TxOutItem) :=
  let i := smallest_index outputs in
  let output := nth i outputs TxOutItem_zero in
  amount ← uint_add (c_Amount (to_Coin output)) remainder;
  Ok (<[i := with_amount output amount]> outputs).

Definition DiscoverOutbounds (ctx : Ctx) (transactionFeeAmount : Z) (maxGasCoin : Coin)
    (toi : TxOutItem) (vaults : list Vault) : KM (list TxOutItem * Z) :=
  let '(outputs, toi) :=
    take_from transactionFeeAmount maxGasCoin toi (usable_vaults toi maxGasCoin vaults) in
  if c_Amount (to_Coin toi) =? 0 then mret (outputs, 0)
  else
    match outputs with
    | [] =>
        fallbackVault ← selectFallbackVault ctx toi maxGasCoin vaults;
        if negb (PubKey.IsEmpty (va_PubKey fallbackVault))
        then mret ([of_vault toi fallbackVault], 0)
        else mret ([], c_Amount (to_Coin toi))
    | _ =>
        outputs ← lift (add_remainder outputs (c_Amount (to_Coin toi)));
        mret (outputs, 0)
    end.
End Queue.

(** ** Properties *)
(** *** Splitting *)

Lemma filter_app_perm {A} (p : A → bool) (l : list A) :
  (List.filter p l ++ List.filter (λ x, negb (p x)) l)%list ≡ₚ l.
Proof.
  induction l as [|x l IH]; [done|]. cbn. destruct (p x); cbn; [by rewrite IH|].
  by rewrite <- Permutation_middle, IH.
Qed.

Lemma add_vault_keeps keys item : NoDup keys → NoDup (add_vault keys item).
Proof.
  intros Hn. unfold add_vault. destruct (_ && _) eqn:E; [|done].
  apply andb_true_iff in E as [_ E]. apply NoDup_app. split; [done|split].
  - intros k Hk ->%list_elem_of_singleton. apply negb_true_iff in E.
    assert (T : existsb (str_eq (to_VaultPubKey item)) keys = true); [|congruence].
    apply existsb_exists. exists (to_VaultPubKey item).
    split; [by apply list_elem_of_In|]. by apply str_eq_true.
  - apply NoDup_singleton.
Qed.

Lemma add_vault_elem keys item k :
  k ∈ add_vault keys item ↔ k ∈ keys ∨ (btcEpochBatchItem item = true ∧ to_VaultPubKey item = k).
Proof.
  unfold add_vault. destruct (btcEpochBatchItem item); cbn; [|naive_solver].
  destruct (existsb _ _) eqn:E; cbn.
  - split; [by left|]. intros [Hk|[_ <-]]; [done|].
    apply existsb_exists in E as (k & Hk & ->%str_eq_true). by apply list_elem_of_In.
  - rewrite elem_of_app, list_elem_of_singleton. naive_solver.
Qed.

Lemma vault_order_spec items : NoDup (vault_order items)
  ∧ ∀ k, k ∈ vault_order items ↔
      ∃ item, item ∈ items ∧ btcEpochBatchItem item = true ∧ to_VaultPubKey item = k.
Proof.
  unfold vault_order.
  assert (G : ∀ keys, NoDup keys → NoDup (foldl add_vault keys items)
    ∧ ∀ k, k ∈ foldl add_vault keys items ↔ k ∈ keys ∨
        ∃ item, item ∈ items ∧ btcEpochBatchItem item = true ∧ to_VaultPubKey item = k).
  { induction items as [|item items IH]; intros keys Hn; cbn.
    - split; [done|]. intros k. split; [by left|]. by intros [?|(? & ?%not_elem_of_nil & _)].
    - destruct (IH _ (add_vault_keeps keys item Hn)) as [IHn IHk]. split; [done|].
      intros k. rewrite IHk, add_vault_elem. setoid_rewrite elem_of_cons. naive_solver. }
  destruct (G [] (NoDup_nil_2)) as [Hn Hk]. split; [done|]. intros k. rewrite Hk.
  split; [by intros [?%not_elem_of_nil|?]|by right].
Qed.

(** Grouping by the distinct keys of a list reorders it. *)
Lemma group_by_perm (keys : list string) (items : list TxOutItem) :
  NoDup keys →
  (∀ item, item ∈ items → btcEpochBatchItem item = true → to_VaultPubKey item ∈ keys) →
  concat (map (vault_group items) keys) ≡ₚ List.filter btcEpochBatchItem items.
Proof.
  revert items. induction keys as [|k keys IH]; intros items Hn Hk; cbn.
  - destruct (List.filter btcEpochBatchItem items) as [|item l] eqn:E; [done|].
    assert (Hin : In item (List.filter btcEpochBatchItem items)) by (rewrite E; by left).
    apply filter_In in Hin as [Hin Hb].
    apply list_elem_of_In in Hin. by destruct (not_elem_of_nil _ (Hk item Hin Hb)).
  - apply NoDup_cons in Hn as [Hnk Hn].
    pose (rest := List.filter (λ item, negb (str_eq (to_VaultPubKey item) k)) items).
    assert (Hrest : map (vault_group items) keys = map (vault_group rest) keys).
    { apply map_ext_in. intros k' Hk'%list_elem_of_In. unfold vault_group, rest.
      clear Hk IH rest. induction items as [|item items IH]; [done|]. cbn.
      destruct (str_eq (to_VaultPubKey item) k) eqn:E; cbn; [|by rewrite IH].
      apply str_eq_true in E. rewrite IH.
      destruct (str_eq (to_VaultPubKey item) k') eqn:E'; [|by rewrite andb_false_r].
      apply str_eq_true in E'. congruence. }
    rewrite Hrest, IH; [|done|].
    + unfold rest, vault_group. clear. induction items as [|item items IH]; [done|]. cbn.
      destruct (btcEpochBatchItem item) eqn:E, (str_eq (to_VaultPubKey item) k); cbn;
        rewrite ?E; [by rewrite IH| |done|done].
      by rewrite <- Permutation_middle, IH.
    + intros item Hin Hb. apply list_elem_of_In, filter_In in Hin as [Hin Hne].
      apply list_elem_of_In in Hin. apply (Hk item) in Hin; [|done].
      apply elem_of_cons in Hin as [E|?]; [|done].
      apply negb_true_iff, str_eq_false in Hne. done.
Qed.

Section Split.
Lemma next_empty_spec n : ∀ h s o s', next_empty_height n h s = (Ok o, s') →
  s' = s ∧ ∀ height, o = Some height →
    ∃ block, GetTxOut height s = (Ok block, s)
      ∧ (TxOut_IsEmpty block || is_empty (txo_Status block)) = true
      ∧ ∃ k, (k < n)%nat ∧ height = Nat.iter k (λ x, x +i 1) h.
Proof.
  induction n as [|n IH]; intros h s o s' Hr; cbn [next_empty_height] in Hr.
  - go_inv. split; [done|]. by intros.
  - apply bind_Ok in Hr as (block & s1 & Hg & Hr).
    assert (s1 = s) as -> by (unfold GetTxOut, getShielderJSON in Hg; by go_inv).
    destruct (_ || _) eqn:E.
    + go_inv. split; [done|]. intros height [= <-]. exists block.
      split; [done|]. split; [done|]. exists 0%nat. split; [lia|done].
    + apply IH in Hr as [-> Hr]. split; [done|]. intros height Ho.
      apply Hr in Ho as (b & Hb & Hbe & k & Hk & ->).
      exists b. split; [done|]. split; [done|]. exists (Datatypes.S k). split; [lia|].
      by rewrite Nat.iter_succ_r.
Qed.
Lemma iter_incr k h : 0 ≤ h → h + Z.of_nat k < two63 → Nat.iter k (λ x, x +i 1) h = h + Z.of_nat k.
Proof.
  intros Hh. induction k as [|k IH]; intros Hk; [cbn; lia|].
  rewrite Nat.iter_succ, IH by lia. cbv beta. rewrite i64_small; u64_lia.
Qed.

Definition free_height (s : KVStore) (height : Z) : Prop :=
  ∃ block, GetTxOut height s = (Ok block, s)
    ∧ (TxOut_IsEmpty block || is_empty (txo_Status block)) = true.

Lemma next_empty_height_free start s height s' :
  0 ≤ start → start + 1000 < two63 →
  nextEmptyTxOutHeight start s = (Ok height, s') →
  s' = s ∧ start ≤ height < start + 1000 ∧ free_height s height.
Proof.
  intros H0 H1 Hr. unfold nextEmptyTxOutHeight in Hr.
  apply bind_Ok in Hr as (o & s1 & Hr & Hf). apply next_empty_spec in Hr as [-> Ho].
  destruct o as [h|]; go_inv.
  destruct (Ho _ eq_refl) as (block & Hb & He & k & Hk & ->).
  rewrite iter_incr in * by lia. split; [done|]. split; [lia|]. by exists block.
Qed.

Lemma place_blocks_spec mk : ∀ next s blocks s',
  0 ≤ next → next + 1000 * Z.of_nat (length mk) < two63 →
  (∀ f, f ∈ mk → ∀ h, txo_Height (f h) = h ∧ txo_TxArray (f h) = txo_TxArray (f 0)) →
  place_blocks mk next s = (Ok blocks, s') →
  s' = s ∧ map txo_TxArray blocks = map (λ f, txo_TxArray (f 0)) mk
  ∧ StronglySorted Z.lt (map txo_Height blocks)
  ∧ Forall (λ b, next ≤ txo_Height b ∧ free_height s (txo_Height b)) blocks.
Proof.
  induction mk as [|f mk IH]; intros next s blocks s' H0 H1 Hf Hr; cbn [place_blocks] in Hr.
  - go_inv. split; [done|]. split; [done|]. split; constructor.
  - apply bind_Ok in Hr as (h & s1 & Hn & Hr). cbn [length] in H1.
    apply next_empty_height_free in Hn as (-> & Hh & Hfree); [|lia..].
    apply bind_Ok in Hr as (rest & s2 & Hr & Hm). go_inv.
    rewrite i64_small in Hr by u64_lia.
    apply IH in Hr as (-> & Hmap & Hs & Hall); [|lia|lia|intros g Hg; apply Hf; by right].
    destruct (Hf f (list_elem_of_here _ _) h) as [Hfh Hfe].
    split; [done|]. cbn [map]. rewrite Hmap, Hfh, Hfe. split; [done|].
    split; [constructor; [done|]|constructor; [rewrite Hfh; split; [lia|done]|]].
    + rewrite Forall_map. eapply Forall_impl; [exact Hall|]. intros b [Hb _]. cbn. lia.
    + eapply Forall_impl; [exact Hall|]. intros b [Hb ?]. split; [lia|done].
Qed.

Lemma unsplit_immediate item h : txOutNeedsBatchSplit (immediate_block item h) = false.
Proof. done. Qed.

Lemma group_unsplit b items key :
  txo_TxArray b = vault_group items key → txOutNeedsBatchSplit b = false.
Proof.
  intros Hb. unfold txOutNeedsBatchSplit. rewrite Hb.
  destruct (negb (pending_status _)); [done|]. destruct (length _ <? 2)%nat; [done|].
  assert (Hg : ∀ item, In item (vault_group items key) →
            btcEpochBatchItem item = true ∧ to_VaultPubKey item = key).
  { intros item [_ [? ?%str_eq_true]%andb_true_iff]%filter_In. done. }
  destruct (existsb (λ item, negb _) _) eqn:E.
  { apply existsb_exists in E as (item & [Hi _]%Hg & E). by rewrite Hi in E. }
  rewrite andb_false_r. cbn [orb]. apply Nat.ltb_ge.
  destruct (vault_order_spec (vault_group items key)) as [Hn Hk].
  apply (NoDup_incl_length (l' := [key])); [by apply NoDup_ListNoDup|].
  intros k Hin%list_elem_of_In. apply Hk in Hin as (item & Hin%list_elem_of_In & _ & <-).
  apply Hg in Hin as [_ ->]. by left.
Qed.

Lemma vault_order_length items :
  (length (vault_order items) + length (immediate_items items) <= length items)%nat.
Proof.
  unfold vault_order.
  assert (G : ∀ keys, (length (foldl add_vault keys items) + length (immediate_items items)
                        <= length keys + length items)%nat); [|apply (G [])].
  induction items as [|item items IH]; intros keys; cbn; [lia|].
  specialize (IH (add_vault keys item)).
  assert (Ha : (length (add_vault keys item) + (if btcEpochBatchItem item then 0 else 1)
                <= length keys + 1)%nat).
  { unfold add_vault. destruct (btcEpochBatchItem item); cbn; [|lia].
    destruct (negb _); rewrite ?length_app; cbn; lia. }
  unfold immediate_items in *. cbn [List.filter length].
  destruct (btcEpochBatchItem item); cbn [negb length]; lia.
Qed.

Lemma one_group_unsplit txOut first :
  vault_order (txo_TxArray txOut) = [first] → immediate_items (txo_TxArray txOut) = [] →
  txOutNeedsBatchSplit txOut = false.
Proof.
  intros Hv Hi. unfold txOutNeedsBatchSplit. rewrite Hv.
  destruct (negb (pending_status _)); [done|]. destruct (length _ <? 2)%nat; [done|].
  rewrite orb_false_r. destruct (existsb (λ item, negb _) _) eqn:E; [|apply andb_false_r].
  apply existsb_exists in E as (item & Hin & E).
  assert (In item (immediate_items (txo_TxArray txOut))) as Hin' by by apply filter_In.
  by rewrite Hi in Hin'.
Qed.
Lemma no_group_unsplit txOut :
  vault_order (txo_TxArray txOut) = [] → txOutNeedsBatchSplit txOut = false.
Proof.
  intros Hv. unfold txOutNeedsBatchSplit. rewrite Hv.
  destruct (negb (pending_status _)); [done|]. destruct (length _ <? 2)%nat; [done|].
  destruct (existsb btcEpochBatchItem _) eqn:E; [|done].
  apply existsb_exists in E as (item & Hin%list_elem_of_In & E).
  destruct (vault_order_spec (txo_TxArray txOut)) as [_ Hk]. rewrite Hv in Hk.
  by destruct (not_elem_of_nil (to_VaultPubKey item)); apply Hk; exists item.
Qed.

(** The items of the block and of the new blocks are the items of the old one. *)
Lemma split_items items first others :
  vault_order items = first :: others →
  concat (vault_group items first
    :: map (vault_group items) others ++ map (λ item, [item]) (immediate_items items))%list
  ≡ₚ items.
Proof.
  intros Hv. destruct (vault_order_spec items) as [Hn Hk]. rewrite Hv in Hn, Hk.
  pose proof (group_by_perm (first :: others) items Hn
    (λ item Hin Hb, proj2 (Hk _) (ex_intro _ item (conj Hin (conj Hb eq_refl))))) as Hg.
  cbn [concat map] in *. rewrite concat_app, app_assoc, Hg.
  replace (concat (map (λ item, [item]) (immediate_items items)))
    with (immediate_items items).
  - apply filter_app_perm.
  - induction (immediate_items items) as [|i l IH]; cbn; [done|]. by rewrite <- IH.
Qed.

Lemma split_head_spec ctx txOut items :
  txo_TxArray (split_head ctx txOut items) = items
  ∧ txo_Height (split_head ctx txOut items) = txo_Height txOut.
Proof. unfold split_head. cbv zeta. by destruct (_ <=? _). Qed.

(** Splitting a block which mixes items that may not share a transaction
    loses and duplicates nothing: the items of the resulting blocks are
    together those of the block; none of the blocks needs another split; the
    first one keeps the height, and each further one gets a height of its own,
    above the others, at which the queue holds nothing.  The store is only
    read. *)
Theorem split_conserves ctx txOut blocks s s' :
  0 ≤ txo_Height txOut →
  txo_Height txOut + 1000 * (Z.of_nat (length (txo_TxArray txOut)) + 1) < two63 →
  splitMixedPendingBatch ctx txOut s = (Ok blocks, s') →
  s' = s
  ∧ concat (map txo_TxArray blocks) ≡ₚ txo_TxArray txOut
  ∧ Forall (λ b, txOutNeedsBatchSplit b = false) blocks
  ∧ ∃ rest, map txo_Height blocks = txo_Height txOut :: rest
    ∧ StronglySorted Z.lt (txo_Height txOut :: rest) ∧ Forall (free_height s) rest.
Proof.
  intros H0 H1 Hr. unfold splitMixedPendingBatch in Hr.
  assert (Hsame : txOutNeedsBatchSplit txOut = false → (Ok [txOut], s) = (Ok blocks, s') →
    s' = s ∧ concat (map txo_TxArray blocks) ≡ₚ txo_TxArray txOut
    ∧ Forall (λ b, txOutNeedsBatchSplit b = false) blocks
    ∧ ∃ rest, map txo_Height blocks = txo_Height txOut :: rest
      ∧ StronglySorted Z.lt (txo_Height txOut :: rest) ∧ Forall (free_height s) rest).
  { intros Hu [= <- <-]. cbn. rewrite app_nil_r. repeat (split; [by repeat constructor|]).
    exists []. by repeat constructor. }
  destruct (vault_order (txo_TxArray txOut)) as [|first others] eqn:Hv.
  { apply Hsame; [by apply no_group_unsplit|done]. }
  destruct (_ && _) eqn:E.
  { apply andb_true_iff in E as [E1%Nat.eqb_eq E2%Nat.eqb_eq].
    apply length_zero_iff_nil in E1, E2. subst others.
    apply Hsame; [by apply (one_group_unsplit txOut first)|done]. }
  clear E Hsame. apply bind_Ok in Hr as (rest & s1 & Hr & Hm). go_inv.
  pose proof (vault_order_length (txo_TxArray txOut)) as Hl. rewrite Hv in Hl. cbn [length] in Hl.
  rewrite i64_small in Hr by u64_lia.
  apply place_blocks_spec in Hr as (-> & Hmap & Hs & Hall);
    [|lia|rewrite length_app, !length_map; lia
     |intros f Hf h; apply elem_of_app in Hf as [Hf|Hf];
      apply list_elem_of_fmap in Hf as (k & -> & _); done].
  destruct (split_head_spec ctx txOut (vault_group (txo_TxArray txOut) first)) as [Ha Hh].
  rewrite map_app, !map_map in Hmap. cbn [map]. rewrite Ha, Hh, Hmap.
  split; [done|]. split; [by apply split_items|]. split.
  - constructor; [by apply (group_unsplit _ (txo_TxArray txOut) first)|].
    apply Forall_forall. intros b Hb. apply (list_elem_of_fmap_2 txo_TxArray) in Hb.
    change (fmap txo_TxArray rest) with (map txo_TxArray rest) in Hb. rewrite Hmap in Hb.
    apply elem_of_app in Hb as [Hb|Hb]; apply list_elem_of_fmap in Hb as (k & Hb & _).
    + by apply (group_unsplit _ (txo_TxArray txOut) k).
    + unfold txOutNeedsBatchSplit. rewrite Hb. by destruct (negb _).
  - eexists. split; [done|]. rewrite Forall_map. split.
    + constructor; [done|]. rewrite Forall_map. eapply Forall_impl; [exact Hall|].
      intros b [? _]. cbn. lia.
    + eapply Forall_impl; [exact Hall|]. by intros b [_ ?].
Qed.
End Split.
(** *** The order of a vault's batches *)

(** What [txOutEarlierVaultBatchPending] looks at in the other block. *)
Definition same_queue_view (b b' : TxOut) : Prop :=
  txo_Height b' = txo_Height b ∧ txo_TxArray b' = txo_TxArray b
  ∧ txo_Epoch b' = txo_Epoch b
  ∧ pending_status (txo_Status b') = pending_status (txo_Status b).

Section Order.
Context `{Ext}.
Implicit Types b : TxOut.

Lemma view_refl b : same_queue_view b b.
Proof. done. Qed.
Lemma view_trans b1 b2 b3 : same_queue_view b1 b2 → same_queue_view b2 b3 → same_queue_view b1 b3.
Proof. intros (?&?&?&?) (?&?&?&?). repeat split; congruence. Qed.

Lemma view_blocks txOut vault b b' : same_queue_view b b' →
  blocks_batch txOut vault b' = blocks_batch txOut vault b.
Proof.
  intros (Hh & Ha & _ & Hs). unfold blocks_batch, txOutHasPendingItems, txOutBatchVault.
  by rewrite Hh, Ha, Hs.
Qed.
Lemma view_earlier b b' all : same_queue_view b b' →
  txOutEarlierVaultBatchPending b' all = txOutEarlierVaultBatchPending b all.
Proof.
  intros (Hh & Ha & _ & Hs). unfold txOutEarlierVaultBatchPending, txOutBatchVault, blocks_batch.
  by rewrite Ha, Hh.
Qed.
Lemma view_earlier_all b all all' : Forall2 same_queue_view all all' →
  txOutEarlierVaultBatchPending b all' = txOutEarlierVaultBatchPending b all.
Proof.
  intros Hv. unfold txOutEarlierVaultBatchPending. destruct (txOutBatchVault b) as [v|]; [|done].
  induction Hv as [|x x' l l' Hx _ IH]; cbn; [done|]. by rewrite IH, (view_blocks _ _ _ _ Hx).
Qed.

Lemma promote_view ctx sp all b : same_queue_view b (promote ctx sp all b).
Proof.
  unfold promote. destruct (_ && _) eqn:E; [|done].
  repeat split. repeat apply andb_true_iff in E as [E _]. apply str_eq_true in E. by rewrite E.
Qed.
Lemma expire_view ctx sp rp b : same_queue_view b (expire_attempt ctx sp rp b).
Proof.
  unfold expire_attempt. destruct (_ && _) eqn:E; [|done].
  repeat split. repeat apply andb_true_iff in E as [E _]. apply str_eq_true in E. by rewrite E.
Qed.
Lemma resume_view ctx b : same_queue_view b (resume ctx b).
Proof.
  unfold resume. destruct (_ && _) eqn:E; [|done].
  repeat split. repeat apply andb_true_iff in E as [E _]. apply str_eq_true in E. by rewrite E.
Qed.
Lemma assign_view b s b' s' : assign_leader b s = (Ok b', s') → same_queue_view b b'.
Proof. unfold assign_leader. destruct (_ && _); intros; go_inv; done. Qed.

Lemma advance_view ctx sp rp all b s b' s' :
  advance_block ctx sp rp all b s = (Ok b', s') → same_queue_view b b'.
Proof.
  unfold advance_block. intros Hr%assign_view.
  eapply view_trans; [apply (promote_view ctx sp all)|].
  eapply view_trans; [apply (expire_view ctx sp rp)|].
  eapply view_trans; [apply (resume_view ctx)|exact Hr].
Qed.

(** Only [promote] takes a block out of its waiting state. *)
Lemma advance_waits ctx sp rp all b s b' s' :
  advance_block ctx sp rp all b s = (Ok b', s') →
  txo_Status b = TxOutStatusPendingBatch → txo_Status b' ≠ TxOutStatusPendingBatch →
  txo_Height b ≤ BlockHeight ctx ∧ txOutBatchSourcesReady b = true
  ∧ txOutEarlierVaultBatchPending b all = false.
Proof.
  intros Hr Hs Hs'. unfold advance_block, promote in Hr. rewrite Hs in Hr.
  rewrite (proj2 (str_eq_true _ _) eq_refl) in Hr. cbn [andb] in Hr.
  destruct (_ && negb _) eqn:E.
  - repeat rewrite andb_true_iff in E. destruct E as [[E1 E2] E3].
    by apply Z.leb_le in E1; apply negb_true_iff in E3.
  - unfold expire_attempt in Hr. rewrite Hs in Hr. cbn [str_eq andb] in Hr.
    change (str_eq TxOutStatusPendingBatch TxOutStatusPendingSign) with false in Hr.
    unfold resume in Hr. cbn [andb] in Hr. rewrite Hs in Hr.
    change (str_eq TxOutStatusPendingBatch TxOutStatusPendingRetry) with false in Hr.
    unfold assign_leader in Hr. cbn [andb] in Hr. rewrite Hs in Hr.
    change (str_eq TxOutStatusPendingBatch TxOutStatusPendingSign) with false in Hr.
    cbn [andb] in Hr. by go_inv.
Qed.

Lemma advance_all_spec ctx sp rp todo : ∀ done s out s',
  advance_all ctx sp rp done todo s = (Ok out, s') →
  ∃ out', out = (done ++ out')%list ∧ Forall2 same_queue_view todo out'
    ∧ ∀ i b b', todo !! i = Some b → out' !! i = Some b' →
        txo_Status b = TxOutStatusPendingBatch → txo_Status b' ≠ TxOutStatusPendingBatch →
        txo_Height b ≤ BlockHeight ctx ∧ txOutBatchSourcesReady b = true
        ∧ txOutEarlierVaultBatchPending b' out = false.
Proof.
  induction todo as [|b todo IH]; intros don s out s' Hr; cbn [advance_all] in Hr.
  - go_inv. exists []. rewrite app_nil_r. split; [done|]. split; [constructor|]. by intros [].
  - apply bind_Ok in Hr as (b1 & s1 & Hb & Hr).
    pose proof (advance_view _ _ _ _ _ _ _ _ Hb) as Hv.
    apply IH in Hr as (out' & -> & Hvs & Hw).
    exists (b1 :: out'). rewrite <- app_assoc in Hw |- *. split; [done|]. split; [by constructor|].
    intros [|i] x x' Hx Hx' Hs Hs'; cbn in Hx, Hx'; [|by eapply Hw].
    injection Hx as <-. injection Hx' as <-.
    apply (advance_waits _ _ _ _ _ _ _ _ Hb) in Hs' as (Hh & Hrd & He); [|done].
    split; [done|]. split; [done|].
    rewrite (view_earlier _ _ _ Hv), <- He. cbn [app].
    apply view_earlier_all. apply Forall2_app; [|by constructor].
    apply Forall2_same_length_lookup_2; [done|]. intros. simplify_eq. apply view_refl.
Qed.

(** C27. The batches of a vault are signed strictly in the order of their
    heights.  One pass over the queue leaves the items, the height and the
    epoch of every block as they are, and a batch that leaves its waiting state
    is due, has the inputs of all its items, and follows no unfinished batch of
    its vault: not one of the queue before the pass, nor one after it. *)
Theorem batches_signed_in_order ctx sp rp blocks s out s' :
  advance_all ctx sp rp [] blocks s = (Ok out, s') →
  Forall2 same_queue_view blocks out
  ∧ ∀ i b b', blocks !! i = Some b → out !! i = Some b' →
      txo_Status b = TxOutStatusPendingBatch → txo_Status b' ≠ TxOutStatusPendingBatch →
      txo_Height b ≤ BlockHeight ctx ∧ txOutBatchSourcesReady b = true
      ∧ txOutEarlierVaultBatchPending b blocks = false
      ∧ txOutEarlierVaultBatchPending b' out = false.
Proof.
  intros (out' & -> & Hv & Hw)%advance_all_spec. cbn [app] in *. split; [done|].
  intros i b b' Hb Hb' Hs Hs'. destruct (Hw i b b' Hb Hb' Hs Hs') as (Hh & Hr & He).
  split; [done|]. split; [done|]. split; [|done].
  rewrite <- (view_earlier_all _ _ _ Hv), <- (view_earlier b b'); [done|].
  by apply (Forall2_lookup_lr _ _ _ i _ _ Hv).
Qed.
End Order.
(** *** The retry cycle *)

Section Retry.
Context `{Ext}.

(** The height at which the current attempt of a block has run out. *)
Definition attempt_deadline (signingPeriod : Z) (b : TxOut) : Z :=
  txo_Height b +i (i64 (txo_SigningAttempt b +u 1) *i signingPeriod).

Lemma promote_other ctx sp all b :
  str_eq (txo_Status b) TxOutStatusPendingBatch = false → promote ctx sp all b = b.
Proof. intros Hs. unfold promote. by rewrite Hs. Qed.
Lemma expire_other ctx sp rp b :
  str_eq (txo_Status b) TxOutStatusPendingSign = false → expire_attempt ctx sp rp b = b.
Proof. intros Hs. unfold expire_attempt. by rewrite Hs. Qed.
Lemma resume_other ctx b :
  str_eq (txo_Status b) TxOutStatusPendingRetry = false → resume ctx b = b.
Proof. intros Hs. unfold resume. by rewrite Hs. Qed.
Lemma assign_other b :
  str_eq (txo_Status b) TxOutStatusPendingSign = false → assign_leader b = mret b.
Proof. intros Hs. unfold assign_leader. by rewrite Hs. Qed.

Lemma status_eqb s : str_eq s s = true.
Proof. by apply str_eq_true. Qed.

(** C29. The life of a batch that is being signed.  Before its attempt has run
    out it stays with that attempt and gets the attempt's leader; at the
    deadline it loses its leader and waits for the retry period; while it waits
    nothing changes, and once the period is over it is signed again under the
    leader of the next attempt.  The items are never touched. *)
Theorem signing_retry_cycle ctx sp rp all b s :
  0 < sp → 0 < rp → BlockHeight ctx + rp < two63 → 0 ≤ BlockHeight ctx →
  txOutHasPendingItems b = true →
  (txo_Status b = TxOutStatusPendingSign → BlockHeight ctx < attempt_deadline sp b →
   advance_block ctx sp rp all b s
   = (leader ← selectSigningLeader b (txo_SigningAttempt b);
      mret (b <| txo_SigningLeader := leader |>)) s)
  ∧ (txo_Status b = TxOutStatusPendingSign → attempt_deadline sp b ≤ BlockHeight ctx →
     advance_block ctx sp rp all b s
     = (Ok (b <| txo_Status := TxOutStatusPendingRetry |>
              <| txo_RetryUntilHeight := BlockHeight ctx + rp |>
              <| txo_SigningLeader := "" |>), s))
  ∧ (txo_Status b = TxOutStatusPendingRetry → BlockHeight ctx < txo_RetryUntilHeight b →
     advance_block ctx sp rp all b s = (Ok b, s))
  ∧ (txo_Status b = TxOutStatusPendingRetry → txo_RetryUntilHeight b ≤ BlockHeight ctx →
     advance_block ctx sp rp all b s
     = (leader ← selectSigningLeader b (txo_SigningAttempt b +u 1);
        mret (b <| txo_Status := TxOutStatusPendingSign |>
                <| txo_SigningAttempt := txo_SigningAttempt b +u 1 |>
                <| txo_RetryUntilHeight := 0 |>
                <| txo_SigningLeader := leader |>)) s).
Proof.
  intros Hsp Hrp Hover Hpos Hpend. unfold advance_block, attempt_deadline.
  split; [|split; [|split]]; intros Hs Hd.
  - rewrite (promote_other _ _ _ b) by by rewrite Hs.
    unfold expire_attempt. rewrite (proj2 (Z.leb_gt _ _) Hd), andb_false_r.
    rewrite (resume_other _ b) by by rewrite Hs.
    unfold assign_leader. by rewrite Hs, status_eqb, Hpend.
  - rewrite (promote_other _ _ _ b) by by rewrite Hs.
    unfold expire_attempt. rewrite (proj2 (Z.leb_le _ _) Hd), (proj2 (Z.ltb_lt _ _) Hsp).
    rewrite Hs, status_eqb, Hpend. cbn [andb].
    rewrite i64_small by u64_lia. unfold resume. rec_simpl.
    rewrite status_eqb, (proj2 (Z.leb_gt (BlockHeight ctx + rp) _)) by lia. cbn [andb].
    by rewrite assign_other.
  - rewrite (promote_other _ _ _ b), (expire_other _ _ _ b) by by rewrite Hs.
    unfold resume. rewrite (proj2 (Z.leb_gt _ _) Hd), andb_false_r.
    by rewrite assign_other by by rewrite Hs.
  - rewrite (promote_other _ _ _ b), (expire_other _ _ _ b) by by rewrite Hs.
    unfold resume. rewrite (proj2 (Z.leb_le _ _) Hd), Hs, status_eqb. cbn [andb].
    unfold assign_leader. rec_simpl. rewrite status_eqb.
    change (txOutHasPendingItems (set_field _ _ _)) with (txOutHasPendingItems b).
    rewrite Hpend. cbn [andb].
    by change (selectSigningLeader (set_field _ _ _)) with (selectSigningLeader b).
Qed.

(** *** The rotation of the leaders *)

Lemma leader_offset_nonneg b : 0 ≤ leader_offset b.
Proof.
  unfold leader_offset.
  assert (G : ∀ l acc, 0 ≤ acc → Forall (λ b, 0 ≤ b < 256) l →
            0 ≤ foldl (λ a b, 256 * a + b) acc l).
  { induction l as [|x l IH]; intros acc Ha Hl; [done|]. inversion_clear Hl.
    cbn [foldl]. apply IH; [lia|done]. }
  apply G; [lia|]. apply Forall_take, Sha256.sum_bytes_range.
Qed.

(** The members the leaders of a vault are drawn from, in the order of the keys. *)
Definition leaders (active : list NodeAccount) (vaultPubKey : string) : list string :=
  insert_sort str_lt (leader_members active vaultPubKey).

(** Every member of the vault's signer set leads: among any [n] consecutive
    attempts of a block, [n] being the number of active members, each of them
    whose key is valid is selected, as long as the sum of the block's offset
    and the attempt stays below 2^64. *)
Theorem leaders_rotate b item rest active attempt leader s :
  txo_TxArray b = item :: rest → ListActiveNodes s = (Ok active, s) →
  0 ≤ attempt →
  leader_offset b + attempt + Z.of_nat (length (leaders active (to_VaultPubKey item))) ≤ two64 →
  leader ∈ leader_members active (to_VaultPubKey item) → PubKey.NewPubKey leader = Ok leader →
  ∃ later, attempt ≤ later < attempt + Z.of_nat (length (leaders active (to_VaultPubKey item)))
    ∧ selectSigningLeader b later s = (Ok leader, s).
Proof.
  intros Hb Hact Ha Hover Hin Hvalid.
  assert (Hin' : leader ∈ leaders active (to_VaultPubKey item))
    by (unfold leaders; by rewrite insert_sort_perm).
  set (members := leaders active (to_VaultPubKey item)) in *.
  apply list_elem_of_lookup in Hin' as [i Hi].
  pose proof (lookup_lt_Some _ _ _ Hi) as Hlt. set (n := Z.of_nat (length members)) in *.
  pose proof (leader_offset_nonneg b) as Hoff.
  assert (Hn : 0 < n) by lia.
  exists (attempt + (Z.of_nat i - (leader_offset b + attempt)) mod n).
  pose proof (Z.mod_pos_bound (Z.of_nat i - (leader_offset b + attempt)) n Hn) as Hm.
  split; [lia|].
  unfold selectSigningLeader. rewrite Hb, (bind_run _ _ _ _ _ Hact).
  fold (leaders active (to_VaultPubKey item)). fold members. cbv zeta. fold n.
  rewrite u64_small by (unfold is_u64; lia).
  rewrite Z.add_assoc, Zplus_mod_idemp_r.
  replace (_ + _) with (Z.of_nat i) by lia.
  rewrite Z.mod_small, Nat2Z.id by lia. rewrite (nth_lookup_Some _ _ _ _ Hi), Hvalid.
  by destruct members.
Qed.
End Retry.
(** *** Choosing the vaults of an outbound *)

Section Discover.
Context `{Ext}.
Context (fee : Z) (maxGas : Coin).
Hypothesis fee_nonneg : 0 ≤ fee.

Notation amount o := (c_Amount (to_Coin o)).
Notation offer toi v := (vault_offer fee maxGas toi v).

Lemma offer_nonneg toi v : 0 ≤ offer toi v.
Proof.
  unfold vault_offer. cbv zeta. destruct (negb _); [done|].
  destruct (_ <=? fee) eqn:E; [done|]. apply Z.leb_gt in E. destruct (negb _); [done|].
  destruct (Asset_Equals _ _); [|lia]. rewrite VaultFacts.SafeSub_max. lia.
Qed.
Lemma offer_part toi w a v : offer (with_amount (of_vault toi w) a) v = offer toi v.
Proof. reflexivity. Qed.

(** The output of a vault is the outbound with the vault's keys and an amount. *)
Definition output_of (toi : TxOutItem) (v : Vault) (o : TxOutItem) : Prop :=
  o = with_amount (of_vault toi v) (amount o).
Definition within_offer (toi : TxOutItem) (vaults : list Vault) (o : TxOutItem) : Prop :=
  ∃ v, v ∈ vaults ∧ output_of toi v o ∧ 0 ≤ amount o ≤ offer toi v.

Lemma within_offer_further toi w a v vaults o :
  within_offer (with_amount (of_vault toi w) a) vaults o → within_offer toi (v :: vaults) o.
Proof.
  intros (v' & Hin & Ho & Ha). exists v'. rewrite offer_part in Ha.
  split; [by right|]. split; [|done]. exact Ho.
Qed.

Lemma take_from_spec vaults : ∀ toi outputs toi',
  0 ≤ amount toi → take_from fee maxGas toi vaults = (outputs, toi') →
  sum_by (λ o, amount o) outputs + amount toi' = amount toi ∧ 0 ≤ amount toi'
  ∧ Forall (within_offer toi vaults) outputs
  ∧ (amount toi ≤ sum_by (λ v, offer toi v) vaults → amount toi' = 0)
  ∧ (outputs = [] → toi' = toi).
Proof.
  induction vaults as [|v vaults IH]; intros toi outputs toi' H0 Ht; cbn [take_from] in Ht.
  - injection Ht as <- <-. rewrite !sum_by_nil.
    split; [lia|]. split; [done|]. split; [constructor|]. split; [lia|done].
  - pose proof (offer_nonneg toi v) as Hoff. rewrite sum_by_cons. cbv zeta in Ht.
    destruct (_ =? 0) eqn:E0.
    { apply Z.eqb_eq in E0. apply IH in Ht as (Hs & Hn & Hf & Hc & He); [|done].
      split; [done|]. split; [done|]. split; [|split; [intros; apply Hc; lia|done]].
      eapply Forall_impl; [exact Hf|]. intros o (v' & Hin & ?). exists v'. split; [by right|done]. }
    change (amount (of_vault toi v)) with (amount toi) in Ht.
    destruct (_ <=? _) eqn:E1.
    + injection Ht as <- <-. rewrite sum_by_cons, sum_by_nil.
      split; [cbn; lia|]. split; [done|]. split; [|done].
      apply Forall_singleton. exists v. split; [by left|]. split; [|cbn; lia].
      unfold output_of, with_amount, of_vault. cbn. by destruct toi as [? ? ? []].
    + rewrite !VaultFacts.SafeSub_max in Ht. apply Z.leb_gt in E1.
      rewrite !Z.max_r in Ht by lia.
      destruct (take_from _ _ _ vaults) as [outs t] eqn:Hr. injection Ht as <- <-.
      apply IH in Hr as (Hs & Hn & Hf & Hc & He); [|cbn; lia].
      cbn in Hs, Hn, Hf, Hc. rewrite sum_by_cons.
      split; [cbn; lia|]. split; [done|]. split; [|split; [|done]].
      * constructor; [|eapply Forall_impl; [exact Hf|]; intros o; apply within_offer_further].
        exists v. split; [by left|]. split; [done|cbn; lia].
      * intros Hcov. apply Hc. change (λ v0, offer _ v0) with (λ v0, offer toi v0). lia.
Qed.

Lemma sum_by_insert {A} (f : A → Z) l i x y :
  l !! i = Some y → sum_by f (<[i := x]> l) = sum_by f l - f y + f x.
Proof.
  revert i. induction l as [|z l IH]; intros [|i] Hi; [done..| |]; cbn in Hi.
  - injection Hi as ->. change (<[0%nat := x]> (y :: l)) with (x :: l). rewrite !sum_by_cons. lia.
  - change (<[Datatypes.S i := x]> (z :: l)) with (z :: <[i := x]> l).
    rewrite !sum_by_cons, (IH i Hi). lia.
Qed.

Lemma smallest_index_lt outputs : outputs ≠ [] → (smallest_index outputs < length outputs)%nat.
Proof.
  intros Hne. unfold smallest_index.
  assert (G : ∀ l best, (best.1 < length outputs)%nat → Forall (λ i, i < length outputs)%nat l →
            ((foldl (smaller outputs) best l).1 < length outputs)%nat).
  { induction l as [|i l IH]; intros best Hb Hl; [done|]. inversion_clear Hl.
    cbn [foldl]. apply IH; [|done]. unfold smaller. by destruct (_ <? _). }
  apply G; [destruct outputs; cbn; [done|lia]|].
  apply Forall_forall. intros i Hi%elem_of_seq. lia.
Qed.

Lemma add_remainder_spec outputs remainder outputs' :
  outputs ≠ [] → add_remainder outputs remainder = Ok outputs' →
  sum_by (λ o, amount o) outputs' = sum_by (λ o, amount o) outputs + remainder
  ∧ ∀ toi, Forall (λ o, ∃ v, output_of toi v o) outputs →
           Forall (λ o, ∃ v, output_of toi v o) outputs'.
Proof.
  intros Hne Hr. unfold add_remainder in Hr. cbv zeta in Hr. go_inv.
  match goal with Hu : uint_add _ _ = Ok ?x |- _ =>
    unfold uint_add in Hu; destruct (_ <? two256); [|done]; injection Hu as <- end.
  destruct (lookup_lt_is_Some_2 outputs _ (smallest_index_lt outputs Hne)) as [o Ho].
  rewrite (nth_lookup_Some _ _ _ _ Ho). split.
  - rewrite (sum_by_insert _ _ _ _ _ Ho). cbn. lia.
  - intros toi Hf. apply Forall_insert; [done|].
    destruct (Forall_lookup_1 _ _ _ _ Hf Ho) as [v Hv]. exists v.
    unfold output_of in *. by rewrite Hv.
Qed.

Lemma fallback_reads ctx toi vaults s v s' :
  selectFallbackVault ctx toi maxGas vaults s = (Ok v, s') → s' = s.
Proof.
  intros Hr. apply (keeps_run (λ s, s) _ _ _ _) in Hr; [done|].
  unfold selectFallbackVault, fallback_step. keeps_tac.
  intros s0. by rewrite (get_vault_reads _ _ _ _ _ (surjective_pairing _)).
Qed.

Lemma usable_vaults_in toi vaults v : v ∈ usable_vaults toi maxGas vaults → v ∈ vaults.
Proof.
  unfold usable_vaults. destruct (_ <? _)%nat; [|done]. rewrite insert_sort_perm.
  intros Hin%list_elem_of_In. apply filter_In in Hin as [Hin _]. by apply list_elem_of_In.
Qed.

(** C28. What the vaults are asked to pay is what was requested.  Whatever is
    returned, the amounts of the outputs and the remainder add up to the
    outbound, a remainder is only left when there is no output at all, and the
    outputs differ from the outbound only in the vault and the amount.  Where
    the vaults can cover it together, nothing remains and every output is
    within what its vault holds less the gas (and above the fee). *)
Theorem discover_conserves ctx toi vaults s : 0 ≤ amount toi →
  (∀ outputs remaining s',
     DiscoverOutbounds ctx fee maxGas toi vaults s = (Ok (outputs, remaining), s') →
     s' = s ∧ sum_by (λ o, amount o) outputs + remaining = amount toi
     ∧ (remaining ≠ 0 → outputs = [])
     ∧ Forall (λ o, ∃ v, output_of toi v o) outputs)
  ∧ (amount toi ≤ sum_by (λ v, offer toi v) (usable_vaults toi maxGas vaults) →
     ∃ outputs, DiscoverOutbounds ctx fee maxGas toi vaults s = (Ok (outputs, 0), s)
       ∧ Forall (within_offer toi vaults) outputs).
Proof.
  intros H0. unfold DiscoverOutbounds.
  destruct (take_from _ _ _ _) as [outs t] eqn:Ht.
  apply take_from_spec in Ht as (Hs & Hn & Hf & Hc & He); [|done].
  assert (Hout : Forall (λ o, ∃ v, output_of toi v o) outs).
  { eapply Forall_impl; [exact Hf|]. intros o (v & _ & Ho & _). by exists v. }
  destruct (amount t =? 0) eqn:E0.
  - apply Z.eqb_eq in E0. split.
    + intros outputs remaining s' Hr. go_inv. simplify_eq. by split; [|split; [lia|]].
    + intros _. exists outs. split; [done|].
      eapply Forall_impl; [exact Hf|]. intros o (v & Hin & Ho). exists v. split; [|done].
      by apply usable_vaults_in in Hin.
  - apply Z.eqb_neq in E0. split; [|intros; exfalso; auto].
    intros outputs remaining s' Hr. destruct outs as [|o outs].
    + rewrite (He eq_refl) in *. apply bind_Ok in Hr as (v & s1 & Hv & Hr).
      apply fallback_reads in Hv as ->. destruct (negb _); go_inv; simplify_eq.
      * split; [done|]. rewrite sum_by_cons, sum_by_nil. split; [cbn; lia|]. split; [done|].
        apply Forall_singleton. exists v. unfold output_of, with_amount, of_vault. cbn.
        by destruct toi as [? ? ? []].
      * split; [done|]. by split; [rewrite sum_by_nil; lia|].
    + go_inv. simplify_eq. match goal with Ha : add_remainder _ _ = Ok _ |- _ => apply add_remainder_spec in Ha as [Ha1 Ha2]; [|done] end.
      split; [done|]. split; [rewrite Ha1; lia|]. split; [done|]. by apply Ha2.
Qed.
End Discover.

(** ** Concrete queues *)

Import ToyExt.
#[local] Existing Instance toy_ext.

(** A payment of a vault, and an item that may not share its transaction. *)
Definition toy_payment (vault hash : string) : TxOutItem :=
  TxOutItem_zero <| to_Chain := BTCChain |> <| to_ToAddress := "user" |>
    <| to_VaultPubKey := vault |> <| to_Coin := NewCoin BTCAsset 700 |> <| to_InHash := hash |>
    <| to_SourceInputs := [mkTxOutInput "U" 0 900 0] |>.
Definition toy_sweep : TxOutItem :=
  (toy_payment "v1" "S") <| to_VaultPathIndex := 5 |>.
Definition toy_block (height : Z) (items : list TxOutItem) : TxOut :=
  (NewTxOut height) <| txo_Status := TxOutStatusPendingBatch |> <| txo_TxArray := items |>.
Definition mixed_block : TxOut :=
  toy_block 20 [toy_payment "v1" "A"; toy_sweep; toy_payment "v2" "B"; toy_payment "v1" "C"].

Example mixed_block_split :
  ∃ blocks s, splitMixedPendingBatch (mkCtx 30) mixed_block KVStore_empty = (Ok blocks, s)
    ∧ map (λ b, (txo_Height b, txo_Status b, map to_InHash (txo_TxArray b))) blocks
      = [(20, TxOutStatusPendingBatch, ["A"; "C"]); (21, TxOutStatusPendingBatch, ["B"]);
         (22, TxOutStatusPendingSign, ["S"])].
Proof. eexists _, _. split; [vm_compute; reflexivity|reflexivity]. Qed.

Lemma split_conserves_witness :
  ∃ blocks, concat (map txo_TxArray blocks) ≡ₚ txo_TxArray mixed_block
    ∧ Forall (λ b, txOutNeedsBatchSplit b = false) blocks.
Proof.
  set (run := splitMixedPendingBatch (mkCtx 30) mixed_block KVStore_empty).
  assert (Hrun : ∃ blocks, run.1 = Ok blocks) by (vm_compute; by eexists).
  destruct Hrun as [blocks Hrun]. exists blocks.
  destruct (split_conserves (mkCtx 30) mixed_block blocks KVStore_empty run.2)
    as (_ & Hp & Hu & _); [vm_compute; discriminate|vm_compute; reflexivity|exact (run_ok _ _ _ Hrun)|].
  split; [exact Hp|exact Hu].
Defined.

(** Two batches of one vault, both due: the second waits for the first. *)
Definition toy_queue : list TxOut :=
  [toy_block 21 [toy_payment "v1" "B"]; toy_block 20 [toy_payment "v1" "A"]].

Lemma batches_signed_in_order_witness :
  ∃ out, advance_all (mkCtx 30) 40 5 [] toy_queue KVStore_empty = (Ok out, KVStore_empty)
    ∧ map txo_Status out = [TxOutStatusPendingBatch; TxOutStatusPendingSign]
    ∧ Forall2 same_queue_view toy_queue out.
Proof.
  set (run := advance_all (mkCtx 30) 40 5 [] toy_queue KVStore_empty).
  assert (Hrun : ∃ out, run = (Ok out, KVStore_empty)
    ∧ map txo_Status out = [TxOutStatusPendingBatch; TxOutStatusPendingSign])
    by (vm_compute; by eexists).
  destruct Hrun as (out & Hrun & Hs). exists out. split; [exact Hrun|]. split; [exact Hs|].
  exact (proj1 (batches_signed_in_order (mkCtx 30) 40 5 toy_queue KVStore_empty out
    KVStore_empty Hrun)).
Defined.

Definition expired_block : TxOut :=
  (toy_block 20 [toy_payment "v1" "A"]) <| txo_Status := TxOutStatusPendingSign |>.
Lemma signing_retry_cycle_witness :
  advance_block (mkCtx 30) 10 5 [] expired_block KVStore_empty
  = (Ok (expired_block <| txo_Status := TxOutStatusPendingRetry |>
           <| txo_RetryUntilHeight := 35 |> <| txo_SigningLeader := "" |>), KVStore_empty).
Proof.
  apply (signing_retry_cycle (mkCtx 30) 10 5 [] expired_block KVStore_empty);
    vm_compute; [reflexivity..|discriminate|reflexivity|reflexivity|discriminate].
Defined.

Definition toy_signer (key : string) : NodeAccount :=
  NodeAccount_zero <| na_NodeAddress := key |> <| na_Status := NodeActive |>
    <| na_Type := TypeNode |> <| na_SignerMembership := ["v1"] |>
    <| na_PubKeySet := mkPubKeySet key "" |>.
Definition signer_store : KVStore :=
  KVStore_empty <| kv_node_account := {[ "p" := toy_signer "p"; "q" := toy_signer "q" ]} |>.

Lemma leaders_rotate_witness :
  ∃ later, 0 ≤ later < 2
    ∧ selectSigningLeader expired_block later signer_store = (Ok "q", signer_store).
Proof.
  apply (leaders_rotate expired_block (toy_payment "v1" "A") [] [toy_signer "p"; toy_signer "q"]
    0 "q" signer_store); vm_compute; [reflexivity|reflexivity|discriminate|discriminate| |reflexivity].
  by repeat constructor.
Defined.

(** Two vaults share an outbound neither could pay alone. *)
Definition toy_vault (key : string) (amount : Z) : Vault :=
  Vault_zero <| va_PubKey := key |> <| va_Coins := [NewCoin BTCAsset amount] |>.
Definition large_outbound : TxOutItem :=
  TxOutItem_zero <| to_Chain := BTCChain |> <| to_ToAddress := "user" |>
    <| to_Coin := NewCoin BTCAsset 1500 |>.
Definition toy_gas : Coin := NewCoin BTCAsset 100.

Lemma discover_conserves_witness :
  ∃ outputs, DiscoverOutbounds (mkCtx 9) 10 toy_gas large_outbound
      [toy_vault "v1" 900; toy_vault "v2" 1200] KVStore_empty = (Ok (outputs, 0), KVStore_empty)
    ∧ Forall (within_offer 10 toy_gas large_outbound
        [toy_vault "v1" 900; toy_vault "v2" 1200]) outputs.
Proof.
  assert (Hfee : 0 ≤ 10) by lia.
  assert (Ha : 0 ≤ c_Amount (to_Coin large_outbound)) by (vm_compute; discriminate).
  apply (discover_conserves 10 toy_gas Hfee (mkCtx 9) large_outbound
    [toy_vault "v1" 900; toy_vault "v2" 1200] KVStore_empty Ha).
  vm_compute. discriminate.
Defined.
