(* ===== verification/Notes.v ===== *)
(** * Shielded notes (x/thornado/shielder_flow.go, keeper/v1/keeper_shielder.go)

Parsing and flooring of note commitments, their insertion into the
denomination trees, and the two sweeps that repair the stores of an earlier
layout.  The text of a note is JSON; its decoder is a parameter.  The Merkle
engine is the interface [MerkleEngine] of Merkle.v. *)

From S2P Require Import Prelude GoStrings Config Common Types Keeper Merkle.

Record shielderNoteCommitment := mkNote {
  nc_DenominationSats : Z;
  nc_Commitment : string
}.
#[export] Instance note_eta : Eta shielderNoteCommitment := fun r =>
  mkNote (nc_DenominationSats r) (nc_Commitment r).

(** [json.Unmarshal] into a note commitment. *)
Class NoteJson := json_note : string → option shielderNoteCommitment.

Section Parse.
Context `{NoteJson}.

Definition parse_note (n : nat) (depositAmountSats : Z) (allowProtocolCommitments : bool)
    (item : string) : res shielderNoteCommitment :=
  let item := TrimSpace item in
  if is_empty item then Err "empty shielder commitment"
  else if HasPrefix item "{" then
    match json_note item with
    | None => Err "invalid shielder commitment"
    | Some note =>
        let note := note <| nc_Commitment := TrimSpace (nc_Commitment note) |> in
        if nc_DenominationSats note =? 0 then Err "missing shielder commitment denomination"
        else if is_empty (nc_Commitment note) && negb allowProtocolCommitments
        then Err "missing shielder commitment"
        else Ok note
    end
  else if negb (n =? 1)%nat then Err "shield commitments require denomination_sats"
  else Ok (mkNote depositAmountSats item).

Definition parseShielderNoteCommitments (raw : list string) (depositAmountSats : Z)
    (allowProtocolCommitments : bool) : res (list shielderNoteCommitment) :=
  rfold (λ result item,
    note ← parse_note (length raw) depositAmountSats allowProtocolCommitments item;
    Ok (result ++ [note])%list) [] raw.
End Parse.

Definition shielderNoteCommitmentTotal (notes : list shielderNoteCommitment) : Z :=
  foldl (λ total note, total +u nc_DenominationSats note) 0 notes.

(** The pass over the notes: kept notes, their total, and the total below the
minimum, both sums in 64 bits. *)
Definition floor_step (minNote : Z) (acc : list shielderNoteCommitment * Z * Z)
    (note : shielderNoteCommitment) : list shielderNoteCommitment * Z * Z :=
  let '(filtered, noteTotal, feeRemainder) := acc in
  if nc_DenominationSats note <? minNote
  then (filtered, noteTotal, feeRemainder +u nc_DenominationSats note)
  else ((filtered ++ [note])%list, noteTotal +u nc_DenominationSats note, feeRemainder).

Definition note_floor (minNote : Z) (notes : list shielderNoteCommitment) (amountSats : Z)
    (allowSpendableRemainder : bool) : res (list shielderNoteCommitment * Z) :=
  if minNote =? 0 then Ok (notes, 0)
  else
    let '(filtered, noteTotal, feeRemainder) := foldl (floor_step minNote) ([], 0, 0) notes in
    match filtered with
    | [] => Err "shielder shield has no notes above minimum"
    | _ =>
        if amountSats <? noteTotal
        then Err "shielder commitment denominations exceed amount"
        else if amountSats <? noteTotal +u feeRemainder
        then Err "shielder commitment denominations exceed amount"
        else if allowSpendableRemainder then Ok (filtered, feeRemainder)
        else
          let unallocated := amountSats -u noteTotal -u feeRemainder in
          if minNote <=? unallocated
          then Err "shielder commitment denominations leave spendable remainder"
          else Ok (filtered, feeRemainder +u unallocated)
    end.

Definition minNoteSats : KM Z :=
  v ← GetConfigInt64 Shielder_NoteAmountMinSats; mret (u64 v).

Definition applyShielderNoteFloor (notes : list shielderNoteCommitment) (amountSats : Z)
    (allowSpendableRemainder : bool) : KM (list shielderNoteCommitment * Z) :=
  minNote ← minNoteSats;
  lift (note_floor minNote notes amountSats allowSpendableRemainder).

Definition shielderDustRemainder (amountSats : Z) : KM Z :=
  minNote ← minNoteSats;
  mret (if (minNote =? 0) || (amountSats =? 0) || (minNote <=? amountSats) then 0
        else amountSats).

(** ** Insertion into the trees *)

(** The working state of one batch: commitments seen, the evolving tree of each
touched denomination, and the order in which denominations were touched. *)
Record Batch := mkBatch {
  b_seen : gset string;
  b_states : gmap Z StoredShielderTreeState;
  b_touched : list Z
}.
#[export] Instance Batch_eta : Eta Batch := fun r =>
  mkBatch (b_seen r) (b_states r) (b_touched r).
Definition Batch_empty : Batch := mkBatch ∅ ∅ [].

Definition loadShielderTreeState (b : Batch) (denominationSats : Z)
    : KM (StoredShielderTreeState * Batch) :=
  match b_states b !! denominationSats with
  | Some state => mret (state, b)
  | None =>
      found ← GetShielderTreeState denominationSats;
      let loaded := from_option
        (StoredShielderTreeState_zero <| ts_DenominationSats := denominationSats |>) found in
      mret (loaded, b <| b_states := <[denominationSats := loaded]> (b_states b) |>
                      <| b_touched := (b_touched b ++ [denominationSats])%list |>)
  end.

Definition persistShielderTreeStates (b : Batch) : KM unit :=
  mfor (λ denomination,
    let state := from_option StoredShielderTreeState_zero (b_states b !! denomination) in
    _ ← SetShielderTreeState state;
    SetShielderMerkleRoot denomination (ts_Root state)) (b_touched b).

Section Insert.
Context {E : MerkleEngine} (ctx : Ctx).

(** Appends a checked note to its denomination's tree: commitment, leaf and
note record are written, the tree state stays in the batch.  [also] is the
write a caller makes between the leaf and the note record. *)
Definition append_note (also : KM unit) (b : Batch) (note : shielderNoteCommitment) : KM Batch :=
  let b := b <| b_seen := {[nc_Commitment note]} ∪ b_seen b |> in
  '(state, b) ← loadShielderTreeState b (nc_DenominationSats note);
  let index := ts_NextIndex state in
  '(root, filled) ← lift (append_merkle_leaf (ts_FilledSubtrees state) index (nc_Commitment note));
  _ ← SetShielderCommitment (nc_Commitment note);
  _ ← SetShielderDenominationLeaf (nc_DenominationSats note) index (nc_Commitment note);
  _ ← also;
  _ ← SetShielderNoteRecord
        (StoredShielderNoteRecord_zero
           <| sn_Commitment := nc_Commitment note |>
           <| sn_DenominationSats := nc_DenominationSats note |>
           <| sn_CreatedHeight := BlockHeight ctx |>
           <| sn_LeafIndex := index |>);
  let state := state <| ts_NextIndex := index +u 1 |>
    <| ts_FilledSubtrees := filled |> <| ts_Root := root |> in
  mret (b <| b_states := <[nc_DenominationSats note := state]> (b_states b) |>).

Definition insert_note (b : Batch) (note : shielderNoteCommitment) : KM Batch :=
  let note := note <| nc_Commitment := TrimSpace (nc_Commitment note) |> in
  _ ← fail_if (nc_DenominationSats note =? 0) "missing shielder commitment denomination";
  _ ← fail_if (is_empty (nc_Commitment note)) "empty shielder commitment";
  _ ← fail_if (bool_decide (nc_Commitment note ∈ b_seen b)) "duplicate shielder commitment";
  exists_ ← ShielderCommitmentExists (nc_Commitment note);
  _ ← fail_if exists_ "shielder commitment already exists";
  append_note (mret tt) b note.

Definition insertShielderCommitments (notes : list shielderNoteCommitment) : KM unit :=
  b ← mfold insert_note Batch_empty notes;
  persistShielderTreeStates b.

(** [replayShielderDenominationRoots]: the root after every append. *)
Definition replay_root (leaves : gmap Z string) (acc : gset string * list string * string)
    (index : Z) : res (gset string * list string * string) :=
  let '(roots, filled, _) := acc in
  match leaves !! index with
  | None => Err "denomination is missing leaf index"
  | Some leaf =>
      '(root, filled) ← append_merkle_leaf filled index leaf;
      Ok ({[TrimSpace root]} ∪ roots, filled, root)
  end.

Definition leaf_map (s : KVStore) (denominationSats : Z) : gmap Z string :=
  list_to_map (map (λ kv, (kv.1, TrimSpace kv.2))
    (denomination_leaves (kv_shielder_denom_commitment s) denominationSats)).

Definition replayShielderDenominationRoots (s : KVStore) (state : StoredShielderTreeState)
    : res (gset string) :=
  let leaves := leaf_map s (ts_DenominationSats state) in
  if negb (Z.of_nat (size leaves) =? ts_NextIndex state)
  then Err "indexed leaves, tree state expects"
  else
    '(roots, _, root) ← rfold (replay_root leaves) (∅, [], "") (seqZ 0 (ts_NextIndex state));
    if (0 <? ts_NextIndex state) && negb (str_eq (TrimSpace root) (TrimSpace (ts_Root state)))
    then Err "replay root does not match tree state root"
    else Ok roots.
End Insert.

(** ** Sweeps *)

(** The note records of a denomination that its leaf does not corroborate. *)
Definition orphan_note (leaves : gmap Z string) (denominationSats : Z)
    (record : StoredShielderNoteRecord) : bool :=
  (sn_DenominationSats record =? denominationSats)
  && negb (EqualFold (from_option "" (leaves !! sn_LeafIndex record))
             (TrimSpace (sn_Commitment record))).

Definition SweepOrphanShielderNoteRecords (denominationSats : Z) : KM nat :=
  _ ← fail_if (denominationSats =? 0) "missing shielder denomination";
  leaves ← gets (λ s, leaf_map s denominationSats);
  orphanKeys ← gets (λ s, (List.filter (λ kv, orphan_note leaves denominationSats kv.2)
                            (sorted_items (kv_shielder_note_pubkey s))).*1);
  _ ← mfor (λ key, modify (set_field kv_shielder_note_pubkey (delete key))) orphanKeys;
  mret (length orphanKeys).

Section Sweep.
Context {E : MerkleEngine}.

(** The roots of every tree, by denomination, and their union. *)
Definition live_step (s : KVStore) (acc : gmap Z (gset string) * gset string)
    (state : StoredShielderTreeState) : res (gmap Z (gset string) * gset string) :=
  let '(byDenom, all) := acc in
  roots ← replayShielderDenominationRoots s state;
  Ok (<[ts_DenominationSats state := roots]> byDenom, roots ∪ all).

Definition live_roots (s : KVStore) : res (gmap Z (gset string) * gset string) :=
  rfold (live_step s) (∅, ∅) (map snd (insert_sort (λ x y, x.1 <? y.1) (map_to_list (kv_shielder_tree_state s)))).

Definition dead_root (byDenom : gmap Z (gset string)) (r : Z * string) : bool :=
  negb (bool_decide (TrimSpace r.2 ∈ from_option ∅ (byDenom !! r.1))).

(** The redeem of a nullifier record, when it proved against a root outside
the live set. *)
Definition dead_spend (s : KVStore) (liveRoots : gset string)
    (record : StoredShielderNullifierRecord) : bool :=
  let withdrawalID := TrimSpace (nr_WithdrawalID record) in
  let withdrawal := from_option ShielderRedeem_zero
    (kv_shielder_withdrawal s !! ToUpper withdrawalID) in
  let merkleRoot := TrimSpace (sr_MerkleRoot withdrawal) in
  negb (is_empty withdrawalID) && negb (is_empty merkleRoot)
  && negb (bool_decide (merkleRoot ∈ liveRoots)).

(** Removes a dead nullifier, its redeem and the index of its outbound. *)
Definition delete_spend (s : KVStore) (kv : string * StoredShielderNullifierRecord) : KM unit :=
  let withdrawalID := TrimSpace (nr_WithdrawalID kv.2) in
  let outHash := TrimSpace (sr_OutHash (from_option ShielderRedeem_zero
    (kv_shielder_withdrawal s !! ToUpper withdrawalID))) in
  _ ← modify (set_field kv_shielder_nullifier (delete kv.1));
  _ ← del kv_shielder_withdrawal withdrawalID;
  if is_empty outHash then mret tt else del kv_shielder_withdrawal_outhash outHash.

Definition SweepOldRegimeShielderSpends : KM (nat * nat) :=
  s ← gets (λ s, s);
  '(byDenom, liveRoots) ← lift (live_roots s);
  let deadRoots := List.filter (dead_root byDenom) (elements (kv_shielder_merkle_root s)) in
  let deadSpends := List.filter (λ kv, dead_spend s liveRoots kv.2)
    (sorted_items (kv_shielder_nullifier s)) in
  _ ← mfor (λ r, modify (set_field kv_shielder_merkle_root (λ X, X ∖ {[r]}))) deadRoots;
  _ ← mfor (delete_spend s) deadSpends;
  mret (length deadRoots, length deadSpends).
End Sweep.

Definition PurgeShielderPoolState : KM unit :=
  modify (λ s, s <| kv_shielder_commitment := ∅ |> <| kv_shielder_note_pubkey := ∅ |>
    <| kv_shielder_denom_commitment := ∅ |> <| kv_shielder_tree_state := ∅ |>
    <| kv_shielder_merkle_root := ∅ |> <| kv_shielder_nullifier := ∅ |>).

#[export] Hint Unfold minNoteSats applyShielderNoteFloor shielderDustRemainder
  loadShielderTreeState persistShielderTreeStates append_note insert_note
  insertShielderCommitments : flow.

(** ** Lemmas: flooring *)

Definition sum_notes (notes : list shielderNoteCommitment) : Z :=
  foldr (λ n acc, nc_DenominationSats n + acc) 0 notes.

Definition kept (minNote : Z) (notes : list shielderNoteCommitment) :=
  List.filter (λ n, negb (nc_DenominationSats n <? minNote)) notes.
Definition dropped (minNote : Z) (notes : list shielderNoteCommitment) :=
  List.filter (λ n, nc_DenominationSats n <? minNote) notes.

Lemma sum_split minNote notes :
  sum_notes notes = sum_notes (kept minNote notes) + sum_notes (dropped minNote notes).
Proof.
  unfold kept, dropped. induction notes as [|n notes IH]; [done|].
  cbn [List.filter]. destruct (nc_DenominationSats n <? minNote); cbn [negb];
    unfold sum_notes in *; cbn [foldr]; rewrite IH; lia.
Qed.

Lemma total_fold notes a :
  foldl (λ total note, total +u nc_DenominationSats note) (u64 a) notes
  = u64 (a + sum_notes notes).
Proof.
  revert a. induction notes as [|n notes IH]; intros a; simpl.
  - by rewrite Z.add_0_r.
  - rewrite u64_add_l, IH. f_equal. lia.
Qed.

Lemma total_u64 notes : shielderNoteCommitmentTotal notes = u64 (sum_notes notes).
Proof. apply (total_fold notes 0). Qed.

Lemma floor_fold minNote notes l a b :
  foldl (floor_step minNote) (l, u64 a, u64 b) notes
  = ((l ++ kept minNote notes)%list, u64 (a + sum_notes (kept minNote notes)),
     u64 (b + sum_notes (dropped minNote notes))).
Proof.
  unfold kept, dropped. revert l a b. induction notes as [|n notes IH]; intros l a b; simpl.
  - by rewrite app_nil_r, !Z.add_0_r.
  - destruct (nc_DenominationSats n <? minNote) eqn:E; simpl.
    + by rewrite u64_add_l, IH, Z.add_assoc.
    + by rewrite u64_add_l, IH, <- app_assoc, Z.add_assoc.
Qed.

(** The floor in closed form. *)
Lemma note_floor_eq minNote notes amount :
  minNote ≠ 0 →
  note_floor minNote notes amount false =
    let noteTotal := u64 (sum_notes (kept minNote notes)) in
    let dust := u64 (sum_notes (dropped minNote notes)) in
    match kept minNote notes with
    | [] => Err "shielder shield has no notes above minimum"
    | _ =>
        if amount <? noteTotal then Err "shielder commitment denominations exceed amount"
        else if amount <? noteTotal +u dust
        then Err "shielder commitment denominations exceed amount"
        else
          let unallocated := amount -u noteTotal -u dust in
          if minNote <=? unallocated
          then Err "shielder commitment denominations leave spendable remainder"
          else Ok (kept minNote notes, dust +u unallocated)
    end.
Proof.
  intros Hm. unfold note_floor. apply Z.eqb_neq in Hm as ->.
  pose proof (floor_fold minNote notes [] 0 0) as Hf. change (u64 0) with 0 in Hf.
  rewrite Hf. simpl. by destruct (kept minNote notes).
Qed.

Lemma sum_notes_nonneg notes :
  Forall (λ n, 0 <= nc_DenominationSats n) notes → 0 <= sum_notes notes.
Proof. induction 1; simpl; lia. Qed.

Lemma filter_Forall {A} (P : A → Prop) f (l : list A) : Forall P l → Forall P (List.filter f l).
Proof. induction 1; simpl; [done|]. destruct (f x); [constructor|]; done. Qed.

Lemma floor_conserves minNote notes amount l rem :
  minNote ≠ 0 → 0 <= amount < two64 →
  Forall (λ n, 0 <= nc_DenominationSats n) notes → sum_notes notes < two64 →
  note_floor minNote notes amount false = Ok (l, rem) →
  l = kept minNote notes ∧ l ≠ [] ∧ 0 <= rem
  ∧ sum_notes l + rem = amount
  ∧ rem < minNote + sum_notes (dropped minNote notes).
Proof.
  intros Hm Ha Hpos Hsum. rewrite note_floor_eq by done. cbv zeta.
  pose proof (sum_split minNote notes).
  pose proof (sum_notes_nonneg _ (filter_Forall _ (λ n, negb (nc_DenominationSats n <? minNote)) _ Hpos)) as Hk.
  pose proof (sum_notes_nonneg _ (filter_Forall _ (λ n, nc_DenominationSats n <? minNote) _ Hpos)) as Hd.
  fold (kept minNote notes) in Hk. fold (dropped minNote notes) in Hd.
  rewrite (u64_small (sum_notes (kept _ _))), (u64_small (sum_notes (dropped _ _))) by u64_lia.
  rewrite (u64_small (_ + sum_notes (dropped _ _))) by u64_lia.
  destruct (kept minNote notes) as [|n l0] eqn:Ek; [done|]. rewrite <- Ek in *.
  destruct (amount <? sum_notes (kept minNote notes)) eqn:E1; [done|].
  destruct (amount <? _ + _) eqn:E2; [done|].
  rewrite (u64_small (amount - sum_notes (kept minNote notes))) by u64_lia.
  rewrite (u64_small (amount - sum_notes (kept minNote notes) - _)) by u64_lia.
  destruct (minNote <=? _) eqn:E3; [done|]. intros [= <- <-].
  rewrite u64_small by u64_lia.
  split; [done|]. split; [by rewrite Ek|]. lia.
Qed.

(** ** Lemmas: the trees

[tree_ok d st L]: the tree state [st] of denomination [d] represents the
leaves [L].  [leaf_list s d L]: these are the leaves the store [s] holds. *)

Section Trees.
Context {E : MerkleEngine} `{!MerkleLaws E}.

Record tree_ok (d : Z) (st : StoredShielderTreeState) (L : list string) : Prop := {
  ok_denom : ts_DenominationSats st = d;
  ok_next : ts_NextIndex st = Z.of_nat (length L);
  ok_repr : tree_repr L (ts_FilledSubtrees st);
  ok_root : L ≠ [] → ts_Root st = tree_root L;
  ok_valid : Forall (λ c, leaf_valid c = true) L;
  ok_capacity : Z.of_nat (length L) <= tree_capacity
}.

Definition leaf_list (s : KVStore) (d : Z) (L : list string) : Prop :=
  ∀ i c, kv_shielder_denom_commitment s !! (d, i) = Some c ↔ 0 <= i ∧ L !! Z.to_nat i = Some c.

(** Every leaf is a trimmed, marked commitment with its own note record. *)
Definition leaf_recorded (s : KVStore) : Prop := ∀ d i c,
  kv_shielder_denom_commitment s !! (d, i) = Some c →
  TrimSpace c = c ∧ ToUpper c ∈ kv_shielder_commitment s
  ∧ ∃ r, kv_shielder_note_pubkey s !! ToUpper c = Some r
      ∧ sn_Commitment r = c ∧ sn_DenominationSats r = d ∧ sn_LeafIndex r = i.

(** The tree states [cur], one per denomination, match the leaves. *)
Definition trees_ok (cur : Z → option StoredShielderTreeState) (s : KVStore)
    (Ls : Z → list string) : Prop :=
  leaf_recorded s ∧ ∀ d, leaf_list s d (Ls d) ∧
    match cur d with Some st => tree_ok d st (Ls d) | None => Ls d = [] end.

(** The current root of every tree with leaves is a recorded root. *)
Definition roots_recorded (s : KVStore) : Prop := ∀ d st,
  kv_shielder_tree_state s !! d = Some st → 0 < ts_NextIndex st →
  (d, TrimSpace (ts_Root st)) ∈ kv_shielder_merkle_root s.

(** Every recorded root is the root of a prefix of the leaves. *)
Definition roots_of_prefixes (s : KVStore) (Ls : Z → list string) : Prop := ∀ d r,
  (d, r) ∈ kv_shielder_merkle_root s →
  ∃ L L', Ls d = (L ++ L')%list ∧ L ≠ [] ∧ r = TrimSpace (tree_root L).

(** The invariant of the pool between messages. *)
Definition pool_ok (s : KVStore) (Ls : Z → list string) : Prop :=
  trees_ok (λ d, kv_shielder_tree_state s !! d) s Ls ∧ roots_recorded s
  ∧ roots_of_prefixes s Ls ∧ (∀ d st, kv_shielder_tree_state s !! d = Some st → Ls d ≠ []).

(** The tree states as the batch sees them. *)
Definition batch_view (b : Batch) (s : KVStore) (d : Z) : option StoredShielderTreeState :=
  match b_states b !! d with Some st => Some st | None => kv_shielder_tree_state s !! d end.

Definition add_note (Ls : Z → list string) (note : shielderNoteCommitment) (d : Z)
    : list string :=
  if d =? nc_DenominationSats note then (Ls d ++ [TrimSpace (nc_Commitment note)])%list
  else Ls d.

Definition add_notes (Ls : Z → list string) (notes : list shielderNoteCommitment)
    : Z → list string := foldl add_note Ls notes.

(** The part of the store the pool lives in. *)
Definition same_pool (s s' : KVStore) : Prop :=
  kv_shielder_commitment s' = kv_shielder_commitment s
  ∧ kv_shielder_note_pubkey s' = kv_shielder_note_pubkey s
  ∧ kv_shielder_denom_commitment s' = kv_shielder_denom_commitment s
  ∧ kv_shielder_tree_state s' = kv_shielder_tree_state s
  ∧ kv_shielder_merkle_root s' = kv_shielder_merkle_root s.

Definition frames_pool {A} (m : KM A) : Prop :=
  ∀ s a s', m s = (Ok a, s') → same_pool s s'.

Lemma trees_ok_ext cur cur' s s' Ls :
  (∀ d, cur d = cur' d) →
  kv_shielder_commitment s' = kv_shielder_commitment s →
  kv_shielder_note_pubkey s' = kv_shielder_note_pubkey s →
  kv_shielder_denom_commitment s' = kv_shielder_denom_commitment s →
  trees_ok cur s Ls → trees_ok cur' s' Ls.
Proof.
  intros Hc H1 H2 H3 [HR HT]. split.
  - intros d i c. rewrite H1, H2, H3. apply HR.
  - intros d. destruct (HT d) as [HL HS]. split.
    + intros i c. rewrite H3. apply HL.
    + by rewrite <- Hc.
Qed.

Lemma trees_ok_leaves cur s Ls Ls' :
  (∀ d, Ls d = Ls' d) → trees_ok cur s Ls → trees_ok cur s Ls'.
Proof. intros HL [HR HT]. split; [done|]. intros d. rewrite <- HL. apply HT. Qed.

(** Writing a fresh leaf with its commitment mark and note record. *)
Definition write_leaf (s : KVStore) (note : shielderNoteCommitment) (index height : Z)
    (s' : KVStore) : Prop :=
  let c := nc_Commitment note in
  kv_shielder_commitment s' = {[ToUpper c]} ∪ kv_shielder_commitment s
  ∧ kv_shielder_denom_commitment s'
    = <[(nc_DenominationSats note, index) := c]> (kv_shielder_denom_commitment s)
  ∧ (∃ r, kv_shielder_note_pubkey s' = <[ToUpper c := r]> (kv_shielder_note_pubkey s)
      ∧ sn_Commitment r = c ∧ sn_DenominationSats r = nc_DenominationSats note
      ∧ sn_LeafIndex r = index ∧ sn_CreatedHeight r = height)
  ∧ kv_shielder_tree_state s' = kv_shielder_tree_state s
  ∧ kv_shielder_merkle_root s' = kv_shielder_merkle_root s.

Lemma leaf_list_snoc s s' d L c :
  leaf_list s d L →
  kv_shielder_denom_commitment s'
    = <[(d, Z.of_nat (length L)) := c]> (kv_shielder_denom_commitment s) →
  leaf_list s' d (L ++ [c]).
Proof.
  intros HL Hs i x. rewrite Hs. destruct (decide (i = Z.of_nat (length L))) as [->|Hi].
  - rewrite lookup_insert_eq, Nat2Z.id, lookup_app_r, Nat.sub_diag by lia. simpl.
    split; [intros [= ->]; split; [lia|done]|by intros [_ ?]].
  - rewrite lookup_insert_ne by congruence. rewrite (HL i x). split; intros [H0 Hx].
    + split; [done|]. rewrite lookup_app_l; [done|]. by eapply lookup_lt_Some.
    + split; [done|]. rewrite lookup_app_l in Hx; [done|].
      assert (Z.to_nat i < length (L ++ [c]))%nat by (by eapply lookup_lt_Some).
      rewrite length_app in *. simpl in *. lia.
Qed.

Lemma trees_ok_write cur cur' s s' Ls note index height st st' :
  trees_ok cur s Ls →
  TrimSpace (nc_Commitment note) = nc_Commitment note →
  ToUpper (nc_Commitment note) ∉ kv_shielder_commitment s →
  cur (nc_DenominationSats note) = Some st ∨
    (cur (nc_DenominationSats note) = None ∧ st = StoredShielderTreeState_zero
        <| ts_DenominationSats := nc_DenominationSats note |>) →
  index = ts_NextIndex st →
  write_leaf s note index height s' →
  append_merkle_leaf (ts_FilledSubtrees st) index (nc_Commitment note)
    = Ok (ts_Root st', ts_FilledSubtrees st') →
  ts_DenominationSats st' = ts_DenominationSats st → ts_NextIndex st' = u64 (index + 1) →
  (∀ d, cur' d = if d =? nc_DenominationSats note then Some st' else cur d) →
  trees_ok cur' s' (add_note Ls note).
Proof.
  intros [HR HT] Htrim Hfresh Hst -> (Hc & Hl & (r & Hn & Hr1 & Hr2 & Hr3 & _) & _) Happ Hd Hi Hcur.
  set (d0 := nc_DenominationSats note) in *. set (c := nc_Commitment note) in *.
  assert (Hok : tree_ok d0 st (Ls d0)).
  { destruct (HT d0) as [_ H0]. destruct Hst as [Hst|[Hst ->]]; rewrite Hst in H0; [done|].
    rewrite H0. split; try done; [apply tree_repr_nil|].
    pose proof tree_capacity_nonneg. simpl. lia. }
  pose proof (tree_append_ok _ _ _ _ Happ) as [Hvalid Hcap].
  pose proof tree_capacity_u64 as Hcap64.
  destruct Hok as [Hk1 Hk2 Hk3 Hk4 Hk5 Hk6]. rewrite Hk2 in *.
  destruct (tree_append _ _ _ Hk3 Hvalid Hcap) as (filled & Ha & Hrepr).
  rewrite Happ in Ha. injection Ha as Hroot Hfilled.
  split.
  - intros d i x. rewrite Hl, Hc, Hn.
    destruct (decide ((d0, Z.of_nat (length (Ls d0))) = (d, i))) as [[= <- <-]|Hne].
    + rewrite lookup_insert_eq. intros [= <-]. split; [done|]. split; [set_solver|].
      exists r. by rewrite lookup_insert_eq.
    + rewrite lookup_insert_ne by done. intros Hx.
      destruct (HR _ _ _ Hx) as (Ht & Hin & r0 & Hr0 & ?). split; [done|].
      split; [set_solver|].
      exists r0. rewrite lookup_insert_ne; [done|]. intros Heq. fold c in Hfresh.
      by rewrite Heq in Hfresh.
  - intros d. destruct (HT d) as [HL HS]. rewrite Hcur. unfold add_note. fold d0 c.
    destruct (d =? d0) eqn:E0.
    + apply Z.eqb_eq in E0 as ->. rewrite Htrim. split.
      * by apply (leaf_list_snoc s).
      * split.
        -- congruence.
        -- rewrite Hi, length_app. simpl. rewrite u64_small; [lia|]. split; lia.
        -- by rewrite <- Hfilled in Hrepr.
        -- by intros _.
        -- apply Forall_app. by repeat constructor.
        -- rewrite length_app. simpl. lia.
    + apply Z.eqb_neq in E0. split.
      * intros i x. rewrite Hl, lookup_insert_ne by congruence. apply HL.
      * done.
Qed.

Definition touched_ok (b : Batch) : Prop :=
  ∀ d, d ∈ b_touched b ↔ is_Some (b_states b !! d).

Lemma load_state b d s st b1 s1 :
  loadShielderTreeState b d s = (Ok (st, b1), s1) → touched_ok b →
  s1 = s ∧ touched_ok b1 ∧ b_seen b1 = b_seen b
  ∧ b_states b1 !! d = Some st
  ∧ (∀ d', d' ≠ d → b_states b1 !! d' = b_states b !! d')
  ∧ (batch_view b s d = Some st
     ∨ (batch_view b s d = None
        ∧ st = StoredShielderTreeState_zero <| ts_DenominationSats := d |>)).
Proof.
  unfold loadShielderTreeState, batch_view. intros H HT.
  destruct (b_states b !! d) as [st0|] eqn:Eb.
  - keeper_inv. injection H as -> ->. by eauto 10.
  - keeper_inv. injection H as -> ->. unfold touched_ok in *. rec_simpl. split_and!; try done.
    + intros d'. rewrite elem_of_app, (HT d'), list_elem_of_singleton.
      destruct (decide (d' = d)) as [->|Hne].
      * rewrite lookup_insert_eq. split; [by eauto|by right].
      * rewrite lookup_insert_ne by done. split; [by intros [?|?]|by left].
    + by rewrite lookup_insert_eq.
    + intros d' Hne. by rewrite lookup_insert_ne by done.
    + destruct (kv_shielder_tree_state _ !! d); simpl; auto.
Qed.

Lemma append_note_trees ctx also b note s b' s' Ls :
  frames_pool also → touched_ok b →
  TrimSpace (nc_Commitment note) = nc_Commitment note →
  ToUpper (nc_Commitment note) ∉ kv_shielder_commitment s →
  trees_ok (batch_view b s) s Ls →
  append_note ctx also b note s = (Ok b', s') →
  trees_ok (batch_view b' s') s' (add_note Ls note) ∧ touched_ok b'
  ∧ kv_shielder_tree_state s' = kv_shielder_tree_state s
  ∧ kv_shielder_merkle_root s' = kv_shielder_merkle_root s
  ∧ kv_shielder_commitment s' = {[ToUpper (nc_Commitment note)]} ∪ kv_shielder_commitment s
  ∧ (∀ d, d ≠ nc_DenominationSats note → b_states b' !! d = b_states b !! d).
Proof.
  intros Halso HT Htrim Hfresh Hok Hrun. unfold append_note in Hrun.
  go_step. destruct x as [st b1]. go_step. destruct x as [root filled].
  apply load_state in H as (-> & HT1 & Hseen & Hb1 & Hother & Hst); [|done].
  keeper_inv. pose proof (Halso _ _ _ H2) as (A1 & A2 & A3 & A4 & A5). clear H2.
  rec_simpl_all.
  match goal with |- trees_ok _ ?sf _ ∧ _ => set (s3 := sf) in * end.
  set (st' := st <| ts_NextIndex := ts_NextIndex st +u 1 |>
    <| ts_FilledSubtrees := filled |> <| ts_Root := root |>) in *.
  assert (Hw : write_leaf s note (ts_NextIndex st) (BlockHeight ctx) s3).
  { unfold write_leaf, s3. rec_simpl. rewrite A1, A2, A3, A4, A5, ?Htrim. split_and!; try done. eexists. split; [by unfold StoredShielderNoteRecord_Key; rec_simpl; rewrite Htrim|].
    by rec_simpl. }
  pose proof Hw as (W1 & W2 & W3 & W4 & W5).
  split_and!; try done.
  - apply (trees_ok_write (batch_view b s) _ s s3 Ls note (ts_NextIndex st)
      (BlockHeight ctx) st st' Hok Htrim Hfresh Hst); [done|done|exact H0|done|done|].
    intros d. unfold batch_view. rec_simpl. destruct (d =? nc_DenominationSats note) eqn:Ed.
    + apply Z.eqb_eq in Ed as ->. by rewrite lookup_insert_eq.
    + apply Z.eqb_neq in Ed. rewrite lookup_insert_ne, Hother by done. by rewrite A4.
  - unfold touched_ok. intros d. rec_simpl. rewrite (HT1 d). destruct (decide (d = nc_DenominationSats note)) as [->|Hne].
    + rewrite lookup_insert_eq, Hb1. by split; eauto.
    + by rewrite lookup_insert_ne.
  - intros d Hne. rec_simpl. rewrite lookup_insert_ne by done. by apply Hother.
Qed.

Lemma frames_pool_ret : frames_pool (mret tt).
Proof. intros s a s' H. go_inv. by repeat split. Qed.

Lemma fresh_commitment c s b s' :
  ShielderCommitmentExists c s = (Ok b, s') →
  s' = s ∧ (b = false → ToUpper (TrimSpace c) ∉ kv_shielder_commitment s).
Proof. intros H. keeper_inv. split; [done|]. by intros H%bool_decide_eq_false. Qed.

(** What a batch has done after some of its notes. *)
Definition batch_ok (s0 : KVStore) (Ls : Z → list string) (b : Batch) (s : KVStore) : Prop :=
  trees_ok (batch_view b s) s Ls ∧ touched_ok b
  ∧ kv_shielder_tree_state s = kv_shielder_tree_state s0
  ∧ kv_shielder_merkle_root s = kv_shielder_merkle_root s0
  ∧ kv_shielder_commitment s0 ⊆ kv_shielder_commitment s
  ∧ (∀ d st, b_states b !! d = Some st → Ls d ≠ []).

Lemma batch_ok_start s Ls : pool_ok s Ls → batch_ok s Ls Batch_empty s.
Proof.
  intros (HT & HR & _). split_and!; try done.
  intros d. split; [by intros ?%elem_of_nil|]. unfold Batch_empty. simpl.
  rewrite lookup_empty. by intros [? ?].
Qed.

Lemma insert_note_ok ctx s0 Ls b s note b' s' :
  batch_ok s0 Ls b s → insert_note ctx b note s = (Ok b', s') →
  batch_ok s0 (add_note Ls note) b' s'
  ∧ ToUpper (TrimSpace (nc_Commitment note)) ∉ kv_shielder_commitment s
  ∧ kv_shielder_commitment s'
    = {[ToUpper (TrimSpace (nc_Commitment note))]} ∪ kv_shielder_commitment s.
Proof.
  intros (HT & Htouch & H1 & H2 & H3 & Hne) Hrun. unfold insert_note in Hrun. go_inv.
  apply fresh_commitment in H5 as [-> Hfresh]. rec_simpl_all. rewrite TrimSpace_idem in Hfresh.
  destruct (append_note_trees ctx (mret tt) b
    (note <| nc_Commitment := TrimSpace (nc_Commitment note) |>) s b' s' Ls
    frames_pool_ret Htouch) as
    (A1 & A2 & A3 & A4 & A5 & A6).
  - rec_simpl. apply TrimSpace_idem.
  - rec_simpl. by apply Hfresh.
  - done.
  - exact Hrun.
  - rec_simpl_all. split; [|by auto].
    unfold batch_ok. split_and!; [|done|congruence|congruence|set_solver|].
    2: { intros d st Hst. unfold add_note. destruct (d =? nc_DenominationSats note) eqn:Ed.
      - intros ?%app_eq_nil. naive_solver.
      - apply Z.eqb_neq in Ed. rewrite A6 in Hst by done. by eapply Hne. }
    eapply trees_ok_leaves, A1. intros d. unfold add_note. rec_simpl.
    by rewrite TrimSpace_idem.
Qed.

(** The trimmed, upper-cased commitments of a batch. *)
Definition commitment_keys (notes : list shielderNoteCommitment) : list string :=
  map (λ n, ToUpper (TrimSpace (nc_Commitment n))) notes.

Lemma insert_all_ok ctx s0 notes : ∀ Ls b s b' s',
  batch_ok s0 Ls b s → mfold (insert_note ctx) b notes s = (Ok b', s') →
  batch_ok s0 (add_notes Ls notes) b' s'
  ∧ NoDup (commitment_keys notes)
  ∧ (∀ k, k ∈ commitment_keys notes → k ∉ kv_shielder_commitment s)
  ∧ kv_shielder_commitment s'
    = list_to_set (commitment_keys notes) ∪ kv_shielder_commitment s.
Proof.
  induction notes as [|note notes IH]; intros Ls b s b' s' Hb Hrun.
  - simpl in Hrun. go_inv. split_and!; [done|constructor|by intros k ?%elem_of_nil|set_solver].
  - rewrite mfold_cons in Hrun. go_inv. rename H into H1.
    apply (insert_note_ok _ _ _ _ _ _ _ _ Hb) in H1 as (Hb1 & Hf & Hc).
    apply (IH _ _ _ _ _ Hb1) in Hrun as (Hb2 & Hnd & Hfr & Hc2).
    split_and!; [done|..].
    + constructor; [|done]. intros Hin. apply (Hfr _ Hin). rewrite Hc. by apply elem_of_union_l, elem_of_singleton.
    + intros k [->|Hk]%elem_of_cons; [done|]. intros Hs. apply (Hfr _ Hk). rewrite Hc. by apply elem_of_union_r.
    + rewrite Hc2, Hc, (assoc_L (∪)). simpl. by rewrite (comm_L (∪) (list_to_set _)).
Qed.

Lemma persist_ok b l : ∀ s s',
  (∀ d, d ∈ l → ∃ st, b_states b !! d = Some st ∧ ts_DenominationSats st = d) →
  mfor (λ denomination,
    let state := from_option StoredShielderTreeState_zero (b_states b !! denomination) in
    _ ← SetShielderTreeState state;
    SetShielderMerkleRoot denomination (ts_Root state)) l s = (Ok tt, s') →
  kv_shielder_commitment s' = kv_shielder_commitment s
  ∧ kv_shielder_note_pubkey s' = kv_shielder_note_pubkey s
  ∧ kv_shielder_denom_commitment s' = kv_shielder_denom_commitment s
  ∧ (∀ d, kv_shielder_tree_state s' !! d
       = if bool_decide (d ∈ l) then b_states b !! d else kv_shielder_tree_state s !! d)
  ∧ (∀ d r, (d, r) ∈ kv_shielder_merkle_root s' ↔ (d, r) ∈ kv_shielder_merkle_root s
       ∨ d ∈ l ∧ ∃ st, b_states b !! d = Some st ∧ r = TrimSpace (ts_Root st)).
Proof.
  unfold mfor. induction l as [|d l IH]; intros s s' Hl Hrun.
  - simpl in Hrun. go_inv. split_and!; try done.
    intros d r. split; [by left|]. by intros [?|[?%elem_of_nil _]].
  - rewrite mfold_cons in Hrun. go_inv. cbv zeta in H.
    destruct (Hl d) as (st & Hst & Hd); [left|]. rewrite Hst in H. simpl in H.
    keeper_inv. destruct x. apply IH in Hrun; [|by intros; apply Hl; right].
    destruct Hrun as (A1 & A2 & A3 & A4 & A5). rec_simpl_all. rewrite Hst in A4.
    simpl in A4. do 3 (split; [done|]). split.
    + intros d'. rewrite A4. destruct (decide (d' = ts_DenominationSats st)) as [->|Hne].
      * rewrite (bool_decide_eq_true_2 (ts_DenominationSats st ∈ ts_DenominationSats st :: l)) by left. rewrite Hst.
        destruct (bool_decide (ts_DenominationSats st ∈ l)); [done|]. by rewrite lookup_insert_eq.
      * rewrite lookup_insert_ne by done.
        assert (bool_decide (d' ∈ l) = bool_decide (d' ∈ ts_DenominationSats st :: l)) as ->; [|done].
        apply bool_decide_ext. rewrite elem_of_cons. tauto.
    + intros d' r. rewrite A5, TrimSpace_idem, elem_of_union, elem_of_singleton, elem_of_cons.
      split.
      * intros [[[= -> ->]|?]|[? ?]]; eauto 6.
      * intros [?|[[->|?] (st' & Hs' & ->)]]; eauto 6.
        rewrite Hst in Hs'. injection Hs' as <-. by left; left.
Qed.

Lemma add_notes_extends notes : ∀ Ls d, ∃ L', add_notes Ls notes d = (Ls d ++ L')%list.
Proof.
  induction notes as [|n notes IH]; intros Ls d; [exists []; by rewrite app_nil_r|].
  destruct (IH (add_note Ls n) d) as [L' HL]. unfold add_notes in *. simpl. rewrite HL.
  unfold add_note. destruct (d =? _); [|by eauto]. rewrite <- app_assoc. by eauto.
Qed.

Lemma persist_pool_ok s0 Ls0 Ls b s s' :
  pool_ok s0 Ls0 → (∀ d, ∃ L', Ls d = (Ls0 d ++ L')%list) →
  batch_ok s0 Ls b s → persistShielderTreeStates b s = (Ok tt, s') →
  pool_ok s' Ls ∧ kv_shielder_commitment s' = kv_shielder_commitment s.
Proof.
  intros (_ & HR & HP & HN) Hext ((Hrec & Htree) & Htouch & H1 & H2 & H3 & Hne) Hrun.
  assert (Hst : ∀ d, d ∈ b_touched b → ∃ st, b_states b !! d = Some st
    ∧ tree_ok d st (Ls d)).
  { intros d Hin. apply Htouch in Hin as [st Hs]. exists st. split; [done|].
    destruct (Htree d) as [_ Ht]. unfold batch_view in Ht. by rewrite Hs in Ht. }
  assert (Hview : ∀ d, batch_view b s d
    = if bool_decide (d ∈ b_touched b) then b_states b !! d else kv_shielder_tree_state s !! d).
  { intros d. unfold batch_view. case_bool_decide as Hin.
    - apply Htouch in Hin as [st ->]. done.
    - destruct (b_states b !! d) eqn:E0; [|done]. destruct Hin. apply Htouch. by eexists. }
  unfold persistShielderTreeStates in Hrun.
  apply (persist_ok b) in Hrun as (A1 & A2 & A3 & A4 & A5).
  2: { intros d Hin. destruct (Hst d Hin) as (st & ? & []). by exists st. }
  split; [|done]. split_and!.
  - eapply trees_ok_ext; [| | | |by split]; try done. intros d. by rewrite A4, Hview.
  - intros d st. rewrite A4, A5. case_bool_decide as Hin.
    + right. by eauto.
    + rewrite H1, H2. intros Hs Hpos. left. by apply HR.
  - intros d r. rewrite A5, H2. intros [Hin|(Hin & st & Hs & ->)].
    + destruct (HP _ _ Hin) as (L1 & L2 & HL & ? & ->). destruct (Hext d) as [L3 HL3].
      exists L1, (L2 ++ L3)%list. by rewrite HL3, HL, app_assoc.
    + destruct (Hst d Hin) as (st' & Hs' & Hok). rewrite Hs in Hs'. injection Hs' as <-.
      pose proof (Hne _ _ Hs). exists (Ls d), []. rewrite app_nil_r.
      split_and!; [done|done|]. by rewrite (ok_root _ _ _ Hok).
  - intros d st. rewrite A4. case_bool_decide as Hin; [apply Hne|].
    rewrite H1. intros Hs%HN Hd. destruct (Hext d) as [L' HL']. rewrite Hd in HL'.
    symmetry in HL'. by apply app_eq_nil in HL' as [? _].
Qed.

(** ** Lemmas: reading the leaves back *)

Definition indexed (L : list string) : list (Z * string) := imap (λ i c, (Z.of_nat i, c)) L.

Lemma elem_of_indexed L x : x ∈ indexed L ↔ 0 <= x.1 ∧ L !! Z.to_nat x.1 = Some x.2.
Proof.
  unfold indexed. rewrite list_elem_of_lookup. destruct x as [i c]. simpl. split.
  - intros [n Hn]. apply list_lookup_imap_Some in Hn as (c' & Hc & [= -> ->]).
    rewrite Nat2Z.id. split; [lia|done].
  - intros [H0 Hc]. exists (Z.to_nat i). apply list_lookup_imap_Some.
    exists c. split; [done|]. by rewrite Z2Nat.id.
Qed.

Lemma indexed_NoDup L : NoDup (indexed L).
Proof.
  apply NoDup_fmap_1 with (f := fst). unfold indexed. rewrite fmap_imap.
  apply NoDup_alt. intros i j x.
  rewrite !list_lookup_imap_Some. simpl. intros (? & ? & ->) (? & ? & Hj). lia.
Qed.

Lemma indexed_sorted L : StronglySorted (λ x y : Z * string, x.1 <= y.1) (indexed L).
Proof.
  unfold indexed. enough (∀ k, StronglySorted (λ x y : Z * string, x.1 <= y.1)
    (imap (λ i c, (Z.of_nat (i + k), c)) L)) as H.
  { specialize (H 0%nat). erewrite imap_ext; [exact H|]. intros i x _. simpl. by rewrite Nat.add_0_r. }
  induction L as [|c L IH]; intros k; simpl; constructor.
  - erewrite imap_ext; [exact (IH (S k))|]. intros i x _. simpl. do 2 f_equal. lia.
  - apply Forall_forall. intros y Hy. apply list_elem_of_lookup in Hy as [n Hn].
    apply list_lookup_imap_Some in Hn as (c' & _ & ->). simpl. lia.
Qed.

Lemma indexed_snd L : (indexed L).*2 = L.
Proof.
  unfold indexed. rewrite fmap_imap. transitivity (imap (const (@id string)) L); [done|].
  by rewrite imap_const, list_fmap_id.
Qed.

Lemma denomination_leaves_list s d L :
  leaf_list s d L → denomination_leaves (kv_shielder_denom_commitment s) d = indexed L.
Proof.
  intros HL. unfold denomination_leaves.
  assert (Hin : ∀ x, x ∈ (λ kv : Z * Z * string, (kv.1.2, kv.2)) <$>
      filter (λ kv : Z * Z * string, kv.1.1 = d) (map_to_list (kv_shielder_denom_commitment s))
    ↔ x ∈ indexed L).
  { intros [i c]. rewrite elem_of_indexed, <- (HL i c), list_elem_of_fmap. split.
    - intros ([[d' i'] c'] & [= -> ->] & Hf). apply list_elem_of_filter in Hf as [Hd Hm].
      simpl in Hd. subst d'. by apply elem_of_map_to_list in Hm.
    - intros Hm. exists ((d, i), c). split; [done|]. apply list_elem_of_filter.
      split; [done|]. by apply elem_of_map_to_list. }
  apply (StronglySorted_unique_strong (λ x y : Z * string, x.1 <= y.1)).
  - intros [i1 c1] [i2 c2] H1 H2. rewrite insert_sort_perm, Hin, elem_of_indexed in H1.
    apply elem_of_indexed in H2. simpl in *. intros. assert (i1 = i2) as -> by lia.
    f_equal. destruct H1 as [_ H1], H2 as [_ H2]. congruence.
  - apply insert_sort_Sorted.
    + intros x y z. simpl. lia.
    + intros x y H%Z.ltb_lt. lia.
    + intros x y H%Z.ltb_ge. lia.
  - apply indexed_sorted.
  - rewrite insert_sort_perm. apply NoDup_Permutation; [|apply indexed_NoDup|apply Hin].
    apply NoDup_fmap_2_strong.
    + intros [[d1 i1] c1] [[d2 i2] c2] H1 H2. apply list_elem_of_filter in H1 as [H1 _], H2 as [H2 _].
      simpl in *. by intros [= -> ->]; subst.
    + apply NoDup_filter, NoDup_map_to_list.
Qed.

Lemma commitments_read s d L :
  d ≠ 0 → leaf_list s d L → GetShielderDenominationCommitments d s = (Ok L, s).
Proof.
  intros Hd HL. unfold GetShielderDenominationCommitments.
  apply Z.eqb_neq in Hd as ->.
  transitivity (@Ok (list string)
    (denomination_leaves (kv_shielder_denom_commitment s) d).*2, s); [reflexivity|].
  rewrite (denomination_leaves_list _ _ _ HL). do 2 f_equal. apply indexed_snd.
Qed.

(** ** Lemmas: replaying a tree *)

Lemma leaf_map_lookup s d L i :
  leaf_recorded s → leaf_list s d L →
  leaf_map s d !! i = if 0 <=? i then L !! Z.to_nat i else None.
Proof.
  intros HR HL. unfold leaf_map. rewrite (denomination_leaves_list _ _ _ HL).
  assert (Hm : map (λ kv : Z * string, (kv.1, TrimSpace kv.2)) (indexed L) = indexed L).
  { rewrite <- (list_fmap_id (indexed L)) at 2. apply list_fmap_ext. intros n [j c] Hn.
    apply list_elem_of_lookup_2, elem_of_indexed in Hn. apply HL in Hn.
    apply HR in Hn as [Hn _]. simpl in *. by rewrite Hn. }
  rewrite Hm. apply option_eq. intros c.
  assert (Hnd : NoDup (indexed L).*1).
  { unfold indexed. rewrite fmap_imap. apply NoDup_alt. intros a b x.
    rewrite !list_lookup_imap_Some. simpl. intros (? & ? & ->) (? & ? & Hj). lia. }
  rewrite <- elem_of_list_to_map by done. rewrite elem_of_indexed. simpl.
  destruct (0 <=? i) eqn:E0; [apply Z.leb_le in E0|apply Z.leb_gt in E0]; [tauto|].
  split; [lia|done].
Qed.

Lemma leaf_map_size s d L :
  leaf_recorded s → leaf_list s d L → size (leaf_map s d) = length L.
Proof.
  intros HR HL. unfold leaf_map. rewrite (denomination_leaves_list _ _ _ HL).
  rewrite map_size_list_to_map.
  - rewrite length_fmap. unfold indexed. apply length_imap.
  - rewrite <- list_fmap_compose. simpl. unfold indexed. rewrite fmap_imap.
    apply NoDup_alt. intros a b x.
    rewrite !list_lookup_imap_Some. simpl. intros (? & ? & ->) (? & ? & Hj). lia.
Qed.

Definition prefix_root (L : list string) (r : string) : Prop :=
  ∃ L1 L2, L = (L1 ++ L2)%list ∧ L1 ≠ [] ∧ r = TrimSpace (tree_root L1).

Lemma prefix_root_snoc L c r :
  prefix_root (L ++ [c]) r ↔ prefix_root L r ∨ r = TrimSpace (tree_root (L ++ [c])).
Proof.
  split.
  - intros (L1 & L2 & HL & Hne & ->). destruct L2 as [|x L2 _] using rev_ind.
    + right. by rewrite app_nil_r in HL; subst.
    + left. rewrite app_assoc in HL. apply app_inj_tail in HL as [-> _]. by exists L1, L2.
  - intros [(L1 & L2 & -> & Hne & ->)| ->].
    + exists L1, (L2 ++ [c])%list. by rewrite app_assoc.
    + exists (L ++ [c])%list, []. rewrite app_nil_r. split_and!; [done| |done].
      intros ?%app_eq_nil. naive_solver.
Qed.

Lemma replay_roots_ok (leaves : gmap Z string) L :
  (∀ n c, L !! n = Some c → leaves !! Z.of_nat n = Some c) →
  Forall (λ c, leaf_valid c = true) L → Z.of_nat (length L) <= tree_capacity →
  ∃ roots filled root,
    rfold (replay_root leaves) (∅, [], "") (seqZ 0 (Z.of_nat (length L)))
      = Ok (roots, filled, root)
    ∧ tree_repr L filled ∧ (L ≠ [] → root = tree_root L)
    ∧ (∀ r, r ∈ roots ↔ prefix_root L r).
Proof.
  induction L as [|c L IH] using rev_ind; intros Hl Hv Hc.
  - exists ∅, [], "". split; [done|]. split; [apply tree_repr_nil|]. split; [done|].
    intros r. split; [by intros ?%not_elem_of_empty|].
    intros (L1 & L2 & HL & Hne & _). symmetry in HL. by apply app_eq_nil in HL as [? _].
  - apply Forall_app in Hv as [Hv Hvc]. inversion_clear Hvc as [|? ? Hvc' _].
    rewrite length_app in *. simpl in Hc.
    destruct IH as (roots & filled & root & Hr & Hrep & _ & Hroots); [|done|lia|].
    { intros n x Hn. apply Hl. by apply lookup_app_l_Some. }
    destruct (tree_append L filled c Hrep Hvc') as (filled' & Ha & Hrep'); [lia|].
    exists ({[TrimSpace (tree_root (L ++ [c]))]} ∪ roots), filled', (tree_root (L ++ [c])).
    split.
    { replace (length L + length [c])%nat with (S (length L)) by (simpl; lia).
      rewrite seqZ_S, Z.add_0_l, rfold_app, Hr. simpl.
      rewrite (Hl (length L) c) by (by rewrite lookup_app_r, Nat.sub_diag by lia).
      by rewrite Ha. }
    split; [done|]. split; [done|]. intros r.
    rewrite elem_of_union, elem_of_singleton, Hroots, prefix_root_snoc. tauto.
Qed.

Lemma replay_denomination_ok s Ls d st :
  pool_ok s Ls → kv_shielder_tree_state s !! d = Some st →
  ts_DenominationSats st = d ∧
  ∃ roots, replayShielderDenominationRoots s st = Ok roots
    ∧ ∀ r, r ∈ roots ↔ prefix_root (Ls d) r.
Proof.
  intros ((HR & HT) & _) Hst. destruct (HT d) as [HL Hok]. rewrite Hst in Hok.
  destruct Hok as [Hd Hn Hrep Hroot Hv Hc]. split; [done|].
  unfold replayShielderDenominationRoots. rewrite Hd.
  rewrite (leaf_map_size s d (Ls d)), Hn, Z.eqb_refl by done. simpl.
  destruct (replay_roots_ok (leaf_map s d) (Ls d)) as (roots & filled & root & Hrun & _ & Hr & HP).
  - intros n c Hc'. rewrite (leaf_map_lookup s d (Ls d)) by done.
    rewrite (proj2 (Z.leb_le _ _)) by lia. by rewrite Nat2Z.id.
  - done.
  - done.
  - rewrite Hrun. simpl. exists roots. split; [|done].
    destruct (0 <? _) eqn:E0; [|done]. apply Z.ltb_lt in E0.
    assert (Ls d ≠ []) by (by intros E1; rewrite E1 in E0).
    rewrite Hr, Hroot by done. unfold str_eq. by rewrite bool_decide_eq_true_2.
Qed.

(** ** Lemmas: the sweep of an earlier regime *)

Lemma live_fold s Ls (HP : pool_ok s Ls) l :
  (∀ st, st ∈ l → kv_shielder_tree_state s !! ts_DenominationSats st = Some st) →
  ∀ byDenom all, ∃ byDenom' all',
  rfold (live_step s) (byDenom, all) l = Ok (byDenom' : gmap Z (gset string), all')
  ∧ all ⊆ all'
  ∧ (∀ st r, st ∈ l → prefix_root (Ls (ts_DenominationSats st)) r → r ∈ all')
  ∧ (∀ d roots, byDenom' !! d = Some roots → byDenom !! d = Some roots
       ∨ ∀ r, r ∈ roots ↔ prefix_root (Ls d) r)
  ∧ (∀ st, st ∈ l → is_Some (byDenom' !! ts_DenominationSats st))
  ∧ (∀ d, is_Some (byDenom !! d) → is_Some (byDenom' !! d)).
Proof.
  induction l as [|st l IH]; intros Hl byDenom all.
  - exists byDenom, all. split_and!; try done; [by intros st r ?%elem_of_nil|by auto|
      by intros st ?%elem_of_nil].
  - destruct (replay_denomination_ok s Ls _ st HP (Hl st (list_elem_of_here _ _)))
      as (_ & roots & Hr & Hroots).
    destruct (IH (λ st' H, Hl st' (list_elem_of_further _ _ _ H))
      (<[ts_DenominationSats st := roots]> byDenom) (roots ∪ all))
      as (byDenom' & all' & Hrun & Hsub & H1 & H2 & H3 & H4).
    exists byDenom', all'. split.
    { cbn [rfold live_step]. rewrite Hr. exact Hrun. }
    split; [set_solver|]. split; [|split; [|split]].
    + intros st' r [->|Hin]%elem_of_cons Hp; [|by eapply H1].
      apply Hsub. apply elem_of_union. left. by apply Hroots.
    + intros d rs [Hd|Hd]%H2; [|by right].
      destruct (decide (d = ts_DenominationSats st)) as [->|Hne].
      * rewrite lookup_insert_eq in Hd. injection Hd as <-. by right.
      * rewrite lookup_insert_ne in Hd by done. by left.
    + intros st' [->|Hin]%elem_of_cons; [|by apply H3]. apply H4. by rewrite lookup_insert_eq.
    + intros d Hd. apply H4. destruct (decide (d = ts_DenominationSats st)) as [->|Hne].
      * by rewrite lookup_insert_eq.
      * by rewrite lookup_insert_ne.
Qed.

Lemma live_roots_ok s Ls :
  pool_ok s Ls → ∃ byDenom all, live_roots s = Ok (byDenom, all)
  ∧ ∀ d r, (d, r) ∈ kv_shielder_merkle_root s →
      dead_root byDenom (d, r) = false ∧ r ∈ all.
Proof.
  intros HP. pose proof HP as (Htrees & _ & Hpre & _).
  set (l := map snd (insert_sort (λ x y : Z * StoredShielderTreeState, x.1 <? y.1)
    (map_to_list (kv_shielder_tree_state s)))).
  assert (Hin : ∀ st, st ∈ l ↔ ∃ d, kv_shielder_tree_state s !! d = Some st).
  { intros st. unfold l. rewrite list_elem_of_fmap. split.
    - intros ([d st'] & -> & Hm). rewrite insert_sort_perm in Hm.
      apply elem_of_map_to_list in Hm. by exists d.
    - intros [d Hd]. exists (d, st). split; [done|]. rewrite insert_sort_perm.
      by apply elem_of_map_to_list. }
  destruct (live_fold s Ls HP l) with (byDenom := ∅ : gmap Z (gset string)) (all := ∅ : gset string)
    as (byDenom & all & Hrun & _ & H1 & H2 & H3 & _).
  { intros st [d Hd]%Hin. by destruct (replay_denomination_ok s Ls d st HP Hd) as [-> _]. }
  exists byDenom, all. split; [exact Hrun|]. intros d r Hr.
  destruct (Hpre d r Hr) as (L1 & L2 & HL & Hne & Hr1).
  assert (Hp : prefix_root (Ls d) r) by (by exists L1, L2).
  destruct Htrees as [_ HT]. destruct (HT d) as [_ Hst].
  destruct (kv_shielder_tree_state s !! d) as [st|] eqn:Ed.
  2: { rewrite Hst in HL. symmetry in HL. by apply app_eq_nil in HL as [? _]. }
  pose proof (ok_denom _ _ _ Hst) as Hd.
  assert (Hst_in : st ∈ l) by (apply Hin; by exists d). split.
  - unfold dead_root. simpl. destruct (H3 st Hst_in) as [rs Hrs]. rewrite Hd in Hrs.
    rewrite Hrs. simpl. apply H2 in Hrs as [?|Hrs]; [done|].
    rewrite bool_decide_eq_true_2; [done|]. apply Hrs. rewrite Hr1, TrimSpace_idem. by rewrite <- Hr1.
  - apply (H1 st r); [done|]. by rewrite Hd.
Qed.

Lemma filter_none {A} (f : A → bool) l : (∀ x, x ∈ l → f x = false) → List.filter f l = [].
Proof.
  induction l as [|x l IH]; intros Hf; [done|]. simpl. rewrite (Hf x) by left.
  apply IH. intros y Hy. apply Hf. by right.
Qed.

Lemma delete_spends_run s0 l : ∀ s, ∃ s',
  mfor (delete_spend s0) l s = (Ok tt, s')
  ∧ kv_shielder_merkle_root s' = kv_shielder_merkle_root s
  ∧ ∀ k, k ∉ l.*1 → kv_shielder_nullifier s' !! k = kv_shielder_nullifier s !! k.
Proof.
  unfold mfor. induction l as [|kv l IH]; intros s; [by exists s|].
  assert (Hstep : ∃ s1, delete_spend s0 kv s = (Ok tt, s1)
    ∧ kv_shielder_merkle_root s1 = kv_shielder_merkle_root s
    ∧ ∀ k, k ≠ kv.1 → kv_shielder_nullifier s1 !! k = kv_shielder_nullifier s !! k).
  { unfold delete_spend. cbv zeta. destruct (is_empty _); eexists.
    all: split; [reflexivity|]. all: split; [done|]. all: intros k Hk; rec_simpl.
    all: by rewrite lookup_delete_ne. }
  destruct Hstep as (s1 & Hs1 & Hr1 & Hn1). destruct (IH s1) as (s' & Hs' & Hr' & Hn').
  exists s'. split; [|split].
  - rewrite mfold_cons. apply bind_Ok. exists tt, s1. done.
  - congruence.
  - intros k Hk. rewrite fmap_cons, not_elem_of_cons in Hk. destruct Hk as [Hk1 Hk2].
    by rewrite Hn', Hn1.
Qed.
End Trees.

(** ** A small engine for the concrete examples *)

Module ToyEngine.
Definition toy_capacity : Z := 1024.

Definition toy : MerkleEngine := fun filled index leaf =>
  if (index <? toy_capacity) && negb (is_blank leaf)
  then Ok (itoa (index + 1), (filled ++ [leaf])%list)
  else Err "invalid proof".

#[export] Instance toy_laws : MerkleLaws toy.
Proof.
  refine {| tree_repr := λ L filled, filled = L;
            tree_root := λ L, itoa (Z.of_nat (length L));
            leaf_valid := λ c, negb (is_blank c);
            tree_capacity := toy_capacity |}.
  - done.
  - intros leaves filled leaf -> Hv Hc. exists (leaves ++ [leaf])%list. split; [|done].
    unfold append_merkle_leaf, toy. apply Z.ltb_lt in Hc. rewrite Hc, Hv. simpl.
    rewrite length_app. do 3 f_equal. simpl. lia.
  - intros filled index leaf r. unfold append_merkle_leaf, toy.
    destruct (index <? toy_capacity) eqn:E1; [|done].
    destruct (negb (is_blank leaf)) eqn:E2; [|done]. intros _. split; [done|]. by apply Z.ltb_lt.
  - intros leaves. apply is_blank_itoa. lia.
  - done.
  - done.
Defined.
End ToyEngine.
Import ToyEngine.

Lemma pool_ok_empty {E : MerkleEngine} `{!MerkleLaws E} : pool_ok KVStore_empty (λ _, []).
Proof.
  assert (H1 : ∀ k, kv_shielder_denom_commitment KVStore_empty !! k = None)
    by (intros; apply lookup_empty).
  assert (H2 : ∀ k, kv_shielder_tree_state KVStore_empty !! k = None)
    by (intros; apply lookup_empty).
  split_and!.
  - split; [by intros d i c; rewrite H1|]. intros d. split.
    + intros i c. rewrite H1. split; [done|]. by intros [_ ?].
    + by rewrite H2.
  - intros d st. by rewrite H2.
  - intros d r ?%not_elem_of_empty. done.
  - intros d st. by rewrite H2.
Qed.

Lemma insert_pool_ok {E : MerkleEngine} `{!MerkleLaws E} (ctx : Ctx)
    (s s' : KVStore) (Ls : Z → list string) (notes : list shielderNoteCommitment) :
  pool_ok s Ls → insertShielderCommitments ctx notes s = (Ok tt, s') →
  pool_ok s' (add_notes Ls notes)
  ∧ (∀ d, d ≠ 0 → GetShielderDenominationCommitments d s'
       = (Ok (Ls d ++ map (λ n, TrimSpace (nc_Commitment n))
                (List.filter (λ n, d =? nc_DenominationSats n) notes))%list, s'))
  ∧ NoDup (commitment_keys notes)
  ∧ (∀ k, k ∈ commitment_keys notes → k ∉ kv_shielder_commitment s)
  ∧ kv_shielder_commitment s'
    = list_to_set (commitment_keys notes) ∪ kv_shielder_commitment s.
Proof.
  intros HP Hrun. unfold insertShielderCommitments in Hrun.
  apply bind_Ok in Hrun as (b & s1 & Hfold & Hpersist).
  apply (insert_all_ok ctx s) with (Ls := Ls) in Hfold as (Hb & Hnd & Hfr & Hc);
    [|by apply batch_ok_start].
  destruct (persist_pool_ok s Ls _ b s1 s' HP (add_notes_extends notes Ls) Hb Hpersist)
    as [HP' Hc'].
  split; [done|]. split; [|split_and!; [done|done|congruence]].
  intros d Hd. rewrite (commitments_read s' d (add_notes Ls notes d)); [|done|].
  - do 2 f_equal. clear -notes. revert Ls. induction notes as [|n notes IH]; intros Ls.
    + simpl. by rewrite app_nil_r.
    + unfold add_notes in *. simpl. rewrite IH. unfold add_note at 1.
      destruct (d =? nc_DenominationSats n); [|done]. simpl. by rewrite <- app_assoc.
  - destruct HP' as ((_ & HT) & _). by destruct (HT d).
Qed.

(** ** Properties *)

(** Shielding conserves value when the denominations of the notes sum
below 2^64: if the note floor accepts the notes for an amount, exactly the
notes of at least the minimum are kept, and their denominations plus the
remainder collected as a fee are the amount; the remainder is the dust notes
plus less than one minimum note. *)
Theorem note_floor_conserves (s s' : KVStore) (notes l : list shielderNoteCommitment)
    (amount rem minNote : Z) :
  minNoteSats s = (Ok minNote, s) → minNote ≠ 0 → is_u64 amount →
  Forall (λ n, 0 <= nc_DenominationSats n) notes → sum_notes notes < two64 →
  applyShielderNoteFloor notes amount false s = (Ok (l, rem), s') →
  s' = s ∧ l = kept minNote notes ∧ l ≠ []
  ∧ shielderNoteCommitmentTotal l + rem = amount ∧ sum_notes l + rem = amount
  ∧ sum_notes (dropped minNote notes) <= rem < minNote + sum_notes (dropped minNote notes).
Proof.
  intros Hm H0 Ha Hpos Hsum Hrun. unfold applyShielderNoteFloor in Hrun.
  apply bind_Ok in Hrun as (m & s1 & H1 & Hrun). rewrite Hm in H1. injection H1 as <- <-.
  go_inv. pose proof H as Hf. apply floor_conserves in Hf as (-> & Hne & Hr & Heq & Hlt); try done.
  pose proof (sum_split minNote notes) as Hsp.
  pose proof (sum_notes_nonneg _ (filter_Forall _ (λ n, negb (nc_DenominationSats n <? minNote))
    _ Hpos)) as Hk. fold (kept minNote notes) in Hk.
  pose proof (sum_notes_nonneg _ (filter_Forall _ (λ n, nc_DenominationSats n <? minNote)
    _ Hpos)) as Hd. fold (dropped minNote notes) in Hd.
  rewrite total_u64, u64_small by u64_lia. split_and!; try done.
  rewrite note_floor_eq in H by done. cbv zeta in H.
  rewrite (u64_small (sum_notes (kept _ _))), (u64_small (sum_notes (dropped _ _))) in H by u64_lia.
  rewrite (u64_small (_ + sum_notes (dropped _ _))) in H by u64_lia.
  destruct (kept minNote notes) as [|n l0] eqn:Ek; [done|]. rewrite <- Ek in *.
  destruct (amount <? sum_notes (kept minNote notes)) eqn:E1; [done|].
  destruct (amount <? _ + _) eqn:E2; [done|]. lia.
Qed.

Definition floor_store : KVStore :=
  KVStore_empty <| kv_config := {["SHIELDER_NOTEAMOUNTMINSATS" := 1000]} |>.

Lemma note_floor_conserves_witness :
  let notes := [mkNote 5000 "01"; mkNote 300 "02"] in
  applyShielderNoteFloor notes 6000 false floor_store = (Ok ([mkNote 5000 "01"], 1000), floor_store)
  ∧ shielderNoteCommitmentTotal [mkNote 5000 "01"] + 1000 = 6000.
Proof.
  cbv zeta. split; [vm_compute; reflexivity|].
  destruct (note_floor_conserves floor_store floor_store [mkNote 5000 "01"; mkNote 300 "02"]
    [mkNote 5000 "01"] 6000 1000 1000) as (_ & _ & _ & H & _); [..|exact H].
  - vm_compute. reflexivity.
  - done.
  - by vm_compute.
  - by repeat constructor.
  - by vm_compute.
  - vm_compute. reflexivity.
Defined.

(** The note floor sums denominations in 64 bits, and the sum wraps
around: for every amount [A] of at least nothing and every [X] there are two
notes of at least the minimum, of denominations 2^64 - X and X + A, which the
floor accepts for the amount [A] with no remainder, and whose checked total is
[A], although together they carry 2^64 more than the amount. *)
Theorem note_floor_wraps (minNote A X : Z) (c1 c2 : string) :
  0 < minNote → minNote <= X → X <= two64 - minNote → 0 <= A → X + A < two64 →
  let notes := [mkNote (two64 - X) c1; mkNote (X + A) c2] in
  note_floor minNote notes A false = Ok (notes, 0)
  ∧ shielderNoteCommitmentTotal notes = A
  ∧ sum_notes notes = A + two64.
Proof.
  intros H0 HX HX2 HA HXA. cbv zeta. rewrite total_u64.
  assert (Hsum : sum_notes [mkNote (two64 - X) c1; mkNote (X + A) c2] = A + two64).
  { unfold sum_notes. simpl. lia. }
  assert (Hw : u64 (A + two64) = A).
  { unfold u64. rewrite <- (Z.mul_1_l two64) at 1. rewrite Z.mod_add by done.
    apply Z.mod_small. u64_lia. }
  split; [|by rewrite Hsum].
  rewrite note_floor_eq by lia. cbv zeta.
  assert (Hk : kept minNote [mkNote (two64 - X) c1; mkNote (X + A) c2]
    = [mkNote (two64 - X) c1; mkNote (X + A) c2]).
  { unfold kept. cbn [List.filter nc_DenominationSats].
    destruct (two64 - X <? minNote) eqn:E1; [lia|].
    destruct (X + A <? minNote) eqn:E2; [lia|]. done. }
  assert (Hd : dropped minNote [mkNote (two64 - X) c1; mkNote (X + A) c2] = []).
  { unfold dropped. cbn [List.filter nc_DenominationSats].
    destruct (two64 - X <? minNote) eqn:E1; [lia|].
    destruct (X + A <? minNote) eqn:E2; [lia|]. done. }
  rewrite Hk, Hd, Hsum, Hw. change (u64 (sum_notes [])) with 0.
  rewrite Z.add_0_r, Z.sub_diag, (u64_small A) by u64_lia. rewrite Z.ltb_irrefl.
  destruct (minNote <=? u64 (u64 0 - 0)) eqn:E3; [|done].
  change (u64 (u64 0 - 0)) with 0 in E3. lia.
Qed.

Lemma note_floor_wraps_witness :
  note_floor 1000 [mkNote (two64 - 500000) "01"; mkNote 507000 "02"] 7000 false
    = Ok ([mkNote (two64 - 500000) "01"; mkNote 507000 "02"], 0).
Proof. apply (note_floor_wraps 1000 7000 500000 "01" "02"); unfold two64; lia. Defined.

(** C21. Inserting a batch of commitments keeps the pool consistent, whatever
tree engine meets the interface: every denomination's tree state represents
exactly the stored leaves, its current root is recorded, and every leaf has
its mark and its own note record.  The leaves of a denomination grow by the
batch's commitments of that denomination, trimmed, in order; no commitment of
the batch was known before, and no two of them agree up to case. *)
Theorem insert_commitments_consistent {E : MerkleEngine} `{!MerkleLaws E} (ctx : Ctx)
    (s s' : KVStore) (Ls : Z → list string) (notes : list shielderNoteCommitment) :
  pool_ok s Ls → insertShielderCommitments ctx notes s = (Ok tt, s') →
  pool_ok s' (add_notes Ls notes)
  ∧ (∀ d, d ≠ 0 → GetShielderDenominationCommitments d s'
       = (Ok (Ls d ++ map (λ n, TrimSpace (nc_Commitment n))
                (List.filter (λ n, d =? nc_DenominationSats n) notes))%list, s'))
  ∧ NoDup (commitment_keys notes)
  ∧ (∀ k, k ∈ commitment_keys notes → k ∉ kv_shielder_commitment s)
  ∧ kv_shielder_commitment s'
    = list_to_set (commitment_keys notes) ∪ kv_shielder_commitment s.
Proof. exact (insert_pool_ok ctx s s' Ls notes). Qed.

Lemma insert_commitments_consistent_witness :
  let notes := [mkNote 5 "aa"; mkNote 7 "bb"; mkNote 5 " cc "] in
  ∃ s', insertShielderCommitments (E := ToyEngine.toy) (mkCtx 3) notes KVStore_empty = (Ok tt, s')
  ∧ GetShielderDenominationCommitments 5 s' = (Ok ["aa"; "cc"], s').
Proof.
  cbv zeta. set (notes := [mkNote 5 "aa"; mkNote 7 "bb"; mkNote 5 " cc "]).
  set (run := insertShielderCommitments (E := toy) (mkCtx 3) notes KVStore_empty).
  assert (Hrun : run = (Ok tt, run.2)) by (apply run_ok; vm_compute; reflexivity).
  exists run.2. split; [exact Hrun|].
  destruct (insert_commitments_consistent (E := toy) (mkCtx 3) KVStore_empty run.2
    (λ _, []) notes pool_ok_empty Hrun) as (_ & H & _).
  rewrite (H 5) by done. reflexivity.
Defined.

(** On a pool built by insertions the sweep of old-regime spends succeeds
and deletes no root: each tree replays to its recorded root and every recorded
root is the root of a prefix of its leaves.  A spent nullifier whose redeem
proved against any recorded root stays spent, so the sweep never reopens a
live note for a second spend. *)
Theorem old_regime_sweep_sound {E : MerkleEngine} `{!MerkleLaws E}
    (s : KVStore) (Ls : Z → list string) :
  pool_ok s Ls →
  ∃ n s', SweepOldRegimeShielderSpends s = (Ok (0%nat, n), s')
  ∧ kv_shielder_merkle_root s' = kv_shielder_merkle_root s
  ∧ ∀ k record d withdrawal,
      kv_shielder_nullifier s !! k = Some record →
      kv_shielder_withdrawal s !! ToUpper (TrimSpace (nr_WithdrawalID record)) = Some withdrawal →
      (d, TrimSpace (sr_MerkleRoot withdrawal)) ∈ kv_shielder_merkle_root s →
      kv_shielder_nullifier s' !! k = Some record.
Proof.
  intros HP. destruct (live_roots_ok s Ls HP) as (byDenom & all & Hlive & Hroots).
  set (deadSpends := List.filter (λ kv, dead_spend s all kv.2)
    (sorted_items (kv_shielder_nullifier s))).
  destruct (delete_spends_run s deadSpends s) as (s' & Hrun & Hr & Hn).
  exists (length deadSpends), s'. split; [|split; [done|]].
  - unfold SweepOldRegimeShielderSpends. apply bind_Ok. exists s, s. split; [done|].
    apply bind_Ok. exists (byDenom, all), s. split; [by apply lift_Ok|]. cbv zeta beta iota.
    rewrite filter_none.
    2: { intros [d r] Hin. apply elem_of_elements in Hin. by apply Hroots. }
    apply bind_Ok. exists tt, s. split; [done|]. apply bind_Ok. by exists tt, s'.
  - intros k record d withdrawal Hk Hw Hd. rewrite Hn; [done|]. intros Hin.
    apply list_elem_of_fmap in Hin as ([k' rec'] & -> & Hin).
    apply list_elem_of_In, filter_In in Hin as [Hin Hdead].
    apply list_elem_of_In, elem_of_sorted_items in Hin. simpl in *.
    rewrite Hin in Hk. injection Hk as ->. unfold dead_spend in Hdead. rewrite Hw in Hdead.
    simpl in Hdead. apply andb_prop in Hdead as [_ Hdead].
    destruct (Hroots _ _ Hd) as [_ Ha]. by rewrite bool_decide_eq_true_2 in Hdead.
Qed.

Lemma old_regime_sweep_sound_witness :
  ∃ n s', SweepOldRegimeShielderSpends (E := ToyEngine.toy) KVStore_empty = (Ok (0%nat, n), s').
Proof.
  destruct (old_regime_sweep_sound (E := ToyEngine.toy) KVStore_empty (λ _, []) pool_ok_empty)
    as (n & s' & H & _).
  by exists n, s'.
Defined.
