(* ===== verification/Fees.v ===== *)
(** * Fees (x/thornado/shielder_flow.go)

The withdrawal fee, the global fee pool and its distribution to node slots,
and the settlement of a node's share between its operator and its bonders. *)

From S2P Require Import Prelude GoStrings Config Common Types Keeper Notes.

(** [bits.Mul64] and [bits.Div64]; [Div64] panics when the quotient overflows. *)
Definition Mul64 (x y : Z) : Z * Z := (x * y / two64, x * y mod two64).
Definition Div64 (hi lo y : Z) : res (Z * Z) :=
  if y =? 0 then Panic "integer divide by zero"
  else if y <=? hi then Panic "integer overflow"
  else Ok ((hi * two64 + lo) / y, (hi * two64 + lo) mod y).

Definition withdrawalFeeSatsForBp (amountSats feeBp : Z) : res Z :=
  let '(hi, lo) := Mul64 amountSats feeBp in
  '(q1, r1) ← Div64 0 hi 10000;
  '(q0, _) ← Div64 r1 lo 10000;
  Ok (u64 (u64 (u64 (q1 * 2 ^ 32) * 2 ^ 32) + q0)).

Definition withdrawalFeeBp : KM Z :=
  v ← GetConfigInt64 Withdrawal_FeeBasisPoints; mret (u64 v).

Definition withdrawalFeeSats (amountSats : Z) : KM Z :=
  bp ← withdrawalFeeBp; lift (withdrawalFeeSatsForBp amountSats bp).

(** ** The fee pool *)

Definition distribute (minNote : Z) (pool : FeePool) : res FeePool :=
  if negb (fp_PendingSats pool =? 0) && negb (fp_TotalSlots pool =? 0) then
    if negb (minNote =? 0) && (fp_PendingSats pool <? minNote *u fp_TotalSlots pool)
    then Ok pool
    else
      let increment := fp_PendingSats pool / fp_TotalSlots pool in
      if negb (increment =? 0) then
        let distributed := increment *u fp_TotalSlots pool in
        Ok (pool <| fp_FeePerSlotShare := fp_FeePerSlotShare pool +u increment |>
                 <| fp_PendingSats := fp_PendingSats pool -u distributed |>)
      else Ok pool
  else Ok pool.

Definition setDistributedFeePool (pool : FeePool) : KM unit :=
  minNote ← minNoteSats;
  pool ← lift (distribute minNote pool);
  SetFeePool pool.

Definition addWithdrawalFee (amountSats : Z) : KM unit :=
  if amountSats =? 0 then mret tt
  else
    pool ← GetFeePool;
    setDistributedFeePool
      (pool <| fp_PendingSats := fp_PendingSats pool +u amountSats |>
            <| fp_TotalCollectedSats := fp_TotalCollectedSats pool +u amountSats |>).

Definition distributeFeePool : KM FeePool :=
  pool ← GetFeePool;
  _ ← setDistributedFeePool pool;
  GetFeePool.

(** ** A node's share *)

Definition weightedFeeDebtShare (existingPrincipal existingDebtShare addedPrincipal
    addedDebtShare : Z) : Z :=
  let totalPrincipal := existingPrincipal +u addedPrincipal in
  if totalPrincipal =? 0 then addedDebtShare
  else u64 ((existingPrincipal * existingDebtShare + addedPrincipal * addedDebtShare)
              / totalPrincipal).

Definition feeShareScale : KM Z :=
  v ← GetConfigInt64 Shielder_FeeShareScale;
  mret (if u64 v =? 0 then 1 else u64 v).

Definition settle (ctx : Ctx) (scale : Z) (bond : ShielderNodeBond) (pool : FeePool)
    : ShielderNodeBond :=
  if negb (nb_FeeShareActive bond) || (fp_FeePerSlotShare pool <=? nb_FeeDebtSats bond)
  then bond
  else
    let gross := fp_FeePerSlotShare pool -u nb_FeeDebtSats bond in
    let operatorCut := (gross *u nb_OperatorFeeBasisPoints bond) / 10000 in
    let bonderCut := gross -u operatorCut in
    let bond :=
      if negb (nb_BondSats bond =? 0) && negb (bonderCut =? 0) then
        let scaled := bonderCut * scale + nb_FeePerBondShareRemainder bond in
        bond <| nb_FeePerBondShare := nb_FeePerBondShare bond +u u64 (scaled / nb_BondSats bond) |>
             <| nb_FeePerBondShareRemainder := u64 (scaled mod nb_BondSats bond) |>
      else bond in
    bond <| nb_OperatorFeeAccruedSats := nb_OperatorFeeAccruedSats bond +u operatorCut |>
         <| nb_FeeDebtSats := fp_FeePerSlotShare pool |>
         <| nb_UpdatedHeight := BlockHeight ctx |>.

Definition settleNodeFeeShare (ctx : Ctx) (bond : ShielderNodeBond) (pool : FeePool)
    : KM ShielderNodeBond :=
  scale ← feeShareScale; mret (settle ctx scale bond pool).

Definition claimable (scale : Z) (bond : ShielderNodeBond) (bonder : ShielderNodeBonder) : Z :=
  if (br_PrincipalSats bonder =? 0) || (nb_FeePerBondShare bond <=? br_FeeDebtShare bonder)
  then 0
  else
    let delta := nb_FeePerBondShare bond -u br_FeeDebtShare bonder in
    u64 (br_PrincipalSats bonder * delta / scale).

Definition nodeBonderClaimableSats (bond : ShielderNodeBond) (bonder : ShielderNodeBonder)
    : KM Z :=
  scale ← feeShareScale; mret (claimable scale bond bonder).

Definition nodeBondOperatorAddress `{Ext} (bond : ShielderNodeBond) : res string :=
  PubKey.GetThorAddress (nb_OperatorPubKey bond).

#[export] Hint Unfold withdrawalFeeBp withdrawalFeeSats setDistributedFeePool addWithdrawalFee
  distributeFeePool feeShareScale settleNodeFeeShare nodeBonderClaimableSats : flow.

(** ** Lemmas *)

Definition fee_pool (s : KVStore) : FeePool := from_option FeePool_zero (kv_fee_pool s).

(** What the pool has taken in and not yet allotted, plus what it allotted to
the current slots. *)
Definition pool_value (pool : FeePool) : Z :=
  fp_PendingSats pool + fp_FeePerSlotShare pool * fp_TotalSlots pool.

Definition pool_range (pool : FeePool) : Prop :=
  0 <= fp_PendingSats pool ∧ 0 <= fp_FeePerSlotShare pool ∧ 0 <= fp_TotalSlots pool < two64
  ∧ 0 <= fp_TotalCollectedSats pool.

Lemma div_mul_le x y : 0 <= x → 0 < y → 0 <= x / y * y <= x.
Proof. intros. pose proof (Z.div_pos x y). pose proof (Z.mul_div_le x y). nia. Qed.

Lemma distribute_value minNote pool pool' :
  pool_range pool → pool_value pool < two64 → distribute minNote pool = Ok pool' →
  pool_range pool' ∧ pool_value pool' = pool_value pool
  ∧ fp_TotalSlots pool' = fp_TotalSlots pool
  ∧ fp_TotalCollectedSats pool' = fp_TotalCollectedSats pool
  ∧ fp_TotalClaimedSats pool' = fp_TotalClaimedSats pool
  ∧ fp_FeePerSlotShare pool <= fp_FeePerSlotShare pool'
  ∧ (fp_TotalSlots pool ≠ 0 → fp_PendingSats pool' < fp_TotalSlots pool
      ∨ fp_PendingSats pool' < minNote *u fp_TotalSlots pool).
Proof.
  intros (H1 & H2 & H3 & H4) Hv. unfold distribute, pool_range, pool_value in *.
  destruct (fp_PendingSats pool =? 0) eqn:Ep; cbn [andb negb].
  { intros [= <-]. apply Z.eqb_eq in Ep. split_and!; try lia. }
  destruct (fp_TotalSlots pool =? 0) eqn:Et; cbn [andb negb].
  { intros [= <-]. apply Z.eqb_eq in Et. split_and!; try lia. }
  apply Z.eqb_neq in Ep, Et. destruct (_ && _) eqn:Em.
  { intros [= <-]. apply andb_prop in Em as [_ Em]. split_and!; try lia. }
  pose proof (div_mul_le (fp_PendingSats pool) (fp_TotalSlots pool)) as Hd.
  pose proof (Z.mod_pos_bound (fp_PendingSats pool) (fp_TotalSlots pool)) as Hm.
  pose proof (Z.div_mod (fp_PendingSats pool) (fp_TotalSlots pool)) as Hdm.
  destruct (_ / _ =? 0) eqn:Ei; cbn [negb]; intros [= <-]; rec_simpl.
  { apply Z.eqb_eq in Ei. split_and!; try lia. }
  assert (Hq : 0 <= fp_PendingSats pool / fp_TotalSlots pool) by (apply Z.div_pos; lia).
  assert (Hs : is_u64 (fp_FeePerSlotShare pool + fp_PendingSats pool / fp_TotalSlots pool))
    by (split; [lia|nia]).
  rewrite (u64_small (_ / _ * _)) by (split; nia).
  rewrite (u64_small (_ - _)) by (split; nia).
  rewrite (u64_small _ Hs). split_and!; try nia.
Qed.


(** Long division of a two-word product by a small divisor. *)
Lemma div_two_words p y :
  0 < y → 0 <= p →
  p / y = p / two64 / y * two64 + (p / two64 mod y * two64 + p mod two64) / y.
Proof.
  intros Hy Hp. pose proof (Z.div_mod p two64 ltac:(done)) as E1.
  pose proof (Z.div_mod (p / two64) y ltac:(lia)) as E2.
  rewrite E1 at 1. rewrite E2 at 1.
  rewrite <- Z.div_add_l by lia. f_equal. lia.
Qed.

(** Division of a sum of shares: rounding each share down loses, never gains. *)
Lemma sum_div_le (scale inc : Z) (l : list Z) :
  0 < scale → 0 <= inc → Forall (λ p, 0 <= p) l →
  foldr (λ p acc, p * inc / scale + acc) 0 l * scale <= foldr Z.add 0 l * inc.
Proof.
  intros Hs Hi. induction 1 as [|p l Hp _ IH]; cbn [foldr]; [lia|].
  pose proof (Z.mul_div_le (p * inc) scale Hs). nia.
Qed.

(** What a list of bonders can claim. *)
Definition total_claimable (scale : Z) (bond : ShielderNodeBond) (l : list ShielderNodeBonder) : Z :=
  foldr (λ b acc, claimable scale bond b + acc) 0 l.
Definition total_principal (l : list ShielderNodeBonder) : Z :=
  foldr (λ b acc, br_PrincipalSats b + acc) 0 l.

Lemma claimable_le scale bond b :
  0 < scale → is_u64 (br_PrincipalSats b) → is_u64 (nb_FeePerBondShare bond) →
  0 <= br_FeeDebtShare b →
  0 <= claimable scale bond b
  ∧ claimable scale bond b * scale
    <= br_PrincipalSats b * Z.max 0 (nb_FeePerBondShare bond - br_FeeDebtShare b).
Proof.
  intros Hs Hp Hf Hd. unfold claimable.
  destruct (_ || _) eqn:E; [split; [done|unfold is_u64 in *; nia]|].
  apply orb_false_elim in E as [_ E2]. apply Z.leb_gt in E2.
  rewrite (u64_small (_ - _)) by u64_lia.
  set (x := br_PrincipalSats b * (nb_FeePerBondShare bond - br_FeeDebtShare b)).
  assert (0 <= x) by (unfold x, is_u64 in *; nia).
  pose proof (Z.mod_le (x / scale) two64 (Z.div_pos x scale ltac:(lia) Hs) ltac:(done)) as Hm.
  pose proof (u64_range (x / scale)) as [Hr _]. unfold u64 in *.
  split; [done|]. rewrite Z.max_r by lia. fold x.
  pose proof (Z.mul_div_le x scale Hs). nia.
Qed.

Lemma total_claimable_le scale bond debt l :
  0 < scale → is_u64 (nb_FeePerBondShare bond) → 0 <= debt <= nb_FeePerBondShare bond →
  Forall (λ b, is_u64 (br_PrincipalSats b) ∧ br_FeeDebtShare b = debt) l →
  0 <= total_principal l
  ∧ total_claimable scale bond l * scale
      <= total_principal l * (nb_FeePerBondShare bond - debt).
Proof.
  intros Hs Hf Hd. induction 1 as [|b l [Hp Hb] _ [IH1 IH2]]; cbn; [lia|].
  destruct (claimable_le scale bond b Hs Hp Hf ltac:(lia)) as [_ Hc].
  rewrite Hb, Z.max_r in Hc by lia. fold (total_claimable scale bond l) (total_principal l).
  unfold is_u64 in Hp. split; [lia|]. nia.
Qed.

(** A share that is due, within the machine's range. *)
Record settle_range (scale : Z) (bond : ShielderNodeBond) (pool : FeePool) : Prop := {
  sr_active : nb_FeeShareActive bond = true;
  sr_due : 0 <= nb_FeeDebtSats bond < fp_FeePerSlotShare pool;
  sr_gross : (fp_FeePerSlotShare pool - nb_FeeDebtSats bond) * 10000 < two64;
  sr_bps : 0 <= nb_OperatorFeeBasisPoints bond <= MaxNodeOperatorFeeBasisPoints;
  sr_bond : is_u64 (nb_BondSats bond) ∧ nb_BondSats bond ≠ 0;
  sr_remainder : 0 <= nb_FeePerBondShareRemainder bond < nb_BondSats bond;
  sr_scale : 0 < scale;
  sr_share : 0 <= nb_FeePerBondShare bond;
  sr_share_fits : nb_FeePerBondShare bond
    + (fp_FeePerSlotShare pool - nb_FeeDebtSats bond + 1) * scale < two64;
  sr_accrued : 0 <= nb_OperatorFeeAccruedSats bond;
  sr_accrued_fits : nb_OperatorFeeAccruedSats bond
    + (fp_FeePerSlotShare pool - nb_FeeDebtSats bond) < two64
}.

Lemma settle_exact ctx scale bond pool :
  settle_range scale bond pool →
  let bond' := settle ctx scale bond pool in
  let gross := fp_FeePerSlotShare pool - nb_FeeDebtSats bond in
  let operatorCut := gross * nb_OperatorFeeBasisPoints bond / 10000 in
  0 <= operatorCut <= gross
  ∧ nb_OperatorFeeAccruedSats bond' = nb_OperatorFeeAccruedSats bond + operatorCut
  ∧ nb_FeeDebtSats bond' = fp_FeePerSlotShare pool
  ∧ (nb_FeePerBondShare bond' - nb_FeePerBondShare bond) * nb_BondSats bond
      + nb_FeePerBondShareRemainder bond'
    = (gross - operatorCut) * scale + nb_FeePerBondShareRemainder bond
  ∧ nb_FeePerBondShare bond <= nb_FeePerBondShare bond' ∧ is_u64 (nb_FeePerBondShare bond')
  ∧ 0 <= nb_FeePerBondShareRemainder bond' < nb_BondSats bond.
Proof.
  intros [Ha Hdue Hg Hb [Hbd1 Hbd2] Hrem Hsc Hsh Hfit Hacc Haccfit]. cbv zeta.
  unfold MaxNodeOperatorFeeBasisPoints in Hb. unfold settle. rewrite Ha. cbn [negb orb].
  destruct (fp_FeePerSlotShare pool <=? nb_FeeDebtSats bond) eqn:E0; [lia|].
  rewrite (u64_small (fp_FeePerSlotShare pool - _)) by u64_lia.
  set (gross := fp_FeePerSlotShare pool - nb_FeeDebtSats bond) in *.
  assert (Hmul : 0 <= gross * nb_OperatorFeeBasisPoints bond <= gross * 10000) by nia.
  rewrite (u64_small (gross * _)) by u64_lia.
  set (cut := gross * nb_OperatorFeeBasisPoints bond / 10000).
  assert (Hcut : 0 <= cut <= gross).
  { split; [apply Z.div_pos; lia|]. apply Z.div_le_upper_bound; lia. }
  rewrite (u64_small (gross - cut)) by u64_lia.
  split; [done|]. destruct (nb_BondSats bond =? 0) eqn:E1; [lia|]. cbn [negb andb].
  destruct (gross - cut =? 0) eqn:E2; cbn [negb]; rec_simpl; cbn [negb].
  - apply Z.eqb_eq in E2. rewrite (u64_small (_ + cut)) by u64_lia. rewrite E2.
    unfold is_u64 in *. split_and!; lia.
  - set (scaled := (gross - cut) * scale + nb_FeePerBondShareRemainder bond).
    unfold is_u64 in *.
    pose proof (Z.mod_pos_bound scaled (nb_BondSats bond) ltac:(lia)) as Hm.
    pose proof (Z.div_mod scaled (nb_BondSats bond) ltac:(lia)) as Hdm.
    assert (Hq : 0 <= scaled / nb_BondSats bond < (gross + 1) * scale).
    { split; [apply Z.div_pos; unfold scaled; nia|].
      apply Z.div_lt_upper_bound; [lia|]. unfold scaled. nia. }
    rewrite (u64_small (scaled / _)) by u64_lia.
    rewrite (u64_small (scaled mod _)) by u64_lia.
    rewrite (u64_small (nb_FeePerBondShare bond + _)) by u64_lia.
    rewrite (u64_small (_ + cut)) by u64_lia. split_and!; try lia.
Qed.

Lemma add_fee_pool (s s' : KVStore) (amount minNote : Z) :
  let pool := fee_pool s in
  let pool' := fee_pool s' in
  minNoteSats s = (Ok minNote, s) →
  pool_range pool → 0 <= amount → pool_value pool + amount < two64 →
  fp_TotalCollectedSats pool + amount < two64 →
  addWithdrawalFee amount s = (Ok tt, s') →
  pool_range pool' ∧ pool_value pool' = pool_value pool + amount
  ∧ fp_TotalCollectedSats pool' = fp_TotalCollectedSats pool + amount
  ∧ fp_TotalSlots pool' = fp_TotalSlots pool ∧ fp_TotalClaimedSats pool' = fp_TotalClaimedSats pool
  ∧ fp_FeePerSlotShare pool <= fp_FeePerSlotShare pool'
  ∧ (amount ≠ 0 → fp_TotalSlots pool ≠ 0 →
      fp_PendingSats pool' < fp_TotalSlots pool
      ∨ fp_PendingSats pool' < minNote *u fp_TotalSlots pool).
Proof.
  cbv zeta. intros Hmin (H1 & H2 & H3 & H4) Ha Hv Hc Hrun. unfold addWithdrawalFee in Hrun.
  destruct (amount =? 0) eqn:E0.
  { apply Z.eqb_eq in E0 as ->. go_inv. unfold pool_range. split_and!; try lia. }
  unfold setDistributedFeePool in Hrun. unfold fee_pool in *. keeper_inv.
  rewrite Hmin in H0. injection H0 as <- <-. rename H into H0.
  set (pool := from_option FeePool_zero (kv_fee_pool s)) in *. unfold pool_value in Hv.
  apply distribute_value in H0 as (A1 & A2 & A3 & A4 & A5 & A6 & A7).
  - rec_simpl_all. cbn [from_option].
    assert (Hp : fp_PendingSats pool +u amount = fp_PendingSats pool + amount)
      by (apply u64_small; split; nia).
    unfold pool_value in *. rec_simpl_all. rewrite Hp in A2.
    rewrite (u64_small (fp_TotalCollectedSats pool + amount)) in A4 by u64_lia.
    split_and!; try done; lia.
  - unfold pool_range. rec_simpl. rewrite !u64_small by (split; nia). split_and!; lia.
  - unfold pool_value. rec_simpl. rewrite u64_small by (split; nia). lia.
Qed.

(** ** Properties *)

(** The withdrawal fee is the exact product divided by ten thousand: the
two-word division never panics, the result is amount times basis points over
10000 (modulo 2^64), and for at most 10000 basis points it is at most the
amount. *)
Theorem withdrawal_fee_exact (amount bp : Z) :
  is_u64 amount → is_u64 bp →
  withdrawalFeeSatsForBp amount bp = Ok (u64 (amount * bp / 10000))
  ∧ (bp <= 10000 → withdrawalFeeSatsForBp amount bp = Ok (amount * bp / 10000)
       ∧ 0 <= amount * bp / 10000 <= amount).
Proof.
  unfold is_u64. intros Ha Hb.
  assert (Heq : withdrawalFeeSatsForBp amount bp = Ok (u64 (amount * bp / 10000))).
  { unfold withdrawalFeeSatsForBp, Mul64, Div64. cbv beta iota.
    set (p := amount * bp). change (10000 =? 0) with false. cbv iota.
    change (10000 <=? 0) with false. cbn [mbind res_bind]. rewrite Z.mul_0_l, Z.add_0_l.
    pose proof (Z.mod_pos_bound (p / two64) 10000 ltac:(lia)) as Hm.
    destruct (10000 <=? p / two64 mod 10000) eqn:E0; [lia|]. cbn [mbind res_bind]. f_equal.
    rewrite (div_two_words p 10000) by (unfold p; nia).
    set (q := p / two64 / 10000). rewrite u64_add_l.
    assert (Hq : u64 (u64 (q * 2 ^ 32) * 2 ^ 32) = 0).
    { unfold u64. rewrite Zmult_mod_idemp_l, <- Z.mul_assoc. change (2 ^ 32 * 2 ^ 32) with two64.
      apply Z.mod_mul. done. }
    rewrite <- u64_add_l, Hq. unfold u64. rewrite (Z.add_comm (q * two64)), Z.mod_add by done.
    done. }
  split; [done|]. intros Hbp. rewrite Heq.
  assert (Hr : 0 <= amount * bp / 10000 <= amount).
  { split; [apply Z.div_pos; nia|]. apply Z.div_le_upper_bound; nia. }
  by rewrite u64_small by u64_lia.
Qed.

Lemma withdrawal_fee_exact_witness :
  withdrawalFeeSatsForBp 18446744073709551615 50 = Ok 92233720368547758.
Proof.
  destruct (withdrawal_fee_exact 18446744073709551615 50) as [_ H];
    [u64_lia|u64_lia|]. by destruct (H ltac:(lia)) as [-> _].
Defined.

(** C31. No fee is lost or created in the pool: after a withdrawal fee is added,
pending plus allotted fees grow by exactly the amount, as does the collected
total; slots and claims do not change, the share per slot never falls, and
what stays pending is less than one satoshi per slot or less than the minimum
note per slot. *)
Theorem fee_pool_conserved (s s' : KVStore) (amount minNote : Z) :
  let pool := fee_pool s in
  let pool' := fee_pool s' in
  minNoteSats s = (Ok minNote, s) →
  pool_range pool → 0 <= amount → pool_value pool + amount < two64 →
  fp_TotalCollectedSats pool + amount < two64 →
  addWithdrawalFee amount s = (Ok tt, s') →
  pool_range pool' ∧ pool_value pool' = pool_value pool + amount
  ∧ fp_TotalCollectedSats pool' = fp_TotalCollectedSats pool + amount
  ∧ fp_TotalSlots pool' = fp_TotalSlots pool ∧ fp_TotalClaimedSats pool' = fp_TotalClaimedSats pool
  ∧ fp_FeePerSlotShare pool <= fp_FeePerSlotShare pool'
  ∧ (amount ≠ 0 → fp_TotalSlots pool ≠ 0 →
      fp_PendingSats pool' < fp_TotalSlots pool
      ∨ fp_PendingSats pool' < minNote *u fp_TotalSlots pool).
Proof. exact (add_fee_pool s s' amount minNote). Qed.

Lemma fee_pool_conserved_witness :
  let s := KVStore_empty <| kv_fee_pool := Some (FeePool_zero <| fp_TotalSlots := 3 |>) |> in
  let s' := (addWithdrawalFee 100000000 s).2 in
  pool_value (fee_pool s') = 100000000.
Proof.
  cbv zeta. destruct (fee_pool_conserved
    (KVStore_empty <| kv_fee_pool := Some (FeePool_zero <| fp_TotalSlots := 3 |>) |>)
    (addWithdrawalFee 100000000 (KVStore_empty <| kv_fee_pool := Some (FeePool_zero
       <| fp_TotalSlots := 3 |>) |>)).2 100000000
    (Config.GetConfigInt64 ∅ Shielder_NoteAmountMinSats)) as (_ & H & _);
    [..|rewrite H; reflexivity].
  - vm_compute. reflexivity.
  - vm_compute. split_and!; congruence.
  - done.
  - reflexivity.
  - reflexivity.
  - apply run_ok. vm_compute. reflexivity.
Defined.

(** C32. Settling a node's share of the pool splits it exactly: the operator
accrues its basis points of the gross share rounded down, the rest, scaled,
plus the carried remainder becomes the increase of the share per bonded
satoshi times the bond plus the new remainder.  So bonders whose principals
sum to at most the bond and who are settled up to now can claim at most what
the settlement and the carried remainder left for them. *)
Theorem fee_settlement_exact (ctx : Ctx) (scale : Z) (bond : ShielderNodeBond) (pool : FeePool)
    (l : list ShielderNodeBonder) :
  settle_range scale bond pool →
  Forall (λ b, is_u64 (br_PrincipalSats b) ∧ br_FeeDebtShare b = nb_FeePerBondShare bond) l →
  total_principal l <= nb_BondSats bond →
  let bond' := settle ctx scale bond pool in
  let gross := fp_FeePerSlotShare pool - nb_FeeDebtSats bond in
  let operatorCut := gross * nb_OperatorFeeBasisPoints bond / 10000 in
  nb_OperatorFeeAccruedSats bond' = nb_OperatorFeeAccruedSats bond + operatorCut
  ∧ nb_FeeDebtSats bond' = fp_FeePerSlotShare pool
  ∧ (nb_FeePerBondShare bond' - nb_FeePerBondShare bond) * nb_BondSats bond
      + nb_FeePerBondShareRemainder bond'
    = (gross - operatorCut) * scale + nb_FeePerBondShareRemainder bond
  ∧ 0 <= nb_FeePerBondShareRemainder bond' < nb_BondSats bond
  ∧ (operatorCut + total_claimable scale bond' l) * scale
      <= gross * scale + nb_FeePerBondShareRemainder bond.
Proof.
  intros HR Hl Hsum. pose proof (settle_exact ctx scale bond pool HR) as Hex.
  cbv zeta in *. destruct Hex as (A1 & A2 & A3 & A4 & A5 & A6 & A7).
  set (bond' := settle ctx scale bond pool) in *. split_and!; try done; try lia.
  destruct HR as [_ _ _ _ _ _ Hsc Hsh _ _ _].
  destruct (total_claimable_le scale bond' (nb_FeePerBondShare bond) l Hsc A6) as [Hp Hc];
    [lia|done|]. nia.
Qed.

Lemma fee_settlement_exact_witness :
  let bond := ShielderNodeBond_zero <| nb_FeeShareActive := true |> <| nb_BondSats := 300 |>
    <| nb_OperatorFeeBasisPoints := 1000 |> in
  let pool := FeePool_zero <| fp_FeePerSlotShare := 1000 |> in
  let bonder p := ShielderNodeBonder_zero <| br_PrincipalSats := p |> in
  nb_OperatorFeeAccruedSats (settle (mkCtx 5) 100 bond pool) = 100
  ∧ (100 + total_claimable 100 (settle (mkCtx 5) 100 bond pool) [bonder 100; bonder 200]) * 100
    <= 1000 * 100.
Proof.
  cbv zeta. destruct (fee_settlement_exact (mkCtx 5) 100
    (ShielderNodeBond_zero <| nb_FeeShareActive := true |> <| nb_BondSats := 300 |>
       <| nb_OperatorFeeBasisPoints := 1000 |>)
    (FeePool_zero <| fp_FeePerSlotShare := 1000 |>)
    [ShielderNodeBonder_zero <| br_PrincipalSats := 100 |>;
     ShielderNodeBonder_zero <| br_PrincipalSats := 200 |>]) as (H1 & _ & _ & _ & H2).
  - split; vm_compute; repeat split; congruence.
  - repeat constructor; vm_compute; congruence.
  - vm_compute. congruence.
  - split; [rewrite H1; vm_compute; reflexivity|]. exact H2.
Defined.

(** When principal is added to a bonder, the merged fee debt lies between
the two debts, and the merge changes the fees the principals have earned so
far only by rounding: at most one share unit per satoshi in the bonder's
favour, never against. *)
Theorem weighted_debt_fair (p1 d1 p2 d2 : Z) :
  0 <= p1 → 0 <= p2 → is_u64 d1 → is_u64 d2 → 0 < p1 + p2 < two64 →
  let d := weightedFeeDebtShare p1 d1 p2 d2 in
  Z.min d1 d2 <= d <= Z.max d1 d2
  ∧ ∀ share, p1 * (share - d1) + p2 * (share - d2) <= (p1 + p2) * (share - d)
             < p1 * (share - d1) + p2 * (share - d2) + (p1 + p2).
Proof.
  unfold is_u64. intros H1 H2 H3 H4 H5. cbv zeta. unfold weightedFeeDebtShare.
  rewrite (u64_small (p1 + p2)) by u64_lia. destruct (p1 + p2 =? 0) eqn:E0; [lia|].
  set (x := p1 * d1 + p2 * d2). set (q := x / (p1 + p2)).
  pose proof (Z.div_mod x (p1 + p2) ltac:(lia)) as Hdm. fold q in Hdm.
  pose proof (Z.mod_pos_bound x (p1 + p2) ltac:(lia)) as Hm.
  assert (Hq : Z.min d1 d2 <= q <= Z.max d1 d2).
  { split; [apply Z.div_le_lower_bound; [lia|]|apply Z.div_le_upper_bound; [lia|]]; unfold x; nia. }
  rewrite u64_small by u64_lia. split; [done|]. intros share. unfold x in *. nia.
Qed.

Lemma weighted_debt_fair_witness : weightedFeeDebtShare 100 10 300 21 = 18 ∧ 10 <= 18 <= 21.
Proof.
  split; [reflexivity|].
  exact (proj1 (weighted_debt_fair 100 10 300 21 ltac:(lia) ltac:(lia) ltac:(u64_lia)
    ltac:(u64_lia) ltac:(u64_lia))).
Defined.
