(* ===== verification/Shield.v ===== *)
(** * Shielding deposits (x/thornado/shielder_flow.go, msg_server.go)

A matched deposit is turned into notes: the owner's authorization, the value
check against the deposit, and the insertion of the commitments. *)

From S2P Require Import Prelude GoStrings Sha256 Config Common Types Keeper Merkle Notes Fees.

(** ** Bytes *)

Definition hex_val (c : ascii) : option Z :=
  let n := Z.of_nat (nat_of_ascii c) in
  if (48 <=? n) && (n <=? 57) then Some (n - 48)
  else if (97 <=? n) && (n <=? 102) then Some (n - 87)
  else if (65 <=? n) && (n <=? 70) then Some (n - 55)
  else None.

(** [hex.DecodeString] *)
Fixpoint hex_decode (s : string) : option (list Z) :=
  match s with
  | EmptyString => Some []
  | String a (String b s') =>
      hi ← hex_val a; lo ← hex_val b; rest ← hex_decode s'; Some (16 * hi + lo :: rest)
  | _ => None
  end.

Definition bytes := list Z.

(** The secp256k1 libraries ([btcec], the SDK key types). *)
Class Secp := {
  Sig : Type;
  ParseDERSignature : bytes → option Sig;
  (** The 64 bytes [r || s]; [None] when a scalar is out of range. *)
  NewSignature : bytes → option Sig;
  IsOverHalfOrder : Sig → bool;
  (** [ParsePubKey] succeeds and the signature verifies the digest. *)
  Verify : Sig → bytes → bytes → bool;
  (** The account address of a 33-byte key, as text. *)
  pubkey_address : bytes → string;
  (** The bytes of a bech32 account public key. *)
  Secp256K1 : string → option bytes
}.

(** [json.Marshal] of a list of notes. *)
Class NotesJson := json_notes : list shielderNoteCommitment → string.

Section Auth.
Context `{Secp} `{NoteJson} `{NotesJson}.

Definition AccAddressFromCompressedSecp256k1 (pubkeyHex : string) : res string :=
  match hex_decode (TrimSpace pubkeyHex) with
  | None => Err "invalid secp256k1 pubkey"
  | Some raw =>
      let raw := if (length raw =? 32)%nat then 2 :: raw else raw in
      if negb (length raw =? 33)%nat then Err "invalid secp256k1 pubkey length"
      else match raw with
           | b :: _ =>
               if negb (b =? 2) && negb (b =? 3)
               then Err "invalid compressed secp256k1 pubkey prefix"
               else Ok (pubkey_address raw)
           | [] => Panic "index out of range"
           end
  end.

Definition secpPubkeyCandidates (pubkeyHex : string) : res (list bytes) :=
  match hex_decode (TrimSpace pubkeyHex) with
  | None => Err "encoding/hex"
  | Some raw =>
      if (length raw =? 33)%nat then Ok [raw]
      else if (length raw =? 32)%nat then Ok [2 :: raw; 3 :: raw]
      else Err "invalid secp256k1 pubkey length"
  end.

(** Each part preceded by its length in eight big-endian bytes. *)
Definition length_prefixed (parts : list string) : bytes :=
  List.concat (map (λ part, Sha256.be_bytes 8 (Z.of_nat (String.length part)) ++ Sha256.bytes_of part)%list parts).

Definition hashLengthPrefixedParts (parts : list string) : bytes :=
  Sha256.sum_bytes (length_prefixed parts).

Definition decode_notes (commitments : list string) : res (list shielderNoteCommitment) :=
  rfold (λ notes raw,
    match json_note (TrimSpace raw) with
    | None => Err "invalid shielder commitment"
    | Some note =>
        Ok (notes ++ [note <| nc_Commitment := TrimSpace (nc_Commitment note) |>])%list
    end) [] commitments.

Definition authorization_parts (depositPubkey depositID : string) (amountSats : Z)
    (notes : list shielderNoteCommitment) : list string :=
  ["thornado-shielder-v1"; "shield-authorization"; TrimSpace depositPubkey; depositID;
   itoa amountSats; json_notes notes].

Definition id_candidates (depositID : string) : list string :=
  let trimmedID := TrimSpace depositID in
  let upper := ToUpper trimmedID in
  let lower := ToLower trimmedID in
  (trimmedID :: (if str_eq upper trimmedID then [] else [upper])
    ++ (if str_eq lower trimmedID then [] else [lower]))%list.

Definition VerifyShieldAuthorization (depositPubkey signatureHex depositID : string)
    (amountSats : Z) (commitments : list string) : res unit :=
  notes ← decode_notes commitments;
  match secpPubkeyCandidates (TrimSpace depositPubkey), hex_decode (TrimSpace signatureHex) with
  | Ok rawPubkey, Some rawSig =>
      match ParseDERSignature rawSig with
      | None => Err "invalid shield authorization signature"
      | Some signature =>
          if IsOverHalfOrder signature then Err "high-S signature rejected"
          else if existsb (λ idCandidate,
              let digest := hashLengthPrefixedParts
                (authorization_parts depositPubkey idCandidate amountSats notes) in
              existsb (Verify signature digest) rawPubkey) (id_candidates depositID)
          then Ok tt
          else Err "shield authorization signature verification failed"
      end
  | Ok _, None => Err "invalid shield authorization signature"
  | _, _ => Err "invalid deposit pubkey"
  end.

Definition verifySecp256K1SignaturePayload (pk : string) (sig payload : bytes) : res unit :=
  if negb (length sig =? 64)%nat then Err "invalid secp256k1 signature length"
  else match NewSignature sig with
       | None => Err "signature scalar out of range"
       | Some signature =>
           if IsOverHalfOrder signature then Err "high-S signature rejected"
           else match Secp256K1 pk with
                | None => Err "fail to get secp256k1 pubkey"
                | Some spk =>
                    if Verify signature payload spk then Ok tt
                    else Err "signature verification failed"
                end
       end.
End Auth.

(** ** Shielding *)

Section Shield.
Context {E : MerkleEngine} `{NoteJson} (ctx : Ctx).

(** The notes of a shield against the amount still unshielded: parsed,
floored, and the floored remainder paid to the fee pool.  The result is the
kept notes, the amount they must carry, and the remainder. *)
Definition floor_notes (commitments : list string) (availableSats : Z)
    : KM (list shielderNoteCommitment * Z * Z) :=
  noteCommitments ← lift (parseShielderNoteCommitments commitments availableSats false);
  '(noteCommitments, floorRemainder) ← applyShielderNoteFloor noteCommitments availableSats false;
  if 0 <? floorRemainder then
    _ ← addWithdrawalFee floorRemainder;
    mret (noteCommitments, availableSats -u floorRemainder, floorRemainder)
  else mret (noteCommitments, availableSats, floorRemainder).

Definition ShieldUserDepositIntoPool (deposit : DepositRecord) (commitments : list string)
    : KM DepositRecord :=
  _ ← fail_if (TxID.IsEmpty (dr_DepositID deposit)) "missing deposit id";
  _ ← fail_if (IsNodeBond deposit || negb (is_empty (dr_AuctionID deposit)))
        "only user deposits shield into the privacy pool";
  deposit ←
    (if str_eq (dr_Status deposit) DepositStatusDepositMatched
     then mret (deposit <| dr_Settlement := DepositSettlementUser |>)
     else if str_eq (dr_Status deposit) DepositStatusSettled then
       _ ← fail_if (negb (str_eq (dr_Settlement deposit) DepositSettlementUser)
                    || negb (dr_ShieldedSats deposit =? 0)) "duplicate deposit settlement";
       mret deposit
     else if str_eq (dr_Status deposit) DepositStatusCommitted
     then fail "deposit already shielded"
     else fail "deposit is not matched");
  _ ← fail_if (length commitments =? 0)%nat "missing shield note commitments";
  _ ← fail_if (dr_AmountSats deposit <? dr_ShieldedSats deposit)
        "deposit shielded amount exceeds deposit amount";
  let availableSats := dr_AmountSats deposit -u dr_ShieldedSats deposit in
  _ ← fail_if (availableSats =? 0) "deposit already fully shielded";
  '(noteCommitments, availableSats, floorRemainder) ← floor_notes commitments availableSats;
  _ ← fail_if (negb (shielderNoteCommitmentTotal noteCommitments =? availableSats))
        "shield note denominations must match deposit amount";
  _ ← insertShielderCommitments ctx noteCommitments;
  let deposit := deposit
    <| dr_ShieldedSats := dr_ShieldedSats deposit +u (availableSats +u floorRemainder) |>
    <| dr_Status := DepositStatusCommitted |> in
  _ ← SetDepositRecord deposit;
  mret deposit.

Definition PostShielderShield (owner depositID : string) (commitments : list string)
    : KM DepositRecord :=
  _ ← fail_if (Acc_Empty owner) "missing deposit owner";
  _ ← fail_if (length commitments =? 0)%nat "missing shielder commitments";
  deposit ← GetDepositRecord depositID;
  _ ← fail_if (TxID.IsEmpty (dr_DepositID deposit)) "deposit not found";
  _ ← fail_if (negb (Acc_Equals (dr_Owner deposit) owner)) "deposit owner mismatch";
  if str_eq (dr_Status deposit) DepositStatusDepositMatched then
    _ ← fail_if (IsNodeBond deposit) "node bonds activate via MsgBondFromNotes from shielded notes";
    ShieldUserDepositIntoPool (deposit <| dr_Settlement := DepositSettlementUser |>) commitments
  else if str_eq (dr_Status deposit) DepositStatusSettled then
    if str_eq (dr_Settlement deposit) DepositSettlementUser
    then ShieldUserDepositIntoPool deposit commitments
    else
      _ ← fail_if (str_eq (dr_Settlement deposit) DepositSettlementOperatorBond)
            "node bonds activate via MsgBondFromNotes from shielded notes";
      _ ← fail_if (is_empty (dr_Settlement deposit) || negb (dr_ShieldedSats deposit =? 0))
            "duplicate deposit settlement";
      _ ← fail_if (dr_AmountSats deposit <? dr_ShieldedSats deposit)
            "deposit shielded amount exceeds deposit amount";
      let availableSats := dr_AmountSats deposit -u dr_ShieldedSats deposit in
      _ ← fail_if (availableSats =? 0) "deposit already fully shielded";
      '(noteCommitments, availableSats, floorRemainder) ← floor_notes commitments availableSats;
      let total := shielderNoteCommitmentTotal noteCommitments in
      _ ← fail_if (total =? 0) "missing shielder commitment amount";
      _ ← fail_if (negb (total =? availableSats))
            "shielder commitment denominations must match deposit amount";
      let deposit := deposit
        <| dr_ShieldedSats := dr_ShieldedSats deposit +u (total +u floorRemainder) |>
        <| dr_Status := DepositStatusCommitted |> in
      _ ← SetDepositRecord deposit;
      _ ← insertShielderCommitments ctx noteCommitments;
      mret deposit
  else if str_eq (dr_Status deposit) DepositStatusCommitted then fail "deposit already shielded"
  else fail "deposit is not matched".
End Shield.

(** [ShielderShield] of msg_server.go, after [ValidateBasic]. *)
Record MsgShielderShield := mkMsgShielderShield {
  ms_Commitments : list string;
  ms_DepositPubkey : string;
  ms_Signature : string;
  ms_DepositId : string
}.

Definition MaxShielderCommitments : nat := 128.
Definition MaxShielderCommitmentLength : nat := 512.
Definition MaxShieldSignatureHexLength : nat := 160.

Definition commitment_list_step (seen : gset string) (commitment : string) : res (gset string) :=
  let commitment := TrimSpace commitment in
  if is_empty commitment then Err "empty commitment"
  else if (MaxShielderCommitmentLength <? String.length commitment)%nat then Err "commitment too long"
  else if bool_decide (commitment ∈ seen) then Err "duplicate commitment"
  else Ok ({[commitment]} ∪ seen).

Definition validateShielderCommitmentList (commitments : list string) : res unit :=
  if (MaxShielderCommitments <? length commitments)%nat then Err "too many commitments"
  else _ ← rfold commitment_list_step ∅ commitments; Ok tt.

Definition validateCompressedSecpPubkey (value : string) : res unit :=
  match hex_decode (TrimSpace value) with
  | None => Err "expected hex pubkey"
  | Some raw =>
      if (length raw =? 32)%nat then Ok tt
      else if (length raw =? 33)%nat then
        match raw with
        | b :: _ => if (b =? 2) || (b =? 3) then Ok tt
                    else Err "expected compressed secp256k1 prefix"
        | [] => Panic "index out of range"
        end
      else Err "expected 32-byte x-only or 33-byte compressed pubkey"
  end.

Definition MsgShielderShield_ValidateBasic (m : MsgShielderShield) : res unit :=
  _ ← first_error [(is_blank (ms_DepositPubkey m), "missing deposit pubkey");
    ((length (ms_Commitments m) =? 0)%nat, "missing shielder commitments")];
  _ ← validateShielderCommitmentList (ms_Commitments m);
  _ ← validateCompressedSecpPubkey (ms_DepositPubkey m);
  _ ← first_error
    [((MaxShieldSignatureHexLength <? String.length (TrimSpace (ms_Signature m)))%nat,
      "shield authorization signature too long");
     (match hex_decode (TrimSpace (ms_Signature m)) with None => true | _ => false end,
      "invalid shield authorization signature");
     (is_blank (ms_DepositId m), "missing deposit id")];
  Ok tt.

Definition ShielderShield {E : MerkleEngine} `{Secp} `{NoteJson} `{NotesJson} (ctx : Ctx)
    (msg : MsgShielderShield) : KM string :=
  _ ← lift (MsgShielderShield_ValidateBasic msg);
  owner ← lift (AccAddressFromCompressedSecp256k1 (ms_DepositPubkey msg));
  depositID ← lift (TxID.NewTxID (TrimSpace (ms_DepositId msg)));
  deposit ← GetDepositRecord depositID;
  _ ← fail_if (TxID.IsEmpty (dr_DepositID deposit)) "deposit not found";
  _ ← fail_if (negb (Acc_Equals (dr_Owner deposit) owner)) "deposit owner mismatch";
  noteCommitments ← lift (parseShielderNoteCommitments (ms_Commitments msg)
    (dr_AmountSats deposit) (IsNodeBond deposit));
  let amountSats := shielderNoteCommitmentTotal noteCommitments in
  _ ← fail_if (amountSats =? 0) "missing shielder commitment amount";
  _ ← lift (VerifyShieldAuthorization (ms_DepositPubkey msg) (ms_Signature msg)
              (TrimSpace (ms_DepositId msg)) amountSats (ms_Commitments msg));
  deposit ← PostShielderShield ctx owner depositID (ms_Commitments msg);
  mret (dr_Status deposit).

#[export] Hint Unfold floor_notes ShieldUserDepositIntoPool : flow.

(** ** Lemmas *)

(** Records are stored under their own id. *)
Definition deposits_keyed (s : KVStore) : Prop := ∀ k d,
  kv_deposit_record s !! k = Some d → k = ToUpper (dr_DepositID d).

Lemma fees_frame_pool amount : frames_pool (addWithdrawalFee amount).
Proof.
  intros s a s' H.
  split_and!; (eapply keeps_run; [|exact H]);
    unfold addWithdrawalFee, setDistributedFeePool; frame_tac.
Qed.

Lemma fees_frame amount s a s' : addWithdrawalFee amount s = (a, s') →
  kv_deposit_record s' = kv_deposit_record s ∧ kv_config s' = kv_config s.
Proof.
  intros H. split; (eapply keeps_run; [|exact H]);
    unfold addWithdrawalFee, setDistributedFeePool; frame_tac.
Qed.

Lemma insert_frame {E : MerkleEngine} ctx notes s a s' :
  insertShielderCommitments ctx notes s = (a, s') →
  kv_deposit_record s' = kv_deposit_record s ∧ kv_fee_pool s' = kv_fee_pool s.
Proof. intros H. split; (eapply keeps_run; [|exact H]); frame_tac. Qed.

Lemma pool_ok_same {E : MerkleEngine} `{!MerkleLaws E} s s' Ls :
  same_pool s s' → pool_ok s Ls → pool_ok s' Ls.
Proof.
  intros (H1 & H2 & H3 & H4 & H5) (A & B & C & D). unfold pool_ok, roots_recorded,
    roots_of_prefixes. rewrite H4, H5. split_and!; try done.
  eapply trees_ok_ext; [|exact H1|exact H2|exact H3|exact A]. done.
Qed.

(** A record write to the deposit table touches nothing else. *)
Lemma set_deposit_ok deposit s s' :
  SetDepositRecord deposit s = (Ok tt, s') →
  s' = s <| kv_deposit_record := <[ToUpper (dr_DepositID deposit) := deposit]> (kv_deposit_record s) |>.
Proof. intros H. by keeper_inv. Qed.

(** The machine range of the fee pool after at most [amount] more is paid. *)
Definition fees_fit (s : KVStore) (amount : Z) : Prop :=
  pool_range (fee_pool s) ∧ pool_value (fee_pool s) + amount < two64
  ∧ fp_TotalCollectedSats (fee_pool s) + amount < two64.

Lemma floor_notes_ok `{NoteJson} commitments available minNote notes l available' rem s s' :
  minNoteSats s = (Ok minNote, s) → minNote ≠ 0 → is_u64 available → fees_fit s available →
  parseShielderNoteCommitments commitments available false = Ok notes →
  Forall (λ n, 0 <= nc_DenominationSats n) notes → sum_notes notes < two64 →
  floor_notes commitments available s = (Ok (l, available', rem), s') →
  l = kept minNote notes ∧ sum_notes l = available' ∧ available' + rem = available ∧ 0 <= rem
  ∧ pool_value (fee_pool s') = pool_value (fee_pool s) + rem
  ∧ same_pool s s' ∧ kv_deposit_record s' = kv_deposit_record s.
Proof.
  intros Hmin Hm Ha (Hf1 & Hf2 & Hf3) Hparse Hpos Hsum Hrun.
  unfold floor_notes in Hrun. rewrite Hparse in Hrun.
  apply bind_Ok in Hrun as (notes' & s0 & [[= <-] ->]%lift_Ok & Hrun).
  apply bind_Ok in Hrun as ([l0 rem0] & s1' & Happly & Hrun). unfold applyShielderNoteFloor in Happly.
  apply bind_Ok in Happly as (m & s1 & Hm1 & Hfloor). rewrite Hmin in Hm1. injection Hm1 as <- <-.
  apply lift_Ok in Hfloor as [Hfloor ->].
  apply floor_conserves in Hfloor as (-> & _ & Hrem & Hcons & _); try done.
  destruct (0 <? rem0) eqn:Er.
  - apply bind_Ok in Hrun as ([] & s2 & Hadd & Hret).
    apply mret_Ok in Hret as [[= -> -> ->] ->].
    pose proof (fees_frame_pool _ _ _ _ Hadd) as Hsame.
    pose proof (fees_frame _ _ _ _ Hadd) as [Hdep _].
    assert (Hle : rem0 <= available).
    { pose proof (sum_notes_nonneg _ (filter_Forall _
        (λ n, negb (nc_DenominationSats n <? minNote)) _ Hpos)) as Hk.
      fold (kept minNote notes) in Hk. lia. }
    apply (add_fee_pool _ _ _ minNote) in Hadd as (_ & Hv & _); try done; try lia.
    rewrite (u64_small (available - rem0)) by u64_lia. split_and!; try done; lia.
  - apply mret_Ok in Hrun as [[= -> -> ->] ->].
    assert (rem0 = 0) as -> by lia. split_and!; try done; lia.
Qed.

(** The deposit [before] has been turned into the notes above the minimum: the
record is committed in full, the notes and the fee make up what was left of
it, and the trees hold the notes. *)
Definition shielded {E : MerkleEngine} `{!MerkleLaws E} (Ls : Z → list string)
    (kept_notes : list shielderNoteCommitment) (before dep : DepositRecord) (s s' : KVStore) : Prop :=
  dr_DepositID dep = dr_DepositID before ∧ dr_Status dep = DepositStatusCommitted
  ∧ dr_AmountSats dep = dr_AmountSats before ∧ dr_ShieldedSats dep = dr_AmountSats before
  ∧ kv_deposit_record s' = <[ToUpper (dr_DepositID before) := dep]> (kv_deposit_record s)
  ∧ sum_notes kept_notes + (pool_value (fee_pool s') - pool_value (fee_pool s))
    = dr_AmountSats before - dr_ShieldedSats before
  ∧ pool_ok s' (add_notes Ls kept_notes).

Section ShieldOk.
Context {E : MerkleEngine} `{!MerkleLaws E} `{NoteJson} (ctx : Ctx).
Variables (Ls : Z → list string) (minNote : Z) (notes : list shielderNoteCommitment)
  (commitments : list string) (before : DepositRecord) (s : KVStore).
Hypothesis HP : pool_ok s Ls.
Hypothesis Hmin : minNoteSats s = (Ok minNote, s).
Hypothesis Hminpos : minNote ≠ 0.
Hypothesis Ham : 0 <= dr_ShieldedSats before ∧ dr_AmountSats before < two64.
Hypothesis Hfees : fees_fit s (dr_AmountSats before - dr_ShieldedSats before).
Hypothesis Hparse : parseShielderNoteCommitments commitments
  (dr_AmountSats before - dr_ShieldedSats before) false = Ok notes.
Hypothesis Hpos : Forall (λ n, 0 <= nc_DenominationSats n) notes.
Hypothesis Hsum : sum_notes notes < two64.

Lemma insert_committed l available rem s1 s2 s3 dep :
  l = kept minNote notes → sum_notes l = available →
  available + rem = dr_AmountSats before - dr_ShieldedSats before → 0 <= rem →
  pool_value (fee_pool s1) = pool_value (fee_pool s) + rem →
  same_pool s s1 → kv_deposit_record s1 = kv_deposit_record s →
  dr_DepositID dep = dr_DepositID before → dr_Status dep = DepositStatusCommitted →
  dr_AmountSats dep = dr_AmountSats before →
  dr_ShieldedSats dep = dr_ShieldedSats before +u (available +u rem) →
  (insertShielderCommitments ctx l s1 = (Ok tt, s2) ∧ SetDepositRecord dep s2 = (Ok tt, s3)
   ∨ SetDepositRecord dep s1 = (Ok tt, s2) ∧ insertShielderCommitments ctx l s2 = (Ok tt, s3)) →
  shielded Ls (kept minNote notes) before dep s s3.
Proof.
  intros -> Hl Hrem H0 Hv Hsame Hdep Hid Hst Hamt Hsh Hrun.
  assert (Hav : 0 <= available).
  { rewrite <- Hl. by apply sum_notes_nonneg, filter_Forall. }
  rewrite (u64_small (available + rem)), u64_small in Hsh by u64_lia.
  pose proof (pool_ok_same _ _ _ Hsame HP) as HP1. unfold shielded.
  destruct Hrun as [[Hins Hset]|[Hset Hins]];
    apply set_deposit_ok in Hset; subst;
    pose proof (insert_frame _ _ _ _ _ Hins) as [Hd Hf].
  - apply (insert_pool_ok _ _ _ Ls) in Hins as [HP2 _]; [|done].
    unfold fee_pool in *. rec_simpl. rewrite Hf, Hd, Hdep, Hid. split_and!; try done; lia.
  - apply (insert_pool_ok _ _ _ Ls) in Hins as [HP2 _];
      [|by apply (pool_ok_same s1); [by repeat split|]].
    rec_simpl_all. unfold fee_pool in *. rewrite Hf, Hd, Hdep, Hid. rec_simpl.
    split_and!; try done; lia.
Qed.

Lemma shield_into_pool_ok deposit0 dep s' :
  dr_AmountSats deposit0 = dr_AmountSats before →
  dr_ShieldedSats deposit0 = dr_ShieldedSats before →
  dr_DepositID deposit0 = dr_DepositID before →
  ShieldUserDepositIntoPool ctx deposit0 commitments s = (Ok dep, s') →
  shielded Ls (kept minNote notes) before dep s s'.
Proof.
  unfold ShieldUserDepositIntoPool. intros F1 F2 F3 Hrun. go_guards Hrun.
  apply bind_Ok in Hrun as (deposit & s1 & Hstatus & Hrun).
  assert (s1 = s ∧ dr_AmountSats deposit = dr_AmountSats before
    ∧ dr_ShieldedSats deposit = dr_ShieldedSats before
    ∧ dr_DepositID deposit = dr_DepositID before) as (-> & E1 & E2 & E3).
  { clear Hrun. repeat case_match; go_inv; rec_simpl; by rewrite ?F1, ?F2, ?F3. }
  go_guards Hrun. rewrite E1, E2 in *.
  apply bind_Ok in Hrun as ([[l available] rem] & s1 & Hfloor & Hrun). go_guards Hrun.
  apply bind_Ok in Hrun as ([] & s2 & Hins & Hrun).
  apply bind_Ok in Hrun as ([] & s3 & Hset & Hrun). apply mret_Ok in Hrun as [-> ->].
  rewrite (u64_small (dr_AmountSats before - _)) in Hfloor by u64_lia.
  eapply floor_notes_ok in Hfloor as (A1 & A2 & A3 & A4 & A5 & A6 & A7);
    [|done|done|u64_lia|done|done|done|done].
  eapply insert_committed; try done; rec_simpl; try done; try congruence. by left.
Qed.

Lemma post_shield_ok owner depositID dep s' :
  kv_deposit_record s !! ToUpper depositID = Some before →
  PostShielderShield ctx owner depositID commitments s = (Ok dep, s') →
  shielded Ls (kept minNote notes) before dep s s'.
Proof.
  unfold PostShielderShield. intros Hget Hrun. go_guards Hrun.
  apply bind_Ok in Hrun as (deposit & s1 & Hr & Hrun).
  assert (s1 = s ∧ deposit = before) as [-> ->].
  { clear Hrun. keeper_inv. by rewrite Hget. }
  clear Hr. go_guards Hrun.
  repeat case_match; try (by go_inv).
  - go_guards Hrun. by eapply shield_into_pool_ok, Hrun.
  - by eapply shield_into_pool_ok, Hrun.
  - go_guards Hrun.
    apply bind_Ok in Hrun as ([[l available] rem] & s1 & Hfloor & Hrun). go_guards Hrun.
    apply bind_Ok in Hrun as ([] & s2 & Hset & Hrun).
    apply bind_Ok in Hrun as ([] & s3 & Hins & Hrun). apply mret_Ok in Hrun as [-> ->].
    rewrite (u64_small (dr_AmountSats before - _)) in Hfloor by u64_lia.
    eapply floor_notes_ok in Hfloor as (A1 & A2 & A3 & A4 & A5 & A6 & A7);
      [|done|done|u64_lia|done|done|done|done].
    assert (Ht : shielderNoteCommitmentTotal l = available).
    { rewrite total_u64, A2. apply u64_small. rewrite <- A2 at 1.
      pose proof (sum_notes_nonneg l) as Hl. rewrite A1 in *.
      specialize (Hl (filter_Forall _ _ _ Hpos)). u64_lia. }
    rewrite Ht in *. eapply insert_committed; try done; rec_simpl; try done. by right.
Qed.
End ShieldOk.

(** What a shield leaves in the deposit table, whatever the amounts. *)
Definition commits (before dep : DepositRecord) (s s' : KVStore) : Prop :=
  dr_DepositID dep = dr_DepositID before ∧ dr_Status dep = DepositStatusCommitted
  ∧ kv_deposit_record s' = <[ToUpper (dr_DepositID before) := dep]> (kv_deposit_record s).

Lemma floor_frame `{NoteJson} commitments available s a s' :
  floor_notes commitments available s = (a, s') → kv_deposit_record s' = kv_deposit_record s.
Proof.
  intros H0. eapply keeps_run; [|exact H0].
  unfold floor_notes, addWithdrawalFee, setDistributedFeePool. frame_tac.
Qed.

Section ShieldCommits.
Context {E : MerkleEngine} `{NoteJson} (ctx : Ctx).

Lemma shield_into_pool_commits deposit0 commitments dep s s' :
  ShieldUserDepositIntoPool ctx deposit0 commitments s = (Ok dep, s') →
  commits deposit0 dep s s'.
Proof.
  unfold ShieldUserDepositIntoPool. intros Hrun. go_guards Hrun.
  apply bind_Ok in Hrun as (deposit & s1 & Hstatus & Hrun).
  assert (s1 = s ∧ dr_DepositID deposit = dr_DepositID deposit0) as (-> & E3).
  { clear Hrun. repeat case_match; go_inv; by rec_simpl. }
  go_guards Hrun.
  apply bind_Ok in Hrun as ([[l available] rem] & s1 & Hfloor & Hrun). go_guards Hrun.
  apply bind_Ok in Hrun as ([] & s2 & Hins & Hrun).
  apply bind_Ok in Hrun as ([] & s3 & Hset & Hrun). apply mret_Ok in Hrun as [-> ->].
  apply floor_frame in Hfloor. apply insert_frame in Hins as [Hins _].
  apply set_deposit_ok in Hset as ->. unfold commits. rec_simpl.
  by rewrite Hins, Hfloor, E3.
Qed.

Lemma post_shield_commits owner depositID commitments dep s s' :
  PostShielderShield ctx owner depositID commitments s = (Ok dep, s') →
  ∃ before, kv_deposit_record s !! ToUpper depositID = Some before ∧ commits before dep s s'.
Proof.
  unfold PostShielderShield. intros Hrun. go_guards Hrun.
  apply bind_Ok in Hrun as (deposit & s1 & Hr & Hrun).
  autounfold with keeper in Hr. apply bind_Ok in Hr as (o & s0 & [<- ->]%gets_Ok & Hr).
  apply mret_Ok in Hr as [-> ->]. go_guards Hrun.
  destruct (kv_deposit_record s !! ToUpper depositID) as [before|]; [|done].
  exists before. split; [done|]. cbn [from_option] in *.
  repeat case_match; try (by go_inv).
  - go_guards Hrun. by apply shield_into_pool_commits in Hrun.
  - by apply shield_into_pool_commits in Hrun.
  - go_guards Hrun.
    apply bind_Ok in Hrun as ([[l available] rem] & s1 & Hfloor & Hrun). go_guards Hrun.
    apply bind_Ok in Hrun as ([] & s2 & Hset & Hrun).
    apply bind_Ok in Hrun as ([] & s3 & Hins & Hrun). apply mret_Ok in Hrun as [-> ->].
    apply floor_frame in Hfloor. apply insert_frame in Hins as [Hins _].
    apply set_deposit_ok in Hset as ->. unfold commits. rec_simpl_all.
    by rewrite Hins, Hfloor.
Qed.

(** A committed deposit is refused whoever asks. *)
Lemma committed_refused owner depositID commitments d s :
  kv_deposit_record s !! ToUpper depositID = Some d → dr_Status d = DepositStatusCommitted →
  ∃ e, PostShielderShield ctx owner depositID commitments s = (Err e, s).
Proof.
  intros Hd Hst. unfold PostShielderShield. rewrite !bind_guard.
  repeat (case_match; [by eexists|]).
  erewrite bind_run; [|autounfold with keeper; erewrite bind_run; [|reflexivity]; reflexivity].
  rewrite Hd. cbn [from_option]. rewrite !bind_guard. repeat (case_match; [by eexists|]).
  cbv zeta. rewrite Hst. by eexists.
Qed.
End ShieldCommits.

(** ** Lemmas: what is signed *)

Lemma length_prefixed_cons part parts :
  length_prefixed (part :: parts)
  = (Sha256.be_bytes 8 (Z.of_nat (String.length part)) ++ Sha256.bytes_of part
     ++ length_prefixed parts)%list.
Proof. unfold length_prefixed. cbn [map List.concat]. by rewrite <- app_assoc. Qed.

(** A list of parts is read back from its encoding. *)
Lemma length_prefixed_inj ps qs :
  Forall (λ p, Z.of_nat (String.length p) < two64) ps →
  Forall (λ p, Z.of_nat (String.length p) < two64) qs →
  length_prefixed ps = length_prefixed qs → ps = qs.
Proof.
  intros Hps. revert qs. induction Hps as [|p ps Hp _ IH]; intros qs Hqs.
  - destruct Hqs as [|q qs Hq _]; [done|]. rewrite length_prefixed_cons. intros H.
    apply (f_equal length) in H. rewrite !length_app, Sha256.be_bytes_length in H. done.
  - destruct Hqs as [|q qs Hq Hqs].
    + rewrite length_prefixed_cons. intros H.
      apply (f_equal length) in H. rewrite !length_app, Sha256.be_bytes_length in H. done.
    + rewrite !length_prefixed_cons. intros H.
      apply app_inj_1 in H as [Hl H]; [|by rewrite !Sha256.be_bytes_length].
      apply Sha256.be_bytes_inj in Hl; [|split; [lia|exact Hp]|split; [lia|exact Hq]].
      apply app_inj_1 in H as [H1 H2]; [|rewrite !Sha256.bytes_of_length; lia].
      apply Sha256.bytes_of_inj in H1 as ->. by rewrite (IH qs Hqs H2).
Qed.

(** Two given messages with one SHA-256 digest. *)
Definition collide (m1 m2 : bytes) : Prop := m1 ≠ m2 ∧ Sha256.sum_bytes m1 = Sha256.sum_bytes m2.

(** Parts of a length a text can have. *)
Definition parts_fit (ps : list string) : Prop :=
  Forall (λ p, Z.of_nat (String.length p) < two64) ps.

Lemma digest_binds ps qs :
  parts_fit ps → parts_fit qs → hashLengthPrefixedParts ps = hashLengthPrefixedParts qs →
  ps = qs ∨ collide (length_prefixed ps) (length_prefixed qs).
Proof.
  intros Hp Hq H. destruct (decide (length_prefixed ps = length_prefixed qs)) as [He|Hne].
  - left. by apply length_prefixed_inj.
  - right. by split.
Qed.

Lemma id_candidates_upper depositID c :
  c ∈ id_candidates depositID → ToUpper c = ToUpper (TrimSpace depositID).
Proof.
  unfold id_candidates. rewrite elem_of_cons. intros [->|Hc]; [done|].
  apply elem_of_app in Hc as [Hc|Hc]; case_match; try by apply elem_of_nil in Hc.
  - apply list_elem_of_singleton in Hc as ->. apply ToUpper_idem.
  - apply list_elem_of_singleton in Hc as ->. apply ToUpper_ToLower.
Qed.

(** ** Properties *)

(** C2. Shielding conserves value: when the true sum of the notes fits in 64
bits, the notes that are inserted plus what the fee pool gained are exactly
what was left of the deposit, the deposit is committed in full, and the trees
stay consistent and hold the kept notes. *)
Theorem shield_conserves {E : MerkleEngine} `{!MerkleLaws E} `{NoteJson} (ctx : Ctx)
    (Ls : Z → list string) (minNote : Z) (notes : list shielderNoteCommitment)
    (owner depositID : string) (commitments : list string) (before dep : DepositRecord)
    (s s' : KVStore) :
  pool_ok s Ls → minNoteSats s = (Ok minNote, s) → minNote ≠ 0 →
  kv_deposit_record s !! ToUpper depositID = Some before →
  0 <= dr_ShieldedSats before ∧ dr_AmountSats before < two64 →
  fees_fit s (dr_AmountSats before - dr_ShieldedSats before) →
  parseShielderNoteCommitments commitments
    (dr_AmountSats before - dr_ShieldedSats before) false = Ok notes →
  Forall (λ n, 0 <= nc_DenominationSats n) notes → sum_notes notes < two64 →
  PostShielderShield ctx owner depositID commitments s = (Ok dep, s') →
  let kept_notes := kept minNote notes in
  sum_notes kept_notes + (pool_value (fee_pool s') - pool_value (fee_pool s))
    = dr_AmountSats before - dr_ShieldedSats before
  ∧ dr_Status dep = DepositStatusCommitted
  ∧ dr_ShieldedSats dep = dr_AmountSats dep ∧ dr_AmountSats dep = dr_AmountSats before
  ∧ kv_deposit_record s' = <[ToUpper (dr_DepositID before) := dep]> (kv_deposit_record s)
  ∧ pool_ok s' (add_notes Ls kept_notes).
Proof.
  intros HP Hmin Hm Hget Ham Hfees Hparse Hpos Hsum Hrun. cbv zeta.
  destruct (post_shield_ok ctx Ls minNote notes commitments before s HP Hmin Hm Ham Hfees
    Hparse Hpos Hsum owner depositID dep s' Hget Hrun) as (A1 & A2 & A3 & A4 & A5 & A6 & A7).
  split_and!; try done. congruence.
Qed.

(** A store with one matched deposit, and a decoder for two notes. *)
Definition one_deposit : KVStore := KVStore_empty
  <| kv_deposit_record := {[ "D1" := DepositRecord_zero
       <| dr_DepositID := "D1" |> <| dr_Owner := "owner" |> <| dr_AmountSats := 3050000 |>
       <| dr_DepositAddress := "addr" |> <| dr_VaultPubKey := "vault" |>
       <| dr_Status := DepositStatusDepositMatched |> ]} |>.
Definition two_notes : NoteJson := λ s,
  if str_eq s "{1}" then Some (mkNote 1000000 "aa")
  else if str_eq s "{2}" then Some (mkNote 2000000 "bb") else None.
#[local] Existing Instance two_notes.
Import ToyEngine.

Lemma shield_conserves_witness :
  let s' := (PostShielderShield (E := ToyEngine.toy) (mkCtx 3) "owner" "d1" ["{1}"; "{2}"]
    one_deposit).2 in
  pool_value (fee_pool s') = 50000.
Proof.
  cbv zeta. set (s' := (PostShielderShield (E := ToyEngine.toy) (mkCtx 3) "owner" "d1"
    ["{1}"; "{2}"] one_deposit).2).
  destruct (shield_conserves (E := ToyEngine.toy) (mkCtx 3) (λ _, [])
    (Config.GetConfigInt64 ∅ Shielder_NoteAmountMinSats) [mkNote 1000000 "aa"; mkNote 2000000 "bb"] "owner" "d1" ["{1}"; "{2}"]
    (from_option DepositRecord_zero (kv_deposit_record one_deposit !! "D1"))
    (from_option DepositRecord_zero (kv_deposit_record s' !! "D1")) one_deposit s')
    as (H1 & _).
  - apply (pool_ok_same KVStore_empty); [by repeat split|apply pool_ok_empty].
  - vm_compute. reflexivity.
  - vm_compute. congruence.
  - vm_compute. reflexivity.
  - vm_compute. split; congruence.
  - unfold fees_fit, pool_range. vm_compute. repeat split; congruence.
  - vm_compute. reflexivity.
  - repeat constructor; vm_compute; congruence.
  - vm_compute. reflexivity.
  - assert (Hr : (PostShielderShield (E := ToyEngine.toy) (mkCtx 3) "owner" "d1"
      ["{1}"; "{2}"] one_deposit).1 = Ok (from_option DepositRecord_zero
        (kv_deposit_record s' !! "D1"))) by (vm_compute; reflexivity).
    exact (run_ok _ _ _ Hr).
  - assert (Hv : pool_value (fee_pool one_deposit) = 0) by (vm_compute; reflexivity).
    rewrite Hv in H1. clear Hv.
    assert (Hk : sum_notes (kept (Config.GetConfigInt64 ∅ Shielder_NoteAmountMinSats)
      [mkNote 1000000 "aa"; mkNote 2000000 "bb"]) = 3000000) by (vm_compute; reflexivity).
    rewrite Hk in H1.
    assert (Hb : dr_AmountSats (from_option DepositRecord_zero
        (kv_deposit_record one_deposit !! "D1"))
      - dr_ShieldedSats (from_option DepositRecord_zero
        (kv_deposit_record one_deposit !! "D1")) = 3050000) by (vm_compute; reflexivity).
    rewrite Hb in H1. lia.
Defined.

(** A deposit is shielded at most once: after a shield of it succeeded,
every further shield of the same id is refused and leaves the store as it is,
and every record still sits under its own id. *)
Theorem shield_once {E : MerkleEngine} `{NoteJson} (ctx : Ctx) (owner depositID : string)
    (commitments : list string) (dep : DepositRecord) (s s' : KVStore) :
  deposits_keyed s →
  PostShielderShield ctx owner depositID commitments s = (Ok dep, s') →
  deposits_keyed s'
  ∧ ∀ ctx' owner' commitments',
      ∃ e, PostShielderShield ctx' owner' depositID commitments' s' = (Err e, s').
Proof.
  intros Hkeyed Hrun. apply post_shield_commits in Hrun as (before & Hget & Hid & Hst & Htab).
  pose proof (Hkeyed _ _ Hget) as Hk. split.
  - intros k d. rewrite Htab. destruct (decide (k = ToUpper (dr_DepositID before))) as [->|Hne].
    + rewrite lookup_insert_eq. intros [= <-]. by rewrite Hid.
    + rewrite lookup_insert_ne by done. apply Hkeyed.
  - intros ctx' owner' commitments'. apply (committed_refused _ _ _ _ dep); [|done].
    rewrite Htab, Hk. apply lookup_insert_eq.
Qed.

Lemma shield_once_witness :
  let s' := (PostShielderShield (E := ToyEngine.toy) (mkCtx 3) "owner" "d1" ["{1}"; "{2}"]
    one_deposit).2 in
  ∃ e, PostShielderShield (E := ToyEngine.toy) (mkCtx 4) "owner" "D1" ["{1}"] s' = (Err e, s').
Proof.
  cbv zeta. set (s' := (PostShielderShield (E := ToyEngine.toy) (mkCtx 3) "owner" "D1"
    ["{1}"; "{2}"] one_deposit).2).
  assert (Hs : (PostShielderShield (E := ToyEngine.toy) (mkCtx 3) "owner" "d1" ["{1}"; "{2}"]
    one_deposit).2 = s') by reflexivity.
  rewrite Hs. clear Hs.
  destruct (shield_once (E := ToyEngine.toy) (mkCtx 3) "owner" "D1" ["{1}"; "{2}"]
    (from_option DepositRecord_zero (kv_deposit_record s' !! "D1")) one_deposit s')
    as [_ H]; [..|apply H].
  - intros k d Hk. unfold one_deposit in Hk. rec_simpl_all.
    apply lookup_singleton_Some in Hk as [<- <-]. vm_compute. reflexivity.
  - assert (Hr : (PostShielderShield (E := ToyEngine.toy) (mkCtx 3) "owner" "D1"
      ["{1}"; "{2}"] one_deposit).1 = Ok (from_option DepositRecord_zero
        (kv_deposit_record s' !! "D1"))) by (vm_compute; reflexivity).
    exact (run_ok _ _ _ Hr).
Defined.

(** An accepted shield authorization carries a low-s signature by a key of
the deposit over the deposit id (up to letter case), the amount and the notes;
and no other key text, id, amount or note list has the signed digest, unless
the two encodings are a SHA-256 collision. *)
Theorem shield_authorization_binding `{Secp} `{NoteJson} `{NotesJson}
    (depositPubkey signatureHex depositID : string) (amountSats : Z) (commitments : list string) :
  VerifyShieldAuthorization depositPubkey signatureHex depositID amountSats commitments = Ok tt →
  ∃ notes signature raw idCandidate,
    decode_notes commitments = Ok notes
    ∧ IsOverHalfOrder signature = false
    ∧ ToUpper idCandidate = ToUpper (TrimSpace depositID)
    ∧ (∃ candidates, secpPubkeyCandidates (TrimSpace depositPubkey) = Ok candidates
         ∧ raw ∈ candidates)
    ∧ let parts := authorization_parts depositPubkey idCandidate amountSats notes in
      Verify signature (hashLengthPrefixedParts parts) raw = true
      ∧ ∀ pubkey' id' amount' notes',
          let parts' := authorization_parts pubkey' id' amount' notes' in
          parts_fit parts → parts_fit parts' → 0 <= amountSats → 0 <= amount' →
          hashLengthPrefixedParts parts' = hashLengthPrefixedParts parts →
          (TrimSpace pubkey' = TrimSpace depositPubkey ∧ id' = idCandidate
           ∧ amount' = amountSats ∧ json_notes notes' = json_notes notes)
          ∨ collide (length_prefixed parts') (length_prefixed parts).
Proof.
  unfold VerifyShieldAuthorization. intros Hrun. apply rbind_Ok in Hrun as (notes & Hn & Hrun).
  destruct (secpPubkeyCandidates _) as [rawPubkey|e|e] eqn:Ek; try done.
  destruct (hex_decode _) as [rawSig|]; [|done].
  destruct (ParseDERSignature rawSig) as [signature|]; [|done].
  destruct (IsOverHalfOrder signature) eqn:Es; [done|].
  destruct (existsb _ _) eqn:Ee; [|done]. apply existsb_exists in Ee as (idc & Hid & Ee).
  apply existsb_exists in Ee as (raw & Hraw & Hv).
  exists notes, signature, raw, idc. split; [done|]. split; [done|]. split.
  { by apply id_candidates_upper, list_elem_of_In. }
  split. { exists rawPubkey. by rewrite list_elem_of_In. }
  cbv zeta. split; [done|]. intros pk' id' amount' notes' Hp Hp' Ha Ha' Hd.
  apply digest_binds in Hd as [Hd|Hd]; [left|by right|done|done].
  injection Hd as E1 E2 E3 E4. split_and!; try done. by apply itoa_inj.
Qed.

(** A signature scheme whose signatures are the digests, to run the check. *)
Definition echo_secp : Secp := {| Sig := bytes; ParseDERSignature := Some; NewSignature := Some;
  IsOverHalfOrder := λ _, false; Verify := λ sig digest _, bool_decide (sig = digest);
  pubkey_address := Sha256.hex_upper; Secp256K1 := hex_decode |}.
#[local] Existing Instance echo_secp.
Definition count_json : NotesJson := λ notes, itoa (Z.of_nat (length notes)).
#[local] Existing Instance count_json.

Lemma shield_authorization_binding_witness :
  let pk := Sha256.hex_upper (repeat 7 32) in
  let notes := [mkNote 1000000 "aa"] in
  let signature := Sha256.hex_upper (hashLengthPrefixedParts
    (authorization_parts pk "AB" 1000000 notes)) in
  ∃ notes', decode_notes ["{1}"] = Ok notes'
  ∧ VerifyShieldAuthorization pk signature "ab" 1000000 ["{1}"] = Ok tt.
Proof.
  cbv zeta. destruct (shield_authorization_binding (Sha256.hex_upper (repeat 7 32))
    (Sha256.hex_upper (hashLengthPrefixedParts (authorization_parts
       (Sha256.hex_upper (repeat 7 32)) "AB" 1000000 [mkNote 1000000 "aa"]))) "ab" 1000000 ["{1}"])
    as (notes' & _ & _ & _ & Hn & _); [vm_compute; reflexivity|].
  exists notes'. split; [exact Hn|vm_compute; reflexivity].
Defined.
