(* ===== verification/Withdraw.v ===== *)
(** * Withdrawal proofs: public inputs and their verification

[Public]: the public inputs of a redeem as the Go wrapper reads and validates
them (go-wrappers/shielder/public.go).
[Engine]: the Rust verifier behind the C interface
(crates/thornado-shielder/src/tornado/prove.rs, hash.rs, and the two entry
points of crates/thornado-ffi/src/lib.rs), over the serde decoders and the
Groth16 verifier as parameters.
[Redeem JSON]: the checks of x/thornado/shielder.go that precede it.

Both sides decode the same text on their own: Go matches keys up to case and
keeps the last member, the derived serde decoders match keys exactly and
ignore the others. *)

From S2P Require Import Prelude GoStrings Merkle Sha256 Json Common Types Keeper Notes Shield.

Module Public.
Import Json.

(** [withdrawalPublicInputs] of the wrapper *)
Definition withdrawalPublicInputs_fields : list (string * GoType) :=
  [("nullifier_hash", TString); ("merkle_root", TString); ("denomination_sats", TUint64);
   ("recipient", TString); ("fee_sats", TUint64); ("recipient_field", TString);
   ("relayer_field", TString); ("refund_field", TString); ("note_commitment", TString)].

Record withdrawalPublicInputs := {
  wi_NullifierHash : string;
  wi_MerkleRoot : string;
  wi_DenominationSats : Z;
  wi_Recipient : string;
  wi_FeeSats : Z;
  wi_RecipientField : string;
  wi_RelayerField : string;
  wi_RefundField : string;
  wi_NoteCommitment : string
}.

Definition unmarshal_withdrawal (publicJSON : string) : option withdrawalPublicInputs :=
  m ← unmarshal withdrawalPublicInputs_fields publicJSON;
  let text name := text_field (assigned withdrawalPublicInputs_fields name m) in
  let num name := uint64_field (assigned withdrawalPublicInputs_fields name m) in
  Some {| wi_NullifierHash := text "nullifier_hash";
          wi_MerkleRoot := text "merkle_root";
          wi_DenominationSats := num "denomination_sats";
          wi_Recipient := text "recipient";
          wi_FeeSats := num "fee_sats";
          wi_RecipientField := text "recipient_field";
          wi_RelayerField := text "relayer_field";
          wi_RefundField := text "refund_field";
          wi_NoteCommitment := text "note_commitment" |}.

(** [big.Int.SetString(_, 10)] *)
Definition SetString (s : string) : option Z :=
  match s with
  | String c s' =>
      if Ascii.eqb c "-" then option_map Z.opp (parse_dec s')
      else if Ascii.eqb c "+" then parse_dec s'
      else parse_dec s
  | EmptyString => None
  end.

Definition validateFieldElementInRange (value : string) : res unit :=
  let trimmed := TrimSpace value in
  if is_empty trimmed then Ok tt
  else match SetString trimmed with
       | None => Err "shielder field is not a decimal field element"
       | Some parsed =>
           if parsed <? 0 then Err "shielder field must be non-negative"
           else if Field.modulus <=? parsed
           then Err "shielder field is out of range for the scalar field"
           else Ok tt
       end.

Definition validateZeroBindingField (value : string) : res unit :=
  let trimmed := TrimSpace value in
  if is_empty trimmed || str_eq trimmed "0" then Ok tt else Err "shielder field must be zero".

End Public.

(** ** The Rust engine *)

Record WithdrawalPublicInputs := mkWithdrawalPublicInputs {
  rp_nullifier_hash : string;
  rp_denomination_sats : Z;
  rp_recipient : string;
  rp_fee_sats : Z;
  rp_merkle_root : string;
  rp_recipient_field : option string;
  rp_relayer_field : option string;
  rp_refund_field : option string
}.

Record TornadoWithdrawProof (G : Type) := mkTornadoWithdrawProof {
  tp_protocol : string;
  tp_groth16 : option G
}.
Arguments mkTornadoWithdrawProof {G} _ _.
Arguments tp_protocol {G} _.
Arguments tp_groth16 {G} _.

Record WithdrawalProof (G : Type) := mkWithdrawalProof {
  wp_nullifier : string;
  wp_secret : string;
  wp_commitment : string;
  wp_merkle_root : string;
  wp_tornado : option (TornadoWithdrawProof G)
}.
Arguments mkWithdrawalProof {G} _ _ _ _ _.
Arguments wp_nullifier {G} _.
Arguments wp_secret {G} _.
Arguments wp_commitment {G} _.
Arguments wp_merkle_root {G} _.
Arguments wp_tornado {G} _.

(** The crates the engine is built on: serde's derived decoders (over
    serde_json) and the Groth16 verifier with its embedded key. *)
Class ProofEngine := {
  SnarkjsProof : Type;
  serde_public : string → option WithdrawalPublicInputs;
  serde_proof : string → option (WithdrawalProof SnarkjsProof);
  verify_snarkjs_proof : SnarkjsProof → list Z → bool
}.

Module Engine.

Definition DOMAIN : string := "thornado-shielder-v1".
Definition PROTOCOL_ID : string := "tornado-cash-groth16-v2.1".

(** The digest is read big-endian and reduced. *)
Definition recipient_binding (recipient : string) (fee_sats denomination_sats : Z) : Z :=
  foldl (λ value b, 256 * value + b) 0
    (hashLengthPrefixedParts [DOMAIN; "tornado-recipient-binding"; recipient;
                              itoa fee_sats; itoa denomination_sats]) mod Field.modulus.

Definition recipient_binding_decimal (recipient : string) (fee_sats denomination_sats : Z)
    : string :=
  Field.fr_to_decimal (recipient_binding recipient fee_sats denomination_sats).

Definition expected_recipient_binding (public : WithdrawalPublicInputs) : Z :=
  recipient_binding (rp_recipient public) (rp_fee_sats public) (rp_denomination_sats public).

Definition enforce_public_field (explicit : option string) (expected : Z) : bool :=
  match explicit with
  | Some raw =>
      let trimmed := TrimSpace raw in
      is_empty trimmed || bool_decide (Field.fr_from_decimal trimmed = Some expected)
  | None => true
  end.

Definition validate_public_inputs (public : WithdrawalPublicInputs) : bool :=
  negb (is_blank (rp_recipient public))
  && (rp_fee_sats public <? rp_denomination_sats public)
  && enforce_public_field (rp_recipient_field public) (expected_recipient_binding public)
  && enforce_public_field (rp_relayer_field public) 0
  && enforce_public_field (rp_refund_field public) 0.

(** Root, nullifier, recipient, relayer, fee, refund. *)
Definition public_inputs_from_withdraw (root nf_hash recipient fee : Z) : list Z :=
  [root; nf_hash; recipient; 0; fee; 0].

Section Verify.
Context `{ProofEngine}.

Definition verify_withdrawal (proof : WithdrawalProof SnarkjsProof)
    (public : WithdrawalPublicInputs) : bool :=
  validate_public_inputs public
  && match wp_tornado proof with
     | Some tornado =>
         str_eq (tp_protocol tornado) PROTOCOL_ID
         && str_eq (wp_merkle_root proof) (rp_merkle_root public)
         && match Field.fr_from_decimal (rp_merkle_root public),
                  Field.fr_from_decimal (rp_nullifier_hash public), tp_groth16 tornado with
            | Some root, Some nf_hash, Some groth16 =>
                verify_snarkjs_proof groth16
                  (public_inputs_from_withdraw root nf_hash (expected_recipient_binding public)
                     (rp_fee_sats public mod Field.modulus))
            | _, _, _ => false
            end
     | None => false
     end.

(** [thornado_validate_withdrawal_public_json] *)
Definition ValidateWithdrawalPublic (publicJSON : string) : res unit :=
  match serde_public publicJSON with
  | Some public => if validate_public_inputs public then Ok tt else Err "invalid proof"
  | None => Err "serde_json"
  end.

(** [thornado_verify_withdrawal_json] *)
Definition VerifyWithdrawal (proofJSON publicJSON : string) : res unit :=
  match serde_proof proofJSON, serde_public publicJSON with
  | Some proof, Some public =>
      if verify_withdrawal proof public then Ok tt else Err "invalid proof"
  | _, _ => Err "serde_json"
  end.
End Verify.
End Engine.

(** ** The Go side *)

(** A text passed through [C.CString] ends at its first NUL. *)
Fixpoint CString (s : string) : string :=
  match s with
  | String c s' => if Json.code c =? 0 then "" else String c (CString s')
  | EmptyString => ""
  end.

Definition RecipientBindingField (recipient : string) (feeSats denominationSats : Z) : string :=
  Engine.recipient_binding_decimal (CString recipient) feeSats denominationSats.

Section Redeem.
Import Public.
Context `{ProofEngine}.

Definition ValidateRedeemPublicJSON (publicJSON : string) : res unit :=
  match unmarshal_withdrawal publicJSON with
  | None => Err "invalid shielder public inputs"
  | Some public =>
      let expectedRecipientField := RecipientBindingField
        (TrimSpace (wi_Recipient public)) (wi_FeeSats public) (wi_DenominationSats public) in
      let providedRecipientField := TrimSpace (wi_RecipientField public) in
      _ ← first_error
        [(is_blank (wi_NullifierHash public), "missing shielder nullifier hash");
         (is_blank (wi_MerkleRoot public), "missing shielder merkle root");
         (wi_DenominationSats public =? 0, "missing shielder denomination");
         (wi_DenominationSats public <=? wi_FeeSats public, "shielder fee exceeds denomination");
         (is_blank (wi_Recipient public), "missing shielder redeem recipient");
         (negb (is_blank (wi_NoteCommitment public)),
          "shielder public inputs must not carry note commitment")];
      _ ← validateFieldElementInRange (wi_NullifierHash public);
      _ ← validateFieldElementInRange (wi_MerkleRoot public);
      _ ← validateFieldElementInRange (wi_RecipientField public);
      _ ← validateFieldElementInRange (wi_RelayerField public);
      _ ← validateFieldElementInRange (wi_RefundField public);
      _ ← validateZeroBindingField (wi_RelayerField public);
      _ ← validateZeroBindingField (wi_RefundField public);
      if negb (is_empty providedRecipientField)
         && negb (str_eq providedRecipientField expectedRecipientField)
      then Err "shielder recipient field mismatch"
      else Engine.ValidateWithdrawalPublic publicJSON
  end.

Definition VerifyShielderRedeemJSON (proofJSON publicJSON : string) : res unit :=
  if negb (Json.Valid proofJSON) then Err "invalid shielder proof json"
  else if negb (Json.Valid publicJSON) then Err "invalid shielder public input json"
  else
    _ ← ValidateRedeemPublicJSON publicJSON;
    Engine.VerifyWithdrawal proofJSON publicJSON.

(** [VerifyShielderRedeem] on the two texts of a payload. *)
Definition VerifyShielderRedeem (proof public : string) : res unit :=
  if is_empty proof then Err "missing shielder proof"
  else if is_empty public then Err "missing shielder public inputs"
  else VerifyShielderRedeemJSON proof public.

Definition shielderRedeemGroth16 : list (string * Json.GoType) :=
  [("pi_a", Json.TSlice Json.TString); ("pi_b", Json.TSlice (Json.TSlice Json.TString)); ("pi_c", Json.TSlice Json.TString);
   ("protocol", Json.TString)].
Definition shielderRedeemTornado : list (string * Json.GoType) :=
  [("protocol", Json.TString); ("groth16", Json.TPtr (Json.TStruct shielderRedeemGroth16))].
Definition shielderRedeemProof : list (string * Json.GoType) :=
  [("nullifier", Json.TString); ("secret", Json.TString); ("commitment", Json.TString);
   ("merkle_root", Json.TString); ("tornado", Json.TPtr (Json.TStruct shielderRedeemTornado))].

(** The strict decoder: unknown keys are errors at every level. *)
Definition RejectLeakyShielderRedeemProof (proofJSON : string) : res unit :=
  match Json.first_value proofJSON with
  | None => Err "shielder proof carries unexpected fields"
  | Some (v, rest) =>
      let m := Json.object_members v in
      let text name := Json.text_field (Json.assigned shielderRedeemProof name m) in
      if negb (Json.accepts true (Json.TStruct shielderRedeemProof) v)
      then Err "shielder proof carries unexpected fields"
      else if Json.more rest then Err "shielder proof carries trailing data"
      else if negb (is_blank (text "nullifier")) || negb (is_blank (text "secret"))
              || negb (is_blank (text "commitment"))
      then Err "shielder proof carries private note material"
      else Ok tt
  end.

(** ** Basic validation of the message (types/msg_shielder.go) *)

Definition MaxShielderProofJSONLength : nat := 65536.
Definition MaxShielderPublicJSONLength : nat := 4096.

Definition validateShielderRedeemJSON (proof public : string) : res unit :=
  first_error
    [(is_empty proof, "missing shielder proof json");
     (is_empty public, "missing shielder public json");
     ((MaxShielderProofJSONLength <? String.length proof)%nat, "shielder proof json too large");
     ((MaxShielderPublicJSONLength <? String.length public)%nat, "shielder public json too large")].

Definition MsgShielderRedeem_ValidateBasic (proof public : string) : res unit :=
  _ ← validateShielderRedeemJSON proof public;
  _ ← first_error
    [(negb (Json.Valid proof), "invalid shielder proof json");
     (negb (Json.Valid public), "invalid shielder public json")];
  ValidateRedeemPublicJSON public.
End Redeem.

(** What the derived decoder of [WithdrawalPublicInputs] reads from an object:
    keys matched exactly, unknown ones ignored, a repeated known key or a
    missing one without a default refused. *)
Module Serde.

Definition exactly (name : string) (m : list (string * JValue)) : list JValue :=
  map snd (List.filter (λ kv, str_eq (fst kv) name) m).

Definition text (name : string) (m : list (string * JValue)) : option string :=
  match exactly name m with [JString s] => Some s | _ => None end.
Definition num (name : string) (m : list (string * JValue)) : option Z :=
  match exactly name m with [JNumber lit] => Json.ParseUint64 lit | _ => None end.
Definition opt_text (name : string) (m : list (string * JValue)) : option (option string) :=
  match exactly name m with
  | [] | [JNull] => Some None
  | [JString s] => Some (Some s)
  | _ => None
  end.

Definition public_inputs (m : list (string * JValue)) : option WithdrawalPublicInputs :=
  nullifier_hash ← text "nullifier_hash" m;
  denomination_sats ← num "denomination_sats" m;
  recipient ← text "recipient" m;
  fee_sats ← num "fee_sats" m;
  merkle_root ← text "merkle_root" m;
  recipient_field ← opt_text "recipient_field" m;
  relayer_field ← opt_text "relayer_field" m;
  refund_field ← opt_text "refund_field" m;
  Some (mkWithdrawalPublicInputs nullifier_hash denomination_sats recipient fee_sats
          merkle_root recipient_field relayer_field refund_field).

(** Texts on which the two JSON readers agree by their documentation: ASCII
    without escapes, a flat object. *)
Definition plain (s : string) : bool :=
  all_chars (λ c, (Json.code c <? 128) && negb (Ascii.eqb c Json.backslash)) s.
Definition is_scalar (v : JValue) : bool :=
  match v with JArray _ | JObject _ => false | _ => true end.

End Serde.

(** serde's documented behaviour, for the public inputs. *)
Class SerdeLaws (E : ProofEngine) :=
  serde_public_flat s m : Serde.plain s = true → Json.parse s = Some (JObject m) →
    forallb (λ kv, Serde.is_scalar (snd kv)) m = true → serde_public s = Serde.public_inputs m.

(** ** A concrete engine

The decoders by their documented behaviour; the verifier accepts one statement:
the note of 100,000 satoshis whose nullifier hashes to 5, under root 7, redeemed
to a given recipient without a fee. *)

Module ToyProof.

(** Apostrophes for the quotes of JSON. *)
Definition js : string → string := smap (λ c, if Ascii.eqb c "'" then Json.quote else c).

Definition note_inputs (recipient : string) : list Z :=
  Engine.public_inputs_from_withdraw 7 5 (Engine.recipient_binding recipient 0 100000) 0.

Definition decode_proof (m : list (string * JValue)) : option (WithdrawalProof unit) :=
  merkle_root ← Serde.text "merkle_root" m;
  match Serde.exactly "tornado" m with
  | [JObject t] =>
      protocol ← Serde.text "protocol" t;
      Some (mkWithdrawalProof "" "" "" merkle_root
              (Some (mkTornadoWithdrawProof protocol (Some tt))))
  | _ => None
  end.

Definition toy_proof (recipient : string) : ProofEngine := {|
  SnarkjsProof := unit;
  serde_public := λ s, match Json.parse s with Some (JObject m) => Serde.public_inputs m | _ => None end;
  serde_proof := λ s, match Json.parse s with Some (JObject m) => decode_proof m | _ => None end;
  verify_snarkjs_proof := λ _ inputs, bool_decide (inputs = note_inputs recipient)
|}.

Lemma toy_serde recipient : SerdeLaws (toy_proof recipient).
Proof. intros s m _ Hp _. simpl. by rewrite Hp. Qed.

Definition proof_text : string :=
  js ("{'merkle_root':'7','tornado':{'protocol':'" ++ Engine.PROTOCOL_ID
      ++ "','groth16':{'pi_a':[],'pi_b':[[]],'pi_c':[]}}}").

End ToyProof.
