(* ===== verification/Bonds.v ===== *)
(** * Node bonds (x/thornado/shielder_flow.go)

Bonds made from shielded notes: the pending bond of a bonder, its
confirmation against the price of the slot, the operator's fee, and the claim
of the fees a node has earned. *)

From S2P Require Import Prelude GoStrings Sha256 Config Common Types Keeper Merkle Notes Fees Shield.

(** [sort.Slice] orders a list by its less function; which of two equal
elements comes first is not specified. *)
Class SortSlice := {
  sort_bonders : list ShielderNodeBonder → list ShielderNodeBonder;
  sort_bonders_perm l : sort_bonders l ≡ₚ l;
  sort_bonders_sorted l :
    StronglySorted (λ x y, br_CreatedHeight x <= br_CreatedHeight y) (sort_bonders l)
}.

Definition appendUniqueString (values : list string) (value : string) : list string :=
  let value := TrimSpace value in
  if is_empty value then values
  else if existsb (λ existing, str_eq existing value) values then values
  else (values ++ [value])%list.

Definition shielderBondRequiredSats (slot : Z) : KM Z :=
  start ← GetConfigInt64 Node_BondStartAmountSats;
  increment ← GetConfigInt64 Node_BondSlotIncrementSats;
  mret (u64 start +u (slot *u u64 increment)).

Section Bonds.
Context `{Ext} (ctx : Ctx).

(** ** Pending and confirmed bonds *)

(** The bond record a new pending amount is added to. *)
Definition pending_bond (session : DepositSession) (nodePubKey nodeAddress : string)
    : KM ShielderNodeBond :=
  bond ← GetShielderNodeBond nodePubKey;
  if Acc_Empty (nb_NodeAddress bond) then
    _ ← fail_if (negb (Acc_Equals (ds_Owner session) nodeAddress))
          "first node bonder must be the operator";
    slot ← AllocateShielderNodeBondSlot;
    mret (ShielderNodeBond_zero
      <| nb_NodePubKey := nodePubKey |>
      <| nb_OperatorPubKey := ds_OperatorPubKey session |>
      <| nb_NodeAddress := nodeAddress |>
      <| nb_Slot := slot |>
      <| nb_Bonders := [ds_Owner session] |>
      <| nb_CreatedHeight := BlockHeight ctx |>)
  else
    _ ← fail_if (negb (Acc_Equals (nb_NodeAddress bond) nodeAddress))
          "node pubkey node address changed";
    _ ← fail_if (negb (PubKey.Equals (nb_OperatorPubKey bond) (ds_OperatorPubKey session)))
          "node bond operator pubkey mismatch";
    mret bond.

Definition recordPendingShielderNodeBond (session : DepositSession) (amountSats : Z) : KM Z :=
  let nodePubKey := TrimSpace (ds_NodePubKey session) in
  if is_empty nodePubKey then mret 0
  else
    _ ← fail_if (Acc_Empty (ds_Owner session)) "missing node bonder";
    _ ← fail_if (negb (cons_pubkey_valid nodePubKey)) "invalid node pubkey";
    nodeAddress ← lift (PubKey.GetThorAddress (ds_OperatorPubKey session));
    bond ← pending_bond session nodePubKey nodeAddress;
    bonder ← GetShielderNodeBonder nodePubKey (ds_Owner session);
    let '(bonder, bond) :=
      if Acc_Empty (br_Bonder bonder) then
        (ShielderNodeBonder_zero
           <| br_NodePubKey := nodePubKey |>
           <| br_Bonder := ds_Owner session |>
           <| br_FeeDebtShare := nb_FeePerBondShare bond |>
           <| br_CreatedHeight := BlockHeight ctx |>
           <| br_UpdatedHeight := BlockHeight ctx |>,
         bond <| nb_Bonders := appendUniqueString (nb_Bonders bond) (ds_Owner session) |>)
      else (bonder, bond) in
    let bonder := bonder <| br_PendingSats := br_PendingSats bonder +u amountSats |>
      <| br_UpdatedHeight := BlockHeight ctx |> in
    let bond := bond <| nb_PendingSats := nb_PendingSats bond +u amountSats |>
      <| nb_UpdatedHeight := BlockHeight ctx |> in
    _ ← SetShielderNodeBonder bonder;
    _ ← SetShielderNodeBond bond;
    mret (nb_Slot bond).

Definition activate_bonder (bond : ShielderNodeBond) (bonderAddress : string) : KM unit :=
  addr ← lift (AccAddressFromBech32 bonderAddress);
  bonder ← GetShielderNodeBonder (nb_NodePubKey bond) addr;
  if br_PendingSats bonder =? 0 then mret tt
  else SetShielderNodeBonder (bonder
    <| br_PrincipalSats := br_PrincipalSats bonder +u br_PendingSats bonder |>
    <| br_PendingSats := 0 |>
    <| br_FeeDebtShare := nb_FeePerBondShare bond |>
    <| br_UpdatedHeight := BlockHeight ctx |>).

Definition activatePendingNodeBonders (bond : ShielderNodeBond) : KM unit :=
  mfor (activate_bonder bond) (nb_Bonders bond).

Definition activatePendingNodeBonder (bond : ShielderNodeBond) (owner : string) (amountSats : Z)
    : KM unit :=
  bonder ← GetShielderNodeBonder (nb_NodePubKey bond) owner;
  _ ← fail_if (Acc_Empty (br_Bonder bonder)) "node bonder not found";
  _ ← fail_if (br_PendingSats bonder <? amountSats) "node bonder pending bond underflow";
  SetShielderNodeBonder (bonder
    <| br_FeeDebtShare := weightedFeeDebtShare (br_PrincipalSats bonder)
         (br_FeeDebtShare bonder) amountSats (nb_FeePerBondShare bond) |>
    <| br_PrincipalSats := br_PrincipalSats bonder +u amountSats |>
    <| br_PendingSats := br_PendingSats bonder -u amountSats |>
    <| br_UpdatedHeight := BlockHeight ctx |>).

(** The node account the bond is written to. *)
Definition bonded_account (bond : ShielderNodeBond) (nodePubKey operatorAddress : string)
    (nodeAccount : NodeAccount) : NodeAccount :=
  let nodeAccount :=
    if NodeAccount_IsEmpty nodeAccount
    then NewNodeAccount (nb_NodeAddress bond) NodeWhiteListed EmptyPubKeySet nodePubKey 0
           operatorAddress (BlockHeight ctx)
    else nodeAccount in
  nodeAccount <| na_NodeConsPubKey := nodePubKey |> <| na_BondAddress := operatorAddress |>
    <| na_Bond := nb_BondSats bond |>.

Definition confirmShielderNodeBond (deposit : DepositRecord) : KM unit :=
  if negb (IsNodeBond deposit) then mret tt
  else
    bond ← GetShielderNodeBond (dr_NodePubKey deposit);
    _ ← fail_if (Acc_Empty (nb_NodeAddress bond)) "shielder node bond not found";
    _ ← fail_if (nb_PendingSats bond <? dr_AmountSats deposit)
          "shielder node pending bond underflow";
    requiredSats ← shielderBondRequiredSats (nb_Slot bond);
    if negb (nb_FeeShareActive bond) && (nb_BondSats bond +u nb_PendingSats bond <? requiredSats)
    then SetShielderNodeBond (bond <| nb_UpdatedHeight := BlockHeight ctx |>)
    else
      pool ← distributeFeePool;
      bond ← settleNodeFeeShare ctx bond pool;
      '(bond, confirmedSats) ←
        (if negb (nb_FeeShareActive bond) then
           let confirmedSats := nb_PendingSats bond in
           let bond := bond <| nb_PendingSats := 0 |> in
           _ ← activatePendingNodeBonders bond;
           mret (bond, confirmedSats)
         else
           let bond := bond <| nb_PendingSats := nb_PendingSats bond -u dr_AmountSats deposit |> in
           _ ← activatePendingNodeBonder bond (dr_Owner deposit) (dr_AmountSats deposit);
           mret (bond, dr_AmountSats deposit));
      let bond := bond <| nb_BondSats := nb_BondSats bond +u confirmedSats |> in
      let '(bond, pool) :=
        if negb (nb_FeeShareActive bond)
        then (bond <| nb_FeeShareActive := true |> <| nb_FeeDebtSats := fp_FeePerSlotShare pool |>,
              pool <| fp_TotalSlots := fp_TotalSlots pool +u 1 |>)
        else (bond, pool) in
      let bond := bond <| nb_UpdatedHeight := BlockHeight ctx |> in
      nodeAccount ← GetNodeAccount ctx (nb_NodeAddress bond);
      operatorAddress ← lift (PubKey.GetThorAddress (nb_OperatorPubKey bond));
      operatorCommonAddress ← lift (Address.NewAddress operatorAddress);
      _ ← SetNodeAccount ctx
            (bonded_account bond (dr_NodePubKey deposit) operatorCommonAddress nodeAccount);
      _ ← SetShielderNodeBond bond;
      SetFeePool pool.

Definition confirmBondFromNoteSpend (owner nodePubKey operator : string) (amountSats : Z)
    : KM ShielderNodeBond :=
  nodeSlot ← recordPendingShielderNodeBond (DepositSession_zero
    <| ds_Owner := owner |> <| ds_OperatorPubKey := operator |>
    <| ds_NodePubKey := nodePubKey |>) amountSats;
  _ ← confirmShielderNodeBond (DepositRecord_zero
    <| dr_Owner := owner |> <| dr_AmountSats := amountSats |>
    <| dr_OperatorPubKey := operator |> <| dr_NodePubKey := nodePubKey |>
    <| dr_NodeSlot := nodeSlot |> <| dr_Settlement := DepositSettlementOperatorBond |>);
  GetShielderNodeBond nodePubKey.

(** ** The operator's fee *)

Definition SetNodeOperatorFeeBasisPoints (signer nodePubKey : string) (feeBasisPoints : Z)
    : KM ShielderNodeBond :=
  _ ← fail_if (Acc_Empty signer) "missing node operator signer";
  _ ← fail_if (MaxNodeOperatorFeeBasisPoints <? feeBasisPoints)
        "node operator fee basis points too large";
  bond ← GetShielderNodeBond nodePubKey;
  _ ← fail_if (is_blank (nb_NodePubKey bond)) "shielder node bond not found";
  operatorAddress ← lift (nodeBondOperatorAddress bond);
  _ ← fail_if (negb (Acc_Equals signer operatorAddress)) "node operator signer mismatch";
  pool ← distributeFeePool;
  bond ← settleNodeFeeShare ctx bond pool;
  let bond := bond <| nb_OperatorFeeBasisPoints := feeBasisPoints |>
    <| nb_UpdatedHeight := BlockHeight ctx |> in
  _ ← SetShielderNodeBond bond;
  mret bond.

Definition getNodeBonders `{SortSlice} (nodePubKey : string) : KM (list ShielderNodeBonder) :=
  bonders ← getIterator kv_shielder_node_bonder;
  mret (sort_bonders
    (List.filter (λ bonder, str_eq (br_NodePubKey bonder) (TrimSpace nodePubKey)) bonders)).

(** ** Claiming fees *)

Definition shielderFeeDepositID (nodePubKey owner : string) (accrued height : Z) : res string :=
  TxID.NewTxID (Sha256.Sum256Hex ("thornado:fee-shield:v1|" ++ nodePubKey ++ "|" ++ owner
    ++ "|" ++ itoa accrued ++ "|" ++ itoa height)).

Definition fee_pubkey_step (acc : list string) (item : string) : res (list string) :=
  let pubKey := TrimSpace item in
  if is_empty pubKey then Err "missing shielder fee note pubkey"
  else if match hex_decode pubKey with None => true | Some _ => false end
          || negb (String.length pubKey =? 66)%nat
  then Err "invalid shielder fee note pubkey"
  else if existsb (str_eq pubKey) acc then Err "duplicate shielder fee note pubkey"
  else Ok (acc ++ [pubKey])%list.

Definition parseShielderFeeNotePubKeys (raw : list string) (expected : nat) : res (list string) :=
  if negb (length raw =? expected)%nat then Err "shielder fee note pubkey count mismatch"
  else rfold fee_pubkey_step [] raw.

Definition shielderFeeClaimPayload (nodePubKey owner : string) (accrued feePerSlotShare : Z)
    (notes : list shielderNoteCommitment) (notePubKeys : list string) : bytes :=
  Sha256.Sum256 (join "|"
    (["thornado:fee-claim:v1"; nodePubKey; owner; itoa accrued; itoa feePerSlotShare]
     ++ zip_with (λ note pk, (itoa (nc_DenominationSats note) ++ ":" ++ nc_Commitment note
                    ++ ":" ++ TrimSpace pk)%string) notes notePubKeys)%list).

Definition insert_fee_note {E : MerkleEngine} (b : Batch)
    (note_key : shielderNoteCommitment * string) : KM Batch :=
  let '(note, notePubKey) := note_key in
  _ ← fail_if (is_empty (nc_Commitment note)) "empty shielder fee commitment";
  _ ← fail_if (bool_decide (nc_Commitment note ∈ b_seen b)) "duplicate shielder fee commitment";
  exists_ ← ShielderCommitmentExists (nc_Commitment note);
  _ ← fail_if exists_ "shielder fee commitment already exists";
  used ← ShielderFeeNotePubKeyUsed notePubKey;
  _ ← fail_if used "shielder fee note pubkey already used";
  append_note ctx (SetShielderFeeNotePubKey notePubKey) b note.

(** Who claims and how much: the caller must be a bonder or the operator. *)
Record FeeClaim := mkFeeClaim {
  fc_isBonder : bool;
  fc_isOperator : bool;
  fc_bonderClaimSats : Z;
  fc_operatorClaimSats : Z
}.

Definition fee_claim (owner operatorAddress : string) (bond : ShielderNodeBond)
    (bonder : ShielderNodeBonder) : KM FeeClaim :=
  let isBonder := negb (Acc_Empty (br_Bonder bonder)) && negb (br_PrincipalSats bonder =? 0) in
  let isOperator := Acc_Equals owner operatorAddress in
  _ ← fail_if (negb isBonder && negb isOperator) "shielder fee owner mismatch";
  _ ← fail_if (isBonder && negb (TxID.IsEmpty (br_PendingFeeDepositID bonder)))
        "shielder bonder fee settlement already pending shield";
  _ ← fail_if (isOperator && negb (TxID.IsEmpty (nb_PendingOperatorFeeDepositID bond)))
        "shielder operator fee settlement already pending shield";
  bonderClaimSats ← (if isBonder then nodeBonderClaimableSats bond bonder else mret 0);
  mret (mkFeeClaim isBonder isOperator bonderClaimSats
          (if isOperator then nb_OperatorFeeAccruedSats bond else 0)).

Definition ShieldShielderFees {E : MerkleEngine} `{Secp} `{NoteJson} (owner nodePubKey : string)
    (operatorSignature : bytes) (commitments feeNotePubKeys : list string) : KM DepositRecord :=
  _ ← fail_if (Acc_Empty owner) "missing shielder fee owner";
  _ ← fail_if (length commitments =? 0)%nat "missing shielder fee commitments";
  bond ← GetShielderNodeBond nodePubKey;
  _ ← fail_if (is_empty (nb_NodePubKey bond) || negb (nb_FeeShareActive bond))
        "shielder node has no confirmed bond";
  pool ← distributeFeePool;
  bond ← settleNodeFeeShare ctx bond pool;
  operatorAddress ← lift (nodeBondOperatorAddress bond);
  bonder ← GetShielderNodeBonder nodePubKey owner;
  claim ← fee_claim owner operatorAddress bond bonder;
  let claimSats := fc_bonderClaimSats claim +u fc_operatorClaimSats claim in
  _ ← fail_if (claimSats =? 0) "no shielder fees claimable";
  _ ← fail_if ((fp_TotalCollectedSats pool <? fp_TotalClaimedSats pool)
        || (fp_TotalCollectedSats pool -u fp_TotalClaimedSats pool <? claimSats))
        "shielder fee claim exceeds available fees";
  depositID ← lift (shielderFeeDepositID nodePubKey owner (fp_FeePerSlotShare pool)
                      (BlockHeight ctx));
  let deposit := DepositRecord_zero
    <| dr_DepositID := depositID |> <| dr_Owner := owner |> <| dr_AmountSats := claimSats |>
    <| dr_DepositAddress := NoopAddress |> <| dr_MatchedHeight := BlockHeight ctx |>
    <| dr_Status := DepositStatusSettled |>
    <| dr_Settlement := DepositSettlementOperatorFee |> in
  noteCommitments ← lift (parseShielderNoteCommitments commitments claimSats false);
  '(noteCommitments, floorRemainder) ← applyShielderNoteFloor noteCommitments claimSats false;
  let claimSats := if 0 <? floorRemainder then claimSats -u floorRemainder else claimSats in
  let deposit := deposit <| dr_AmountSats := claimSats |> in
  notePubKeys ← lift (parseShielderFeeNotePubKeys feeNotePubKeys (length noteCommitments));
  _ ← fail_if (negb (shielderNoteCommitmentTotal noteCommitments =? claimSats))
        "shielder fee commitment denominations do not match claim amount";
  _ ← (if negb (length operatorSignature =? 0)%nat && fc_isOperator claim then
         lift (verifySecp256K1SignaturePayload (nb_OperatorPubKey bond) operatorSignature
           (shielderFeeClaimPayload nodePubKey owner (fp_FeePerSlotShare pool)
              (fp_FeePerSlotShare pool) noteCommitments notePubKeys))
       else fail_if (negb (length operatorSignature =? 0)%nat && negb (fc_isOperator claim))
              "bonder fee claims must not include an operator signature");
  b ← mfold insert_fee_note Batch_empty (zip noteCommitments notePubKeys);
  _ ← persistShielderTreeStates b;
  _ ← (if fc_isBonder claim && negb (fc_bonderClaimSats claim =? 0) then
         SetShielderNodeBonder (bonder <| br_FeeDebtShare := nb_FeePerBondShare bond |>
           <| br_UpdatedHeight := BlockHeight ctx |>)
       else mret tt);
  let bond := if fc_isOperator claim && negb (fc_operatorClaimSats claim =? 0)
    then bond <| nb_OperatorFeeAccruedSats :=
           nb_OperatorFeeAccruedSats bond -u fc_operatorClaimSats claim |>
    else bond in
  let bond := bond <| nb_UpdatedHeight := BlockHeight ctx |> in
  let pool := pool <| fp_TotalClaimedSats := fp_TotalClaimedSats pool +u claimSats |> in
  let deposit := deposit <| dr_Status := DepositStatusCommitted |> in
  _ ← SetDepositRecord deposit;
  _ ← SetShielderNodeBond bond;
  _ ← SetFeePool pool;
  _ ← (if 0 <? floorRemainder then addWithdrawalFee floorRemainder else mret tt);
  mret deposit.
End Bonds.

#[export] Hint Unfold shielderBondRequiredSats activate_bonder activatePendingNodeBonders
  activatePendingNodeBonder insert_fee_note fee_claim : flow.

(** ** Lemmas *)

Definition bond_at (s : KVStore) (nodePubKey : string) : ShielderNodeBond :=
  from_option ShielderNodeBond_zero (kv_shielder_node_bond s !! ToUpper (TrimSpace nodePubKey)).

(** The bonder record as the keeper returns it. *)
Definition bonder_at (s : KVStore) (nodePubKey owner : string) : ShielderNodeBonder :=
  from_option (ShielderNodeBonder_zero <| br_NodePubKey := TrimSpace nodePubKey |>
      <| br_Bonder := owner |>)
    (kv_shielder_node_bonder s !! ToUpper (ShielderNodeBonderKey nodePubKey owner)).

Definition bond_total (bond : ShielderNodeBond) : Z := nb_BondSats bond + nb_PendingSats bond.
Definition bonder_total (bonder : ShielderNodeBonder) : Z :=
  br_PrincipalSats bonder + br_PendingSats bonder.

(** Records sit under their own keys, and amounts are in range. *)
Record registry_ok (s : KVStore) (slack : Z) : Prop := {
  rg_bonds : ∀ k b, kv_shielder_node_bond s !! k = Some b →
    k = ToUpper (ShielderNodeBond_Key b) ∧ nb_NodeAddress b ≠ "" ∧ 0 <= nb_BondSats b ∧ 0 <= nb_PendingSats b
    ∧ bond_total b + slack < two64;
  rg_bonders : ∀ k b, kv_shielder_node_bonder s !! k = Some b →
    k = ToUpper (ShielderNodeBonder_Key b) ∧ br_Bonder b ≠ ""
    ∧ 0 <= br_PrincipalSats b ∧ 0 <= br_PendingSats b ∧ bonder_total b + slack < two64;
  rg_accounts : ∀ k na, kv_node_account s !! k = Some na → k = ToUpper (na_NodeAddress na)
}.

Lemma bonder_key_cong a b x :
  ToUpper (TrimSpace a) = ToUpper (TrimSpace b) →
  ToUpper (ShielderNodeBonderKey a x) = ToUpper (ShielderNodeBonderKey b x).
Proof.
  intros H. unfold ShielderNodeBonderKey.
  assert (Happ : ∀ u v, ToUpper (u ++ v) = ToUpper u ++ ToUpper v).
  { induction u as [|c u IH]; intros v; [done|].
    change (String (upper_char c) (ToUpper (u ++ v)) = String (upper_char c) (ToUpper u ++ ToUpper v)).
    by rewrite IH. }
  by rewrite !Happ, H.
Qed.

Lemma get_bond_run nodePubKey s :
  GetShielderNodeBond nodePubKey s = (Ok (bond_at s nodePubKey), s).
Proof. unfold bond_at. autounfold with keeper. by rewrite TrimSpace_idem. Qed.

Lemma get_bonder_run nodePubKey owner s :
  GetShielderNodeBonder nodePubKey owner s = (Ok (bonder_at s nodePubKey owner), s).
Proof.
  unfold bonder_at. autounfold with keeper. unfold ShielderNodeBonder_Key. rec_simpl.
  unfold ShielderNodeBonderKey at 1. by rewrite TrimSpace_idem.
Qed.

Lemma set_bond_ok bond s s' :
  SetShielderNodeBond bond s = (Ok tt, s') →
  nb_NodeAddress bond ≠ ""
  ∧ s' = s <| kv_shielder_node_bond :=
    <[ToUpper (ShielderNodeBond_Key bond) := bond]> (kv_shielder_node_bond s) |>.
Proof.
  intros H. autounfold with keeper in H. apply bind_Ok in H as ([] & s1 & [Hv ->]%lift_Ok & H).
  apply modify_Ok in H as <-. split; [|done]. intros He. unfold ShielderNodeBond_Valid in Hv.
  rewrite He in Hv. simpl in Hv. by repeat case_match.
Qed.

Lemma set_bonder_ok bonder s s' :
  SetShielderNodeBonder bonder s = (Ok tt, s') →
  br_Bonder bonder ≠ ""
  ∧ s' = s <| kv_shielder_node_bonder :=
    <[ToUpper (ShielderNodeBonder_Key bonder) := bonder]> (kv_shielder_node_bonder s) |>.
Proof.
  intros H. autounfold with keeper in H. apply bind_Ok in H as ([] & s1 & [Hv ->]%lift_Ok & H).
  apply modify_Ok in H as <-. split; [|done]. intros He. unfold ShielderNodeBonder_Valid in Hv.
  rewrite He in Hv. simpl in Hv. by destruct (is_blank _).
Qed.

Section BondLemmas.
Context `{Ext} (ctx : Ctx).

(** The activation of one listed bonder keeps its total and leaves the others. *)
Definition totals_kept (s s' : KVStore) : Prop := ∀ k,
  match kv_shielder_node_bonder s' !! k with
  | Some b' => match kv_shielder_node_bonder s !! k with
               | Some b => bonder_total b' = bonder_total b ∧ br_Bonder b' = br_Bonder b
                           ∧ br_NodePubKey b' = br_NodePubKey b
               | None => False
               end
  | None => kv_shielder_node_bonder s !! k = None
  end.

Lemma totals_kept_refl s : totals_kept s s.
Proof. intros k. by destruct (kv_shielder_node_bonder s !! k). Qed.

Lemma totals_kept_trans s1 s2 s3 : totals_kept s1 s2 → totals_kept s2 s3 → totals_kept s1 s3.
Proof.
  intros H1 H2 k. specialize (H1 k). specialize (H2 k).
  destruct (kv_shielder_node_bonder s3 !! k), (kv_shielder_node_bonder s2 !! k),
    (kv_shielder_node_bonder s1 !! k); try done; intuition congruence.
Qed.

Lemma activate_bonder_ok bond address s s' slack :
  0 <= slack → registry_ok s slack → activate_bonder ctx bond address s = (Ok tt, s') →
  registry_ok s' slack ∧ totals_kept s s'
  ∧ kv_shielder_node_bond s' = kv_shielder_node_bond s ∧ kv_fee_pool s' = kv_fee_pool s
  ∧ kv_node_account s' = kv_node_account s
  ∧ ∃ addr, AccAddressFromBech32 address = Ok addr
     ∧ ∀ k, k ≠ ToUpper (ShielderNodeBonderKey (nb_NodePubKey bond) addr) →
         kv_shielder_node_bonder s' !! k = kv_shielder_node_bonder s !! k.
Proof.
  intros H0 R Hrun. destruct (R) as [R1 R2 R3]. unfold activate_bonder in Hrun.
  apply bind_Ok in Hrun as (addr & s0 & [Haddr ->]%lift_Ok & Hrun).
  rewrite (bind_run _ _ _ _ _ (get_bonder_run _ _ _)) in Hrun.
  unfold bonder_at in Hrun.
  set (key := ToUpper (ShielderNodeBonderKey (nb_NodePubKey bond) addr)) in *.
  destruct (kv_shielder_node_bonder s !! key) as [b|] eqn:Eb; cbn [from_option] in Hrun.
  2: { change (br_PendingSats _ =? 0) with true in Hrun.
    apply mret_Ok in Hrun as [_ ->]. split_and!; try done; [apply totals_kept_refl|by eauto]. }
  destruct (br_PendingSats b =? 0) eqn:Ep.
  { apply mret_Ok in Hrun as [_ ->]. split_and!; try done; [apply totals_kept_refl|by eauto]. }
  destruct (R2 _ _ Eb) as (Hk & Hne & B1 & B2 & B3). unfold bonder_total in B3.
  apply set_bonder_ok in Hrun as [_ ->]. unfold ShielderNodeBonder_Key in *. rec_simpl.
  rewrite <- Hk, (u64_small (_ + _)) by u64_lia. split_and!; try done.
  - split; rec_simpl; [done| |done]. intros k b' Hb'.
    destruct (decide (k = key)) as [->|Hne'].
    + rewrite lookup_insert_eq in Hb'. injection Hb' as <-. unfold bonder_total. rec_simpl.
      split_and!; try done; lia.
    + rewrite lookup_insert_ne in Hb' by done. by apply R2.
  - intros k. rec_simpl. destruct (decide (k = key)) as [->|Hne'].
    + rewrite lookup_insert_eq, Eb. unfold bonder_total. rec_simpl. split; [lia|done].
    + rewrite lookup_insert_ne by done. by destruct (kv_shielder_node_bonder s !! k).
  - exists addr. split; [done|]. intros k Hk'. rec_simpl. by rewrite lookup_insert_ne.
Qed.

Lemma activate_bonders_ok bond s s' slack :
  0 <= slack → registry_ok s slack → activatePendingNodeBonders ctx bond s = (Ok tt, s') →
  registry_ok s' slack ∧ totals_kept s s'
  ∧ kv_shielder_node_bond s' = kv_shielder_node_bond s ∧ kv_fee_pool s' = kv_fee_pool s
  ∧ kv_node_account s' = kv_node_account s
  ∧ ∀ k, (∀ address addr, address ∈ nb_Bonders bond → AccAddressFromBech32 address = Ok addr →
            k ≠ ToUpper (ShielderNodeBonderKey (nb_NodePubKey bond) addr)) →
         kv_shielder_node_bonder s' !! k = kv_shielder_node_bonder s !! k.
Proof.
  intros H0. unfold activatePendingNodeBonders, mfor. generalize (nb_Bonders bond) as l.
  intros l. revert s. induction l as [|address l IH]; intros s R Hrun.
  - apply mret_Ok in Hrun as [_ ->]. split_and!; try done. apply totals_kept_refl.
  - rewrite mfold_cons in Hrun. apply bind_Ok in Hrun as ([] & s1 & H1 & H2).
    apply (activate_bonder_ok _ _ _ _ slack) in H1 as (R1 & T1 & A1 & A2 & A4 & addr & Haddr & A3);
      [|done|done].
    apply IH in H2 as (R2 & T2 & B1 & B2 & B4 & B3); [|done].
    split_and!; [done|by eapply totals_kept_trans|congruence|congruence|congruence|].
    intros k Hk. rewrite B3; [apply A3|].
    + by apply (Hk address); [apply list_elem_of_here|].
    + intros address' addr' Hin. apply Hk. by apply list_elem_of_further.
Qed.

(** The registry after a bonder's and a bond's record are written. *)
Lemma registry_write s slack slack' bonder bond :
  registry_ok s slack → slack' <= slack →
  br_Bonder bonder ≠ "" → 0 <= br_PrincipalSats bonder → 0 <= br_PendingSats bonder →
  bonder_total bonder + slack' < two64 →
  nb_NodeAddress bond ≠ "" → 0 <= nb_BondSats bond → 0 <= nb_PendingSats bond →
  bond_total bond + slack' < two64 →
  registry_ok (s <| kv_shielder_node_bonder :=
      <[ToUpper (ShielderNodeBonder_Key bonder) := bonder]> (kv_shielder_node_bonder s) |>
    <| kv_shielder_node_bond :=
      <[ToUpper (ShielderNodeBond_Key bond) := bond]> (kv_shielder_node_bond s) |>) slack'.
Proof.
  intros [R1 R2 R3] Hs Hb1 Hb2 Hb3 Hb4 Hn1 Hn2 Hn3 Hn4.
  split; rec_simpl; [| |done]; intros k b Hk.
  - destruct (decide (k = ToUpper (ShielderNodeBond_Key bond))) as [->|Hne].
    + rewrite lookup_insert_eq in Hk. by injection Hk as <-.
    + rewrite lookup_insert_ne in Hk by done. destruct (R1 _ _ Hk) as (? & ? & ? & ? & ?).
      split_and!; try done. lia.
  - destruct (decide (k = ToUpper (ShielderNodeBonder_Key bonder))) as [->|Hne].
    + rewrite lookup_insert_eq in Hk. by injection Hk as <-.
    + rewrite lookup_insert_ne in Hk by done. destruct (R2 _ _ Hk) as (? & ? & ? & ? & ?).
      split_and!; try done. lia.
Qed.

(** The bond a pending amount is added to: the stored one, or a fresh one. *)
Lemma pending_bond_ok session nodePubKey nodeAddress bond s s1 slack :
  TrimSpace nodePubKey = nodePubKey → ds_Owner session ≠ "" → registry_ok s slack →
  0 <= slack < two64 →
  pending_bond ctx session nodePubKey nodeAddress s = (Ok bond, s1) →
  ToUpper (ShielderNodeBond_Key bond) = ToUpper nodePubKey
  ∧ nb_BondSats bond = nb_BondSats (bond_at s nodePubKey)
  ∧ nb_PendingSats bond = nb_PendingSats (bond_at s nodePubKey)
  ∧ nb_FeeShareActive bond = nb_FeeShareActive (bond_at s nodePubKey)
  ∧ 0 <= nb_BondSats bond ∧ 0 <= nb_PendingSats bond ∧ bond_total bond + slack < two64
  ∧ nb_Bonders bond = (if Acc_Empty (nb_NodeAddress (bond_at s nodePubKey))
                       then [ds_Owner session] else nb_Bonders (bond_at s nodePubKey))
  ∧ kv_shielder_node_bonder s1 = kv_shielder_node_bonder s
  ∧ kv_shielder_node_bond s1 = kv_shielder_node_bond s
  ∧ kv_fee_pool s1 = kv_fee_pool s ∧ kv_config s1 = kv_config s
  ∧ kv_node_account s1 = kv_node_account s.
Proof.
  intros Htrim Ho [R1 R2 _] Hsl Hrun. unfold pending_bond in Hrun.
  rewrite (bind_run _ _ _ _ _ (get_bond_run _ _)) in Hrun.
  destruct (Acc_Empty _) eqn:Ea.
  - go_guards Hrun. keeper_inv. unfold ShielderNodeBond_Key, bond_total. rec_simpl.
    rewrite Htrim. unfold bond_at in *.
    destruct (kv_shielder_node_bond s !! _) as [b|] eqn:Eb.
    + destruct (R1 _ _ Eb) as (_ & Hne & _). unfold Acc_Empty, is_empty in Ea.
      by apply str_eq_true in Ea.
    + unfold fst, snd, from_option. simpl. split_and!; try done; lia.
  - go_guards Hrun. apply mret_Ok in Hrun as [-> ->]. unfold bond_at in *.
    destruct (kv_shielder_node_bond s !! _) as [b|] eqn:Eb; [|done].
    destruct (R1 _ _ Eb) as (Hk & Hne & B1 & B2 & B3). cbn [from_option].
    rewrite <- Hk, Htrim. by split_and!.
Qed.

(** What recording a pending amount does. *)
Definition pending_recorded (owner nodePubKey : string) (amount : Z) (s s1 : KVStore) : Prop :=
  let before := bond_at s nodePubKey in
  let after := bond_at s1 nodePubKey in
  nb_BondSats after = nb_BondSats before
  ∧ nb_PendingSats after = nb_PendingSats before + amount
  ∧ nb_FeeShareActive after = nb_FeeShareActive before
  ∧ nb_Bonders after = (if Acc_Empty (nb_NodeAddress before) then [owner] else nb_Bonders before)
  ∧ ToUpper (ShielderNodeBond_Key after) = ToUpper (TrimSpace nodePubKey)
  ∧ br_PrincipalSats (bonder_at s1 nodePubKey owner) = br_PrincipalSats (bonder_at s nodePubKey owner)
  ∧ br_PendingSats (bonder_at s1 nodePubKey owner)
    = br_PendingSats (bonder_at s nodePubKey owner) + amount
  ∧ (∀ k, k ≠ ToUpper (ShielderNodeBonderKey nodePubKey owner) →
       kv_shielder_node_bonder s1 !! k = kv_shielder_node_bonder s !! k)
  ∧ (∀ k, k ≠ ToUpper (TrimSpace nodePubKey) →
       kv_shielder_node_bond s1 !! k = kv_shielder_node_bond s !! k)
  ∧ kv_fee_pool s1 = kv_fee_pool s ∧ kv_config s1 = kv_config s
  ∧ kv_node_account s1 = kv_node_account s.

Lemma bonder_at_range s nodePubKey owner slack :
  TrimSpace nodePubKey = nodePubKey → owner ≠ "" → registry_ok s slack → 0 <= slack < two64 →
  let b := bonder_at s nodePubKey owner in
  ToUpper (ShielderNodeBonder_Key b) = ToUpper (ShielderNodeBonderKey nodePubKey owner)
  ∧ br_Bonder b ≠ "" ∧ 0 <= br_PrincipalSats b ∧ 0 <= br_PendingSats b
  ∧ bonder_total b + slack < two64.
Proof.
  intros Htrim Ho [_ R2 _] Hsl. unfold bonder_at.
  destruct (kv_shielder_node_bonder s !! _) as [b|] eqn:Eb; cbn [from_option].
  - destruct (R2 _ _ Eb) as (Hk & Hb & B1 & B2 & B3). by rewrite <- Hk.
  - unfold ShielderNodeBonder_Key, bonder_total. rec_simpl. rewrite Htrim.
    split_and!; try done. simpl. lia.
Qed.

Lemma record_pending_ok session amount slot s s1 slack :
  let nodePubKey := TrimSpace (ds_NodePubKey session) in
  nodePubKey ≠ "" → 0 <= amount → 0 <= slack → slack + amount < two64 →
  registry_ok s (slack + amount) →
  recordPendingShielderNodeBond ctx session amount s = (Ok slot, s1) →
  registry_ok s1 slack ∧ ds_Owner session ≠ ""
  ∧ pending_recorded (ds_Owner session) nodePubKey amount s s1.
Proof.
  cbv zeta. set (npk := TrimSpace (ds_NodePubKey session)). intros Hn Ha Hsl Hsum R Hrun.
  assert (Htrim : TrimSpace npk = npk) by apply TrimSpace_idem.
  unfold recordPendingShielderNodeBond in Hrun. fold npk in Hrun. cbv zeta in Hrun.
  apply str_eq_false in Hn. unfold is_empty in Hrun. rewrite Hn in Hrun. go_guards Hrun.
  assert (Ho : ds_Owner session ≠ "") by (by apply str_eq_false).
  apply bind_Ok in Hrun as (nodeAddress & s2 & [_ ->]%lift_Ok & Hrun).
  apply bind_Ok in Hrun as (bond & s2 & Hbond & Hrun).
  apply (pending_bond_ok _ _ _ _ _ _ (slack + amount)) in Hbond
    as (P1 & P2 & P3 & P4 & P5 & P6 & P7 & P8 & P9 & P10 & P11 & P12 & P13); try done; [|lia].
  rewrite (bind_run _ _ _ _ _ (get_bonder_run _ _ _)) in Hrun.
  assert (Hat : bonder_at s2 npk (ds_Owner session) = bonder_at s npk (ds_Owner session)).
  { unfold bonder_at. by rewrite P9. }
  rewrite Hat in Hrun.
  destruct (bonder_at_range s npk (ds_Owner session) (slack + amount)) as (Q1 & Q2 & Q3 & Q4 & Q5);
    try done; [lia|].
  apply str_eq_false in Q2. unfold Acc_Empty, is_empty in Hrun. rewrite Q2 in Hrun.
  cbv zeta iota in Hrun.
  apply bind_Ok in Hrun as ([] & s3 & Hb & Hrun).
  apply set_bonder_ok in Hb as [Hb1 ->].
  apply bind_Ok in Hrun as ([] & s4 & Hb & Hrun). apply set_bond_ok in Hb as [Hb2 ->].
  apply mret_Ok in Hrun as [-> ->].
  assert (R' : registry_ok s2 (slack + amount)).
  { destruct R as [R1 R2 R3]. split; [by rewrite P10|by rewrite P9|by rewrite P13]. }
  set (b0 := bonder_at s npk (ds_Owner session)) in *.
  set (b1 := b0 <| br_PendingSats := br_PendingSats b0 +u amount |>
    <| br_UpdatedHeight := BlockHeight ctx |>) in *.
  set (n1 := bond <| nb_PendingSats := nb_PendingSats bond +u amount |>
    <| nb_UpdatedHeight := BlockHeight ctx |>) in *.
  unfold bond_total in P7. unfold bonder_total in Q5.
  assert (E1 : br_PendingSats b1 = br_PendingSats b0 + amount).
  { unfold b1. rec_simpl. apply u64_small. u64_lia. }
  assert (E2 : nb_PendingSats n1 = nb_PendingSats bond + amount).
  { unfold n1. rec_simpl. apply u64_small. u64_lia. }
  assert (K1 : ToUpper (ShielderNodeBonder_Key b1)
    = ToUpper (ShielderNodeBonderKey npk (ds_Owner session))) by exact Q1.
  assert (K2 : ToUpper (ShielderNodeBond_Key n1) = ToUpper npk) by exact P1.
  split; [|split; [done|]].
  - apply (registry_write s2 (slack + amount)); try done; try lia;
      unfold bonder_total, bond_total; rewrite ?E1, ?E2; unfold b1, n1; rec_simpl; lia.
  - rewrite K1, K2. match goal with |- pending_recorded _ _ _ _ ?x => set (s3 := x) end.
    assert (A1 : bond_at s3 npk = n1).
    { unfold bond_at, s3. rec_simpl. by rewrite Htrim, lookup_insert_eq. }
    assert (A2 : bonder_at s3 npk (ds_Owner session) = b1).
    { unfold bonder_at, s3. rec_simpl. by rewrite lookup_insert_eq. }
    unfold pending_recorded. cbv zeta. rewrite A1, A2, E1, E2, K2, Htrim. fold b0.
    unfold s3. rec_simpl. split_and!; try done; try congruence.
    + intros k Hk. rewrite lookup_insert_ne by done. by rewrite P9.
    + intros k Hk. rewrite lookup_insert_ne by done. by rewrite P10.
Qed.

(** ** Lemmas: confirmation *)

Lemma settle_keeps scale bond pool :
  let bond' := settle ctx scale bond pool in
  nb_NodePubKey bond' = nb_NodePubKey bond ∧ nb_NodeAddress bond' = nb_NodeAddress bond
  ∧ nb_OperatorPubKey bond' = nb_OperatorPubKey bond ∧ nb_Slot bond' = nb_Slot bond
  ∧ nb_PendingSats bond' = nb_PendingSats bond ∧ nb_BondSats bond' = nb_BondSats bond
  ∧ nb_FeeShareActive bond' = nb_FeeShareActive bond ∧ nb_Bonders bond' = nb_Bonders bond
  ∧ (nb_FeeShareActive bond = false → bond' = bond).
Proof.
  unfold settle. destruct (nb_FeeShareActive bond) eqn:E; cbn [negb orb]; [|by split_and!].
  destruct (fp_FeePerSlotShare pool <=? nb_FeeDebtSats bond); [by split_and!|].
  cbv zeta. destruct (_ && _); split_and!; first [discriminate|exact E|reflexivity].
Qed.

Lemma settle_run bond pool bond' s s' :
  settleNodeFeeShare ctx bond pool s = (Ok bond', s') →
  s' = s ∧ ∃ scale, bond' = settle ctx scale bond pool.
Proof. intros H0. unfold settleNodeFeeShare, feeShareScale in H0. keeper_inv. eauto. Qed.

Lemma distribute_fees_run s pool s' :
  distributeFeePool s = (Ok pool, s') →
  pool = fee_pool s' ∧ s' = s <| kv_fee_pool := kv_fee_pool s' |>.
Proof.
  unfold distributeFeePool, setDistributedFeePool, minNoteSats, fee_pool. intros H0.
  keeper_inv. rec_simpl. split; [done|]. by destruct s.
Qed.

Definition required_at (s : KVStore) (slot : Z) : Z :=
  u64 (Config.GetConfigInt64 (kv_config s) Node_BondStartAmountSats)
  +u (slot *u u64 (Config.GetConfigInt64 (kv_config s) Node_BondSlotIncrementSats)).

Lemma required_run slot s : shielderBondRequiredSats slot s = (Ok (required_at s slot), s).
Proof. reflexivity. Qed.

(** The registry after the account and the bond are written. *)
Lemma registry_finish s slack bond na pool :
  registry_ok s slack → nb_NodeAddress bond ≠ "" → 0 <= nb_BondSats bond →
  0 <= nb_PendingSats bond → bond_total bond + slack < two64 →
  registry_ok (s <| kv_node_account := <[ToUpper (na_NodeAddress na) := na]> (kv_node_account s) |>
    <| kv_shielder_node_bond :=
      <[ToUpper (ShielderNodeBond_Key bond) := bond]> (kv_shielder_node_bond s) |>
    <| kv_fee_pool := pool |>) slack.
Proof.
  intros [R1 R2 R3] H1 H2 H3 H4. split; rec_simpl; intros k b Hk.
  - destruct (decide (k = ToUpper (ShielderNodeBond_Key bond))) as [->|Hne].
    + rewrite lookup_insert_eq in Hk. by injection Hk as <-.
    + rewrite lookup_insert_ne in Hk by done. by apply R1.
  - by apply R2.
  - destruct (decide (k = ToUpper (na_NodeAddress na))) as [->|Hne].
    + rewrite lookup_insert_eq in Hk. by injection Hk as <-.
    + rewrite lookup_insert_ne in Hk by done. by apply R3.
Qed.

(** Writing the bonded account never drops it. *)
Lemma set_account_ok na s s' :
  SetNodeAccount ctx na s = (Ok tt, s') → NodeAccount_IsEmpty na = false →
  ∃ na' pen, na_NodeAddress na' = na_NodeAddress na ∧ na_Bond na' = na_Bond na
  ∧ s' = s <| kv_penalty := pen |>
           <| kv_node_account := <[ToUpper (na_NodeAddress na) := na']> (kv_node_account s) |>.
Proof.
  unfold SetNodeAccount. intros Hrun He. rewrite He in Hrun.
  apply bind_Ok in Hrun as (na' & s1 & H1 & H2). unfold setShielderJSON in H2.
  apply modify_Ok in H2 as <-.
  destruct (_ && _) in H1.
  - apply bind_Ok in H1 as ([] & s2 & H1 & H2). apply modify_Ok in H1 as <-.
    apply mret_Ok in H2 as [-> ->]. do 2 eexists. split_and!; [| |reflexivity]; done.
  - apply mret_Ok in H1 as [-> ->]. exists na, (kv_penalty s). by split_and!.
Qed.

Lemma bonded_account_nonempty bond npk addr na :
  nb_NodeAddress bond ≠ "" → NodeAccount_IsEmpty (bonded_account ctx bond npk addr na) = false.
Proof.
  intros Hn. apply str_eq_false in Hn. unfold bonded_account.
  destruct (NodeAccount_IsEmpty na) eqn:E; [|exact E].
  transitivity (str_eq (nb_NodeAddress bond) "" || false); [reflexivity|]. by rewrite Hn.
Qed.

(** What confirming a pending amount of a bond does. *)
Record confirmed (nodePubKey : string) (amount : Z) (s s' : KVStore) : Prop := {
  cf_total : bond_total (bond_at s' nodePubKey) = bond_total (bond_at s nodePubKey);
  cf_bonders : totals_kept s s';
  cf_slot : nb_Slot (bond_at s' nodePubKey) = nb_Slot (bond_at s nodePubKey);
  cf_active : nb_FeeShareActive (bond_at s' nodePubKey)
    = nb_FeeShareActive (bond_at s nodePubKey)
      || negb (bond_total (bond_at s nodePubKey)
               <? required_at s (nb_Slot (bond_at s nodePubKey)));
  cf_waiting : nb_FeeShareActive (bond_at s' nodePubKey) = false →
    kv_fee_pool s' = kv_fee_pool s ∧ kv_shielder_node_bonder s' = kv_shielder_node_bonder s
    ∧ kv_node_account s' = kv_node_account s;
  cf_account : nb_FeeShareActive (bond_at s' nodePubKey) = true →
    ∃ na, kv_node_account s' !! ToUpper (nb_NodeAddress (bond_at s' nodePubKey)) = Some na
      ∧ na_Bond na = nb_BondSats (bond_at s' nodePubKey);
  cf_added : nb_FeeShareActive (bond_at s nodePubKey) = true →
    nb_PendingSats (bond_at s' nodePubKey) = nb_PendingSats (bond_at s nodePubKey) - amount;
  cf_started : nb_FeeShareActive (bond_at s nodePubKey) = false →
    nb_FeeShareActive (bond_at s' nodePubKey) = true →
    nb_PendingSats (bond_at s' nodePubKey) = 0
    ∧ nb_FeeDebtSats (bond_at s' nodePubKey) = fp_FeePerSlotShare (fee_pool s')
    ∧ (∀ k, (∀ address addr, address ∈ nb_Bonders (bond_at s nodePubKey) →
              AccAddressFromBech32 address = Ok addr →
              k ≠ ToUpper (ShielderNodeBonderKey nodePubKey addr)) →
         kv_shielder_node_bonder s' !! k = kv_shielder_node_bonder s !! k)
}.

(** The tail of a confirmation: the account, the bond and the pool are written. *)
Definition finish_confirm (bond : ShielderNodeBond) (pool : FeePool) (nodePubKey : string)
    : KM unit :=
  nodeAccount ← GetNodeAccount ctx (nb_NodeAddress bond);
  operatorAddress ← lift (PubKey.GetThorAddress (nb_OperatorPubKey bond));
  operatorCommonAddress ← lift (Address.NewAddress operatorAddress);
  _ ← SetNodeAccount ctx (bonded_account ctx bond nodePubKey operatorCommonAddress nodeAccount);
  _ ← SetShielderNodeBond bond;
  SetFeePool pool.

Lemma finish_confirm_ok bond pool npk s s' slack :
  registry_ok s slack → nb_NodeAddress bond ≠ "" → 0 <= nb_BondSats bond →
  0 <= nb_PendingSats bond → bond_total bond + slack < two64 →
  ToUpper (ShielderNodeBond_Key bond) = ToUpper (TrimSpace npk) →
  finish_confirm bond pool npk s = (Ok tt, s') →
  registry_ok s' slack ∧ bond_at s' npk = bond
  ∧ kv_shielder_node_bonder s' = kv_shielder_node_bonder s ∧ kv_fee_pool s' = Some pool
  ∧ ∃ na, kv_node_account s' !! ToUpper (nb_NodeAddress bond) = Some na
      ∧ na_Bond na = nb_BondSats bond.
Proof.
  intros R Hn H1 H2 H3 Hk Hrun. destruct (R) as [_ _ R3]. unfold finish_confirm in Hrun.
  apply bind_Ok in Hrun as (na & s1 & Hget & Hrun).
  apply bind_Ok in Hrun as (operatorAddress & s2 & [_ ->]%lift_Ok & Hrun).
  apply bind_Ok in Hrun as (addr & s2 & [_ ->]%lift_Ok & Hrun).
  apply bind_Ok in Hrun as ([] & s3 & Hset & Hrun).
  apply bind_Ok in Hrun as ([] & s4 & Hb & Hrun). apply set_bond_ok in Hb as [_ ->].
  apply modify_Ok in Hrun as <-.
  assert (Hs1 : s1 = s ∧ na = from_option (NewNodeAccount (nb_NodeAddress bond) NodeUnknown
    EmptyPubKeySet "" 0 "" (BlockHeight ctx)) (kv_node_account s !! ToUpper (nb_NodeAddress bond))).
  { clear Hset. autounfold with keeper in Hget. apply bind_Ok in Hget as (o & s0 & [<- ->]%gets_Ok & Hg).
    by apply mret_Ok in Hg as [-> ->]. }
  destruct Hs1 as [-> Hna].
  apply set_account_ok in Hset as (na' & pen & Ha1 & Ha2 & ->);
    [|by apply bonded_account_nonempty].
  assert (Hkey : ToUpper (na_NodeAddress (bonded_account ctx bond npk addr na))
    = ToUpper (nb_NodeAddress bond)).
  { unfold bonded_account. rec_simpl. destruct (NodeAccount_IsEmpty na) eqn:Ee; [done|].
    destruct (kv_node_account s !! _) as [na0|] eqn:E0; subst na; cbn [from_option] in *.
    - by rewrite <- (R3 _ _ E0).
    - unfold NodeAccount_IsEmpty, NewNodeAccount, UpdateStatus in Ee. simpl in Ee.
      by rewrite orb_true_r in Ee. }
  split_and!.
  - rewrite <- Ha1. assert (Rp : registry_ok (s <| kv_penalty := pen |>) slack)
      by (destruct R; by split).
    exact (registry_finish _ slack bond na' (Some pool) Rp Hn H1 H2 H3).
  - unfold bond_at. rec_simpl. by rewrite Hk, lookup_insert_eq.
  - done.
  - done.
  - exists na'. rec_simpl. rewrite Hkey, lookup_insert_eq. split; [done|].
    rewrite Ha2. unfold bonded_account. by rec_simpl.
Qed.

Lemma registry_fees s slack pool :
  registry_ok s slack → registry_ok (s <| kv_fee_pool := pool |>) slack.
Proof. intros [R1 R2 R3]. by split. Qed.

Lemma bond_at_range s npk slack :
  registry_ok s slack → nb_NodeAddress (bond_at s npk) ≠ "" →
  ToUpper (ShielderNodeBond_Key (bond_at s npk)) = ToUpper (TrimSpace npk)
  ∧ 0 <= nb_BondSats (bond_at s npk) ∧ 0 <= nb_PendingSats (bond_at s npk)
  ∧ bond_total (bond_at s npk) + slack < two64.
Proof.
  intros [R1 _ _]. unfold bond_at.
  destruct (kv_shielder_node_bond s !! _) as [b|] eqn:Eb; [|done]. cbn [from_option]. intros _.
  destruct (R1 _ _ Eb) as (Hk & _ & ? & ? & ?). by rewrite <- Hk.
Qed.

(** One bonder's pending amount becomes principal. *)
Lemma activate_one_ok bond owner amount s s' slack :
  0 <= slack < two64 → 0 < amount → owner ≠ "" →
  registry_ok s slack → activatePendingNodeBonder ctx bond owner amount s = (Ok tt, s') →
  registry_ok s' slack ∧ totals_kept s s'
  ∧ kv_shielder_node_bond s' = kv_shielder_node_bond s ∧ kv_fee_pool s' = kv_fee_pool s
  ∧ kv_node_account s' = kv_node_account s.
Proof.
  intros Hsl Ha Ho R Hrun. destruct (R) as [R1 R2 R3]. unfold activatePendingNodeBonder in Hrun.
  rewrite (bind_run _ _ _ _ _ (get_bonder_run _ _ _)) in Hrun. go_guards Hrun.
  apply set_bonder_ok in Hrun as [Hne ->]. unfold bonder_at in *.
  set (key := ToUpper (ShielderNodeBonderKey (nb_NodePubKey bond) owner)) in *.
  destruct (kv_shielder_node_bonder s !! key) as [b|] eqn:Eb; cbn [from_option] in *.
  - destruct (R2 _ _ Eb) as (Hk & _ & B1 & B2 & B3). unfold bonder_total in B3.
    unfold ShielderNodeBonder_Key in *. rec_simpl. rewrite <- Hk.
    rewrite (u64_small (br_PrincipalSats b + _)), (u64_small (br_PendingSats b - _)) by u64_lia.
    split_and!; try done.
    + split; rec_simpl; [done| |done]. intros k b' Hb'. destruct (decide (k = key)) as [->|Hne'].
      * rewrite lookup_insert_eq in Hb'. injection Hb' as <-. unfold bonder_total. rec_simpl.
        split_and!; try done; lia.
      * rewrite lookup_insert_ne in Hb' by done. by apply R2.
    + intros k. rec_simpl. destruct (decide (k = key)) as [->|Hne'].
      * rewrite lookup_insert_eq, Eb. unfold bonder_total. rec_simpl. split; [lia|done].
      * rewrite lookup_insert_ne by done. by destruct (kv_shielder_node_bonder s !! k).
  - match goal with H : (_ <? amount) = false |- _ => change (0 <? amount = false) in H end. lia.
Qed.

Lemma confirm_finish b pool npk amount s s3 s' slack :
  let b0 := bond_at s npk in
  TrimSpace npk = npk → registry_ok s3 slack → totals_kept s s3 → nb_NodeAddress b ≠ "" →
  ToUpper (ShielderNodeBond_Key b) = ToUpper npk → 0 <= nb_BondSats b → 0 <= nb_PendingSats b →
  bond_total b + slack < two64 → bond_total b = bond_total b0 → nb_Slot b = nb_Slot b0 →
  nb_FeeShareActive b = true →
  nb_FeeShareActive b0 || negb (bond_total b0 <? required_at s (nb_Slot b0)) = true →
  (nb_FeeShareActive b0 = true → nb_PendingSats b = nb_PendingSats b0 - amount) →
  (nb_FeeShareActive b0 = false →
     nb_PendingSats b = 0 ∧ nb_FeeDebtSats b = fp_FeePerSlotShare pool
     ∧ ∀ k, (∀ address addr, address ∈ nb_Bonders b0 → AccAddressFromBech32 address = Ok addr →
              k ≠ ToUpper (ShielderNodeBonderKey npk addr)) →
         kv_shielder_node_bonder s3 !! k = kv_shielder_node_bonder s !! k) →
  finish_confirm b pool npk s3 = (Ok tt, s') →
  registry_ok s' slack ∧ confirmed npk amount s s'.
Proof.
  cbv zeta. intros Htrim R T Hn Hk H1 H2 H3 Ht Hsl Hact Hreq Hadd Hstart Hrun.
  apply (finish_confirm_ok _ _ _ _ _ slack) in Hrun as (R' & Hat & Hbr & Hpool & na & Hna & Hb);
    try done; [|by rewrite Htrim].
  split; [done|]. split; rewrite ?Hat; try done.
  - intros k. rewrite Hbr. apply T.
  - by rewrite Hact, Hreq.
  - by rewrite Hact.
  - by exists na.
  - intros Hf _. destruct (Hstart Hf) as (S1 & S2 & S3). unfold fee_pool. rewrite Hpool, Hbr.
    by split_and!.
Qed.

Lemma confirm_ok deposit s s' slack :
  let npk := dr_NodePubKey deposit in
  TrimSpace npk = npk → npk ≠ "" → dr_Owner deposit ≠ "" → 0 <= slack < two64 →
  0 < dr_AmountSats deposit → registry_ok s slack →
  confirmShielderNodeBond ctx deposit s = (Ok tt, s') →
  registry_ok s' slack ∧ confirmed npk (dr_AmountSats deposit) s s'.
Proof.
  cbv zeta. set (npk := dr_NodePubKey deposit). intros Htrim Hn Ho Hsl Ha R Hrun.
  unfold confirmShielderNodeBond in Hrun.
  assert (Hb : IsNodeBond deposit = true).
  { unfold IsNodeBond, is_blank. fold npk. rewrite Htrim. apply str_eq_false in Hn. by rewrite Hn. }
  rewrite Hb in Hrun. cbn [negb] in Hrun. fold npk in Hrun.
  rewrite (bind_run _ _ _ _ _ (get_bond_run _ _)) in Hrun. go_guards Hrun.
  rewrite (bind_run _ _ _ _ _ (required_run _ _)) in Hrun. cbv zeta in Hrun.
  assert (Hna : nb_NodeAddress (bond_at s npk) ≠ "") by (by apply str_eq_false).
  destruct (bond_at_range s npk slack R Hna) as (Hk & B1 & B2 & B3). rewrite Htrim in Hk.
  set (b0 := bond_at s npk) in *. unfold bond_total in B3.
  rewrite (u64_small (nb_BondSats b0 + _)) in Hrun by u64_lia.
  fold (bond_total b0) in Hrun.
  destruct (negb (nb_FeeShareActive b0) && _) eqn:Ew.
  - apply andb_prop in Ew as [Ew1 Ew2]. apply negb_true_iff in Ew1.
    apply set_bond_ok in Hrun as [_ ->].
    set (b1 := b0 <| nb_UpdatedHeight := BlockHeight ctx |>).
    assert (Hat : bond_at (s <| kv_shielder_node_bond :=
        <[ToUpper (ShielderNodeBond_Key b1) := b1]> (kv_shielder_node_bond s) |>) npk = b1).
    { unfold bond_at. rec_simpl. change (ShielderNodeBond_Key b1) with (ShielderNodeBond_Key b0).
      by rewrite Hk, Htrim, lookup_insert_eq. }
    split.
    + destruct R as [R1 R2 R3]. split; rec_simpl; [|done|done]. intros k b.
      destruct (decide (k = ToUpper (ShielderNodeBond_Key b1))) as [->|Hne].
      * rewrite lookup_insert_eq. intros [= <-]. by split_and!.
      * rewrite lookup_insert_ne by done. apply R1.
    + split; rewrite ?Hat; fold b0; try done.
      * intros k. apply (totals_kept_refl s k).
      * by rewrite Ew2, orb_false_r.
      * intros Hf. change (nb_FeeShareActive b1) with (nb_FeeShareActive b0) in Hf. congruence.
      * congruence.
      * intros _ Hf. change (nb_FeeShareActive b1) with (nb_FeeShareActive b0) in Hf. congruence.
  - apply bind_Ok in Hrun as (pool & s1 & Hpool & Hrun).
    apply distribute_fees_run in Hpool as [Hp Hs1].
    apply bind_Ok in Hrun as (b1 & s2 & Hsettle & Hrun).
    apply settle_run in Hsettle as (-> & scale & Hb1).
    pose proof (settle_keeps scale b0 pool) as HK. cbv zeta in HK. rewrite <- Hb1 in HK.
    destruct HK as (K1 & K2 & K3 & K4 & K5 & K6 & K7 & K8 & K9).
    assert (R1 : registry_ok s1 slack) by (rewrite Hs1; by apply registry_fees).
    assert (Hsame : kv_shielder_node_bonder s1 = kv_shielder_node_bonder s) by (by rewrite Hs1).
    assert (Hkb1 : ToUpper (ShielderNodeBond_Key b1) = ToUpper npk).
    { unfold ShielderNodeBond_Key. by rewrite K1. }
    rewrite <- K2 in Hna.
    apply bind_Ok in Hrun as ([b2 confirmedSats] & s2 & Hact & Hrun). cbv zeta in Hrun.
    destruct (nb_FeeShareActive b0) eqn:Ea; rewrite K7 in Hact; cbn [negb] in Hact.
    + apply bind_Ok in Hact as ([] & s3 & Hact & Hret). apply mret_Ok in Hret as [[= -> ->] ->].
      apply (activate_one_ok _ _ _ _ _ slack) in Hact as (R2 & T2 & A1 & A2 & A3); try done.
      rewrite K5, (u64_small (nb_PendingSats b0 - _)) in Hrun by u64_lia.
      match type of Hrun with context [if negb (nb_FeeShareActive ?b) then _ else _] =>
        set (b2 := b) in Hrun end.
      assert (E1 : nb_FeeShareActive b2 = true) by exact K7. rewrite E1 in Hrun.
      cbn [negb] in Hrun. cbv iota beta in Hrun.
      assert (E2 : nb_BondSats b2 = nb_BondSats b0 + dr_AmountSats deposit).
      { unfold b2. rec_simpl. rewrite K6. apply u64_small. u64_lia. }
      assert (E3 : nb_PendingSats b2 = nb_PendingSats b0 - dr_AmountSats deposit)
        by (unfold b2; by rec_simpl).
      apply (confirm_finish (b2 <| nb_UpdatedHeight := BlockHeight ctx |>) pool npk
        (dr_AmountSats deposit) s s3 s' slack); unfold bond_total; rec_simpl; fold b0;
        rewrite ?E2, ?E3; try done; try lia; try congruence.
      * intros k. rewrite <- Hsame. apply T2.
      * by rewrite Ea.
    + apply bind_Ok in Hact as ([] & s3 & Hact & Hret). apply mret_Ok in Hret as [[= -> ->] ->].
      apply (activate_bonders_ok _ _ _ slack) in Hact as (R2 & T2 & A1 & A2 & A3 & A4);
        [|lia|done].
      match type of Hrun with context [if negb (nb_FeeShareActive ?b) then _ else _] =>
        set (b2 := b) in Hrun end.
      assert (E1 : nb_FeeShareActive b2 = false) by exact K7. rewrite E1 in Hrun.
      cbn [negb] in Hrun. cbv iota beta in Hrun.
      assert (E2 : nb_BondSats b2 = nb_BondSats b0 + nb_PendingSats b0).
      { unfold b2. rec_simpl. rewrite K5, K6. apply u64_small. u64_lia. }
      assert (E3 : nb_PendingSats b2 = 0) by reflexivity.
      apply (confirm_finish (b2 <| nb_FeeShareActive := true |>
          <| nb_FeeDebtSats := fp_FeePerSlotShare pool |> <| nb_UpdatedHeight := BlockHeight ctx |>)
        (pool <| fp_TotalSlots := fp_TotalSlots pool +u 1 |>) npk
        (dr_AmountSats deposit) s s3 s' slack); unfold bond_total; rec_simpl; fold b0;
        rewrite ?E2, ?E3; try done; try lia; try congruence.
      * intros k. rewrite <- Hsame. apply T2.
      * rewrite Ea. cbn [negb andb orb] in *. unfold bond_total in Ew. by rewrite Ew.
      * intros _. split_and!; try done. intros k Hunlisted. rewrite <- Hsame. apply A4.
        intros address addr Hin Haddr. rec_simpl_all. rewrite K8 in Hin.
        rewrite (bonder_key_cong _ npk); [by apply (Hunlisted address)|]. by rewrite Htrim.
Qed.
End BondLemmas.

Lemma bonder_at_totals s s' npk owner :
  totals_kept s s' →
  bonder_total (bonder_at s' npk owner) = bonder_total (bonder_at s npk owner).
Proof.
  intros T. unfold bonder_at. specialize (T (ToUpper (ShielderNodeBonderKey npk owner))).
  destruct (kv_shielder_node_bonder s' !! _), (kv_shielder_node_bonder s !! _); simpl; try done.
  by destruct T.
Qed.

(** Both halves of a bond made from notes. *)
Lemma bond_from_spend_ok `{Ext} ctx owner nodePubKey operator amount bond s s' slack :
  TrimSpace nodePubKey = nodePubKey → nodePubKey ≠ "" → 0 < amount → 0 <= slack →
  slack + amount < two64 → registry_ok s (slack + amount) →
  confirmBondFromNoteSpend ctx owner nodePubKey operator amount s = (Ok bond, s') →
  bond = bond_at s' nodePubKey ∧ registry_ok s' slack
  ∧ ∃ s1, pending_recorded owner nodePubKey amount s s1 ∧ confirmed nodePubKey amount s1 s'.
Proof.
  intros Htrim Hn Ha Hsl Hsum R Hrun. unfold confirmBondFromNoteSpend in Hrun.
  apply bind_Ok in Hrun as (slot & s1 & Hrec & Hrun).
  apply (record_pending_ok _ _ _ _ _ _ slack) in Hrec as (R1 & Ho & Hrec); rec_simpl;
    try done; try lia; [|by rewrite Htrim].
  rec_simpl_all. rewrite Htrim in Hrec.
  apply bind_Ok in Hrun as ([] & s2 & Hconf & Hrun).
  rewrite get_bond_run in Hrun. injection Hrun as <- <-.
  apply (confirm_ok _ _ _ _ slack) in Hconf as (R2 & Hc); try done; [|lia].
  split; [done|]. split; [done|]. exists s1. by split.
Qed.

(** The sums that matter to a caller. *)
Lemma bond_from_spend_totals `{Ext} ctx owner nodePubKey operator amount slack bond s s' :
  TrimSpace nodePubKey = nodePubKey → nodePubKey ≠ "" → 0 < amount → 0 <= slack →
  slack + amount < two64 → registry_ok s (slack + amount) →
  confirmBondFromNoteSpend ctx owner nodePubKey operator amount s = (Ok bond, s') →
  registry_ok s' slack ∧ bond = bond_at s' nodePubKey
  ∧ bond_total bond = bond_total (bond_at s nodePubKey) + amount
  ∧ bonder_total (bonder_at s' nodePubKey owner)
    = bonder_total (bonder_at s nodePubKey owner) + amount.
Proof.
  intros Htrim Hn Ha Hsl Hsum R Hrun.
  destruct (bond_from_spend_ok ctx owner nodePubKey operator amount bond s s' slack)
    as (-> & R' & s1 & Hrec & Hconf); try done.
  destruct Hrec as (P1 & P2 & P3 & P4 & P5 & P6 & P7 & P8 & P9 & P10 & P11 & P12).
  destruct Hconf as [C1 C2 C3 C4 C5 C6 C7 C8].
  split_and!; try done.
  - rewrite C1. unfold bond_total. lia.
  - rewrite (bonder_at_totals s1 s') by done. unfold bonder_total. lia.
Qed.

(** ** Properties *)

(** C30. Bonding notes conserves what is bonded.  Confirmed plus pending satoshis
of the node's bond grow by exactly the amount, and so do the bonder's principal
plus pending; a bond earns fees from the moment its total reaches the price of
its slot and not before; while it earns, the node account carries the confirmed
bond, and an amount added to an earning bond is confirmed at once; a bond that
starts earning has nothing pending and owes the pool its past share; a bond
that still waits touches neither the fee pool nor the node accounts. *)
Theorem bond_from_notes_conserves `{Ext} (ctx : Ctx) (owner nodePubKey operator : string)
    (amount slack : Z) (bond : ShielderNodeBond) (s s' : KVStore) :
  TrimSpace nodePubKey = nodePubKey → nodePubKey ≠ "" → 0 < amount → 0 <= slack →
  slack + amount < two64 → registry_ok s (slack + amount) →
  confirmBondFromNoteSpend ctx owner nodePubKey operator amount s = (Ok bond, s') →
  let before := bond_at s nodePubKey in
  registry_ok s' slack ∧ bond = bond_at s' nodePubKey
  ∧ bond_total bond = bond_total before + amount
  ∧ bonder_total (bonder_at s' nodePubKey owner)
    = bonder_total (bonder_at s nodePubKey owner) + amount
  ∧ nb_FeeShareActive bond = nb_FeeShareActive before
      || negb (bond_total bond <? required_at s (nb_Slot bond))
  ∧ (nb_FeeShareActive before = true → nb_PendingSats bond = nb_PendingSats before)
  ∧ (nb_FeeShareActive bond = true →
      ∃ na, kv_node_account s' !! ToUpper (nb_NodeAddress bond) = Some na
        ∧ na_Bond na = nb_BondSats bond)
  ∧ (nb_FeeShareActive before = false → nb_FeeShareActive bond = true →
      nb_PendingSats bond = 0 ∧ nb_FeeDebtSats bond = fp_FeePerSlotShare (fee_pool s'))
  ∧ (nb_FeeShareActive bond = false →
      kv_fee_pool s' = kv_fee_pool s ∧ kv_node_account s' = kv_node_account s).
Proof.
  intros Htrim Hn Ha Hsl Hsum R Hrun.
  destruct (bond_from_spend_ok ctx owner nodePubKey operator amount bond s s' slack)
    as (-> & R' & s1 & Hrec & Hconf); try done.
  destruct Hrec as (P1 & P2 & P3 & P4 & P5 & P6 & P7 & P8 & P9 & P10 & P11 & P12).
  destruct Hconf as [C1 C2 C3 C4 C5 C6 C7 C8]. cbv zeta. rewrite P3 in *.
  assert (Ht : bond_total (bond_at s' nodePubKey) = bond_total (bond_at s nodePubKey) + amount)
    by (rewrite C1; unfold bond_total; lia).
  split_and!; try done.
  - rewrite (bonder_at_totals s1 s') by done. unfold bonder_total. lia.
  - rewrite C4, C3, Ht. rewrite <- C1 in *. rewrite <- Ht, C1.
    unfold required_at. by rewrite P11.
  - intros Hf. rewrite (C7 Hf). lia.
  - intros Hf Hf'. by destruct (C8 Hf Hf') as (? & ? & _).
  - intros Hf. destruct (C5 Hf) as (-> & _ & ->). by rewrite P10, P12.
Qed.

Import ToyExt.
#[local] Existing Instance toy_ext.

Lemma registry_empty slack : registry_ok KVStore_empty slack.
Proof. by split. Qed.

Lemma registry_weaken s slack slack' :
  slack' <= slack → registry_ok s slack → registry_ok s slack'.
Proof.
  intros Hle [R1 R2 R3]. split; [| |done].
  - intros k b Hk. destruct (R1 k b Hk) as (? & ? & ? & ? & ?). split_and!; try done. lia.
  - intros k b Hk. destruct (R2 k b Hk) as (? & ? & ? & ? & ?). split_and!; try done. lia.
Qed.

(** The operator bonds half a bitcoin; the price of the first slot is two. *)
Definition first_bond : KVStore :=
  (confirmBondFromNoteSpend (mkCtx 9) "op" "node" "op" 50000000 KVStore_empty).2.

Lemma first_bond_run :
  confirmBondFromNoteSpend (mkCtx 9) "op" "node" "op" 50000000 KVStore_empty
  = (Ok (bond_at first_bond "node"), first_bond).
Proof.
  assert (H : (confirmBondFromNoteSpend (mkCtx 9) "op" "node" "op" 50000000 KVStore_empty).1
    = Ok (bond_at first_bond "node")) by (vm_compute; reflexivity).
  exact (run_ok _ _ _ H).
Qed.

Lemma first_bond_registry : registry_ok first_bond 1000000000.
Proof.
  destruct (bond_from_spend_ok (mkCtx 9) "op" "node" "op" 50000000 (bond_at first_bond "node")
    KVStore_empty first_bond 1000000000) as (_ & R & _);
    [reflexivity|discriminate|reflexivity|discriminate|reflexivity|apply registry_empty
    |apply first_bond_run|exact R].
Qed.

Lemma bond_from_notes_conserves_witness :
  bond_total (bond_at first_bond "node") = 50000000
  ∧ bonder_total (bonder_at first_bond "node" "op") = 50000000.
Proof.
  destruct (bond_from_notes_conserves (mkCtx 9) "op" "node" "op" 50000000 0
    (bond_at first_bond "node") KVStore_empty first_bond) as (_ & _ & H1 & H2 & _);
    [reflexivity|discriminate|reflexivity|discriminate|reflexivity|apply registry_empty
    |apply first_bond_run|].
  split; [rewrite H1; vm_compute; reflexivity|rewrite H2; vm_compute; reflexivity].
Defined.

(** A bonder who joins a bond that has not reached its price yet is not
among the bonders the activation looks through: when the bond starts earning,
all pending satoshis count as the node's confirmed bond, but this bonder's
stay pending, so its principal and its claimable fees stay what they were. *)
Theorem late_bonder_stays_pending `{Ext} (ctx : Ctx) (owner nodePubKey operator : string)
    (amount slack scale : Z) (bond : ShielderNodeBond) (s s' : KVStore) :
  TrimSpace nodePubKey = nodePubKey → nodePubKey ≠ "" → 0 < amount → 0 <= slack →
  slack + amount < two64 → registry_ok s (slack + amount) →
  nb_NodeAddress (bond_at s nodePubKey) ≠ "" →
  nb_FeeShareActive (bond_at s nodePubKey) = false →
  (∀ address addr, address ∈ nb_Bonders (bond_at s nodePubKey) →
     AccAddressFromBech32 address = Ok addr →
     ToUpper (ShielderNodeBonderKey nodePubKey owner)
       ≠ ToUpper (ShielderNodeBonderKey nodePubKey addr)) →
  confirmBondFromNoteSpend ctx owner nodePubKey operator amount s = (Ok bond, s') →
  nb_FeeShareActive bond = true →
  let bonder := bonder_at s nodePubKey owner in
  let bonder' := bonder_at s' nodePubKey owner in
  nb_PendingSats bond = 0
  ∧ nb_BondSats bond = bond_total (bond_at s nodePubKey) + amount
  ∧ br_PrincipalSats bonder' = br_PrincipalSats bonder
  ∧ br_PendingSats bonder' = br_PendingSats bonder + amount
  ∧ (br_PrincipalSats bonder = 0 → claimable scale bond bonder' = 0).
Proof.
  intros Htrim Hn Ha Hsl Hsum R Haddr Hinact Hun Hrun Hact.
  destruct (bond_from_spend_ok ctx owner nodePubKey operator amount bond s s' slack)
    as (-> & R' & s1 & Hrec & Hconf); try done.
  destruct Hrec as (P1 & P2 & P3 & P4 & P5 & P6 & P7 & P8 & P9 & P10 & P11 & P12).
  destruct Hconf as [C1 C2 C3 C4 C5 C6 C7 C8]. cbv zeta.
  rewrite P3 in C8. destruct (C8 Hinact Hact) as (D1 & D2 & D3).
  apply str_eq_false in Haddr. unfold Acc_Empty, is_empty in P4. rewrite Haddr in P4.
  rewrite P4 in D3.
  assert (Hsame : bonder_at s' nodePubKey owner = bonder_at s1 nodePubKey owner).
  { unfold bonder_at. rewrite D3; [done|]. intros address addr. apply Hun. }
  rewrite Hsame, P6, P7. unfold bond_total in *. split_and!; try done; [lia|].
  intros H0. unfold claimable. by rewrite P6, H0.
Qed.

Lemma late_bonder_stays_pending_witness :
  let run := confirmBondFromNoteSpend (mkCtx 10) "bob" "node" "op" 150000000 first_bond in
  nb_BondSats (bond_at run.2 "node") = 200000000
  ∧ br_PrincipalSats (bonder_at run.2 "node" "bob") = 0
  ∧ br_PendingSats (bonder_at run.2 "node" "bob") = 150000000.
Proof.
  cbv zeta. set (run := confirmBondFromNoteSpend (mkCtx 10) "bob" "node" "op" 150000000 first_bond).
  assert (Hrun : run.1 = Ok (bond_at run.2 "node")) by (vm_compute; reflexivity).
  destruct (late_bonder_stays_pending (mkCtx 10) "bob" "node" "op" 150000000 0 1
    (bond_at run.2 "node") first_bond run.2) as (_ & H1 & H2 & H3 & _).
  - reflexivity.
  - discriminate.
  - reflexivity.
  - discriminate.
  - reflexivity.
  - apply (registry_weaken _ 1000000000); [lia|exact first_bond_registry].
  - vm_compute. discriminate.
  - vm_compute. reflexivity.
  - intros address addr Hin Ha.
    assert (Hl : nb_Bonders (bond_at first_bond "node") = ["op"]) by (vm_compute; reflexivity).
    rewrite Hl in Hin. apply list_elem_of_singleton in Hin as ->. injection Ha as <-.
    vm_compute. discriminate.
  - exact (run_ok _ _ _ Hrun).
  - vm_compute. reflexivity.
  - rewrite H1, H2, H3. vm_compute. repeat split.
Defined.
