(* ===== verification/Redeem.v ===== *)
(** * Redeeming notes

A redeem is authorized against a Merkle root and an unspent nullifier, then
finalized by policy: a Bitcoin withdrawal of the note less the fee, a deposit
into a node-slot bid, or a node bond (x/thornado/shielder_flow.go,
withdrawal_flow.go, the handlers of msg_server.go). *)

From S2P Require Import Prelude GoStrings Merkle Sha256 Json Config Common Types Vaults Keeper BtcBatch Notes Fees Shield Withdraw Bonds.

Module RedeemInputs.
Import Json.

Definition shielderRedeemPublicInputs_fields : list (string * GoType) :=
  [("nullifier_hash", TString); ("merkle_root", TString); ("denomination_sats", TUint64);
   ("recipient", TString); ("fee_sats", TUint64); ("recipient_policy", TString);
   ("node_pub_key", TString); ("bid_id", TString)].

Record shielderRedeemPublicInputs := {
  pi_NullifierHash : string;
  pi_MerkleRoot : string;
  pi_DenominationSats : Z;
  pi_Recipient : string;
  pi_FeeSats : Z;
  pi_RecipientPolicy : string;
  pi_NodePubKey : string;
  pi_BidID : string
}.

Definition unmarshal_redeem (raw : string) : option shielderRedeemPublicInputs :=
  m ← unmarshal shielderRedeemPublicInputs_fields raw;
  let text name := text_field (assigned shielderRedeemPublicInputs_fields name m) in
  let num name := uint64_field (assigned shielderRedeemPublicInputs_fields name m) in
  Some {| pi_NullifierHash := text "nullifier_hash";
          pi_MerkleRoot := text "merkle_root";
          pi_DenominationSats := num "denomination_sats";
          pi_Recipient := text "recipient";
          pi_FeeSats := num "fee_sats";
          pi_RecipientPolicy := text "recipient_policy";
          pi_NodePubKey := text "node_pub_key";
          pi_BidID := text "bid_id" |}.

Definition parseShielderRedeemPublicInputs `{ProofEngine} (raw : string)
    : res shielderRedeemPublicInputs :=
  _ ← ValidateRedeemPublicJSON raw;
  match unmarshal_redeem raw with
  | Some publicInputs => Ok publicInputs
  | None => Err "invalid shielder public inputs"
  end.

(** The fields [MsgBondFromNotes] decodes. *)
Definition bondPublicInputs_fields : list (string * GoType) :=
  [("recipient_policy", TString); ("node_pub_key", TString); ("recipient", TString);
   ("fee_sats", TUint64)].
End RedeemInputs.
Export RedeemInputs.

Record ShielderRedeemRequest := mkRequest { rr_Proof : string; rr_Public : string }.

Definition normalizeShielderRedeemPolicy (policy : string) : string :=
  let p := TrimSpace policy in
  if is_empty p || str_eq p ShielderRedeemPolicyUserBTC then ShielderRedeemPolicyUserBTC
  else if str_eq p ShielderRedeemPolicyBondEscrow then ShielderRedeemPolicyBondEscrow
  else if str_eq p ShielderRedeemPolicyBidDeposit then ShielderRedeemPolicyBidDeposit
  else p.

Definition shielderRedeemID (parts : list string) : string := Sha256.Sum256Hex (join "|" parts).

Definition validateShielderRedeemPublicFee (policy : string)
    (publicInputs : shielderRedeemPublicInputs) : res unit :=
  if (str_eq policy ShielderRedeemPolicyBondEscrow || str_eq policy ShielderRedeemPolicyBidDeposit)
     && negb (pi_FeeSats publicInputs =? 0)
  then Err "redeems must not pay withdrawal fee" else Ok tt.

Section Redeem.
Context `{Ext} (ctx : Ctx).

Definition openNodeSlotBidForRedeem (bidID recipient : string) : KM NodeSlotBid :=
  _ ← fail_if (negb (Address.IsBondEscrow recipient))
        "bid deposit redeem recipient must be bond_escrow";
  bid ← GetNodeSlotBid (TrimSpace bidID);
  _ ← fail_if (is_empty (bd_BidID bid) || bd_Settled bid) "node slot bid is not open for deposit";
  auction ← GetNodeSlotAuction (bd_AuctionID bid);
  _ ← fail_if (is_empty (au_AuctionID auction)
               || negb (str_eq (au_Status auction) NodeSlotAuctionOpen))
        "node slot auction is not open";
  _ ← fail_if (au_ExpiryHeight auction <=? BlockHeight ctx) "node slot auction expired";
  mret bid.

Definition shielderRedeemRecipient (publicInputs : shielderRedeemPublicInputs) (policy : string)
    : res string :=
  recipient ← Address.NewAddress (pi_Recipient publicInputs);
  if str_eq policy ShielderRedeemPolicyBondEscrow then
    if negb (Address.IsBondEscrow recipient)
    then Err "bond redeem recipient must be bond_escrow" else Ok recipient
  else if str_eq policy ShielderRedeemPolicyUserBTC then
    if negb (Chain_Equals (Address.GetChain recipient) BTCChain)
    then Err "shielder redeem recipient must be bitcoin" else Ok recipient
  else if str_eq policy ShielderRedeemPolicyBidDeposit then
    if negb (Address.IsBondEscrow recipient)
    then Err "bid deposit redeem recipient must be bond_escrow" else Ok recipient
  else Err "unknown shielder redeem policy".

Definition validateShielderRedeemPolicy (policy : string)
    (publicInputs : shielderRedeemPublicInputs) : KM unit :=
  if str_eq policy ShielderRedeemPolicyBondEscrow then
    _ ← fail_if (negb (pi_FeeSats publicInputs =? 0))
          "bond escrow redeems must not pay withdrawal fee";
    _ ← fail_if (is_blank (pi_NodePubKey publicInputs)) "bond escrow redeems require node pubkey";
    lift (PubKey.check_cons_pubkey (pi_NodePubKey publicInputs))
  else if str_eq policy ShielderRedeemPolicyBidDeposit then
    _ ← fail_if (negb (pi_FeeSats publicInputs =? 0))
          "bid deposit redeems must not pay withdrawal fee";
    let bidID := TrimSpace (pi_BidID publicInputs) in
    _ ← fail_if (is_empty bidID) "bid deposit redeems require bid id";
    recipient ← lift (Address.NewAddress (pi_Recipient publicInputs));
    _ ← openNodeSlotBidForRedeem bidID recipient;
    mret tt
  else if str_eq policy ShielderRedeemPolicyUserBTC then
    fail_if (negb (is_blank (pi_BidID publicInputs)) || negb (is_blank (pi_NodePubKey publicInputs)))
      "user btc redeems must not bind bid or node pubkey"
  else fail "unknown shielder redeem policy".

Definition shielderRedeemFeeSats (policy : string) (amountSats : Z) : KM Z :=
  if str_eq policy ShielderRedeemPolicyUserBTC then withdrawalFeeSats amountSats else mret 0.

Definition DeriveBTCAddress (vault : Vault) (pathIndex : Z) : res string :=
  if Vault.IsEmpty vault then Ok NoAddress
  else VaultPath.DeriveBTCTaprootAddress (va_PubKey vault) pathIndex.

Fixpoint first_btc_vault (vaults : list Vault) : res (Vault * string) :=
  match vaults with
  | [] => Err "no active shielder bitcoin vault address"
  | vault :: vaults =>
      match DeriveBTCAddress vault VaultPath.MainVaultPathIndex with
      | Ok address => if Address.IsEmpty address then first_btc_vault vaults else Ok (vault, address)
      | Err _ => first_btc_vault vaults
      | Panic e => Panic e
      end
  end.

Definition currentBTCVaultAddress : KM (Vault * string) :=
  vaults ← GetBaseVaultsByStatus ctx ActiveVault;
  _ ← fail_if (length vaults =? 0)%nat "no active shielder bitcoin vault";
  lift (first_btc_vault vaults).

(** ** Authorization *)

Definition authorize (policy : string) (publicInputs : shielderRedeemPublicInputs)
    : KM ShielderRedeem :=
  recipient ← lift (shielderRedeemRecipient publicInputs policy);
  '(vault, _) ← currentBTCVaultAddress;
  let withdrawalID := shielderRedeemID [pi_NullifierHash publicInputs; recipient; policy] in
  inHash ← lift (TxID.NewTxID withdrawalID);
  feeSats ← shielderRedeemFeeSats policy (pi_DenominationSats publicInputs);
  let withdrawal := ShielderRedeem_zero
    <| sr_WithdrawalID := withdrawalID |>
    <| sr_NullifierHash := pi_NullifierHash publicInputs |>
    <| sr_MerkleRoot := pi_MerkleRoot publicInputs |>
    <| sr_Recipient := recipient |>
    <| sr_RecipientPolicy := policy |>
    <| sr_BidID := TrimSpace (pi_BidID publicInputs) |>
    <| sr_NodePubKey := TrimSpace (pi_NodePubKey publicInputs) |>
    <| sr_AmountSats := pi_DenominationSats publicInputs |>
    <| sr_FeeSats := feeSats |>
    <| sr_InHash := inHash |>
    <| sr_VaultPubKey := va_PubKey vault |>
    <| sr_RequestedHeight := BlockHeight ctx |>
    <| sr_Status := ShielderRedeemStatusAuthorized |> in
  _ ← lift (ShielderRedeem_Valid withdrawal);
  _ ← SetShielderRedeem withdrawal;
  _ ← SetShielderNullifierSpent ctx (sr_NullifierHash withdrawal) (sr_WithdrawalID withdrawal);
  mret withdrawal.

Definition AuthorizeShielderRedeem `{ProofEngine} (req : ShielderRedeemRequest)
    : KM ShielderRedeem :=
  publicInputs ← lift (parseShielderRedeemPublicInputs (rr_Public req));
  let policy := normalizeShielderRedeemPolicy (pi_RecipientPolicy publicInputs) in
  _ ← validateShielderRedeemPolicy policy publicInputs;
  _ ← lift (validateShielderRedeemPublicFee policy publicInputs);
  _ ← lift (RejectLeakyShielderRedeemProof (rr_Proof req));
  _ ← lift (VerifyShielderRedeemJSON (rr_Proof req) (rr_Public req));
  spent ← ShielderNullifierSpent (pi_NullifierHash publicInputs);
  _ ← fail_if spent "shielder nullifier already spent";
  known ← ShielderMerkleRootExists (pi_DenominationSats publicInputs) (pi_MerkleRoot publicInputs);
  _ ← fail_if (negb known) "unknown shielder merkle root";
  authorize policy publicInputs.

(** ** Bonds from notes *)

Definition BondFromShieldedNotes `{ProofEngine} (owner nodePubKey operatorPubKey : string)
    (req : ShielderRedeemRequest) : KM ShielderNodeBond :=
  _ ← fail_if (Acc_Empty owner) "missing bond owner";
  let nodePubKey := TrimSpace nodePubKey in
  _ ← fail_if (is_empty nodePubKey) "missing node pubkey";
  operator ← lift (PubKey.NewPubKey operatorPubKey);
  publicInputs ← lift (parseShielderRedeemPublicInputs (rr_Public req));
  _ ← fail_if (negb (str_eq (normalizeShielderRedeemPolicy (pi_RecipientPolicy publicInputs))
                            ShielderRedeemPolicyBondEscrow))
        "bond notes require bond_escrow recipient policy";
  _ ← fail_if (negb (str_eq (TrimSpace (pi_NodePubKey publicInputs)) nodePubKey))
        "bond node pubkey mismatch";
  _ ← fail_if (negb (pi_FeeSats publicInputs =? 0)) "bond notes must not pay withdrawal fee";
  withdrawal ← AuthorizeShielderRedeem req;
  confirmBondFromNoteSpend ctx owner nodePubKey operator (sr_AmountSats withdrawal).

(** ** Finalization *)

Definition FinalizeBidDepositFromNoteSpend (authorization : ShielderRedeem) : KM ShielderRedeem :=
  _ ← lift (ShielderRedeem_Valid authorization);
  _ ← fail_if (negb (str_eq (normalizeShielderRedeemPolicy (sr_RecipientPolicy authorization))
                            ShielderRedeemPolicyBidDeposit))
        "shielder redeem is not a bid deposit";
  _ ← fail_if (negb (sr_FeeSats authorization =? 0)) "bid deposits must not pay withdrawal fee";
  bid ← openNodeSlotBidForRedeem (sr_BidID authorization) (sr_Recipient authorization);
  _ ← SetNodeSlotBid (bid
    <| bd_AmountSats := bd_AmountSats bid +u sr_AmountSats authorization |>
    <| bd_UpdatedHeight := BlockHeight ctx |>);
  let authorization := authorization <| sr_Status := ShielderRedeemStatusSettled |> in
  _ ← SetShielderRedeem authorization;
  mret authorization.

Definition withdrawal_item (authorization : ShielderRedeem) (gasRate : Z) : TxOutItem :=
  TxOutItem_zero
    <| to_Chain := BTCChain |>
    <| to_ToAddress := sr_Recipient authorization |>
    <| to_VaultPubKey := sr_VaultPubKey authorization |>
    <| to_Coin := NewCoin BTCAsset (sr_AmountSats authorization -u sr_FeeSats authorization) |>
    <| to_GasRate := gasRate |>
    <| to_InHash := sr_InHash authorization |>
    <| to_ModuleName := BaseName |>
    <| to_TxType := TxOutTypeOut |>.

Definition queueAuthorizedWithdrawalTxOut `{BtcWire} (authorization : ShielderRedeem)
    (bookFee : bool) : KM ShielderRedeem :=
  _ ← lift (ShielderRedeem_Valid authorization);
  _ ← fail_if (negb (str_eq (sr_Status authorization) ShielderRedeemStatusAuthorized))
        "shielder redeem is not authorized";
  feeSats ← withdrawalFeeSats (sr_AmountSats authorization);
  _ ← fail_if (sr_AmountSats authorization <=? feeSats) "withdrawal fee exceeds amount";
  let authorization := authorization <| sr_FeeSats := feeSats |> in
  gasRate ← btcGasRateFromKeeper;
  _ ← appendBTCExactTxOut ctx (BlockHeight ctx) (withdrawal_item authorization gasRate);
  _ ← (if bookFee then addWithdrawalFee (sr_FeeSats authorization) else mret tt);
  let authorization := authorization <| sr_Status := DepositStatusKeysignQueued |> in
  _ ← SetShielderRedeem authorization;
  mret authorization.

Definition QueueAuthorizedWithdrawalTxOut `{BtcWire} (authorization : ShielderRedeem)
    : KM ShielderRedeem := queueAuthorizedWithdrawalTxOut authorization true.

Definition ReQueueAuthorizedWithdrawalTxOut `{BtcWire} (authorization : ShielderRedeem)
    : KM ShielderRedeem := queueAuthorizedWithdrawalTxOut authorization false.

Definition FinalizeShielderRedeem `{BtcWire} (authorization : ShielderRedeem)
    : KM ShielderRedeem :=
  let policy := normalizeShielderRedeemPolicy (sr_RecipientPolicy authorization) in
  if str_eq policy ShielderRedeemPolicyBondEscrow
  then fail "bond escrow redeems finalize via MsgBondFromNotes"
  else if str_eq policy ShielderRedeemPolicyBidDeposit
  then FinalizeBidDepositFromNoteSpend authorization
  else if str_eq policy ShielderRedeemPolicyUserBTC
  then QueueAuthorizedWithdrawalTxOut authorization
  else fail "unknown shielder redeem policy".

(** ** Messages *)

(** A message runs in a transaction: an error leaves the store as it was. *)
Definition MsgServer_ShielderRedeem `{ProofEngine} `{BtcWire} (proof public : string)
    : KM (string * string) :=
  atomic (
    _ ← lift (MsgShielderRedeem_ValidateBasic proof public);
    authorization ← AuthorizeShielderRedeem (mkRequest proof public);
    withdrawal ← FinalizeShielderRedeem authorization;
    mret (sr_WithdrawalID withdrawal, sr_Status withdrawal)).

Record MsgBondFromNotes := {
  mb_NodePubKey : string;
  mb_OperatorPubKey : string;
  mb_Proof : string;
  mb_Public : string;
  mb_Signer : string
}.

Definition normalizeBondPublicPolicy (policy : string) : string :=
  let p := TrimSpace policy in
  if is_empty p || str_eq p ShielderRedeemPolicyUserBTC then ShielderRedeemPolicyUserBTC else p.

Definition bond_public_checks (msg : MsgBondFromNotes) : res unit :=
  match Json.unmarshal bondPublicInputs_fields (mb_Public msg) with
  | None => Err "invalid bond public json"
  | Some m =>
      let text name := Json.text_field (Json.assigned bondPublicInputs_fields name m) in
      let num name := Json.uint64_field (Json.assigned bondPublicInputs_fields name m) in
      first_error
        [(negb (str_eq (normalizeBondPublicPolicy (text "recipient_policy"))
                       ShielderRedeemPolicyBondEscrow),
          "bond notes require bond_escrow recipient policy");
         (negb (str_eq (TrimSpace (text "node_pub_key")) (TrimSpace (mb_NodePubKey msg))),
          "bond public node pubkey mismatch");
         (negb (str_eq (TrimSpace (text "recipient")) BondEscrowAddress),
          "bond notes require bond_escrow recipient");
         (negb (num "fee_sats" =? 0), "bond notes must not pay withdrawal fee")]
  end.

Definition MsgBondFromNotes_ValidateBasic `{ProofEngine} (msg : MsgBondFromNotes) : res unit :=
  _ ← first_error [(is_blank (mb_NodePubKey msg), "missing node pubkey")];
  _ ← PubKey.check_cons_pubkey (mb_NodePubKey msg);
  _ ← first_error [(is_blank (mb_OperatorPubKey msg), "missing operator pubkey")];
  _ ← PubKey.NewPubKey (mb_OperatorPubKey msg);
  _ ← first_error [(Acc_Empty (mb_Signer msg), "missing bond signer")];
  _ ← validateShielderRedeemJSON (mb_Proof msg) (mb_Public msg);
  _ ← first_error [(negb (Json.Valid (mb_Proof msg)) || negb (Json.Valid (mb_Public msg)),
                    "invalid bond proof or public json")];
  _ ← bond_public_checks msg;
  ValidateRedeemPublicJSON (mb_Public msg).

Definition MsgServer_BondFromNotes `{ProofEngine} (msg : MsgBondFromNotes)
    : KM (Z * Z * string) :=
  atomic (
    _ ← lift (MsgBondFromNotes_ValidateBasic msg);
    bond ← BondFromShieldedNotes (mb_Signer msg) (mb_NodePubKey msg) (mb_OperatorPubKey msg)
             (mkRequest (mb_Proof msg) (mb_Public msg));
    mret (nb_BondSats bond, nb_Slot bond,
          if nb_BondSats bond =? 0 then "pending" else "Standby")).
End Redeem.

(** ** Lemmas *)

Section RedeemLemmas.
Context `{Ext} (ctx : Ctx).

Lemma current_vault_keeps {T} (p : KVStore → T) : keeps p (currentBTCVaultAddress ctx).
Proof.
  unfold currentBTCVaultAddress, GetBaseVaultsByStatus, GetBaseVaults, getBaseIndex.
  keeps_tac. apply get_vault_keeps.
Qed.

Lemma policy_keeps {T} (p : KVStore → T) policy inputs :
  keeps p (validateShielderRedeemPolicy ctx policy inputs).
Proof. unfold validateShielderRedeemPolicy, openNodeSlotBidForRedeem. frame_tac. Qed.

Lemma redeem_fee_keeps {T} (p : KVStore → T) policy amount :
  keeps p (shielderRedeemFeeSats policy amount).
Proof. unfold shielderRedeemFeeSats. frame_tac. Qed.

(** What an authorization writes. *)
Definition authorized_store (w : ShielderRedeem) (s : KVStore) : KVStore :=
  s <| kv_shielder_withdrawal :=
         <[ToUpper (sr_WithdrawalID w) := w]> (kv_shielder_withdrawal s) |>
    <| kv_shielder_nullifier :=
         <[ToUpper (TrimSpace (sr_NullifierHash w)) :=
             mkStoredShielderNullifierRecord (TrimSpace (sr_NullifierHash w))
               (TrimSpace (sr_WithdrawalID w))
               (BlockHeight ctx)]>
           (kv_shielder_nullifier s) |>.

Lemma set_redeem_ok w s s' :
  SetShielderRedeem w s = (Ok tt, s') →
  ShielderRedeem_Valid w = Ok tt
  ∧ s' = s <| kv_shielder_withdrawal :=
    <[ToUpper (sr_WithdrawalID w) := w]> (kv_shielder_withdrawal s) |>.
Proof.
  intros Hw. autounfold with keeper in Hw. apply bind_Ok in Hw as ([] & s1 & [Hv ->]%lift_Ok & Hw).
  by apply modify_Ok in Hw as <-.
Qed.

(** The nullifiers are written nowhere else. *)
Lemma finalize_keeps_nullifiers `{BtcWire} w : keeps kv_shielder_nullifier (FinalizeShielderRedeem ctx w).
Proof.
  unfold FinalizeShielderRedeem, FinalizeBidDepositFromNoteSpend, openNodeSlotBidForRedeem,
    QueueAuthorizedWithdrawalTxOut, queueAuthorizedWithdrawalTxOut, withdrawalFeeSats,
    withdrawalFeeBp, btcGasRateFromKeeper, addWithdrawalFee.
  frame_tac; by apply append_keeps.
Qed.

Lemma authorize_ok policy inputs w s s' :
  authorize ctx policy inputs s = (Ok w, s') →
  s' = authorized_store w s ∧ ShielderRedeem_Valid w = Ok tt
  ∧ sr_NullifierHash w = pi_NullifierHash inputs ∧ sr_MerkleRoot w = pi_MerkleRoot inputs
  ∧ sr_AmountSats w = pi_DenominationSats inputs ∧ sr_RecipientPolicy w = policy
  ∧ sr_BidID w = TrimSpace (pi_BidID inputs) ∧ sr_NodePubKey w = TrimSpace (pi_NodePubKey inputs)
  ∧ shielderRedeemRecipient inputs policy = Ok (sr_Recipient w)
  ∧ sr_Status w = ShielderRedeemStatusAuthorized ∧ sr_RequestedHeight w = BlockHeight ctx
  ∧ sr_WithdrawalID w = shielderRedeemID [sr_NullifierHash w; sr_Recipient w; policy].
Proof.
  intros Hr. unfold authorize in Hr.
  apply bind_Ok in Hr as (recipient & s1 & [Hrec ->]%lift_Ok & Hr).
  apply bind_Ok in Hr as ([vault addr] & s1 & Hv & Hr).
  apply (keeps_run (λ s, s)) in Hv as ->; [|apply current_vault_keeps].
  apply bind_Ok in Hr as (inHash & s1 & [Hin ->]%lift_Ok & Hr).
  apply bind_Ok in Hr as (fee & s1 & Hf & Hr).
  apply (keeps_run (λ s, s)) in Hf as ->; [|apply redeem_fee_keeps].
  cbv zeta in Hr.
  match type of Hr with (lift (ShielderRedeem_Valid ?r) ≫= _) _ = _ => set (w0 := r) in * end.
  apply bind_Ok in Hr as ([] & s1 & [_ ->]%lift_Ok & Hr).
  apply bind_Ok in Hr as ([] & s1 & [Hv ->]%set_redeem_ok & Hr).
  apply bind_Ok in Hr as ([] & s2 & Hn & Hr). apply mret_Ok in Hr as [-> ->].
  assert (Hid : TrimSpace (sr_WithdrawalID w0) = sr_WithdrawalID w0) by apply Sha256.Sum256Hex_trim.
  split; [|by split_and!].
  unfold SetShielderNullifierSpent in Hn. cbv zeta in Hn.
  apply bind_Ok in Hn as ([] & s3 & [_ ->]%fail_if_Ok & Hn).
  apply bind_Ok in Hn as ([] & s3 & [_ ->]%fail_if_Ok & Hn).
  autounfold with keeper in Hn. rewrite Hid in Hn.
  apply bind_Ok in Hn as (r & s3 & Hg & Hn).
  apply bind_Ok in Hg as (o & s4 & [Ho ->]%gets_Ok & [-> ->]%mret_Ok).
  apply modify_Ok in Hn as <-. rec_simpl_all. rewrite lookup_insert_eq in Ho. subst o.
  unfold authorized_store. rewrite Hid. cbn [from_option].
  change (sr_RequestedHeight w0) with (BlockHeight ctx).
  by destruct (0 <? BlockHeight ctx).
Qed.

Lemma authorize_redeem_ok `{ProofEngine} req w s s' :
  AuthorizeShielderRedeem ctx req s = (Ok w, s') →
  ∃ inputs, parseShielderRedeemPublicInputs (rr_Public req) = Ok inputs
  ∧ VerifyShielderRedeemJSON (rr_Proof req) (rr_Public req) = Ok tt
  ∧ RejectLeakyShielderRedeemProof (rr_Proof req) = Ok tt
  ∧ kv_shielder_nullifier s !! ToUpper (TrimSpace (pi_NullifierHash inputs)) = None
  ∧ (pi_DenominationSats inputs, TrimSpace (pi_MerkleRoot inputs)) ∈ kv_shielder_merkle_root s
  ∧ authorize ctx (normalizeShielderRedeemPolicy (pi_RecipientPolicy inputs)) inputs s = (Ok w, s').
Proof.
  intros Hr. unfold AuthorizeShielderRedeem in Hr.
  apply bind_Ok in Hr as (inputs & s1 & [Hp ->]%lift_Ok & Hr). cbv zeta in Hr.
  apply bind_Ok in Hr as ([] & s1 & Hpol & Hr).
  apply (keeps_run (λ s, s)) in Hpol as ->; [|apply policy_keeps].
  apply bind_Ok in Hr as ([] & s1 & [_ ->]%lift_Ok & Hr).
  apply bind_Ok in Hr as ([] & s1 & [Hl ->]%lift_Ok & Hr).
  apply bind_Ok in Hr as ([] & s1 & [Hver ->]%lift_Ok & Hr).
  apply bind_Ok in Hr as (spent & s1 & Hs & Hr).
  apply bind_Ok in Hs as (o & s2 & [Ho ->]%gets_Ok & [-> ->]%mret_Ok).
  apply bind_Ok in Hr as ([] & s1 & [Hsp ->]%fail_if_Ok & Hr).
  apply bind_Ok in Hr as (known & s1 & Hk & Hr).
  unfold ShielderMerkleRootExists in Hk. cbv zeta in Hk.
  destruct (pi_DenominationSats inputs =? 0); [apply mret_Ok in Hk as [-> ->]; by go_inv|].
  destruct (is_empty _); [apply mret_Ok in Hk as [-> ->]; by go_inv|].
  apply gets_Ok in Hk as [Hk ->].
  apply bind_Ok in Hr as ([] & s1 & [Hkn ->]%fail_if_Ok & Hr).
  exists inputs. split_and!; try done.
  - subst o. by destruct (kv_shielder_nullifier s !! _).
  - rewrite TrimSpace_idem in Hk. subst known. by apply negb_false_iff, bool_decide_eq_true in Hkn.
Qed.

End RedeemLemmas.

(** *** Fees and ids *)

Lemma first_error_Ok l : first_error l = Ok tt → Forall (λ be, fst be = false) l.
Proof.
  induction l as [|[b e] l IH]; simpl; [constructor|]. destruct b; [done|]. intros Hl.
  constructor; [done|by apply IH].
Qed.

Lemma withdrawal_fee_keeps {T} (p : KVStore → T) amount : keeps p (withdrawalFeeSats amount).
Proof. frame_tac. Qed.

Lemma withdrawal_fee_range amount fee s s' :
  withdrawalFeeSats amount s = (Ok fee, s') → is_u64 fee.
Proof.
  unfold withdrawalFeeSats, withdrawalFeeBp. intros Hr. go_inv.
  unfold withdrawalFeeSatsForBp in *. go_inv.
  repeat (case_match; go_inv). apply u64_range.
Qed.

Lemma finalize_id `{Ext} `{BtcWire} ctx w w' s s' :
  FinalizeShielderRedeem ctx w s = (Ok w', s') → sr_WithdrawalID w' = sr_WithdrawalID w.
Proof.
  intros Hr. unfold FinalizeShielderRedeem, FinalizeBidDepositFromNoteSpend,
    QueueAuthorizedWithdrawalTxOut, queueAuthorizedWithdrawalTxOut in Hr. cbv zeta in Hr.
  repeat case_match; go_inv; done.
Qed.

Lemma confirm_keeps_nullifiers `{Ext} ctx owner npk op amount :
  keeps kv_shielder_nullifier (confirmBondFromNoteSpend ctx owner npk op amount).
Proof.
  unfold confirmBondFromNoteSpend, recordPendingShielderNodeBond, confirmShielderNodeBond,
    activatePendingNodeBonder, activatePendingNodeBonders, activate_bonder,
    shielderBondRequiredSats, pending_bond.
  frame_tac; unfold ResetNodeAccountPenaltyPoints; frame_tac.
Qed.

Lemma registry_authorized ctx w s slack :
  registry_ok s slack → registry_ok (authorized_store ctx w s) slack.
Proof. intros [R1 R2 R3]. by split. Qed.

(** ** Properties *)

(** C4. An authorized redeem was proven: the verifier accepted the message's own
proof and public inputs, the root they name is a root of the pool of that
denomination, and the nullifier they carry was unspent.  The redeem is recorded
for the whole note under an id that binds nullifier, recipient and policy, the
nullifier is marked with that id, and nothing else in the store changes. *)
Theorem redeem_authorized `{Ext} `{ProofEngine} (ctx : Ctx) (req : ShielderRedeemRequest)
    (w : ShielderRedeem) (s s' : KVStore) :
  AuthorizeShielderRedeem ctx req s = (Ok w, s') →
  ∃ inputs, parseShielderRedeemPublicInputs (rr_Public req) = Ok inputs
  ∧ VerifyShielderRedeemJSON (rr_Proof req) (rr_Public req) = Ok tt
  ∧ (pi_DenominationSats inputs, TrimSpace (pi_MerkleRoot inputs)) ∈ kv_shielder_merkle_root s
  ∧ kv_shielder_nullifier s !! ToUpper (TrimSpace (pi_NullifierHash inputs)) = None
  ∧ sr_NullifierHash w = pi_NullifierHash inputs
  ∧ sr_AmountSats w = pi_DenominationSats inputs
  ∧ sr_FeeSats w < sr_AmountSats w
  ∧ sr_WithdrawalID w
    = shielderRedeemID [sr_NullifierHash w; sr_Recipient w; sr_RecipientPolicy w]
  ∧ s' = authorized_store ctx w s.
Proof.
  intros Hr. apply authorize_redeem_ok in Hr as (inputs & Hp & Hv & _ & Hn & Hk & Hr).
  apply authorize_ok in Hr as (-> & Hvalid & E1 & _ & E3 & E4 & _ & _ & _ & _ & _ & E10).
  exists inputs. rewrite <- E4 in E10. split_and!; try done.
  unfold ShielderRedeem_Valid in Hvalid. apply first_error_Ok in Hvalid.
  rewrite Forall_forall in Hvalid.
  specialize (Hvalid (sr_AmountSats w <=? sr_FeeSats w, "shielder redeem fee exceeds amount")).
  apply Z.leb_gt, Hvalid. repeat (first [apply list_elem_of_here | apply list_elem_of_further]).
Qed.

(** C3. A nullifier is spent once: after an authorized redeem, and whatever else
happens as long as no nullifier is deleted, no redeem with the same nullifier
text, up to surrounding space and letter case, is authorized. *)
Theorem nullifier_spent_once `{Ext} `{ProofEngine} (ctx1 ctx2 : Ctx)
    (req1 req2 : ShielderRedeemRequest) (w1 w2 : ShielderRedeem) (s1 s1' s2 s2' : KVStore) :
  AuthorizeShielderRedeem ctx1 req1 s1 = (Ok w1, s1') →
  kv_shielder_nullifier s1' ⊆ kv_shielder_nullifier s2 →
  AuthorizeShielderRedeem ctx2 req2 s2 = (Ok w2, s2') →
  ToUpper (TrimSpace (sr_NullifierHash w1)) ≠ ToUpper (TrimSpace (sr_NullifierHash w2)).
Proof.
  intros H1 Hsub H2 Heq.
  apply authorize_redeem_ok in H1 as (i1 & _ & _ & _ & _ & _ & H1).
  apply authorize_ok in H1 as (-> & _).
  apply authorize_redeem_ok in H2 as (i2 & _ & _ & _ & Hn & _ & H2).
  apply authorize_ok in H2 as (_ & _ & E & _). rewrite <- E, <- Heq in Hn.
  eapply lookup_weaken_None in Hn; [|exact Hsub]. unfold authorized_store in Hn. rec_simpl_all.
  by rewrite lookup_insert_eq in Hn.
Qed.

(** C6. A withdrawal pays the note less the fee, exactly: queueing an authorized
redeem appends one Bitcoin output to its recipient, from the vault recorded with
it, and books the fee; output and fee add up to the note, and both the output
and the recorded fee are those of the fee rate at that moment. *)
Theorem withdrawal_pays_note_less_fee `{Ext} `{BtcWire} (ctx : Ctx) (w w' : ShielderRedeem)
    (s s' : KVStore) :
  QueueAuthorizedWithdrawalTxOut ctx w s = (Ok w', s') → is_u64 (sr_AmountSats w) →
  ∃ item s1 s2,
    appendBTCExactTxOut ctx (BlockHeight ctx) item s = (Ok tt, s1)
    ∧ addWithdrawalFee (sr_FeeSats w') s1 = (Ok tt, s2)
    ∧ s' = s2 <| kv_shielder_withdrawal :=
             <[ToUpper (sr_WithdrawalID w') := w']> (kv_shielder_withdrawal s2) |>
    ∧ to_ToAddress item = sr_Recipient w ∧ to_VaultPubKey item = sr_VaultPubKey w
    ∧ to_InHash item = sr_InHash w ∧ to_TxType item = TxOutTypeOut
    ∧ c_Amount (to_Coin item) + sr_FeeSats w' = sr_AmountSats w
    ∧ 0 < c_Amount (to_Coin item)
    ∧ (withdrawalFeeSats (sr_AmountSats w) s).1 = Ok (sr_FeeSats w')
    ∧ sr_Status w = ShielderRedeemStatusAuthorized ∧ sr_Status w' = DepositStatusKeysignQueued.
Proof.
  intros Hr Hu. unfold QueueAuthorizedWithdrawalTxOut, queueAuthorizedWithdrawalTxOut in Hr.
  apply bind_Ok in Hr as ([] & s1 & [_ ->]%lift_Ok & Hr).
  apply bind_Ok in Hr as ([] & s1 & [Hst ->]%fail_if_Ok & Hr).
  apply bind_Ok in Hr as (fee & s1 & Hf & Hr).
  pose proof Hf as Hs. apply (keeps_run (λ s, s)) in Hs as ->; [|apply withdrawal_fee_keeps].
  apply bind_Ok in Hr as ([] & s1 & [Hlt ->]%fail_if_Ok & Hr). cbv zeta in Hr. rec_simpl_all.
  apply bind_Ok in Hr as (rate & s1 & Hg & Hr). apply gas_rate_reads in Hg as ->.
  apply bind_Ok in Hr as ([] & s1 & Happ & Hr).
  apply bind_Ok in Hr as ([] & s2 & Hfee & Hr).
  apply bind_Ok in Hr as ([] & s3 & [_ ->]%set_redeem_ok & Hr). apply mret_Ok in Hr as [-> ->].
  eexists _, s1, s2. split; [exact Happ|]. split; [exact Hfee|]. unfold withdrawal_item. rec_simpl.
  unfold NewCoin. cbn [c_Amount].
  assert (Hr0 : is_u64 fee) by (by eapply withdrawal_fee_range).
  rewrite u64_small by (unfold is_u64 in *; lia).
  apply negb_false_iff, str_eq_true in Hst. split_and!; try done; try lia. by rewrite Hf.
Qed.

(** A redeem message either spends a nullifier that was unspent and nothing
but that one, or leaves the whole store as it was: a refused proof, a policy
that finalizes elsewhere, or an output that cannot be queued costs the owner
nothing. *)
Theorem redeem_message_all_or_nothing `{Ext} `{ProofEngine} `{BtcWire} (ctx : Ctx)
    (proof public : string) (r : res (string * string)) (s s' : KVStore) :
  MsgServer_ShielderRedeem ctx proof public s = (r, s') →
  match r with
  | Ok (withdrawalID, _) =>
      ∃ inputs record, parseShielderRedeemPublicInputs public = Ok inputs
      ∧ let key := ToUpper (TrimSpace (pi_NullifierHash inputs)) in
        kv_shielder_nullifier s !! key = None
        ∧ kv_shielder_nullifier s' = <[key := record]> (kv_shielder_nullifier s)
        ∧ nr_WithdrawalID record = withdrawalID
  | _ => s' = s
  end.
Proof.
  intros Hr. unfold MsgServer_ShielderRedeem, atomic in Hr.
  match type of Hr with context [match ?m s with _ => _ end] => destruct (m s) as [[[id st]|e|e] s1] eqn:Em end;
    injection Hr as <- <-; [|done|done].
  apply bind_Ok in Em as ([] & s2 & [_ ->]%lift_Ok & Em).
  apply bind_Ok in Em as (w & s2 & Ha & Em).
  apply bind_Ok in Em as (w' & s3 & Hf & Em). apply mret_Ok in Em as [[= -> ->] ->].
  pose proof (finalize_id _ _ _ _ _ Hf) as Hid.
  apply (keeps_run kv_shielder_nullifier) in Hf as Hk; [|apply finalize_keeps_nullifiers].
  apply authorize_redeem_ok in Ha as (inputs & Hp & _ & _ & Hn & _ & Ha).
  apply authorize_ok in Ha as (-> & _ & E1 & _ & _ & _ & _ & _ & _ & _ & _ & E10).
  eexists inputs, _. split; [exact Hp|]. cbv zeta. split; [done|]. rewrite Hk.
  unfold authorized_store. rec_simpl. rewrite E1. split; [reflexivity|]. cbn [nr_WithdrawalID].
  rewrite Hid, E10. apply Sha256.Sum256Hex_trim.
Qed.

(** Bonding notes spends them and bonds all of them: the nullifier, unspent
before, is the only one marked, and both the node's bond and the owner's stake
in it grow by the whole denomination, with no fee. *)
Theorem bonding_spends_note `{Ext} `{ProofEngine} (ctx : Ctx) (owner nodePubKey operator : string)
    (req : ShielderRedeemRequest) (inputs : shielderRedeemPublicInputs) (slack : Z)
    (bond : ShielderNodeBond) (s s' : KVStore) :
  parseShielderRedeemPublicInputs (rr_Public req) = Ok inputs →
  let amount := pi_DenominationSats inputs in
  let npk := TrimSpace nodePubKey in
  0 < amount → 0 <= slack → slack + amount < two64 → registry_ok s (slack + amount) →
  BondFromShieldedNotes ctx owner nodePubKey operator req s = (Ok bond, s') →
  let key := ToUpper (TrimSpace (pi_NullifierHash inputs)) in
  kv_shielder_nullifier s !! key = None
  ∧ (∃ record, kv_shielder_nullifier s' = <[key := record]> (kv_shielder_nullifier s))
  ∧ registry_ok s' slack ∧ bond = bond_at s' npk
  ∧ bond_total bond = bond_total (bond_at s npk) + amount
  ∧ bonder_total (bonder_at s' npk owner) = bonder_total (bonder_at s npk owner) + amount
  ∧ pi_FeeSats inputs = 0 ∧ TrimSpace (pi_NodePubKey inputs) = npk.
Proof.
  cbv zeta. intros Hp Ha Hsl Hsum R Hr. unfold BondFromShieldedNotes in Hr. cbv zeta in Hr.
  apply bind_Ok in Hr as ([] & s1 & [_ ->]%fail_if_Ok & Hr).
  apply bind_Ok in Hr as ([] & s1 & [Hne ->]%fail_if_Ok & Hr).
  apply bind_Ok in Hr as (op & s1 & [_ ->]%lift_Ok & Hr).
  rewrite Hp in Hr. apply bind_Ok in Hr as (i & s1 & [[= <-] ->]%lift_Ok & Hr).
  apply bind_Ok in Hr as ([] & s1 & [_ ->]%fail_if_Ok & Hr).
  apply bind_Ok in Hr as ([] & s1 & [Hnpk ->]%fail_if_Ok & Hr).
  apply bind_Ok in Hr as ([] & s1 & [Hfee ->]%fail_if_Ok & Hr).
  apply bind_Ok in Hr as (w & s1 & Hauth & Hr).
  apply authorize_redeem_ok in Hauth as (i & Hp' & _ & _ & Hn & _ & Hauth).
  rewrite Hp in Hp'. injection Hp' as <-.
  apply authorize_ok in Hauth as (-> & _ & E1 & _ & E3 & _).
  apply (keeps_run kv_shielder_nullifier) in Hr as Hk; [|apply confirm_keeps_nullifiers].
  rewrite E3 in Hr. apply negb_false_iff in Hfee, Hnpk. apply Z.eqb_eq in Hfee.
  apply str_eq_true in Hnpk. apply str_eq_false in Hne.
  destruct (bond_from_spend_totals ctx owner (TrimSpace nodePubKey) op (pi_DenominationSats inputs)
    slack bond (authorized_store ctx w s) s') as (R' & -> & Ht & Hb);
    try done; [apply TrimSpace_idem|by apply registry_authorized|].
  split_and!; try done. eexists. rewrite Hk. unfold authorized_store. rec_simpl. rewrite E1. done.
Qed.

(** ** Concrete instances *)

Import ToyExt ToyWire ToyProof.
#[local] Existing Instance toy_ext.
#[local] Existing Instance toy_wire.

(** A pool of one known root, and an active vault. *)
Definition note_store : KVStore :=
  deposit_store
    <| kv_vault := {[ "VAULT" := Vault_zero <| va_PubKey := "vault" |> <| va_Type := BaseVault |>
                       <| va_Status := ActiveVault |> ]} |>
    <| kv_vault_base_index := ["vault"] |>
    <| kv_shielder_merkle_root := {[ (100000, "7") ]} |>.

Definition public_text (nullifier recipient extra : string) : string :=
  js ("{'nullifier_hash':'" ++ nullifier ++ "','merkle_root':'7','denomination_sats':100000,"
      ++ "'recipient':'" ++ recipient ++ "','fee_sats':0" ++ extra ++ "}").

(** One proof, for the nullifier 5, and three ways to write its public inputs. *)
Definition spelled : string := public_text "5" "bc1qrecipient" "".
Definition zero_padded : string := public_text "05" "bc1qrecipient" "".
Definition recased : string := public_text "5" "bc1qrecipient" ",'Nullifier_Hash':'6'".

Definition redeem (public : string) : KM (string * string) :=
  MsgServer_ShielderRedeem (H0 := toy_proof "bc1qrecipient") (mkCtx 9) proof_text public.


(** A bond message: the same note, redeemed to the escrow. *)
Definition bond_message (owner : string) : MsgBondFromNotes :=
  {| mb_NodePubKey := owner ++ "node"; mb_OperatorPubKey := owner; mb_Proof := proof_text;
     mb_Public := public_text "5" "bond_escrow"
       (",'recipient_policy':'bond_escrow','node_pub_key':'" ++ owner ++ "node'");
     mb_Signer := owner |}.

Definition bond_from (owner : string) : KM (Z * Z * string) :=
  MsgServer_BondFromNotes (H0 := toy_proof "bond_escrow") (mkCtx 9) (bond_message owner).

(** A bond proof names no owner: the statement it proves binds the escrow
recipient, the fee and the denomination, not the node or the signer.  The proof
of one owner's message, sent by another with another node, bonds the note to
the other, and the owner's own message is then refused. *)
Theorem bond_proof_names_no_owner :
  (bond_from "alice" note_store).1 = Ok (0, 1, "pending")
  ∧ let '(r, s) := bond_from "mallory" note_store in
    r = Ok (0, 1, "pending")
    ∧ bonder_total (bonder_at s "mallorynode" "mallory") = 100000
    ∧ (bond_from "alice" s).1 = Err "shielder nullifier already spent".
Proof. vm_compute. repeat split. Qed.

(** *** Witnesses *)

Lemma redeem_authorized_witness :
  ∃ w s', sr_AmountSats w = 100000 ∧ s' = authorized_store (mkCtx 9) w note_store.
Proof.
  set (run := AuthorizeShielderRedeem (H0 := toy_proof "bc1qrecipient") (mkCtx 9)
    (mkRequest proof_text spelled) note_store).
  assert (Hrun : ∃ w, run.1 = Ok w ∧ sr_AmountSats w = 100000) by (vm_compute; by eexists).
  destruct Hrun as (w & Hrun & Hamount).
  destruct (redeem_authorized (H0 := toy_proof "bc1qrecipient") (mkCtx 9)
    (mkRequest proof_text spelled) w note_store run.2 (run_ok _ _ _ Hrun))
    as (inputs & _ & _ & _ & _ & _ & _ & _ & _ & Hs).
  exists w, run.2. split; [exact Hamount|exact Hs].
Defined.

Lemma nullifier_spent_once_witness :
  ∃ w1 w2, ToUpper (TrimSpace (sr_NullifierHash w1)) ≠ ToUpper (TrimSpace (sr_NullifierHash w2)).
Proof.
  set (run1 := AuthorizeShielderRedeem (H0 := toy_proof "bc1qrecipient") (mkCtx 9)
    (mkRequest proof_text spelled) note_store).
  assert (H1 : ∃ w, run1.1 = Ok w) by (vm_compute; by eexists). destruct H1 as [w1 H1].
  set (s1 := run1.2).
  set (run2 := AuthorizeShielderRedeem (H0 := toy_proof "bc1qrecipient") (mkCtx 9)
    (mkRequest proof_text zero_padded) s1).
  assert (H2 : ∃ w, run2.1 = Ok w) by (vm_compute; by eexists). destruct H2 as [w2 H2].
  exists w1, w2. pose proof (run_ok _ _ _ H1) as R1. pose proof (run_ok _ _ _ H2) as R2.
  fold run1 in R1. fold run2 in R2. fold s1 in R1. clearbody s1.
  refine (nullifier_spent_once _ _ _ _ _ _ _ _ _ _ R1 _ R2). reflexivity.
Defined.

(** One percent of 100,000 satoshis goes to the pool. *)
Definition small_note : ShielderRedeem :=
  ShielderRedeem_zero <| sr_WithdrawalID := "W" |> <| sr_NullifierHash := "5" |>
    <| sr_MerkleRoot := "7" |> <| sr_Recipient := "bc1qrecipient" |> <| sr_AmountSats := 100000 |>
    <| sr_InHash := "IN" |> <| sr_VaultPubKey := "vault" |>
    <| sr_Status := ShielderRedeemStatusAuthorized |>.

Lemma withdrawal_pays_note_less_fee_witness :
  ∃ item s1, appendBTCExactTxOut (mkCtx 9) 9 item note_store = (Ok tt, s1)
  ∧ c_Amount (to_Coin item) = 99000.
Proof.
  set (run := QueueAuthorizedWithdrawalTxOut (mkCtx 9) small_note note_store).
  assert (Hrun : ∃ w, run.1 = Ok w ∧ sr_FeeSats w = 1000) by (vm_compute; eexists; split; reflexivity).
  destruct Hrun as (w & Hrun & Hfee).
  destruct (withdrawal_pays_note_less_fee (mkCtx 9) small_note w note_store run.2)
    as (item & s1 & s2 & Happ & _ & _ & _ & _ & _ & _ & Hsum & _).
  - exact (run_ok _ _ _ Hrun).
  - split; vm_compute; congruence.
  - exists item, s1. split; [exact Happ|]. rewrite Hfee in Hsum. change (sr_AmountSats small_note) with 100000 in Hsum. lia.
Defined.

Lemma redeem_message_all_or_nothing_witness : ∃ run : res (string * string) * KVStore,
  run.1 = Err "unknown shielder merkle root" ∧ run.2 = KVStore_empty.
Proof.
  set (run := MsgServer_ShielderRedeem (H0 := toy_proof "bc1qrecipient") (mkCtx 9) proof_text
    recased KVStore_empty).
  assert (Hrun : run.1 = Err "unknown shielder merkle root") by (vm_compute; reflexivity).
  pose proof (surjective_pairing run) as R. rewrite Hrun in R.
  exists run. split; [exact Hrun|].
  exact (redeem_message_all_or_nothing _ _ _ _ _ _ R).
Defined.

Definition escrow_inputs : shielderRedeemPublicInputs :=
  {| pi_NullifierHash := "5"; pi_MerkleRoot := "7"; pi_DenominationSats := 100000;
     pi_Recipient := "bond_escrow"; pi_FeeSats := 0; pi_RecipientPolicy := "bond_escrow";
     pi_NodePubKey := "alicenode"; pi_BidID := "" |}.

Lemma bonding_spends_note_witness :
  ∃ s', bonder_total (bonder_at s' "alicenode" "alice") = 100000.
Proof.
  set (req := mkRequest proof_text (mb_Public (bond_message "alice"))).
  set (run := BondFromShieldedNotes (H0 := toy_proof "bond_escrow") (mkCtx 9) "alice" "alicenode"
    "alice" req note_store).
  assert (Hrun : ∃ b, run.1 = Ok b) by (vm_compute; by eexists). destruct Hrun as [b Hrun].
  destruct (bonding_spends_note (H0 := toy_proof "bond_escrow") (mkCtx 9) "alice" "alicenode"
    "alice" req escrow_inputs 0 b note_store run.2) as (_ & _ & _ & _ & _ & Hb & _);
    [vm_compute; reflexivity|reflexivity|discriminate|reflexivity|by split|exact (run_ok _ _ _ Hrun)|].
  exists run.2. change "alicenode" with (TrimSpace "alicenode"). rewrite Hb. vm_compute. reflexivity.
Defined.
