(* ===== verification/Auction.v ===== *)
(** * Node-slot auctions

The operator of a standing bonded node offers its slot; bidders deposit notes
into bids; the seller selects one, which settles the sale: the slot and a bond
of the bid's amount go to the bidder, and the sellers' principal comes back, as
far as the bid covers it, as entitlements that are shielded into notes
(x/thornado/shielder_flow.go, the auction messages of types/msg_shielder.go and
msg_server.go).

[lifecycle] at the end is the auction's state machine as a step relation. *)

From S2P Require Import Prelude GoStrings Merkle Sha256 Config Common Types Vaults Keeper BtcBatch Notes Fees Shield Withdraw Bonds Redeem.

Definition nodeSlotAuctionID (nodePubKey : string) (slot height : Z) : string :=
  Sha256.Sum256Hex ("thornado:node-slot-auction:v1|" ++ nodePubKey ++ "|" ++ itoa slot ++ "|"
    ++ itoa height).

Definition nodeSlotBidIDForNode (auctionID bidder nodePubKey : string) : string :=
  Sha256.Sum256Hex ("thornado:node-slot-bid:v2|" ++ auctionID ++ "|" ++ bidder ++ "|"
    ++ TrimSpace nodePubKey).

Definition nodeSlotSaleEntitlementID (auctionID bidID owner : string) : res string :=
  TxID.NewTxID (Sha256.Sum256Hex ("thornado:node-sale-entitlement:v2|" ++ TrimSpace auctionID
    ++ "|" ++ TrimSpace bidID ++ "|" ++ owner)).

Section Auction.
Context `{Ext} (ctx : Ctx).

(** ** Opening an auction *)

(** An auction of the same node that still stands in the way of a new one. *)
Definition blocking_auction (nodePubKey : string) (auction : NodeSlotAuction) : res unit :=
  if negb (str_eq (au_SellerNodePubKey auction) nodePubKey) then Ok tt
  else if str_eq (au_Status auction) NodeSlotAuctionOpen then
    if BlockHeight ctx <? au_ExpiryHeight auction
    then Err "node slot auction already open" else Ok tt
  else if str_eq (au_Status auction) NodeSlotAuctionSelected
  then Err "node slot auction already selected" else Ok tt.

Definition validateNodeSlotAuctionCreate (seller nodePubKey : string) (expiryHeight : Z)
    : KM ShielderNodeBond :=
  _ ← fail_if (Acc_Empty seller) "missing node slot auction seller";
  _ ← fail_if (expiryHeight <=? BlockHeight ctx)
        "node slot auction expiry must be in the future";
  let duration := expiryHeight -i BlockHeight ctx in
  minExpiry ← getConfigDurationBlocks NodeSale_AuctionExpiryMinMinutes;
  _ ← fail_if ((0 <? minExpiry) && (duration <? minExpiry))
        "node slot auction expiry below minimum";
  maxExpiry ← getConfigDurationBlocks NodeSale_AuctionExpiryMaxMinutes;
  _ ← fail_if ((0 <? maxExpiry) && (maxExpiry <? duration))
        "node slot auction expiry above maximum";
  bond ← GetShielderNodeBond nodePubKey;
  _ ← fail_if (is_empty (nb_NodePubKey bond) || (nb_BondSats bond =? 0)
               || negb (nb_FeeShareActive bond) || nb_Sold bond) "node has no active bonded slot";
  operatorAddress ← lift (PubKey.GetThorAddress (nb_OperatorPubKey bond));
  _ ← fail_if (negb (Acc_Equals operatorAddress seller)) "node slot auction seller mismatch";
  nodeAccount ← GetNodeAccount ctx (nb_NodeAddress bond);
  _ ← fail_if (negb (bool_decide (na_Status nodeAccount = NodeStandby)))
        "node slot must be standby before auction";
  auctions ← getIterator kv_node_slot_auction;
  _ ← lift (rfold (λ _ auction, blocking_auction nodePubKey auction) tt auctions);
  mret bond.

Definition CreateNodeSlotAuction (seller nodePubKey : string) (reserveSats expiryHeight : Z)
    : KM NodeSlotAuction :=
  bond ← validateNodeSlotAuctionCreate seller nodePubKey expiryHeight;
  let auction := NodeSlotAuction_zero
    <| au_AuctionID := nodeSlotAuctionID nodePubKey (nb_Slot bond) (BlockHeight ctx) |>
    <| au_Seller := seller |>
    <| au_SellerOperatorPubKey := nb_OperatorPubKey bond |>
    <| au_SellerNodePubKey := nb_NodePubKey bond |>
    <| au_Slot := nb_Slot bond |>
    <| au_OriginalBondSats := nb_BondSats bond |>
    <| au_ReserveSats := reserveSats |>
    <| au_ExpiryHeight := expiryHeight |>
    <| au_Status := NodeSlotAuctionOpen |>
    <| au_CreatedHeight := BlockHeight ctx |>
    <| au_UpdatedHeight := BlockHeight ctx |> in
  _ ← SetNodeSlotAuction auction;
  mret auction.

(** ** Bidding *)

Definition CreateNodeSlotBid (bidder auctionID operatorPubKey nodePubKey : string)
    : KM NodeSlotBid :=
  _ ← fail_if (Acc_Empty bidder) "missing node slot bidder";
  auction ← GetNodeSlotAuction (TrimSpace auctionID);
  _ ← fail_if (is_empty (au_AuctionID auction)
               || negb (str_eq (au_Status auction) NodeSlotAuctionOpen))
        "node slot auction is not open";
  _ ← fail_if (au_ExpiryHeight auction <=? BlockHeight ctx) "node slot auction expired";
  let nodePubKey := TrimSpace nodePubKey in
  operator ← lift (PubKey.NewPubKey (TrimSpace operatorPubKey));
  _ ← lift (PubKey.check_cons_pubkey nodePubKey);
  let bidID := nodeSlotBidIDForNode (au_AuctionID auction) bidder nodePubKey in
  existing ← GetNodeSlotBid bidID;
  if negb (is_empty (bd_BidID existing)) then mret existing
  else
    let bid := NodeSlotBid_zero
      <| bd_BidID := bidID |> <| bd_AuctionID := au_AuctionID auction |>
      <| bd_Bidder := bidder |> <| bd_OperatorPubKey := operator |>
      <| bd_NodePubKey := nodePubKey |> <| bd_DepositAddress := BondEscrowAddress |>
      <| bd_CreatedHeight := BlockHeight ctx |> <| bd_UpdatedHeight := BlockHeight ctx |> in
    _ ← SetNodeSlotBid bid;
    mret bid.

(** ** Selecting a bid *)

(** An expired auction is marked so before the error is returned. *)
Definition validateNodeSlotBidSelection (seller auctionID bidID : string)
    : KM (NodeSlotAuction * NodeSlotBid) :=
  auction ← GetNodeSlotAuction auctionID;
  _ ← fail_if (is_empty (au_AuctionID auction)
               || negb (str_eq (au_Status auction) NodeSlotAuctionOpen))
        "node slot auction is not open";
  _ ← fail_if (negb (Acc_Equals (au_Seller auction) seller)) "node slot auction seller mismatch";
  if au_ExpiryHeight auction <=? BlockHeight ctx then
    _ ← try (SetNodeSlotAuction (auction <| au_Status := NodeSlotAuctionExpired |>
                                         <| au_UpdatedHeight := BlockHeight ctx |>));
    fail "node slot auction expired"
  else
    bid ← GetNodeSlotBid bidID;
    _ ← fail_if (is_empty (bd_BidID bid) || negb (str_eq (bd_AuctionID bid) (au_AuctionID auction)))
          "node slot bid not found for auction";
    _ ← fail_if (bd_AmountSats bid =? 0) "node slot bid deposit not matched";
    minBid ← GetConfigInt64 NodeSale_BidAmountMinSats;
    _ ← fail_if (bd_AmountSats bid <? u64 minBid) "node slot bid below minimum";
    _ ← fail_if (bd_AmountSats bid <? au_ReserveSats auction) "node slot bid below reserve";
    _ ← fail_if (negb (TxID.IsEmpty (bd_DepositID bid)))
          "legacy node slot bid deposits are not supported";
    mret (auction, bid).

(** *** The transfer of the slot *)

Definition sold_bond (auction : NodeSlotAuction) (bond : ShielderNodeBond) : ShielderNodeBond :=
  bond <| nb_Sold := true |> <| nb_SoldAuctionID := au_AuctionID auction |>
    <| nb_FeeShareActive := false |> <| nb_BondSats := 0 |> <| nb_PendingSats := 0 |>
    <| nb_UpdatedHeight := BlockHeight ctx |>.

Definition bought_bond (auction : NodeSlotAuction) (bid : NodeSlotBid) (newNodeAddress : string)
    (newBondSats : Z) (pool : FeePool) : ShielderNodeBond :=
  ShielderNodeBond_zero
    <| nb_NodePubKey := bd_NodePubKey bid |>
    <| nb_OperatorPubKey := bd_OperatorPubKey bid |>
    <| nb_NodeAddress := newNodeAddress |>
    <| nb_Slot := au_Slot auction |>
    <| nb_BondSats := newBondSats |>
    <| nb_Bonders := [bd_Bidder bid] |>
    <| nb_CreatedHeight := BlockHeight ctx |>
    <| nb_UpdatedHeight := BlockHeight ctx |>
    <| nb_FeeShareActive := true |>
    <| nb_FeeDebtSats := fp_FeePerSlotShare pool |>.

Definition transferNodeSlotSaleBond (auction : NodeSlotAuction) (bid : NodeSlotBid)
    (newBondSats : Z) : KM unit :=
  _ ← lift (PubKey.check_cons_pubkey (bd_NodePubKey bid));
  newNodeAddress ← lift (PubKey.GetThorAddress (bd_OperatorPubKey bid));
  oldBond ← GetShielderNodeBond (au_SellerNodePubKey auction);
  _ ← fail_if (is_empty (nb_NodePubKey oldBond) || negb (nb_Slot oldBond =? au_Slot auction))
        "seller bond does not match auction slot";
  let oldNodeAddress := nb_NodeAddress oldBond in
  oldNodeAccount ← GetNodeAccount ctx oldNodeAddress;
  let retired := negb (NodeAccount_IsEmpty oldNodeAccount)
                 && negb (Acc_Equals oldNodeAddress newNodeAddress) in
  let oldNodeAccount :=
    if retired
    then UpdateStatus (oldNodeAccount <| na_Bond := 0 |>) NodeWhiteListed (BlockHeight ctx)
    else oldNodeAccount in
  pool ← distributeFeePool;
  let newBond := bought_bond auction bid newNodeAddress newBondSats pool in
  let newBonder := ShielderNodeBonder_zero
    <| br_NodePubKey := bd_NodePubKey bid |> <| br_Bonder := bd_Bidder bid |>
    <| br_PrincipalSats := newBondSats |> <| br_FeeDebtShare := nb_FeePerBondShare newBond |>
    <| br_CreatedHeight := BlockHeight ctx |> <| br_UpdatedHeight := BlockHeight ctx |> in
  operatorCommonAddress ← lift (Address.NewAddress newNodeAddress);
  nodeAccount ← GetNodeAccount ctx newNodeAddress;
  let nodeAccount :=
    if NodeAccount_IsEmpty nodeAccount
    then NewNodeAccount newNodeAddress NodeStandby EmptyPubKeySet (bd_NodePubKey bid) 0
           operatorCommonAddress (BlockHeight ctx)
    else nodeAccount in
  let nodeAccount := UpdateStatus (nodeAccount <| na_NodeConsPubKey := bd_NodePubKey bid |>
      <| na_BondAddress := operatorCommonAddress |> <| na_Bond := nb_BondSats newBond |>)
    NodeStandby (BlockHeight ctx) in
  _ ← SetShielderNodeBond (sold_bond auction oldBond);
  _ ← SetShielderNodeBond newBond;
  _ ← SetShielderNodeBonder newBonder;
  _ ← SetNodeAccount ctx nodeAccount;
  _ ← (if retired then SetNodeAccount ctx oldNodeAccount else mret tt);
  SetFeePool pool.

(** *** The payouts *)

(** One bonder's part of [recoverable]; the product is computed in 64 bits.
    The state is what remains to pay and the principal not yet visited. *)
Definition sale_payout (recoverable bond_sats remaining remainingPrincipal principal : Z)
    : Z * Z * Z :=
  let payout := if negb (remainingPrincipal =? 0)
                then (recoverable *u principal) / bond_sats else 0 in
  let remainingPrincipal := remainingPrincipal -u principal in
  let payout := if remainingPrincipal =? 0 then remaining else payout in
  let payout := if remaining <? payout then remaining else payout in
  (payout, remaining -u payout, remainingPrincipal).

Definition entitlement (auction : NodeSlotAuction) (vaultPubKey entitlementID owner : string)
    (payout protocolBondSats : Z) : DepositRecord :=
  DepositRecord_zero
    <| dr_DepositID := entitlementID |> <| dr_Owner := owner |> <| dr_AmountSats := payout |>
    <| dr_DepositAddress := NoopAddress |> <| dr_VaultPubKey := vaultPubKey |>
    <| dr_Settlement := DepositSettlementOperatorSale |>
    <| dr_SellerPayoutSats := payout |> <| dr_ProtocolBondSats := protocolBondSats |>
    <| dr_NodeSlot := au_Slot auction |> <| dr_BondConfirmed := true |>
    <| dr_MatchedHeight := BlockHeight ctx |> <| dr_CreatedHeight := BlockHeight ctx |>
    <| dr_Status := DepositStatusSettled |>
    <| dr_OperatorPubKey := au_SellerOperatorPubKey auction |>
    <| dr_NodePubKey := au_SellerNodePubKey auction |>
    <| dr_AuctionID := au_AuctionID auction |>.

Definition pay_bonder (auction : NodeSlotAuction) (bid : NodeSlotBid) (vaultPubKey : string)
    (recoverable bond_sats protocolBondSats : Z) (acc : Z * Z) (bonder : ShielderNodeBonder)
    : KM (Z * Z) :=
  let '(remaining, remainingPrincipal) := acc in
  if br_PrincipalSats bonder =? 0 then mret acc
  else
    _ ← (if negb (remainingPrincipal =? 0) && (bond_sats =? 0)
         then panic "integer divide by zero" else mret tt);
    let '(payout, remaining, remainingPrincipal) :=
      sale_payout recoverable bond_sats remaining remainingPrincipal (br_PrincipalSats bonder) in
    let bonder := bonder <| br_PrincipalSats := 0 |> <| br_SalePayoutSats := payout |>
      <| br_UpdatedHeight := BlockHeight ctx |> in
    if payout =? 0 then
      _ ← SetShielderNodeBonder bonder;
      mret (remaining, remainingPrincipal)
    else
      entitlementID ← lift (nodeSlotSaleEntitlementID (au_AuctionID auction) (bd_BidID bid)
                              (br_Bonder bonder));
      _ ← SetDepositRecord (entitlement auction vaultPubKey entitlementID (br_Bonder bonder)
                              payout protocolBondSats);
      _ ← SetShielderNodeBonder (bonder <| br_SaleEntitlementID := entitlementID |>);
      mret (remaining, remainingPrincipal).

Definition settleNodeSlotSale `{SortSlice} (auction : NodeSlotAuction) (bid : NodeSlotBid)
    : KM unit :=
  _ ← fail_if (bd_AmountSats bid =? 0) "node slot bid has no shielded amount";
  oldBond ← GetShielderNodeBond (au_SellerNodePubKey auction);
  _ ← fail_if (is_empty (nb_NodePubKey oldBond) || (nb_BondSats oldBond =? 0))
        "seller bond does not match auction slot";
  let recoverablePrincipal := if bd_AmountSats bid <? nb_BondSats oldBond
                              then bd_AmountSats bid else nb_BondSats oldBond in
  let protocolBondSats := bd_AmountSats bid -u recoverablePrincipal in
  protocolBondDust ← shielderDustRemainder protocolBondSats;
  _ ← (if 0 <? protocolBondDust then addWithdrawalFee protocolBondDust else mret tt);
  let protocolBondSats := protocolBondSats -u protocolBondDust in
  _ ← transferNodeSlotSaleBond auction bid (bd_AmountSats bid);
  '(vault, _) ← currentBTCVaultAddress ctx;
  bonders ← getNodeBonders (au_SellerNodePubKey auction);
  _ ← mfold (pay_bonder auction bid (va_PubKey vault) recoverablePrincipal (nb_BondSats oldBond)
               protocolBondSats) (recoverablePrincipal, nb_BondSats oldBond) bonders;
  mret tt.

Definition SelectNodeSlotBid `{SortSlice} (seller auctionID bidID : string)
    : KM (NodeSlotAuction * NodeSlotBid) :=
  '(auction, bid) ← validateNodeSlotBidSelection seller auctionID bidID;
  let auction := auction <| au_SelectedBidID := bd_BidID bid |>
    <| au_Status := NodeSlotAuctionSettled |> <| au_UpdatedHeight := BlockHeight ctx |> in
  let bid := bid <| bd_Selected := true |> <| bd_Settled := true |>
    <| bd_UpdatedHeight := BlockHeight ctx |> in
  _ ← settleNodeSlotSale auction bid;
  _ ← SetNodeSlotAuction auction;
  _ ← SetNodeSlotBid bid;
  mret (auction, bid).

(** ** Shielding an entitlement *)

Definition validateNodeSlotSaleEntitlementShield `{NoteJson} (seller auctionID bidID : string)
    (sellerCommitments : list string) : KM (NodeSlotAuction * NodeSlotBid * DepositRecord) :=
  auction ← GetNodeSlotAuction auctionID;
  _ ← fail_if (is_empty (au_AuctionID auction)
               || negb (str_eq (au_Status auction) NodeSlotAuctionSettled)
               || negb (str_eq (au_SelectedBidID auction) (TrimSpace bidID)))
        "node slot auction sale is not settled";
  bid ← GetNodeSlotBid bidID;
  _ ← fail_if (is_empty (bd_BidID bid)) "node slot bid not found";
  entitlementID ← lift (nodeSlotSaleEntitlementID (au_AuctionID auction) (bd_BidID bid) seller);
  deposit ← GetDepositRecord entitlementID;
  _ ← fail_if (TxID.IsEmpty (dr_DepositID deposit)
               || negb (str_eq (dr_Status deposit) DepositStatusSettled)
               || negb (str_eq (dr_Settlement deposit) DepositSettlementOperatorSale))
        "node sale entitlement is not shieldable";
  _ ← fail_if (negb (Acc_Equals (dr_Owner deposit) seller)) "node sale entitlement owner mismatch";
  notes ← lift (parseShielderNoteCommitments sellerCommitments (dr_AmountSats deposit) false);
  _ ← applyShielderNoteFloor notes (dr_AmountSats deposit) false;
  mret (auction, bid, deposit).

Definition ShieldNodeSlotSaleEntitlement {E : MerkleEngine} `{Secp} `{NoteJson} `{NotesJson}
    (seller auctionID bidID depositPubkey signature : string) (sellerCommitments : list string)
    : KM DepositRecord :=
  '(auction, bid, deposit) ←
    validateNodeSlotSaleEntitlementShield seller auctionID bidID sellerCommitments;
  _ ← fail_if (negb (str_eq (au_SelectedBidID auction) (bd_BidID bid)))
        "node slot auction selected bid mismatch";
  _ ← fail_if (dr_AmountSats deposit =? 0) "node sale has no seller payout";
  noteCommitments ← lift (parseShielderNoteCommitments sellerCommitments (dr_AmountSats deposit) false);
  _ ← lift (VerifyShieldAuthorization depositPubkey signature depositPubkey
              (shielderNoteCommitmentTotal noteCommitments) sellerCommitments);
  '(noteCommitments, floorRemainder) ←
    applyShielderNoteFloor noteCommitments (dr_AmountSats deposit) false;
  deposit ← (if 0 <? floorRemainder then
    _ ← addWithdrawalFee floorRemainder;
    mret (deposit <| dr_AmountSats := dr_AmountSats deposit -u floorRemainder |>
                  <| dr_SellerPayoutSats := dr_SellerPayoutSats deposit -u floorRemainder |>)
    else mret deposit);
  _ ← fail_if (negb (shielderNoteCommitmentTotal noteCommitments =? dr_AmountSats deposit))
        "node sale seller commitments do not match payout amount";
  _ ← insertShielderCommitments ctx noteCommitments;
  let deposit := deposit <| dr_Status := DepositStatusCommitted |> in
  _ ← SetDepositRecord deposit;
  mret deposit.
End Auction.

(** ** The messages *)

Definition MaxShielderIDLength : nat := 128.

Inductive AuctionMsg :=
| MsgNodeSlotAuctionCreate (NodePubKey : string) (ReserveSats ExpiryHeight : Z) (Signer : string)
| MsgNodeSlotAuctionBidCreate (AuctionId OperatorPubKey NodePubKey Signer : string)
| MsgNodeSlotAuctionSelectBid (AuctionId BidId Signer : string)
| MsgNodeSaleShield (AuctionId BidId : string) (Commitments : list string)
    (DepositPubkey Signature Signer : string)
| MsgShielderRedeem (Proof Public : string).

Section Messages.
Context `{Ext} `{SortSlice} {E : MerkleEngine} `{Secp} `{NoteJson} `{NotesJson} `{ProofEngine}
  `{BtcWire} (ctx : Ctx).

Definition check_id (id missing too_long : string) : res unit :=
  first_error [(is_blank id, missing);
               ((MaxShielderIDLength <? String.length (TrimSpace id))%nat, too_long)].

Definition AuctionCreate_ValidateBasic (npk : string) (expiry : Z) (signer : string) : res unit :=
  _ ← first_error [(Acc_Empty signer, "invalid address")];
  _ ← PubKey.check_cons_pubkey npk;
  first_error [(expiry <=? 0, "missing node slot auction expiry")].

Definition BidCreate_ValidateBasic (auctionID operator npk signer : string) : res unit :=
  _ ← first_error [(Acc_Empty signer, "invalid address")];
  _ ← check_id auctionID "missing node slot auction id" "node slot auction id too long";
  _ ← PubKey.NewPubKey operator;
  PubKey.check_cons_pubkey npk.

Definition SelectBid_ValidateBasic (auctionID bidID signer : string) : res unit :=
  _ ← first_error [(Acc_Empty signer, "invalid address")];
  _ ← check_id auctionID "missing node slot auction id" "node slot auction id too long";
  check_id bidID "missing node slot bid id" "node slot bid id too long".

Definition NodeSaleShield_ValidateBasic (auctionID bidID : string) (commitments : list string)
    (depositPubkey signature signer : string) : res unit :=
  _ ← first_error [(Acc_Empty signer, "invalid address")];
  _ ← check_id auctionID "missing node slot auction id" "node slot auction id too long";
  _ ← check_id bidID "missing node slot bid id" "node slot bid id too long";
  _ ← first_error [((length commitments =? 0)%nat, "missing node slot seller commitments")];
  _ ← validateShielderCommitmentList commitments;
  _ ← validateCompressedSecpPubkey depositPubkey;
  first_error
    [((MaxShieldSignatureHexLength <? String.length (TrimSpace signature))%nat,
      "node sale shield authorization signature too long");
     (match hex_decode (TrimSpace signature) with Some _ => false | None => true end,
      "invalid node sale shield authorization signature")].

Definition AuctionMsg_ValidateBasic (m : AuctionMsg) : res unit :=
  match m with
  | MsgNodeSlotAuctionCreate npk reserve expiry signer => AuctionCreate_ValidateBasic npk expiry signer
  | MsgNodeSlotAuctionBidCreate auctionID operator npk signer =>
      BidCreate_ValidateBasic auctionID operator npk signer
  | MsgNodeSlotAuctionSelectBid auctionID bidID signer =>
      SelectBid_ValidateBasic auctionID bidID signer
  | MsgNodeSaleShield auctionID bidID commitments depositPubkey signature signer =>
      NodeSaleShield_ValidateBasic auctionID bidID commitments depositPubkey signature signer
  | MsgShielderRedeem proof public => MsgShielderRedeem_ValidateBasic proof public
  end.

(** The handlers, in a transaction of their own. *)
Definition handle (m : AuctionMsg) : KM unit :=
  atomic (
    _ ← lift (AuctionMsg_ValidateBasic m);
    match m with
    | MsgNodeSlotAuctionCreate npk reserve expiry signer =>
        _ ← CreateNodeSlotAuction ctx signer npk reserve expiry; mret tt
    | MsgNodeSlotAuctionBidCreate auctionID operator npk signer =>
        _ ← CreateNodeSlotBid ctx signer auctionID operator npk; mret tt
    | MsgNodeSlotAuctionSelectBid auctionID bidID signer =>
        _ ← SelectNodeSlotBid ctx signer auctionID bidID; mret tt
    | MsgNodeSaleShield auctionID bidID commitments depositPubkey signature signer =>
        _ ← ShieldNodeSlotSaleEntitlement ctx signer auctionID bidID depositPubkey signature
              commitments; mret tt
    | MsgShielderRedeem proof public =>
        _ ← MsgServer_ShielderRedeem ctx proof public; mret tt
    end).

End Messages.

(** The auctions as a state machine: any message at any height, one at a time. *)
Inductive auction_step `{Ext} `{SortSlice} {E : MerkleEngine} `{Secp} `{NoteJson} `{NotesJson}
    `{ProofEngine} `{BtcWire} (s : KVStore) : KVStore → Prop :=
| handled ctx m : auction_step s (handle ctx m s).2.

(** ** The payouts, as a list *)

Fixpoint payouts (recoverable bond_sats remaining remainingPrincipal : Z) (principals : list Z)
    : list Z :=
  match principals with
  | [] => []
  | p :: principals =>
      let '(payout, remaining, remainingPrincipal) :=
        sale_payout recoverable bond_sats remaining remainingPrincipal p in
      payout :: payouts recoverable bond_sats remaining remainingPrincipal principals
  end.

(** One step, while the principals still to visit are known and nothing wraps. *)
Lemma sale_payout_spec R B paid p rest :
  0 <= R <= B → 0 < B < two64 → R * B < two64 → 0 < p → 0 <= rest →
  p + rest <= B → 0 <= paid <= R → paid * B <= R * (B - p - rest) →
  ∃ x, sale_payout R B (R - paid) (p + rest) p = (x, R - paid - x, rest)
  ∧ (rest = 0 → x = R - paid) ∧ (rest ≠ 0 → x = R * p / B)
  ∧ R * p / B <= x ∧ 0 <= x <= R - paid ∧ (paid + x) * B <= R * B
  ∧ (rest ≠ 0 → (paid + x) * B <= R * (B - rest)).
Proof.
  intros HR [HB HB'] Hov Hp Hrest Hle Hpaid Hinv. unfold sale_payout.
  assert (HRp : 0 <= R * p / B) by (apply Z.div_pos; nia).
  assert (Hfl : R * p / B * B <= R * p) by (pose proof (Z.mul_div_le (R * p) B HB); lia).
  assert (Hle1 : R * p / B <= R - paid).
  { apply Z.mul_le_mono_pos_r with B; [done|]. nia. }
  rewrite (u64_small (R * p)) by (split; nia).
  rewrite (u64_small (p + rest - p)) by (split; lia).
  replace (p + rest - p) with rest by lia.
  destruct (p + rest =? 0) eqn:E0; [lia|]. simpl negb. cbv iota.
  destruct (rest =? 0) eqn:E1.
  - rewrite Z.ltb_irrefl. exists (R - paid). apply Z.eqb_eq in E1. subst rest.
    rewrite (u64_small (R - paid - (R - paid))) by (split; lia).
    split; [reflexivity|]. split_and!; try lia; try nia.
  - apply Z.eqb_neq in E1.
    replace (R - paid <? R * p / B) with false by (symmetry; apply Z.ltb_ge; lia).
    exists (R * p / B). rewrite u64_small by (split; [lia|]; nia).
    split; [reflexivity|]. split_and!; try lia; try nia.
Qed.

Lemma payouts_spec R B : 0 <= R <= B → 0 < B < two64 → R * B < two64 → ∀ principals paid,
  principals ≠ [] → Forall (λ p, 0 < p) principals → sum_by id principals <= B →
  0 <= paid <= R → paid * B <= R * (B - sum_by id principals) →
  let ps := payouts R B (R - paid) (sum_by id principals) principals in
  sum_by id ps = R - paid
  ∧ Forall2 (λ p x, R * p / B <= x ∧ 0 <= x) principals ps.
Proof.
  intros HR HB Hov. induction principals as [|p l IH]; intros paid Hne Hpos Hsum Hpaid Hinv; [done|].
  cbv zeta. cbn [payouts]. rewrite sum_by_cons in *. unfold id in *.
  apply Forall_cons in Hpos as [Hp Hpos].
  assert (Hl : 0 <= sum_by (λ x, x) l) by (apply sum_by_nonneg; eapply Forall_impl; [exact Hpos|]; simpl; lia).
  destruct (sale_payout_spec R B paid p (sum_by (λ x, x) l)) as (x & -> & Hz & Hnz & Hlow & Hx & _ & Hinv');
    try done; try lia.
  rewrite sum_by_cons. destruct l as [|q l].
  - rewrite sum_by_nil in *. cbn [payouts]. rewrite sum_by_nil. split.
    + rewrite Hz by done. lia.
    + constructor; [|constructor]. split; lia.
  - assert (Hne' : sum_by (λ x, x) (q :: l) ≠ 0).
    { rewrite sum_by_cons. apply Forall_cons in Hpos as [Hq Hpos].
      assert (0 <= sum_by (λ x, x) l) by (apply sum_by_nonneg; eapply Forall_impl; [exact Hpos|]; simpl; lia).
      lia. }
    destruct (IH (paid + x)) as [IH1 IH2]; try done; try lia; try (by apply Hinv').
    replace (R - paid - x) with (R - (paid + x)) by lia. split.
    + rewrite IH1. lia.
    + constructor; [split; lia|done].
Qed.

(** ** The payouts, in the store *)

Definition sale_key (b : ShielderNodeBonder) : string := ToUpper (ShielderNodeBonder_Key b).

Definition entitlement_key (auction : NodeSlotAuction) (bid : NodeSlotBid) (b : ShielderNodeBonder)
    : string :=
  match nodeSlotSaleEntitlementID (au_AuctionID auction) (bd_BidID bid) (br_Bonder b) with
  | Ok id => ToUpper id
  | _ => ""
  end.

(** A bonder is paid: the principal is taken off the record, and a positive
payout stands as a shieldable entitlement of the bonder. *)
Definition paid (auction : NodeSlotAuction) (bid : NodeSlotBid) (s : KVStore)
    (b : ShielderNodeBonder) (payout : Z) : Prop :=
  (∃ b', kv_shielder_node_bonder s !! sale_key b = Some b' ∧ br_Bonder b' = br_Bonder b
    ∧ br_PrincipalSats b' = 0 ∧ br_SalePayoutSats b' = payout)
  ∧ (payout ≠ 0 → ∃ d, kv_deposit_record s !! entitlement_key auction bid b = Some d
    ∧ dr_Owner d = br_Bonder b ∧ dr_AmountSats d = payout ∧ dr_ShieldedSats d = 0
    ∧ dr_Status d = DepositStatusSettled ∧ dr_Settlement d = DepositSettlementOperatorSale).

Definition positive (l : list ShielderNodeBonder) : list ShielderNodeBonder :=
  List.filter (λ b, negb (br_PrincipalSats b =? 0)) l.

Section Paying.
Context (ctx : Ctx) (auction : NodeSlotAuction) (bid : NodeSlotBid) (vault : string) (R B prot : Z).

Lemma paid_weaken s s' b x :
  kv_shielder_node_bonder s' !! sale_key b = kv_shielder_node_bonder s !! sale_key b →
  kv_deposit_record s' !! entitlement_key auction bid b
    = kv_deposit_record s !! entitlement_key auction bid b →
  paid auction bid s b x → paid auction bid s' b x.
Proof. unfold paid. by intros -> ->. Qed.

Lemma pay_one_ok remaining remP b acc s s' :
  br_PrincipalSats b ≠ 0 →
  pay_bonder ctx auction bid vault R B prot (remaining, remP) b s = (Ok acc, s') →
  let '(x, remaining', remP') := sale_payout R B remaining remP (br_PrincipalSats b) in
  acc = (remaining', remP') ∧ paid auction bid s' b x
  ∧ (∀ k, k ≠ sale_key b → kv_shielder_node_bonder s' !! k = kv_shielder_node_bonder s !! k)
  ∧ (∀ k, k ≠ entitlement_key auction bid b → kv_deposit_record s' !! k = kv_deposit_record s !! k).
Proof.
  intros Hp Hr. unfold pay_bonder in Hr. destruct (br_PrincipalSats b =? 0) eqn:E; [lia|].
  apply bind_Ok in Hr as ([] & s1 & Hz & Hr).
  assert (s1 = s) as -> by (by destruct (negb (remP =? 0) && (B =? 0)); go_inv).
  destruct (sale_payout R B remaining remP (br_PrincipalSats b)) as [[x remaining'] remP'].
  cbv zeta in Hr. destruct (x =? 0) eqn:Ex.
  - apply bind_Ok in Hr as ([] & s1 & [_ ->]%set_bonder_ok & Hr). apply mret_Ok in Hr as [-> ->].
    apply Z.eqb_eq in Ex as ->. unfold paid. rec_simpl.
    split_and!; try done; try (by intros k Hk; apply lookup_insert_ne).
    eexists. split; [apply lookup_insert_eq|]. done.
  - apply bind_Ok in Hr as (id & s1 & [Hid ->]%lift_Ok & Hr).
    apply bind_Ok in Hr as ([] & s1 & Hd & Hr). apply set_deposit_ok in Hd as ->.
    apply bind_Ok in Hr as ([] & s2 & [_ ->]%set_bonder_ok & Hr). apply mret_Ok in Hr as [-> ->].
    rec_simpl_all. unfold paid, entitlement_key. rewrite Hid. rec_simpl.
    split_and!; try done; try (by intros k Hk; apply lookup_insert_ne).
    + eexists. split; [apply lookup_insert_eq|]. done.
    + intros _. eexists. split; [apply lookup_insert_eq|]. done.
Qed.

Lemma pay_all_ok l : ∀ remaining remP acc s s',
  NoDup (map sale_key l) → NoDup (map (entitlement_key auction bid) l) →
  mfold (pay_bonder ctx auction bid vault R B prot) (remaining, remP) l s = (Ok acc, s') →
  Forall2 (paid auction bid s') (positive l)
    (payouts R B remaining remP (map br_PrincipalSats (positive l)))
  ∧ (∀ k, k ∉ map sale_key l → kv_shielder_node_bonder s' !! k = kv_shielder_node_bonder s !! k)
  ∧ (∀ k, k ∉ map (entitlement_key auction bid) l →
       kv_deposit_record s' !! k = kv_deposit_record s !! k).
Proof.
  induction l as [|b l IH]; intros remaining remP acc s s' Hk He Hr.
  { simpl in Hr. apply mret_Ok in Hr as [_ ->]. by split_and!; [constructor|..]. }
  rewrite mfold_cons in Hr. apply bind_Ok in Hr as (acc1 & s1 & H1 & Hr).
  cbn [map] in Hk, He. apply NoDup_cons in Hk as [Hbk Hk], He as [Hbe He].
  unfold positive. cbn [List.filter].
  destruct (br_PrincipalSats b =? 0) eqn:E; cbn [negb].
  - unfold pay_bonder in H1. rewrite E in H1. apply mret_Ok in H1 as [-> ->].
    destruct (IH _ _ _ _ _ Hk He Hr) as (I1 & I2 & I3). split; [exact I1|]. cbn [map].
    split; intros k [_ Hn]%not_elem_of_cons; auto.
  - apply Z.eqb_neq in E. pose proof (pay_one_ok _ _ _ _ _ _ E H1) as Hone.
    cbn [map payouts].
    destruct (sale_payout R B remaining remP (br_PrincipalSats b)) as [[x remaining'] remP'].
    destruct Hone as (-> & Hpaid & O1 & O2).
    destruct (IH _ _ _ _ _ Hk He Hr) as (I1 & I2 & I3). split_and!.
    + constructor; [|exact I1]. by apply (paid_weaken s1); [apply I2|apply I3|].
    + intros k [Hn1 Hn2]%not_elem_of_cons. by rewrite I2, O1.
    + intros k [Hn1 Hn2]%not_elem_of_cons. by rewrite I3, O2.
Qed.
End Paying.

(** ** The transfer *)

#[local] Hint Unfold ResetNodeAccountPenaltyPoints : flow.

Section Transfer.
Context `{Ext} (ctx : Ctx) (auction : NodeSlotAuction) (bid : NodeSlotBid).

Definition new_bonder_key : string :=
  ToUpper (ShielderNodeBonderKey (bd_NodePubKey bid) (bd_Bidder bid)).

(** What the transfer writes to the bonds, and to nothing the payouts read. *)
Lemma transfer_ok amount s s' :
  transferNodeSlotSaleBond ctx auction bid amount s = (Ok tt, s') →
  ∃ address pool newBonder,
  let old := bond_at s (au_SellerNodePubKey auction) in
  kv_shielder_node_bond s' =
    <[ToUpper (TrimSpace (bd_NodePubKey bid)) := bought_bond ctx auction bid address amount pool]>
      (<[ToUpper (ShielderNodeBond_Key old) := sold_bond ctx auction old]> (kv_shielder_node_bond s))
  ∧ kv_shielder_node_bonder s' = <[new_bonder_key := newBonder]> (kv_shielder_node_bonder s)
  ∧ br_NodePubKey newBonder = bd_NodePubKey bid ∧ br_PrincipalSats newBonder = amount
  ∧ kv_deposit_record s' = kv_deposit_record s.
Proof.
  intros Hr. unfold transferNodeSlotSaleBond in Hr.
  apply bind_Ok in Hr as ([] & s1 & [_ ->]%lift_Ok & Hr).
  apply bind_Ok in Hr as (address & s1 & [_ ->]%lift_Ok & Hr).
  apply bind_Ok in Hr as (old & s1 & Hb & Hr). rewrite get_bond_run in Hb. injection Hb as <- <-.
  apply bind_Ok in Hr as ([] & s1 & [_ ->]%fail_if_Ok & Hr). cbv zeta in Hr.
  apply bind_Ok in Hr as (account & s1 & Ha & Hr).
  apply (keeps_run (λ s, s)) in Ha as ->; [|frame_tac].
  apply bind_Ok in Hr as (pool & s1 & Hp & Hr).
  pose proof Hp as Hp1. apply (keeps_run kv_shielder_node_bond) in Hp1; [|frame_tac].
  pose proof Hp as Hp2. apply (keeps_run kv_shielder_node_bonder) in Hp2; [|frame_tac].
  apply (keeps_run kv_deposit_record) in Hp; [|frame_tac].
  apply bind_Ok in Hr as (op & s2 & [_ ->]%lift_Ok & Hr).
  apply bind_Ok in Hr as (account2 & s2 & Ha & Hr).
  apply (keeps_run (λ s, s)) in Ha as ->; [|frame_tac].
  apply bind_Ok in Hr as ([] & s2 & [_ ->]%set_bond_ok & Hr).
  apply bind_Ok in Hr as ([] & s2 & [_ ->]%set_bond_ok & Hr).
  apply bind_Ok in Hr as ([] & s2 & [_ ->]%set_bonder_ok & Hr).
  match type of Hr with (_ ≫= ?f) ?s0 = _ => set (s2 := s0) in *; set (rest := f) in * end.
  pose proof Hr as H1. apply (keeps_run kv_shielder_node_bond) in H1; [|subst rest; frame_tac].
  pose proof Hr as H2. apply (keeps_run kv_shielder_node_bonder) in H2; [|subst rest; frame_tac].
  apply (keeps_run kv_deposit_record) in Hr; [|subst rest; frame_tac].
  eexists address, pool, _. cbv zeta. rewrite H1, H2, Hr. subst s2. rec_simpl.
  rewrite Hp1, Hp2, Hp. split; [reflexivity|]. split; [reflexivity|]. done.
Qed.
End Transfer.

(** ** The settlement *)

Definition node_bonders (s : KVStore) (nodePubKey : string) : list ShielderNodeBonder :=
  List.filter (λ b, str_eq (br_NodePubKey b) (TrimSpace nodePubKey))
    (sorted_values (kv_shielder_node_bonder s)).

Lemma node_bonders_keys s slack npk :
  registry_ok s slack → NoDup (map sale_key (node_bonders s npk)).
Proof.
  intros [_ R2 _]. unfold node_bonders. apply NoDup_map_filter.
  assert (Hk : map sale_key (map_to_list (kv_shielder_node_bonder s)).*2
    = (map_to_list (kv_shielder_node_bonder s)).*1).
  { rewrite <- list_fmap_compose. apply list_fmap_ext. intros i [k b] Hi. simpl.
    apply list_elem_of_lookup_2, elem_of_map_to_list in Hi.
    destruct (R2 k b Hi) as [-> _]. done. }
  change (@map) with (@fmap list _) in *.
  rewrite (fmap_Permutation sale_key _ _ (sorted_values_perm _)), Hk.
  apply NoDup_fst_map_to_list.
Qed.

Section Settle.
Context `{Ext} `{SortSlice} (ctx : Ctx) (auction : NodeSlotAuction) (bid : NodeSlotBid).
Let npk := au_SellerNodePubKey auction.

(** The loop runs over the bonders the node had before the sale. *)
Lemma settle_sale_ok s s' :
  settleNodeSlotSale ctx auction bid s = (Ok tt, s') →
  TrimSpace (bd_NodePubKey bid) ≠ TrimSpace npk →
  (∀ b, b ∈ node_bonders s npk → sale_key b ≠ new_bonder_key bid) → (∀ k b,
    kv_shielder_node_bonder s !! k = Some b → k = sale_key b) →
  ∃ s1 l vault prot acc,
  let B := nb_BondSats (bond_at s npk) in
  let R := Z.min (bd_AmountSats bid) B in
  mfold (pay_bonder ctx auction bid vault R B prot) (R, B) l s1 = (Ok acc, s')
  ∧ l ≡ₚ node_bonders s npk ∧ kv_deposit_record s1 = kv_deposit_record s
  ∧ nb_BondSats (bond_at s1 (bd_NodePubKey bid)) = bd_AmountSats bid
  ∧ nb_FeeShareActive (bond_at s1 (bd_NodePubKey bid)) = true
  ∧ kv_shielder_node_bond s' = kv_shielder_node_bond s1.
Proof.
  intros Hr Hne Hkey Hkeyed. unfold settleNodeSlotSale in Hr. fold npk in Hr.
  apply bind_Ok in Hr as ([] & s1 & [_ ->]%fail_if_Ok & Hr).
  apply bind_Ok in Hr as (old & s1 & Hb & Hr). rewrite get_bond_run in Hb. injection Hb as <- <-.
  apply bind_Ok in Hr as ([] & s1 & [_ ->]%fail_if_Ok & Hr). cbv zeta in Hr.
  set (B := nb_BondSats (bond_at s npk)) in *.
  replace (if bd_AmountSats bid <? B then bd_AmountSats bid else B)
    with (Z.min (bd_AmountSats bid) B) in Hr by (destruct (Z.ltb_spec (bd_AmountSats bid) B); lia).
  apply bind_Ok in Hr as (dust & s1 & Hd & Hr).
  apply (keeps_run (λ s, s)) in Hd as ->; [|frame_tac].
  apply bind_Ok in Hr as ([] & s1 & Hfee & Hr).
  assert (Hs1 : kv_shielder_node_bonder s1 = kv_shielder_node_bonder s
    ∧ kv_deposit_record s1 = kv_deposit_record s).
  { split; (eapply keeps_run; [|exact Hfee]); frame_tac. }
  destruct Hs1 as [Hs1 Hs2].
  apply bind_Ok in Hr as ([] & s2 & Ht & Hr).
  apply transfer_ok in Ht as (addr & pool & nb & T1 & T2 & T3 & T4 & T5).
  apply bind_Ok in Hr as ([vault a] & s3 & Hv & Hr).
  apply (keeps_run (λ s, s)) in Hv as ->; [|apply current_vault_keeps].
  apply bind_Ok in Hr as (l & s3 & Hl & Hr).
  unfold getNodeBonders, getIterator in Hl.
  apply bind_Ok in Hl as (all & s4 & [<- ->]%gets_Ok & [-> ->]%mret_Ok).
  apply bind_Ok in Hr as (acc & s3 & Hloop & [_ ->]%mret_Ok).
  eexists s2, _, _, _, acc. cbv zeta. split; [exact Hloop|]. split_and!.
  - rewrite sort_bonders_perm, T2, Hs1. apply filter_values_insert.
    + rewrite T3. apply str_eq_false. intros He. apply Hne. by rewrite He, TrimSpace_idem.
    + intros w Hw. destruct (str_eq (br_NodePubKey w) (TrimSpace npk)) eqn:E; [|done].
      exfalso. apply (Hkey w); [|symmetry; by apply Hkeyed].
      apply list_elem_of_In, filter_In. split; [|done]. apply list_elem_of_In, elem_of_sorted_values. eauto.
  - by rewrite T5, Hs2.
  - unfold bond_at. rewrite T1, lookup_insert_eq. done.
  - unfold bond_at. rewrite T1, lookup_insert_eq. done.
  - eapply keeps_run; [|exact Hloop]. apply keeps_mfold. intros [r p] b. unfold pay_bonder.
    frame_tac.
Qed.
End Settle.

(** ** The lifecycle *)

(** An auction is open without a winner, or settled with one: a settled bid of
the same auction.  Bids sit under their own ids. *)
Record auctions_ok (s : KVStore) : Prop := {
  ao_auction : ∀ k a, kv_node_slot_auction s !! k = Some a →
    (au_Status a = NodeSlotAuctionOpen ∧ au_SelectedBidID a = "")
    ∨ (au_Status a = NodeSlotAuctionSettled
       ∧ ∃ b, kv_node_slot_bid s !! ToUpper (TrimSpace (au_SelectedBidID a)) = Some b
         ∧ bd_AuctionID b = au_AuctionID a ∧ bd_Settled b = true);
  ao_bid : ∀ k b, kv_node_slot_bid s !! k = Some b →
    k = ToUpper (NodeSlotBid_Key b) ∧ is_blank (bd_BidID b) = false
    ∧ bd_Selected b = bd_Settled b
}.

(** A bid keeps its auction, bidder and keys; a settled one also its amount. *)
Definition bid_grows (b b' : NodeSlotBid) : Prop :=
  bd_BidID b' = bd_BidID b ∧ bd_AuctionID b' = bd_AuctionID b ∧ bd_Bidder b' = bd_Bidder b
  ∧ bd_OperatorPubKey b' = bd_OperatorPubKey b ∧ bd_NodePubKey b' = bd_NodePubKey b
  ∧ (bd_Settled b = true → bd_Settled b' = true ∧ bd_AmountSats b' = bd_AmountSats b).

Definition bids_kept (s s' : KVStore) : Prop := ∀ k b,
  kv_node_slot_bid s !! k = Some b →
  ∃ b', kv_node_slot_bid s' !! k = Some b' ∧ bid_grows b b'.

Lemma bid_grows_refl b : bid_grows b b.
Proof. by split_and!. Qed.

Lemma bids_kept_same s s' : kv_node_slot_bid s' = kv_node_slot_bid s → bids_kept s s'.
Proof. intros He k b Hk. exists b. rewrite He. split; [done|apply bid_grows_refl]. Qed.

Definition advances (s s' : KVStore) : Prop := auctions_ok s' ∧ bids_kept s s'.

Lemma advances_same s s' :
  auctions_ok s → kv_node_slot_auction s' = kv_node_slot_auction s →
  kv_node_slot_bid s' = kv_node_slot_bid s → advances s s'.
Proof.
  intros [A1 A2] Ha Hb. split; [|by apply bids_kept_same].
  split; intros k x; rewrite ?Ha, ?Hb; [apply A1|apply A2].
Qed.

(** Writing a bid over its predecessor. *)
Lemma advances_bid s s' b' :
  auctions_ok s → kv_node_slot_auction s' = kv_node_slot_auction s →
  kv_node_slot_bid s' = <[ToUpper (NodeSlotBid_Key b') := b']> (kv_node_slot_bid s) →
  is_blank (bd_BidID b') = false → bd_Selected b' = bd_Settled b' →
  (∀ b, kv_node_slot_bid s !! ToUpper (NodeSlotBid_Key b') = Some b → bid_grows b b') →
  advances s s'.
Proof.
  intros [A1 A2] Ha Hb Hblank Hsel Hgrow.
  assert (Hkept : bids_kept s s').
  { intros k b Hk. rewrite Hb. destruct (decide (k = ToUpper (NodeSlotBid_Key b'))) as [->|Hne].
    - exists b'. rewrite lookup_insert_eq. auto.
    - exists b. rewrite lookup_insert_ne by done. split; [done|apply bid_grows_refl]. }
  split; [|done]. split.
  - intros k a Hk. rewrite Ha in Hk. destruct (A1 k a Hk) as [?|(? & b & Hkb & E1 & E2)]; [by left|].
    right. split; [done|]. destruct (Hkept _ _ Hkb) as (b2 & Hk2 & _ & G2 & _ & _ & _ & G6).
    exists b2. split; [done|]. split; [congruence|by apply G6].
  - intros k b. rewrite Hb. destruct (decide (k = ToUpper (NodeSlotBid_Key b'))) as [->|Hne].
    + rewrite lookup_insert_eq. by intros [= <-].
    + rewrite lookup_insert_ne by done. apply A2.
Qed.

(** Writing an auction, in one of its two states. *)
Lemma advances_auction s s' k0 a' :
  auctions_ok s → kv_node_slot_bid s' = kv_node_slot_bid s →
  kv_node_slot_auction s' = <[k0 := a']> (kv_node_slot_auction s) →
  (au_Status a' = NodeSlotAuctionOpen ∧ au_SelectedBidID a' = "")
  ∨ (au_Status a' = NodeSlotAuctionSettled
     ∧ ∃ b, kv_node_slot_bid s !! ToUpper (TrimSpace (au_SelectedBidID a')) = Some b
       ∧ bd_AuctionID b = au_AuctionID a' ∧ bd_Settled b = true) →
  advances s s'.
Proof.
  intros [A1 A2] Hb Ha Hnew. split; [|by apply bids_kept_same]. split.
  - intros k a. rewrite Ha, Hb. destruct (decide (k = k0)) as [->|Hne].
    + rewrite lookup_insert_eq. by intros [= <-].
    + rewrite lookup_insert_ne by done. apply A1.
  - intros k b. rewrite Hb. apply A2.
Qed.

Lemma set_auction_ok a s s' : SetNodeSlotAuction a s = (Ok tt, s') →
  s' = s <| kv_node_slot_auction :=
    <[ToUpper (NodeSlotAuction_Key a) := a]> (kv_node_slot_auction s) |>.
Proof. intros Hr. autounfold with keeper in Hr. go_inv. done. Qed.

Lemma set_bid_ok b s s' : SetNodeSlotBid b s = (Ok tt, s') →
  is_blank (bd_BidID b) = false
  ∧ kv_node_slot_auction s' = kv_node_slot_auction s
  ∧ kv_node_slot_bid s' = <[ToUpper (NodeSlotBid_Key b) := b]> (kv_node_slot_bid s).
Proof.
  intros Hr. autounfold with keeper in Hr. apply bind_Ok in Hr as ([] & s1 & [Hv ->]%lift_Ok & Hr).
  go_inv. split; [|done]. unfold NodeSlotBid_Valid in Hv. simpl in Hv. by destruct (is_blank (bd_BidID b)).
Qed.

Lemma get_auction_ok id a s s' : auctions_ok s → GetNodeSlotAuction id s = (Ok a, s') → s' = s.
Proof. intros _. apply (keeps_run (λ s, s)). frame_tac. Qed.

(** A bid that is found sits where it will be written. *)
Lemma get_bid_ok id b s s' : auctions_ok s → GetNodeSlotBid id s = (Ok b, s') →
  s' = s ∧ (is_empty (bd_BidID b) = false →
    kv_node_slot_bid s !! ToUpper (NodeSlotBid_Key b) = Some b ∧ bd_Selected b = bd_Settled b).
Proof.
  intros [_ A2] Hr. unfold GetNodeSlotBid in Hr. autounfold with keeper in Hr.
  apply bind_Ok in Hr as (o & s1 & [Ho ->]%gets_Ok & [-> ->]%mret_Ok). split; [done|].
  destruct o as [b|]; simpl; [|done]. intros _. destruct (A2 _ _ Ho) as (E & _ & ?).
  by rewrite <- E.
Qed.

Lemma bid_id_trim a b c : TrimSpace (nodeSlotBidIDForNode a b c) = nodeSlotBidIDForNode a b c.
Proof. unfold nodeSlotBidIDForNode. apply Sha256.Sum256Hex_trim. Qed.

Lemma get_bid_absent id b s s' : TrimSpace id = id → auctions_ok s →
  GetNodeSlotBid id s = (Ok b, s') → is_empty (bd_BidID b) = true →
  kv_node_slot_bid s !! ToUpper id = None.
Proof.
  intros Hid [_ A2] Hr He. unfold GetNodeSlotBid in Hr. autounfold with keeper in Hr.
  rewrite !Hid in Hr. apply bind_Ok in Hr as (o & s1 & [Ho ->]%gets_Ok & [-> ->]%mret_Ok).
  destruct o as [b|]; [|done]. simpl in He. destruct (A2 _ _ Ho) as (_ & Hn & _).
  apply str_eq_true in He. by rewrite He in Hn.
Qed.

Section Steps.
Context `{Ext} (ctx : Ctx).

Lemma create_auction_advances seller npk reserve expiry a s s' :
  auctions_ok s → CreateNodeSlotAuction ctx seller npk reserve expiry s = (Ok a, s') →
  advances s s'.
Proof.
  intros Hok Hr. unfold CreateNodeSlotAuction in Hr.
  apply bind_Ok in Hr as (bond & s1 & Hv & Hr).
  apply (keeps_run (λ s, s)) in Hv as ->; [|unfold validateNodeSlotAuctionCreate; frame_tac].
  cbv zeta in Hr. apply bind_Ok in Hr as ([] & s1 & Hs & [_ ->]%mret_Ok).
  apply set_auction_ok in Hs as ->. eapply advances_auction; [done|reflexivity|reflexivity|].
  by left.
Qed.

Lemma create_bid_advances bidder auctionID operator npk b s s' :
  auctions_ok s → CreateNodeSlotBid ctx bidder auctionID operator npk s = (Ok b, s') →
  advances s s'.
Proof.
  intros Hok Hr. unfold CreateNodeSlotBid in Hr.
  apply bind_Ok in Hr as ([] & s1 & [_ ->]%fail_if_Ok & Hr).
  apply bind_Ok in Hr as (a & s1 & Ha & Hr). apply get_auction_ok in Ha as ->; [|done].
  apply bind_Ok in Hr as ([] & s1 & [_ ->]%fail_if_Ok & Hr).
  apply bind_Ok in Hr as ([] & s1 & [_ ->]%fail_if_Ok & Hr). cbv zeta in Hr.
  apply bind_Ok in Hr as (op & s1 & [_ ->]%lift_Ok & Hr).
  apply bind_Ok in Hr as ([] & s1 & [_ ->]%lift_Ok & Hr).
  pose proof (bid_id_trim (au_AuctionID a) bidder (TrimSpace npk)) as Hid.
  revert Hid Hr. generalize (nodeSlotBidIDForNode (au_AuctionID a) bidder (TrimSpace npk)) as id.
  intros id Hid Hr.
  apply bind_Ok in Hr as (old & s1 & Ho & Hr).
  destruct (negb (is_empty (bd_BidID old))) eqn:He.
  { apply mret_Ok in Hr as [_ ->]. apply get_bid_ok in Ho as [-> _]; [|done].
    by apply advances_same. }
  apply negb_false_iff in He.
  - pose proof Ho as Hs. apply get_bid_ok in Hs as [-> _]; [|done].
    apply bind_Ok in Hr as ([] & s1 & Hset & [_ ->]%mret_Ok).
    apply set_bid_ok in Hset as (Hblank & S1 & S2).
    eapply advances_bid; try eassumption; [by rec_simpl|].
    intros b0 Hb0. exfalso. unfold NodeSlotBid_Key in Hb0. rec_simpl_all. rewrite Hid in Hb0.
    by rewrite (get_bid_absent id old s s) in Hb0.
Qed.

Lemma selection_ok seller auctionID bidID a b s s' :
  auctions_ok s → validateNodeSlotBidSelection ctx seller auctionID bidID s = (Ok (a, b), s') →
  s' = s ∧ is_empty (bd_BidID b) = false ∧ bd_AuctionID b = au_AuctionID a
  ∧ kv_node_slot_bid s !! ToUpper (NodeSlotBid_Key b) = Some b.
Proof.
  intros Hok Hr. unfold validateNodeSlotBidSelection in Hr.
  apply bind_Ok in Hr as (a0 & s1 & Ha & Hr). apply get_auction_ok in Ha as ->; [|done].
  apply bind_Ok in Hr as ([] & s1 & [_ ->]%fail_if_Ok & Hr).
  apply bind_Ok in Hr as ([] & s1 & [_ ->]%fail_if_Ok & Hr).
  destruct (au_ExpiryHeight a0 <=? BlockHeight ctx).
  { apply bind_Ok in Hr as (r & s1 & _ & Hr). by apply fail_Ok in Hr. }
  apply bind_Ok in Hr as (b0 & s1 & Hb & Hr). apply get_bid_ok in Hb as [-> Hb]; [|done].
  apply bind_Ok in Hr as ([] & s1 & [Hg ->]%fail_if_Ok & Hr).
  apply orb_false_iff in Hg as [Hg1 Hg2]. apply negb_false_iff, str_eq_true in Hg2.
  apply bind_Ok in Hr as ([] & s1 & [_ ->]%fail_if_Ok & Hr).
  apply bind_Ok in Hr as (minBid & s1 & [_ ->]%gets_Ok & Hr).
  apply bind_Ok in Hr as ([] & s1 & [_ ->]%fail_if_Ok & Hr).
  apply bind_Ok in Hr as ([] & s1 & [_ ->]%fail_if_Ok & Hr).
  apply bind_Ok in Hr as ([] & s1 & [_ ->]%fail_if_Ok & [[= -> ->] ->]%mret_Ok).
  split_and!; try done. by apply Hb.
Qed.
Lemma settle_sale_keeps `{SortSlice} a b :
  keeps kv_node_slot_auction (settleNodeSlotSale ctx a b)
  ∧ keeps kv_node_slot_bid (settleNodeSlotSale ctx a b).
Proof.
  unfold settleNodeSlotSale, transferNodeSlotSaleBond, getNodeBonders, pay_bonder.
  split; frame_tac; apply current_vault_keeps.
Qed.

Lemma select_advances `{SortSlice} seller auctionID bidID r s s' :
  auctions_ok s → SelectNodeSlotBid ctx seller auctionID bidID s = (Ok r, s') → advances s s'.
Proof.
  intros Hok Hr. unfold SelectNodeSlotBid in Hr.
  apply bind_Ok in Hr as ([a b] & s1 & Hv & Hr).
  apply selection_ok in Hv as (-> & Hne & Hid & Hb); [|done]. cbv zeta in Hr.
  apply bind_Ok in Hr as ([] & s1 & Hs & Hr).
  destruct (settle_sale_keeps (a <| au_SelectedBidID := bd_BidID b |>
    <| au_Status := NodeSlotAuctionSettled |> <| au_UpdatedHeight := BlockHeight ctx |>)
    (b <| bd_Selected := true |> <| bd_Settled := true |> <| bd_UpdatedHeight := BlockHeight ctx |>))
    as [K1 K2].
  pose proof Hs as Hs1. apply (keeps_run _ _ _ _ _ K1) in Hs1.
  apply (keeps_run _ _ _ _ _ K2) in Hs. clear K1 K2.
  apply bind_Ok in Hr as ([] & s2 & Ha & Hr). apply set_auction_ok in Ha.
  apply bind_Ok in Hr as ([] & s3 & Hset & [_ ->]%mret_Ok).
  apply set_bid_ok in Hset as (Hblank & S1 & S2).
  (* the bid first, then the auction that points to it *)
  set (smid := s <| kv_node_slot_bid := kv_node_slot_bid s3 |>).
  assert (H1 : advances s smid).
  { eapply (advances_bid s smid); [done|reflexivity| |exact Hblank|by rec_simpl|].
    - subst smid. rec_simpl. rewrite S2, Ha. rec_simpl. by rewrite Hs.
    - intros b0 Hb0. unfold NodeSlotBid_Key in *. rec_simpl_all. rewrite Hb in Hb0.
      injection Hb0 as <-. by split_and!. }
  destruct H1 as [O1 B1].
  assert (H2 : advances smid s3).
  { eapply (advances_auction smid s3); [done|by subst smid| |].
    - rewrite S1, Ha. rec_simpl. rewrite Hs1. subst smid. by rec_simpl.
    - right. rec_simpl. split; [done|]. eexists. subst smid. rec_simpl.
      rewrite S2. unfold NodeSlotBid_Key. rec_simpl. split; [apply lookup_insert_eq|]. by rec_simpl. }
  destruct H2 as [O2 B2]. split; [done|]. intros k x Hx.
  destruct (B1 k x Hx) as (x1 & Hx1 & G1). exists x1. split; [|done]. by subst smid.
Qed.
End Steps.

Section Redeems.
Context `{Ext} (ctx : Ctx).

Lemma bid_deposit_advances w w' s s' :
  auctions_ok s → FinalizeBidDepositFromNoteSpend ctx w s = (Ok w', s') → advances s s'.
Proof.
  intros Hok Hr. unfold FinalizeBidDepositFromNoteSpend in Hr.
  apply bind_Ok in Hr as ([] & s1 & [_ ->]%lift_Ok & Hr).
  apply bind_Ok in Hr as ([] & s1 & [_ ->]%fail_if_Ok & Hr).
  apply bind_Ok in Hr as ([] & s1 & [_ ->]%fail_if_Ok & Hr).
  apply bind_Ok in Hr as (b & s1 & Ho & Hr). unfold openNodeSlotBidForRedeem in Ho.
  apply bind_Ok in Ho as ([] & s2 & [_ ->]%fail_if_Ok & Ho).
  apply bind_Ok in Ho as (b0 & s2 & Hb & Ho). apply get_bid_ok in Hb as [-> Hb]; [|done].
  apply bind_Ok in Ho as ([] & s2 & [Hg ->]%fail_if_Ok & Ho).
  apply orb_false_iff in Hg as [Hg1 Hg2].
  apply bind_Ok in Ho as (a & s2 & Ha & Ho). apply get_auction_ok in Ha as ->; [|done].
  apply bind_Ok in Ho as ([] & s2 & [_ ->]%fail_if_Ok & Ho).
  apply bind_Ok in Ho as ([] & s2 & [_ ->]%fail_if_Ok & [-> ->]%mret_Ok).
  destruct (Hb Hg1) as [Hk Hsel].
  apply bind_Ok in Hr as ([] & s3 & Hset & Hr). cbv zeta in Hr.
  apply bind_Ok in Hr as ([] & s4 & [_ ->]%set_redeem_ok & [_ ->]%mret_Ok).
  apply set_bid_ok in Hset as (Hblank & S1 & S2).
  eapply advances_bid; [done| | |exact Hblank| |]; rec_simpl; try done.
  intros b1 Hb1. rewrite Hk in Hb1. injection Hb1 as <-.
  split_and!; try done. by rewrite Hg2.
Qed.

Lemma authorize_keeps `{ProofEngine} {T} (p : KVStore → T) req w s s' :
  (∀ f s, p (set_field kv_shielder_withdrawal f s) = p s) →
  (∀ f s, p (set_field kv_shielder_nullifier f s) = p s) →
  AuthorizeShielderRedeem ctx req s = (Ok w, s') → p s' = p s.
Proof.
  intros H1 H2 Hr. apply authorize_redeem_ok in Hr as (inputs & _ & _ & _ & _ & _ & Hr).
  apply authorize_ok in Hr as (-> & _). unfold authorized_store. by rewrite H2, H1.
Qed.

Lemma redeem_advances `{ProofEngine} `{BtcWire} proof public r s s' :
  auctions_ok s → MsgServer_ShielderRedeem ctx proof public s = (Ok r, s') → advances s s'.
Proof.
  intros Hok Hr. unfold MsgServer_ShielderRedeem, atomic in Hr.
  match type of Hr with context [match ?m s with _ => _ end] =>
    destruct (m s) as [[[id st]|e|e] s1] eqn:Em end;
    [|discriminate Hr..].
  injection Hr as <- <-.
  apply bind_Ok in Em as ([] & s2 & [_ ->]%lift_Ok & Em).
  apply bind_Ok in Em as (w & s2 & Ha & Em).
  apply bind_Ok in Em as (w' & s3 & Hf & [_ ->]%mret_Ok).
  pose proof Ha as Ha1. apply (authorize_keeps kv_node_slot_auction) in Ha1; try done.
  apply (authorize_keeps kv_node_slot_bid) in Ha; try done.
  destruct (advances_same s s2 Hok Ha1 Ha) as [Hok2 Hkept].
  assert (H2 : advances s2 s3).
  { unfold FinalizeShielderRedeem in Hf. cbv zeta in Hf.
    repeat match type of Hf with (if ?b then _ else _) _ = _ => destruct b end; try done.
    - by eapply bid_deposit_advances.
    - unfold QueueAuthorizedWithdrawalTxOut, queueAuthorizedWithdrawalTxOut in Hf.
      apply advances_same; [done|..]; (eapply keeps_run; [|exact Hf]);
        frame_tac; by apply append_keeps. }
  destruct H2 as [O2 B2]. split; [done|]. intros k b Hb. apply B2. by rewrite Ha.
Qed.
End Redeems.

(** A handled message advances, an unhandled one changes nothing. *)
Lemma handle_advances `{Ext} `{SortSlice} {E : MerkleEngine} `{Secp} `{NoteJson} `{NotesJson}
    `{ProofEngine} `{BtcWire} ctx m s : auctions_ok s → advances s (handle ctx m s).2.
Proof.
  intros Hok. unfold handle, atomic.
  match goal with |- context [match ?m s with _ => _ end] => destruct (m s) as [[[]|e|e] s1] eqn:Em end;
    [|by apply advances_same..].
  apply bind_Ok in Em as ([] & s2 & [_ ->]%lift_Ok & Em). simpl.
  destruct m; apply bind_Ok in Em as (r & s2 & Hr & [_ ->]%mret_Ok).
  - by eapply create_auction_advances.
  - by eapply create_bid_advances.
  - by eapply select_advances.
  - apply advances_same; [done|..]; (eapply keeps_run; [|exact Hr]);
      unfold ShieldNodeSlotSaleEntitlement, validateNodeSlotSaleEntitlementShield; frame_tac.
  - by eapply redeem_advances.
Qed.

(** ** Properties *)


(** The product of a payout is computed in 64 bits: selling a bond of 60
bitcoin for its full price pays a bonder of 50 bitcoin less than 20, and the
last one the difference. *)
Theorem sale_payout_wraps :
  payouts 6000000000 6000000000 6000000000 6000000000 [5000000000; 1000000000]
  = [1925542654; 4074457346]
  ∧ 6000000000 * 5000000000 / 6000000000 = 5000000000.
Proof. split; reflexivity. Qed.

Section Lifecycle.
Context `{Ext} `{SortSlice} {E : MerkleEngine} `{Secp} `{NoteJson} `{NotesJson} `{ProofEngine}
  `{BtcWire}.

End Lifecycle.

(** ** A concrete sale *)

Module ToySort.
Definition sort_by_height : list ShielderNodeBonder → list ShielderNodeBonder :=
  insert_sort (λ x y, br_CreatedHeight x <? br_CreatedHeight y).
Lemma sort_by_height_sorted l :
  StronglySorted (λ x y, br_CreatedHeight x <= br_CreatedHeight y) (sort_by_height l).
Proof.
  apply insert_sort_Sorted.
  - intros x y z. lia.
  - intros x y Hlt. lia.
  - intros x y Hlt. lia.
Qed.
Definition toy_sort : SortSlice := {|
  sort_bonders := sort_by_height;
  sort_bonders_perm := insert_sort_perm _;
  sort_bonders_sorted := sort_by_height_sorted
|}.
End ToySort.
Import ToyExt ToySort.
#[local] Existing Instance toy_ext.
#[local] Existing Instance toy_sort.

(** A node whose operator bonded two bitcoin and whose second bonder one, up
for sale; the bid covers one and a half. *)
Definition vault_store : KVStore :=
  KVStore_empty
    <| kv_vault := {[ "VAULT" := Vault_zero <| va_PubKey := "vault" |> <| va_Type := BaseVault |>
                       <| va_Status := ActiveVault |> ]} |>
    <| kv_vault_base_index := ["vault"] |>.

Definition bond_run (owner : string) (amount : Z) (s : KVStore) : res ShielderNodeBond * KVStore :=
  confirmBondFromNoteSpend (mkCtx 9) owner "node" "op" amount s.

Definition one_bonder : KVStore := (bond_run "op" 200000000 vault_store).2.
Definition two_bonders : KVStore := (bond_run "alice" 100000000 one_bonder).2.

Lemma bond_run_registry owner amount slack s :
  is_ok (bond_run owner amount s).1 = true → 0 < amount → 0 <= slack → slack + amount < two64 →
  registry_ok s (slack + amount) → registry_ok (bond_run owner amount s).2 slack.
Proof.
  intros Hok Ha Hs Hsum R. destruct (bond_run owner amount s) as [[b|e|e] s'] eqn:E; try done.
  by destruct (bond_from_spend_totals (mkCtx 9) owner "node" "op" amount slack b s s') as [R' _].
Qed.

Lemma two_bonders_registry : registry_ok two_bonders 0.
Proof.
  apply bond_run_registry; [vm_compute; reflexivity|reflexivity|done|reflexivity|].
  apply bond_run_registry; [vm_compute; reflexivity|reflexivity|done|reflexivity|]. by split.
Qed.

Definition node_auction : NodeSlotAuction :=
  NodeSlotAuction_zero <| au_AuctionID := "AUCTION" |> <| au_Seller := "op" |>
    <| au_SellerOperatorPubKey := "op" |> <| au_SellerNodePubKey := "node" |> <| au_Slot := 1 |>
    <| au_OriginalBondSats := 300000000 |>.
Definition low_bid : NodeSlotBid :=
  NodeSlotBid_zero <| bd_BidID := "BID" |> <| bd_Bidder := "bob" |> <| bd_OperatorPubKey := "bob" |>
    <| bd_NodePubKey := "bobnode" |> <| bd_AmountSats := 150000000 |>.


(** ** One bid, sold twice *)

Import ToyEngine.
Definition two_coins : NoteJson := λ s,
  if str_eq s "{1}" then Some (mkNote 200000000 "aa")
  else if str_eq s "{2}" then Some (mkNote 200000000 "bb") else None.
#[local] Existing Instance two_coins.
#[local] Existing Instance echo_secp.
#[local] Existing Instance count_json.

(** The operator's node, bonded with two bitcoin and standing by. *)
Definition standby_store : KVStore :=
  one_bonder <| kv_node_account := fmap (λ na, na <| na_Status := NodeStandby |>)
                                     (kv_node_account one_bonder) |>.

Definition resale_auction : string := nodeSlotAuctionID "node" 1 10.
Definition resale_bid : string := nodeSlotBidIDForNode resale_auction "op" "node".
Definition seller_key : string := Sha256.hex_upper (repeat 7 32).

(** A two-bitcoin note, authorized to the bid. *)
Definition bid_deposit : ShielderRedeem :=
  ShielderRedeem_zero <| sr_WithdrawalID := "W" |> <| sr_NullifierHash := "5" |>
    <| sr_MerkleRoot := "7" |> <| sr_Recipient := BondEscrowAddress |>
    <| sr_RecipientPolicy := ShielderRedeemPolicyBidDeposit |> <| sr_BidID := resale_bid |>
    <| sr_AmountSats := 200000000 |> <| sr_InHash := "IN" |> <| sr_VaultPubKey := "vault" |>
    <| sr_Status := ShielderRedeemStatusAuthorized |>.

Definition sell (commitment : string) (first : bool) : KM unit :=
  _ ← CreateNodeSlotAuction (mkCtx 10) "op" "node" 0 100;
  _ ← (if first then
         _ ← CreateNodeSlotBid (mkCtx 10) "op" resale_auction "op" "node";
         _ ← FinalizeBidDepositFromNoteSpend (mkCtx 10) bid_deposit; mret tt
       else mret tt);
  _ ← SelectNodeSlotBid (mkCtx 10) "op" resale_auction resale_bid;
  _ ← ShieldNodeSlotSaleEntitlement (E := ToyEngine.toy) (mkCtx 10) "op" resale_auction resale_bid
        seller_key (Sha256.hex_upper (hashLengthPrefixedParts
          (authorization_parts seller_key seller_key 200000000 [mkNote 200000000 commitment])))
        [commitment];
  mret tt.


(** The machine's first step from that store. *)
#[local] Existing Instance ToyWire.toy_wire.
