(* ===== verification/Pow.v ===== *)
(** * The proof of work on deposit requests

A deposit request carries a token whose hash with the owner's address starts
with enough zero bits; the difficulty is retargeted from the times clients
reported, weighted by what they deposited (x/thornado/shielder_flow.go). *)

From S2P Require Import Prelude GoStrings Sha256 Config Common Types Keeper.

Module Pow.

(** The bits of the digest, most significant first. *)
Definition byte_bits (b : Z) : list bool := map (Z.testbit b) [7; 6; 5; 4; 3; 2; 1; 0].
Definition digest_bits (sum : list Z) : list bool := List.concat (map byte_bits sum).

(** The scan: stops at the first one bit or once enough zeros are seen. *)
Fixpoint scan_zeros (difficulty zeros : Z) (bits : list bool) : res unit :=
  match bits with
  | [] => Ok tt
  | true :: _ =>
      if difficulty <=? zeros then Ok tt else Err "deposit pow token below difficulty"
  | false :: bits =>
      let zeros := zeros + 1 in
      if difficulty <=? zeros then Ok tt else scan_zeros difficulty zeros bits
  end.

Definition currentDepositPowDifficulty : KM Z :=
  state ← GetDepositPowDifficultyState;
  if 0 <? pd_Difficulty state then mret (pd_Difficulty state)
  else GetConfigInt64 Deposit_PowDifficultyMin.

Definition check_token (difficulty : Z) (owner powToken : string) : res unit :=
  if difficulty <=? 0 then Ok tt
  else if 256 <? difficulty then Err "deposit pow difficulty too high"
  else scan_zeros difficulty 0 (digest_bits (Sha256.Sum256 (owner ++ ":" ++ powToken))).

Definition validateDepositPowToken (owner powToken : string) : KM unit :=
  difficulty ← currentDepositPowDifficulty;
  lift (check_token difficulty owner powToken).

(** ** Retargeting *)

Record depositPowRetargetSample := mkSample { durationMs : Z; weightSats : Z }.

Definition counted (sinceHeight : Z) (record : DepositPowTiming) : bool :=
  pt_Deposited record && (sinceHeight <? pt_MatchedHeight record)
  && negb (pt_DurationMs record =? 0) && negb (pt_DepositAmountSats record =? 0).

Definition sum_weights (samples : list depositPowRetargetSample) : Z :=
  foldl (λ total s, total +u weightSats s) 0 samples.

Definition depositPowRetargetSamples (sinceHeight : Z)
    : KM (list depositPowRetargetSample * Z) :=
  records ← getIterator kv_deposit_pow_timing;
  let samples := map (λ r, mkSample (pt_DurationMs r) (pt_DepositAmountSats r))
                   (List.filter (counted sinceHeight) records) in
  mret (samples, sum_weights samples).

(** The walk over the sorted samples; [sort.Slice] leaves the order of equal
    durations open, which cannot be seen in the result while the weights stay
    in range ([weighted_percentile_least] holds of every sorted order). *)
Fixpoint percentile_walk (targetWeight seen last : Z) (samples : list depositPowRetargetSample)
    : Z :=
  match samples with
  | [] => last
  | s :: samples =>
      let seen := seen +u weightSats s in
      if targetWeight <=? seen then durationMs s
      else percentile_walk targetWeight seen (durationMs s) samples
  end.

Definition sort_samples : list depositPowRetargetSample → list depositPowRetargetSample :=
  insert_sort (λ x y, durationMs x <? durationMs y).

Definition target_weight (totalWeight percentile : Z) : Z :=
  u64 (totalWeight * percentile + 99) / 100.

Definition weightedPowPercentile (samples : list depositPowRetargetSample)
    (totalWeight percentile : Z) : Z :=
  if (length samples =? 0)%nat || (totalWeight =? 0) then 0
  else percentile_walk (target_weight totalWeight percentile) 0 0 (sort_samples samples).

(** The two loops count steps, at most [maxStep]. *)
Fixpoint steps_up (maxStep : nat) (adjusted targetMs : Z) : Z :=
  match maxStep with
  | O => 0
  | S n => if adjusted *u 2 <? targetMs then 1 + steps_up n (adjusted *u 2) targetMs else 0
  end.

Fixpoint steps_down (maxStep : nat) (adjusted targetMs : Z) : Z :=
  match maxStep with
  | O => 0
  | S n => if targetMs *u 2 <? adjusted then 1 + steps_down n (adjusted / 2) targetMs else 0
  end.

Definition retargetPowDifficulty (current observedMs targetMs maxStep : Z) : Z :=
  if (current <=? 0) || (observedMs =? 0) || (targetMs =? 0) then current
  else
    let maxStep := if maxStep <=? 0 then 1 else maxStep in
    if observedMs *u 2 <? targetMs then current +i steps_up (Z.to_nat maxStep) observedMs targetMs
    else if targetMs *u 2 <? observedMs
    then current -i steps_down (Z.to_nat maxStep) observedMs targetMs
    else current.

Definition clamp (minDifficulty maxDifficulty d : Z) : Z :=
  let d := if d <? minDifficulty then minDifficulty else d in
  if (0 <? maxDifficulty) && (maxDifficulty <? d) then maxDifficulty else d.

Definition RetargetDepositPowDifficulty (ctx : Ctx) : KM unit :=
  state ← GetDepositPowDifficultyState;
  minimum ← GetConfigInt64 Deposit_PowDifficultyMin;
  let state := if pd_Difficulty state <=? 0 then state <| pd_Difficulty := minimum |> else state in
  '(samples, totalWeight) ← depositPowRetargetSamples (pd_LastRetargetHeight state);
  minSamples ← GetConfigInt64 Deposit_PowSamplesMin;
  if (Z.of_nat (length samples) <? u64 minSamples) || (totalWeight =? 0) then
    SetDepositPowDifficultyState (state
      <| pd_LastRetargetHeight := BlockHeight ctx |>
      <| pd_SampleCount := Z.of_nat (length samples) |>
      <| pd_UpdatedHeight := BlockHeight ctx |>)
  else
    percentile ← GetConfigInt64 Deposit_PowTargetPercentile;
    let percentile := if (percentile <=? 0) || (100 <? percentile) then 90 else percentile in
    seconds ← GetConfigInt64 Deposit_PowTargetSeconds;
    let targetMs := u64 seconds *u 1000 in
    let targetMs := if targetMs =? 0 then 10000 else targetMs in
    let p90 := weightedPowPercentile samples totalWeight percentile in
    maxStep ← GetConfigInt64 Deposit_PowRetargetStepMax;
    maximum ← GetConfigInt64 Deposit_PowDifficultyMax;
    let nextDifficulty := clamp minimum maximum
      (retargetPowDifficulty (pd_Difficulty state) p90 targetMs maxStep) in
    SetDepositPowDifficultyState (state
      <| pd_Difficulty := nextDifficulty |>
      <| pd_LastRetargetHeight := BlockHeight ctx |>
      <| pd_SampleCount := Z.of_nat (length samples) |>
      <| pd_WeightedP90Ms := p90 |>
      <| pd_UpdatedHeight := BlockHeight ctx |>).

(** ** The token check as a bound on the digest *)

Fixpoint bits_value (bits : list bool) : Z :=
  match bits with
  | [] => 0
  | b :: bits => Z.b2z b * 2 ^ Z.of_nat (length bits) + bits_value bits
  end.

Definition be_value (bytes : list Z) : Z := foldl (λ a b, 256 * a + b) 0 bytes.

Lemma bits_value_range bits : 0 <= bits_value bits < 2 ^ Z.of_nat (length bits).
Proof.
  induction bits as [|b bits IH]; [done|]. simpl length. rewrite Nat2Z.inj_succ, Z.pow_succ_r by lia.
  cbn [bits_value]. destruct b; simpl Z.b2z; lia.
Qed.

Lemma bits_value_app l1 l2 :
  bits_value (l1 ++ l2)%list = bits_value l1 * 2 ^ Z.of_nat (length l2) + bits_value l2.
Proof.
  induction l1 as [|b l1 IH]; [done|]. cbn [app bits_value]. rewrite IH, length_app, Nat2Z.inj_add, Z.pow_add_r by lia.
  ring.
Qed.

Lemma byte_bits_value b : 0 <= b < 256 → bits_value (byte_bits b) = b.
Proof.
  intros H.
  assert (Ha : forallb (λ n, bits_value (byte_bits (Z.of_nat n)) =? Z.of_nat n) (seq 0 256) = true) by reflexivity.
  rewrite forallb_forall in Ha. specialize (Ha (Z.to_nat b)).
  rewrite Z2Nat.id in Ha by lia. apply Z.eqb_eq, Ha, in_seq. lia.
Qed.

Lemma digest_bits_length sum : length (digest_bits sum) = (8 * length sum)%nat.
Proof. induction sum as [|b sum IH]; [done|]. unfold digest_bits in *. simpl in *. lia. Qed.

Lemma digest_bits_value sum :
  Forall (λ b, 0 <= b < 256) sum → bits_value (digest_bits sum) = be_value sum.
Proof.
  unfold be_value. induction sum as [|b sum IH] using rev_ind; [done|].
  intros [Hs Hb]%Forall_app. apply Forall_inv in Hb.
  unfold digest_bits in *. rewrite map_app, concat_app, bits_value_app, IH, foldl_app by done.
  cbn [map List.concat foldl]. rewrite app_nil_r, byte_bits_value by done.
  change (length (byte_bits b)) with 8%nat. lia.
Qed.

Lemma scan_zeros_iff difficulty zeros bits :
  zeros < difficulty <= zeros + Z.of_nat (length bits) →
  scan_zeros difficulty zeros bits = Ok tt
  ↔ bits_value bits < 2 ^ (Z.of_nat (length bits) - (difficulty - zeros)).
Proof.
  revert zeros. induction bits as [|b bits IH]; intros zeros H; simpl in H; [lia|].
  pose proof (bits_value_range bits) as Hv.
  cbn [scan_zeros bits_value]. simpl length. destruct b; cbn [Z.b2z].
  - destruct (Z.leb_spec difficulty zeros); [lia|]. split; [done|]. intros Hlt. exfalso.
    assert (2 ^ (Z.of_nat (S (length bits)) - (difficulty - zeros)) <= 2 ^ Z.of_nat (length bits))
      by (apply Z.pow_le_mono_r; lia). lia.
  - destruct (Z.leb_spec difficulty (zeros + 1)).
    + split; [|done]. intros _. replace (_ - _) with (Z.of_nat (length bits)) by lia. lia.
    + rewrite IH by lia. rewrite Z.mul_0_l, Z.add_0_l.
      by replace (Z.of_nat (S (length bits)) - (difficulty - zeros))
        with (Z.of_nat (length bits) - (difficulty - (zeros + 1))) by lia.
Qed.

(** C36. A token is accepted exactly when its digest with the owner, read as a
    big-endian number, is below two to the 256 minus the difficulty: the bit
    scan is a bound on the digest. *)
Theorem pow_token_accepts_iff difficulty owner powToken :
  check_token difficulty owner powToken = Ok tt
  ↔ difficulty <= 0
    ∨ difficulty <= 256
      ∧ be_value (Sha256.Sum256 (owner ++ ":" ++ powToken)) < 2 ^ (256 - difficulty).
Proof.
  unfold check_token. destruct (Z.leb_spec difficulty 0); [tauto|].
  destruct (Z.ltb_spec 256 difficulty); [split; [done|lia]|].
  unfold Sha256.Sum256. set (sum := Sha256.sum_bytes _).
  assert (Hl : Z.of_nat (length (digest_bits sum)) = 256)
    by (rewrite digest_bits_length; unfold sum; by rewrite Sha256.sum_bytes_length).
  rewrite scan_zeros_iff, digest_bits_value, Hl by (lia || apply Sha256.sum_bytes_range).
  rewrite Z.sub_0_r. split; [auto|]. intros [?|[_ ?]]; [lia|done].
Qed.

(** ** The weighted percentile *)

Definition weight_where (P : Z → bool) (samples : list depositPowRetargetSample) : Z :=
  sum_by weightSats (List.filter (λ s, P (durationMs s)) samples).

Definition weights_ok (samples : list depositPowRetargetSample) : Prop :=
  Forall (λ s, 0 <= weightSats s) samples ∧ sum_by weightSats samples < two64.

Definition shorter_or_equal (x y : depositPowRetargetSample) : Prop := durationMs x <= durationMs y.

#[export] Instance shorter_or_equal_trans : Transitive shorter_or_equal.
Proof. intros x y z. unfold shorter_or_equal. lia. Qed.

Lemma sort_samples_sorted samples : StronglySorted shorter_or_equal (sort_samples samples).
Proof.
  apply insert_sort_Sorted; [apply _|..]; unfold shorter_or_equal; intros x y H; lia.
Qed.

Lemma weight_where_cons P s samples :
  weight_where P (s :: samples)
  = (if P (durationMs s) then weightSats s else 0) + weight_where P samples.
Proof. unfold weight_where. simpl. by destruct (P _); rewrite ?sum_by_cons. Qed.

Lemma weight_where_perm P l l' : l ≡ₚ l' → weight_where P l = weight_where P l'.
Proof. intros H. unfold weight_where. apply sum_by_perm. by apply filter_perm. Qed.

Lemma weight_where_none P samples :
  Forall (λ s, P (durationMs s) = false) samples → weight_where P samples = 0.
Proof.
  induction 1 as [|s samples Hs _ IH]; [done|]. by rewrite weight_where_cons, Hs, IH.
Qed.

Lemma weight_where_nonneg P samples :
  Forall (λ s, 0 <= weightSats s) samples → 0 <= weight_where P samples.
Proof.
  induction 1 as [|s samples Hs _ IH]; [done|]. rewrite weight_where_cons. destruct (P _); lia.
Qed.

(** The duration found is the least one up to which the samples weigh the
    target. *)
Definition least_reaching (target : Z) (samples : list depositPowRetargetSample) (d : Z) : Prop :=
  d ∈ map durationMs samples
  ∧ weight_where (λ x, x <? d) samples < target <= weight_where (λ x, x <=? d) samples.

Lemma percentile_walk_least target samples : ∀ seen last,
  StronglySorted shorter_or_equal samples →
  Forall (λ s, 0 <= weightSats s) samples →
  0 <= seen → seen + sum_by weightSats samples < two64 →
  seen < target <= seen + sum_by weightSats samples →
  least_reaching (target - seen) samples (percentile_walk target seen last samples).
Proof.
  induction samples as [|s samples IH]; intros seen last Hs Hw H0 Hb Ht.
  { rewrite sum_by_nil in Ht. lia. }
  apply StronglySorted_inv in Hs as [Hs Hle]. apply Forall_cons in Hw as [Hws Hw].
  rewrite sum_by_cons in *. pose proof (sum_by_nonneg weightSats samples Hw) as Hn.
  cbn [percentile_walk]. rewrite u64_small by u64_lia.
  destruct (Z.leb_spec target (seen + weightSats s)) as [Hd|Hd].
  - split; [by left|]. rewrite !weight_where_cons, Z.ltb_irrefl, Z.leb_refl.
    rewrite (weight_where_none (λ x, x <? durationMs s)).
    + pose proof (weight_where_nonneg (λ x, x <=? durationMs s) samples Hw). lia.
    + eapply Forall_impl; [exact Hle|]. unfold shorter_or_equal. intros x Hx. lia.
  - destruct (IH (seen + weightSats s) (durationMs s)) as [Hin Hr]; [done|done|lia..|].
    set (d := percentile_walk _ _ _ _) in *. split; [by right|].
    assert (Hsd : durationMs s <= d).
    { apply list_elem_of_fmap in Hin as (x & -> & Hx).
      rewrite Forall_forall in Hle. by apply (Hle x). }
    rewrite !weight_where_cons. destruct (Z.leb_spec (durationMs s) d); [|lia].
    destruct (Z.ltb_spec (durationMs s) d) as [|He]; [lia|].
    assert (d = durationMs s) as Heq by lia. rewrite Heq in *. 
    rewrite (weight_where_none (λ x, x <? durationMs s)) in Hr |- *.
    2,3: eapply Forall_impl; [exact Hle|]; unfold shorter_or_equal; intros x Hx; lia.
    lia.
Qed.

Lemma target_weight_ceil total percentile w :
  0 <= total * percentile → total * percentile + 99 < two64 →
  target_weight total percentile <= w ↔ total * percentile <= w * 100.
Proof.
  intros H0 Hb. unfold target_weight. rewrite u64_small by u64_lia.
  pose proof (Z.div_mod (total * percentile + 99) 100). 
  pose proof (Z.mod_pos_bound (total * percentile + 99) 100). lia.
Qed.

Lemma weight_where_mono P Q samples :
  (∀ x, P x = true → Q x = true) → Forall (λ s, 0 <= weightSats s) samples →
  weight_where P samples <= weight_where Q samples.
Proof.
  intros HPQ. induction 1 as [|s samples Hs _ IH]; [done|]. rewrite !weight_where_cons.
  specialize (HPQ (durationMs s)). destruct (P _); [rewrite HPQ by done; lia|].
  destruct (Q _); lia.
Qed.

Lemma least_reaching_unique target samples d d' :
  Forall (λ s, 0 <= weightSats s) samples →
  least_reaching target samples d → least_reaching target samples d' → d = d'.
Proof.
  intros Hw [_ H] [_ H'].
  assert (Hlt : ∀ x y, x < y →
    weight_where (λ z, z <=? x) samples <= weight_where (λ z, z <? y) samples)
    by (intros x y Hxy; apply weight_where_mono; [intros z Hz; lia|done]).
  destruct (Z.lt_trichotomy d d') as [Hd|[Hd|Hd]]; [|done|];
    [specialize (Hlt d d' Hd)|specialize (Hlt d' d Hd)]; lia.
Qed.

Lemma least_reaching_perm target l l' d :
  l ≡ₚ l' → least_reaching target l d → least_reaching target l' d.
Proof.
  intros Hp [Hin Hr]. split; [by rewrite <- Hp|].
  by rewrite <- !(weight_where_perm _ _ _ Hp).
Qed.

Lemma weight_where_all samples : weight_where (λ _, true) samples = sum_by weightSats samples.
Proof. induction samples as [|s samples IH]; [done|]. by rewrite weight_where_cons, IH. Qed.

(** The weighted percentile is the least reported duration up to which
    at least that share of the deposited amount was matched, and neither the
    order in which the samples are read nor the order in which the sort
    leaves equal durations can change it. *)
Theorem weighted_percentile_least samples percentile
    (Hweights : Forall (λ s, 0 <= weightSats s) samples)
    (Hbound : sum_by weightSats samples * 100 + 99 < two64)
    (Htotal : 0 < sum_by weightSats samples) (Hp : 0 < percentile <= 100) :
  let total := sum_by weightSats samples in
  let d := weightedPowPercentile samples total percentile in
  d ∈ map durationMs samples
  ∧ total * percentile <= weight_where (λ x, x <=? d) samples * 100
  ∧ weight_where (λ x, x <? d) samples * 100 < total * percentile
  ∧ ∀ sorted, sorted ≡ₚ samples → StronglySorted shorter_or_equal sorted →
      percentile_walk (target_weight total percentile) 0 0 sorted = d.
Proof.
  intros total d.
  assert (Hceil : ∀ w, target_weight total percentile <= w ↔ total * percentile <= w * 100)
    by (intros w; apply target_weight_ceil; subst total; nia).
  set (target := target_weight total percentile) in *.
  assert (Hwalk : ∀ sorted, sorted ≡ₚ samples → StronglySorted shorter_or_equal sorted →
    least_reaching target samples (percentile_walk target 0 0 sorted)).
  { intros sorted Hperm Hsort. apply (least_reaching_perm _ sorted); [done|].
    rewrite <- (Z.sub_0_r target) at 1. pose proof (sum_by_perm weightSats _ _ Hperm) as Hsum.
    pose proof (Hceil 0) as H0. pose proof (Hceil total) as H1.
    apply percentile_walk_least; rewrite ?Hsum; [done|by rewrite Hperm|lia|u64_lia|].
    change (sum_by weightSats samples) with total. nia. }
  assert (Hd : d = percentile_walk target 0 0 (sort_samples samples)).
  { subst d. unfold weightedPowPercentile. destruct samples as [|s l]; [done|].
    cbn [length Nat.eqb orb]. destruct (Z.eqb_spec total 0); [lia|done]. }
  assert (Hleast : least_reaching target samples d).
  { rewrite Hd. apply Hwalk; [apply insert_sort_perm|apply sort_samples_sorted]. }
  pose proof Hleast as (Hin & Hlt & Hle). split_and!; [done|by apply Hceil|..].
  - pose proof (Hceil (weight_where (λ x, x <? d) samples)). lia.
  - intros sorted Hperm Hsort. by apply (least_reaching_unique target samples); [|apply Hwalk|].
Qed.

(** ** The retarget loops *)

(** The number of doublings that keep a time under the target, up to the
    permitted step; the loop stops by itself as a target is below [2 ^ 63]. *)
Lemma steps_up_spec n adjusted target (k := steps_up n adjusted target) :
  0 < adjusted → adjusted < two63 → target <= two63 →
  0 <= k <= Z.of_nat n
  ∧ (0 < k → adjusted * 2 ^ k < target)
  ∧ (k < Z.of_nat n → target <= adjusted * 2 ^ (k + 1)).
Proof.
  subst k. revert adjusted. induction n as [|n IH]; intros adjusted Ha Hb Ht; [simpl; lia|].
  cbn [steps_up]. rewrite u64_small by u64_lia.
  destruct (Z.ltb_spec (adjusted * 2) target) as [Hlt|Hge]; [|simpl; lia].
  destruct (IH (adjusted * 2)) as (H1 & H2 & H3); [lia..|].
  set (k := steps_up n (adjusted * 2) target) in *.
  clearbody k. rewrite (Z.add_comm 1 k).
  split; [lia|split]; intros Hk.
  - rewrite Z.pow_add_r, Z.pow_1_r by lia.
    destruct (Z.eq_dec k 0) as [->|]; [rewrite Z.pow_0_r; lia|]. specialize (H2 ltac:(lia)). lia.
  - specialize (H3 ltac:(lia)). rewrite (Z.pow_add_r _ (k + 1)), Z.pow_1_r by lia. lia.
Qed.

Lemma steps_down_spec n adjusted target (k := steps_down n adjusted target) :
  0 <= adjusted → 0 < target → target < two63 →
  0 <= k <= Z.of_nat n
  ∧ (0 < k → target * 2 < adjusted / 2 ^ (k - 1))
  ∧ (k < Z.of_nat n → adjusted / 2 ^ k <= target * 2).
Proof.
  subst k. revert adjusted. induction n as [|n IH]; intros adjusted Ha Ht Hb; [simpl; lia|].
  cbn [steps_down]. rewrite u64_small by u64_lia.
  destruct (Z.ltb_spec (target * 2) adjusted) as [Hlt|Hge]; [|rewrite Z.div_1_r; simpl; lia].
  destruct (IH (adjusted / 2)) as (H1 & H2 & H3); [apply Z.div_pos; lia|lia..|].
  set (k := steps_down n (adjusted / 2) target) in *. clearbody k.
  split; [lia|split]; intros Hk.
  - replace (1 + k - 1) with k by lia.
    destruct (Z.eq_dec k 0) as [->|]; [by rewrite Z.div_1_r|]. specialize (H2 ltac:(lia)).
    rewrite Z.div_div, <- Z.pow_succ_r in H2 by lia. by replace (Z.succ (k - 1)) with k in H2 by lia.
  - specialize (H3 ltac:(lia)). rewrite Z.div_div, <- Z.pow_succ_r in H3 by lia.
    by rewrite Z.add_1_l.
Qed.


(** The difficulty in force. *)
Definition difficulty_of (s : KVStore) : Z :=
  if 0 <? pd_Difficulty (default DepositPowDifficultyState_zero (kv_deposit_pow_difficulty s))
  then pd_Difficulty (default DepositPowDifficultyState_zero (kv_deposit_pow_difficulty s))
  else Config.GetConfigInt64 (kv_config s) Deposit_PowDifficultyMin.

Definition within (minDifficulty maxDifficulty d : Z) : Prop :=
  minDifficulty <= d ∧ (0 < maxDifficulty → d <= maxDifficulty).

Lemma clamp_within lo hi d : (0 < hi → lo <= hi) → within lo hi (clamp lo hi d).
Proof.
  unfold within, clamp. intros H. cbv zeta.
  destruct (Z.ltb_spec d lo), (Z.ltb_spec 0 hi); simpl;
    repeat case_match; lia.
Qed.

Lemma clamp_step lo hi cur d step :
  within lo hi cur → Z.abs (d - cur) <= step → Z.abs (clamp lo hi d - cur) <= step.
Proof.
  unfold within, clamp. cbv zeta. intros H Hd.
  destruct (Z.ltb_spec d lo), (Z.ltb_spec 0 hi); simpl; repeat case_match; lia.
Qed.

Lemma steps_up_range n a t : 0 <= steps_up n a t <= Z.of_nat n.
Proof. revert a. induction n as [|n IH]; intros a; simpl; [lia|]. specialize (IH (a *u 2)). case_match; lia. Qed.

Lemma steps_down_range n a t : 0 <= steps_down n a t <= Z.of_nat n.
Proof. revert a. induction n as [|n IH]; intros a; simpl; [lia|]. specialize (IH (a / 2)). case_match; lia. Qed.

Lemma retarget_step cur observed target maxStep :
  0 < cur → cur + Z.max 1 maxStep < two63 →
  Z.abs (retargetPowDifficulty cur observed target maxStep - cur) <= Z.max 1 maxStep.
Proof.
  intros H0 Hb. unfold retargetPowDifficulty. cbv zeta.
  set (m := if maxStep <=? 0 then 1 else maxStep).
  assert (Hm : m = Z.max 1 maxStep) by (unfold m; destruct (Z.leb_spec maxStep 0); lia).
  pose proof (steps_up_range (Z.to_nat m) observed target).
  pose proof (steps_down_range (Z.to_nat m) observed target).
  destruct (_ || _ || _); [lia|]. destruct (_ <? target); [rewrite i64_small by u64_lia; lia|].
  destruct (_ <? observed); [rewrite i64_small by u64_lia; lia|lia].
Qed.

(** A retarget always succeeds; it writes the difficulty state and nothing
    else. *)
Lemma retarget_run ctx s :
  ∃ st, RetargetDepositPowDifficulty ctx s
        = (Ok tt, s <| kv_deposit_pow_difficulty := Some st |>)
    ∧ pd_LastRetargetHeight st = BlockHeight ctx
    ∧ (pd_Difficulty st = difficulty_of s
       ∨ ∃ observed target, pd_Difficulty st
         = clamp (Config.GetConfigInt64 (kv_config s) Deposit_PowDifficultyMin)
             (Config.GetConfigInt64 (kv_config s) Deposit_PowDifficultyMax)
             (retargetPowDifficulty (difficulty_of s) observed target
               (Config.GetConfigInt64 (kv_config s) Deposit_PowRetargetStepMax))).
Proof.
  unfold RetargetDepositPowDifficulty, depositPowRetargetSamples, GetDepositPowDifficultyState,
    Keeper.GetConfigInt64, getIterator, gets, mbind, M_bind, mret, M_ret,
    SetDepositPowDifficultyState, modify. cbv zeta beta iota.
  set (st0 := if _ <=? 0 then _ else _).
  assert (Hd : pd_Difficulty st0 = difficulty_of s).
  { subst st0. unfold difficulty_of.
    change (from_option DepositPowDifficultyState_zero (kv_deposit_pow_difficulty s))
      with (default DepositPowDifficultyState_zero (kv_deposit_pow_difficulty s)).
    destruct (Z.leb_spec (pd_Difficulty (default DepositPowDifficultyState_zero (kv_deposit_pow_difficulty s))) 0),
      (Z.ltb_spec 0 (pd_Difficulty (default DepositPowDifficultyState_zero (kv_deposit_pow_difficulty s)))); lia || done. }
  destruct (_ || _); eexists; (split; [reflexivity|]); (split; [done|]).
  - by left.
  - right. eexists _, _. rewrite <- Hd. reflexivity.
Qed.

(** C37. A retarget always succeeds and writes only the difficulty state: the
    difficulty in force stays between the configured bounds, moves by at most
    the configured step, and the height of the retarget is recorded. *)
Theorem retarget_keeps_bounds ctx s lo hi step
    (Hlo : Config.GetConfigInt64 (kv_config s) Deposit_PowDifficultyMin = lo)
    (Hhi : Config.GetConfigInt64 (kv_config s) Deposit_PowDifficultyMax = hi)
    (Hstep : Config.GetConfigInt64 (kv_config s) Deposit_PowRetargetStepMax = step)
    (Hpos : 0 < lo) (Hle : 0 < hi → lo <= hi)
    (Hin : within lo hi (difficulty_of s))
    (Hsmall : difficulty_of s + Z.max 1 step < two63) :
  ∃ st, RetargetDepositPowDifficulty ctx s
        = (Ok tt, s <| kv_deposit_pow_difficulty := Some st |>)
    ∧ within lo hi (pd_Difficulty st)
    ∧ Z.abs (pd_Difficulty st - difficulty_of s) <= Z.max 1 step
    ∧ pd_LastRetargetHeight st = BlockHeight ctx.
Proof.
  destruct (retarget_run ctx s) as (st & Hrun & Hh & Hd). exists st.
  assert (0 < difficulty_of s) by (unfold within in Hin; lia).
  rewrite Hlo, Hhi, Hstep in Hd.
  destruct Hd as [->|(observed & target & ->)]; split_and!; try done; [lia|..].
  - by apply clamp_within.
  - by apply clamp_step, retarget_step.
Qed.

(** Eight deposits matched in one second each, a tenth of the target. *)
Definition fast_timing (n : nat) : DepositPowTiming :=
  DepositPowTiming_zero <| pt_DurationMs := 1000 |> <| pt_DepositAmountSats := 50000 + Z.of_nat n |>
    <| pt_MatchedHeight := 20 |> <| pt_Deposited := true |>.
Definition fast_store : KVStore :=
  KVStore_empty <| kv_deposit_pow_timing :=
    list_to_map (map (λ n, ("T" ++ String (ascii_of_nat (65 + n)) EmptyString, fast_timing n)) (seq 0 8)) |>.

Example fast_deposits_raise :
  difficulty_of (RetargetDepositPowDifficulty (mkCtx 500) fast_store).2 = 21.
Proof. vm_compute. reflexivity. Qed.

Lemma retarget_keeps_bounds_witness :
  ∃ st, RetargetDepositPowDifficulty (mkCtx 500) fast_store
        = (Ok tt, fast_store <| kv_deposit_pow_difficulty := Some st |>)
    ∧ within 20 64 (pd_Difficulty st)
    ∧ Z.abs (pd_Difficulty st - difficulty_of fast_store) <= 1
    ∧ pd_LastRetargetHeight st = 500.
Proof.
  apply (retarget_keeps_bounds (mkCtx 500) fast_store 20 64 1);
    vm_compute; intuition discriminate.
Defined.

Lemma weighted_percentile_least_witness :
  let samples := [mkSample 9000 10; mkSample 2000 60; mkSample 9000 5; mkSample 4000 25] in
  weightedPowPercentile samples 100 90 = 9000
  ∧ weight_where (λ x, x <? 9000) samples * 100 < 100 * 90.
Proof.
  pose proof (weighted_percentile_least
    [mkSample 9000 10; mkSample 2000 60; mkSample 9000 5; mkSample 4000 25] 90) as H.
  destruct H as (_ & _ & H & _); [repeat constructor; done|done|done|done|].
  split; [reflexivity|exact H].
Defined.


End Pow.
