(* ===== verification/Deposits.v ===== *)
(** * Deposits (x/thornado/deposit_flow.go)

A session is issued a fresh derived address against a proof of work; an
observed inbound is matched to it once, recorded and swept to the main
address; deposits to addresses of retired vaults are returned less the fee.
The functions run inside handlers and the end of a block, which log an error
and keep the writes made before it. *)

From S2P Require Import Prelude GoStrings Config Common Types Vaults Voters Keeper BtcBatch GasMgr Notes Fees Redeem Pow.

(** [cosmos.AccAddress(text)]: the account whose bytes are the text. *)
Class AccBytes := acc_of_bytes : string → string.

Section Deposits.
Context `{Ext} (ctx : Ctx).

(** ** Heights *)

Definition getLastChurnHeight : KM Z :=
  r ← try (GetBaseVaultsByStatus ctx ActiveVault);
  match r with
  | Ok vaults =>
      mret (foldl (λ last vault, if last <? va_StatusSince vault then va_StatusSince vault else last)
              0 vaults)
  | _ => mret 0
  end.

(** The first of [next], [next + interval], ... above [height]; the fuel
    counts the steps left ([churn_steps_suffice]). *)
Fixpoint churn_after (fuel : nat) (next interval height : Z) : Z :=
  match fuel with
  | O => next
  | S fuel => if next <=? height then churn_after fuel (next +i interval) interval height else next
  end.
Definition churn_steps (next interval height : Z) : nat :=
  Z.to_nat ((height - next) / interval + 1).

Definition nextChurnHeightAfter (height : Z) : KM Z :=
  interval ← getConfigDurationBlocks Churn_IntervalMinutes;
  if interval <=? 0 then mret 0
  else
    last ← getLastChurnHeight;
    let next := last +i interval in
    mret (churn_after (churn_steps next interval height) next interval height).

Definition nextDepositAddressExpiryHeight : KM Z := nextChurnHeightAfter (BlockHeight ctx).

Definition depositAddressPurgeHeight (createdHeight : Z) : KM Z :=
  days ← GetConfigInt64 Deposit_RefundIfForgottenDays;
  if days <=? 0 then mret 0
  else
    blockTime ← GetConfigInt64 Chain_BlockTimeSeconds;
    let blocks := MinutesToBlocks (days *i 24 *i 60) blockTime in
    mret (if blocks <=? 0 then 0 else createdHeight +i blocks).

Definition depositRefundEligibleHeight (expiresAtHeight : Z) : KM Z :=
  if BlockHeight ctx <? expiresAtHeight then nextChurnHeightAfter expiresAtHeight
  else nextChurnHeightAfter (BlockHeight ctx).

(** ** Sessions *)

Definition RegisterDepositPowToken (owner powToken : string) (powDurationMs : Z)
    : KM DepositSession :=
  _ ← fail_if (Acc_Empty owner) "missing deposit owner";
  let powToken := TrimSpace powToken in
  _ ← fail_if (is_empty powToken) "missing deposit pow token";
  powDifficulty ← Pow.currentDepositPowDifficulty;
  _ ← Pow.validateDepositPowToken owner powToken;
  existing ← try (GetDepositSessionByPowToken powToken);
  _ ← (match existing with
       | Ok existing =>
           if negb (Address.IsEmpty (ds_DepositAddress existing)) then
             expiry ← getConfigDurationBlocks Deposit_PowExpiryMinutes;
             fail_if ((expiry <=? 0) || (BlockHeight ctx <=? ds_CreatedHeight existing +i expiry))
               "deposit pow token already used"
           else mret tt
       | _ => mret tt
       end);
  '(vault, _) ← currentBTCVaultAddress ctx;
  let pathType := VaultPath.VaultDepositPathUser in
  '(depositNonce, pathIndex) ← AllocateVaultDepositPathIndex (va_PubKey vault) pathType;
  address ← lift (DeriveBTCAddress vault pathIndex);
  let path := VaultPath.VaultDepositPath pathType depositNonce VaultPath.DepositPathCommitmentRoot in
  expiresAtHeight ← nextDepositAddressExpiryHeight;
  purgeAtHeight ← depositAddressPurgeHeight (BlockHeight ctx);
  let session := DepositSession_zero
    <| ds_Owner := owner |>
    <| ds_PowToken := powToken |>
    <| ds_DepositAddress := address |>
    <| ds_VaultPubKey := va_PubKey vault |>
    <| ds_DepositPathIndex := pathIndex |>
    <| ds_DepositPath := path |>
    <| ds_DepositPathType := VaultPath.path_type_string pathType |>
    <| ds_DepositNonce := depositNonce |>
    <| ds_CreatedHeight := BlockHeight ctx |>
    <| ds_ExpiresAtHeight := expiresAtHeight |>
    <| ds_PurgeAtHeight := purgeAtHeight |>
    <| ds_PowDurationMs := powDurationMs |>
    <| ds_PowDifficulty := powDifficulty |>
    <| ds_Status := DepositStatusAddressIssued |> in
  let mapping := DepositAddress_zero
    <| da_Address := address |>
    <| da_VaultPubKey := va_PubKey vault |>
    <| da_PathIndex := pathIndex |>
    <| da_Path := path |>
    <| da_PathType := VaultPath.path_type_string pathType |>
    <| da_DepositNonce := depositNonce |>
    <| da_Owner := owner |>
    <| da_PowToken := powToken |>
    <| da_CreatedHeight := BlockHeight ctx |>
    <| da_ExpiresAtHeight := expiresAtHeight |>
    <| da_PurgeAtHeight := purgeAtHeight |>
    <| da_PowDurationMs := powDurationMs |>
    <| da_PowDifficulty := powDifficulty |> in
  _ ← SetDepositAddress mapping;
  _ ← SetDepositPowTiming (DepositPowTiming_zero
    <| pt_PowToken := powToken |>
    <| pt_Owner := owner |>
    <| pt_DurationMs := powDurationMs |>
    <| pt_Difficulty := powDifficulty |>
    <| pt_CreatedHeight := BlockHeight ctx |>);
  _ ← SetDepositSession session;
  mret session.

(** ** Looking up records *)

Definition at_outpoint (inboundTxID : string) (sourceVout : Z) (depositAddress : string)
    (deposit : DepositRecord) : bool :=
  let recordTxID := if TxID.IsEmpty (dr_InboundTxID deposit) then dr_DepositID deposit
                    else dr_InboundTxID deposit in
  TxID.Equals recordTxID inboundTxID && (dr_SourceVout deposit =? sourceVout)
  && (Address.IsEmpty depositAddress || Address.Equals (dr_DepositAddress deposit) depositAddress).

Definition findDepositRecordByInboundOutpoint (inboundTxID : string) (sourceVout : Z)
    (depositAddress : string) : KM (option DepositRecord) :=
  if TxID.IsEmpty inboundTxID then mret None
  else
    deposits ← getIterator kv_deposit_record;
    mret (List.find (at_outpoint inboundTxID sourceVout depositAddress) deposits).

(** The key of none of the active vaults; no active vault at all is not a
    retirement. *)
Definition vaultPubKeyNoLongerActive (pubKey : string) : KM bool :=
  if PubKey.IsEmpty pubKey then mret false
  else
    r ← try (GetBaseVaultsByStatus ctx ActiveVault);
    match r with
    | Ok activeVaults =>
        mret (negb (length activeVaults =? 0)%nat
              && negb (existsb (λ vault, PubKey.Equals (va_PubKey vault) pubKey) activeVaults))
    | _ => mret false
    end.

Definition depositMatchedAfterAddressExpiry (deposit : DepositRecord) : KM bool :=
  if (0 <? dr_ExpiresAtHeight deposit) && (0 <? dr_MatchedHeight deposit)
     && (dr_ExpiresAtHeight deposit <=? dr_MatchedHeight deposit)
  then vaultPubKeyNoLongerActive (dr_VaultPubKey deposit)
  else mret false.

Definition depositDirectBaseVaultReturn (deposit : DepositRecord) : KM bool :=
  if TxID.IsEmpty (dr_DepositID deposit) || PubKey.IsEmpty (dr_VaultPubKey deposit)
     || Address.IsEmpty (dr_DepositAddress deposit) || Address.IsEmpty (dr_ReturnAddress deposit)
     || negb (dr_DepositPathIndex deposit =? VaultPath.MainVaultPathIndex)
     || negb (dr_SweepComplete deposit) || (dr_RefundEligibleHeight deposit <=? 0)
  then mret false
  else
    r ← try (GetVault ctx (dr_VaultPubKey deposit));
    match r with
    | Ok vault =>
        if PubKey.IsEmpty (va_PubKey vault) || negb (Vault.IsBase vault) then mret false
        else match VaultPath.DeriveBTCTaprootAddress (dr_VaultPubKey deposit)
                     VaultPath.MainVaultPathIndex with
             | Ok rootAddr => mret (Address.Equals (dr_DepositAddress deposit) rootAddr)
             | Err _ => mret false
             | Panic e => panic e
             end
    | _ => mret false
    end.

Definition depositRequiresReturn (deposit : DepositRecord) : KM bool :=
  expired ← depositMatchedAfterAddressExpiry deposit;
  if (expired : bool) then mret true else depositDirectBaseVaultReturn deposit.

(** ** Outbounds of a deposit *)

Definition is_refund_of (depositID : string) (item : TxOutItem) : bool :=
  TxID.Equals (to_InHash item) depositID && str_eq (GetTxType item) TxOutTypeRefund.

Definition depositRefundTxOutSigned (depositID : string) : KM bool :=
  if TxID.IsEmpty depositID then mret false
  else
    txOuts ← getIterator kv_txout;
    mret (existsb (λ txOut, existsb (λ item,
            is_refund_of depositID item && negb (TxID.IsEmpty (to_OutHash item)))
            (txo_TxArray txOut)) txOuts).

Definition txOutHasCompletedDepositSweep (txOut : TxOut) (deposit : DepositRecord) : bool :=
  existsb (λ item,
    TxID.Equals (to_InHash item) (dr_DepositID deposit)
    && str_eq (GetTxType item) TxOutTypeSweep
    && PubKey.Equals (to_VaultPubKey item) (dr_VaultPubKey deposit)
    && (to_VaultPathIndex item =? dr_DepositPathIndex deposit)
    && negb (TxID.IsEmpty (to_OutHash item))) (txo_TxArray txOut).

Definition txOutHasCompletedDepositSweepAtOrAfterMatchedHeight (deposit : DepositRecord)
    : KM bool :=
  if (dr_MatchedHeight deposit <=? 0) || (BlockHeight ctx <? dr_MatchedHeight deposit)
  then mret false
  else
    txOuts ← getIterator kv_txout;
    mret (existsb (λ txOut,
      negb ((txo_Height txOut <? dr_MatchedHeight deposit) || (BlockHeight ctx <? txo_Height txOut))
      && txOutHasCompletedDepositSweep txOut deposit) txOuts).

Definition depositSweepCompleted (deposit : DepositRecord) : KM bool :=
  if TxID.IsEmpty (dr_DepositID deposit) then mret false
  else if dr_SweepComplete deposit then mret true
  else if dr_DepositPathIndex deposit =? VaultPath.MainVaultPathIndex then mret true
  else if dr_MatchedHeight deposit <=? 0 then mret false
  else txOutHasCompletedDepositSweepAtOrAfterMatchedHeight deposit.

(** A failure to read or write is logged. *)
Definition markDepositSweepComplete (item : TxOutItem) : KM unit :=
  if negb (str_eq (to_TxType item) TxOutTypeSweep) || TxID.IsEmpty (to_InHash item) then mret tt
  else
    deposit ← GetDepositRecord (to_InHash item);
    if TxID.IsEmpty (dr_DepositID deposit)
       || negb (PubKey.Equals (dr_VaultPubKey deposit) (to_VaultPubKey item))
       || negb (dr_DepositPathIndex deposit =? to_VaultPathIndex item)
    then mret tt
    else _ ← try (SetDepositRecord (deposit <| dr_SweepComplete := true |>)); mret tt.

(** ** Sweeping a deposit path to the main address *)

Section Outbound.
Context `{BtcWire}.

Definition sweep_item (tx : ObservedTx) (currentRoot sourcePubKey : string) (pathIndex : Z)
    (inHash : string) (maxGasCoin : Coin) (gasRate amount amountSats : Z) : TxOutItem :=
  TxOutItem_zero
    <| to_Chain := BTCChain |>
    <| to_ToAddress := currentRoot |>
    <| to_VaultPubKey := sourcePubKey |>
    <| to_Coin := NewCoin BTCAsset amount |>
    <| to_MaxGas := [maxGasCoin] |>
    <| to_GasRate := gasRate |>
    <| to_InHash := inHash |>
    <| to_ModuleName := BaseName |>
    <| to_VaultPathIndex := pathIndex |>
    <| to_TxType := if pathIndex =? VaultPath.MainVaultPathIndex then TxOutTypeMigrate
                    else TxOutTypeSweep |>
    <| to_SourceInputs := [mkTxOutInput (tx_ID (ot_Tx tx)) (tx_SourceVout (ot_Tx tx)) amountSats
                             pathIndex] |>.

(** What is left of the amount after the gas, which may be zero. *)
Definition less_gas (amount gas : Z) : res Z :=
  if gas =? 0 then Ok amount
  else if amount <=? gas then Err "sweep amount is not enough to pay gas"
  else uint_sub amount gas.

Definition queueVaultPathSweepWithInHash (tx : ObservedTx) (sourcePubKey : string)
    (pathIndex : Z) (inHash : string) : KM unit :=
  _ ← fail_if (PubKey.IsEmpty sourcePubKey) "missing sweep vault pubkey";
  _ ← fail_if (TxID.IsEmpty inHash) "missing sweep in hash";
  let coin := Coins.GetCoin (tx_Coins (ot_Tx tx)) BTCAsset in
  _ ← fail_if (Coin_IsEmpty coin || (c_Amount coin =? 0)) "missing sweep bitcoin amount";
  '(currentVault, currentRoot) ← currentBTCVaultAddress ctx;
  _ ← lift (VaultPath.DeriveBTCTaprootAddress sourcePubKey pathIndex);
  if PubKey.Equals sourcePubKey (va_PubKey currentVault)
     && (pathIndex =? VaultPath.MainVaultPathIndex)
     && Address.Equals (tx_ToAddress (ot_Tx tx)) currentRoot
  then mret tt
  else
    maxGasCoin ← GasMgr.GetMaxGas BTCChain;
    amount ← lift (less_gas (c_Amount coin) (c_Amount maxGasCoin));
    gasRate ← GetConfigInt64 BTC_DefaultSatsPerVByte;
    nf ← GetNetworkFee BTCChain;
    let gasRate := if 0 <? nf_TransactionFeeRate nf then i64 (nf_TransactionFeeRate nf) else gasRate in
    amountSats ← lift (to_uint64 (c_Amount coin));
    appendBTCExactTxOut ctx (BlockHeight ctx)
      (sweep_item tx currentRoot sourcePubKey pathIndex inHash maxGasCoin gasRate amount amountSats).

Definition queueVaultPathSweep (tx : ObservedTx) (sourcePubKey : string) (pathIndex : Z) : KM unit :=
  queueVaultPathSweepWithInHash tx sourcePubKey pathIndex (tx_ID (ot_Tx tx)).

(** ** Matching an observed inbound *)

Definition matched_record (tx : ObservedTx) (mapping : DepositAddress) (depositID : string)
    (amountSats confirmationRequired : Z) : DepositRecord :=
  DepositRecord_zero
    <| dr_DepositID := depositID |>
    <| dr_Owner := da_Owner mapping |>
    <| dr_AmountSats := amountSats |>
    <| dr_DepositAddress := tx_ToAddress (ot_Tx tx) |>
    <| dr_ReturnAddress := tx_FromAddress (ot_Tx tx) |>
    <| dr_VaultPubKey := da_VaultPubKey mapping |>
    <| dr_DepositPathIndex := da_PathIndex mapping |>
    <| dr_DepositPath := da_Path mapping |>
    <| dr_DepositPathType := da_PathType mapping |>
    <| dr_DepositNonce := da_DepositNonce mapping |>
    <| dr_OperatorPubKey := da_OperatorPubKey mapping |>
    <| dr_NodePubKey := da_NodePubKey mapping |>
    <| dr_AuctionID := da_AuctionID mapping |>
    <| dr_MatchedHeight := BlockHeight ctx |>
    <| dr_CreatedHeight := da_CreatedHeight mapping |>
    <| dr_ExpiresAtHeight := da_ExpiresAtHeight mapping |>
    <| dr_PurgeAtHeight := da_PurgeAtHeight mapping |>
    <| dr_PowDurationMs := da_PowDurationMs mapping |>
    <| dr_PowDifficulty := da_PowDifficulty mapping |>
    <| dr_Status := DepositStatusDepositMatched |>
    <| dr_InboundTxID := tx_ID (ot_Tx tx) |>
    <| dr_SourceVout := tx_SourceVout (ot_Tx tx) |>
    <| dr_BTCConfirmations := confirmationRequired |>
    <| dr_BTCConfirmationsRequired := confirmationRequired |>
    <| dr_BTCObservedHeight := ot_BlockHeight tx |>.

(** The guards before anything is written. *)
Definition match_checks (tx : ObservedTx) : KM (DepositAddress * string * Z) :=
  let btc := ot_Tx tx in
  _ ← fail_if (TxID.IsEmpty (tx_ID btc)) "missing deposit tx id";
  _ ← fail_if (negb (Chain_Equals (tx_Chain btc) BTCChain)) "deposit must be bitcoin";
  let coin := Coins.GetCoin (tx_Coins btc) BTCAsset in
  _ ← fail_if (Coin_IsEmpty coin || (c_Amount coin =? 0)) "missing bitcoin deposit amount";
  mapping ← GetDepositAddress (tx_ToAddress btc);
  _ ← fail_if (PubKey.IsEmpty (da_VaultPubKey mapping)) "deposit address not registered";
  _ ← fail_if ((0 <? da_PurgeAtHeight mapping) && (da_PurgeAtHeight mapping <=? BlockHeight ctx))
        "deposit address purged";
  existing ← findDepositRecordByInboundOutpoint (tx_ID btc) (tx_SourceVout btc) (tx_ToAddress btc);
  _ ← fail_if (match existing with Some e => negb (TxID.IsEmpty (dr_DepositID e)) | None => false end)
        "deposit outpoint already matched";
  let depositID := BTCOutpointScopedTxID btc in
  existing ← GetDepositRecord depositID;
  _ ← fail_if (negb (TxID.IsEmpty (dr_DepositID existing))) "deposit tx already matched";
  minDeposit ← GetConfigInt64 Deposit_AmountMinSats;
  amountSats ← lift (to_uint64 (c_Amount coin));
  _ ← fail_if (amountSats <? u64 minDeposit) "deposit below dust threshold";
  mret (mapping, depositID, amountSats).

(** A deposit matched after its address expired becomes refundable. *)
Definition with_refund_height (deposit : DepositRecord) (expiresAtHeight : Z) : KM DepositRecord :=
  expired ← depositMatchedAfterAddressExpiry deposit;
  if (expired : bool) then
    eligible ← depositRefundEligibleHeight expiresAtHeight;
    mret (deposit <| dr_RefundEligibleHeight := eligible |>)
  else mret deposit.

Definition match_timing (powToken depositID : string) (amountSats : Z) : KM unit :=
  timing ← GetDepositPowTiming powToken;
  if is_empty (pt_PowToken timing) then mret tt
  else SetDepositPowTiming (timing
         <| pt_DepositID := depositID |>
         <| pt_DepositAmountSats := amountSats |>
         <| pt_MatchedHeight := BlockHeight ctx |>
         <| pt_Deposited := true |>).

Definition match_session (tx : ObservedTx) (deposit : DepositRecord) : KM unit :=
  session ← GetDepositSession (dr_Owner deposit);
  if Address.Equals (tx_ToAddress (ot_Tx tx)) (ds_DepositAddress session)
  then SetDepositSession (session
         <| ds_DepositID := dr_DepositID deposit |>
         <| ds_RefundEligibleHeight := dr_RefundEligibleHeight deposit |>
         <| ds_InboundTxID := tx_ID (ot_Tx tx) |>
         <| ds_SourceVout := tx_SourceVout (ot_Tx tx) |>
         <| ds_BTCConfirmations := dr_BTCConfirmationsRequired deposit |>
         <| ds_BTCConfirmationsRequired := dr_BTCConfirmationsRequired deposit |>
         <| ds_BTCObservedHeight := ot_BlockHeight tx |>
         <| ds_Status := DepositStatusDepositMatched |>)
  else mret tt.

(** The record, the timing of its proof of work, the session. *)
Definition match_writes (tx : ObservedTx) (mapping : DepositAddress) (depositID : string)
    (amountSats : Z) : KM DepositRecord :=
  confirmationRequired ← GetConfigInt64 BTC_ConfirmationsMin;
  let confirmationRequired := if confirmationRequired <=? 0 then 1 else confirmationRequired in
  deposit ← with_refund_height
              (matched_record tx mapping depositID amountSats confirmationRequired)
              (da_ExpiresAtHeight mapping);
  _ ← SetDepositRecord deposit;
  _ ← match_timing (da_PowToken mapping) depositID amountSats;
  _ ← match_session tx deposit;
  mret deposit.

Definition MatchCoreDeposit (tx : ObservedTx) : KM DepositRecord :=
  '(mapping, depositID, amountSats) ← match_checks tx;
  deposit ← match_writes tx mapping depositID amountSats;
  _ ← queueVaultPathSweepWithInHash tx (da_VaultPubKey mapping) (da_PathIndex mapping) depositID;
  mret deposit.

(** ** Confirmation progress *)

Definition depositConfirmationProgress (finalised : bool) (blockHeight required : Z) : Z :=
  let current := if finalised then required else if 0 <? blockHeight then 1 else 0 in
  if required <? current then required else current.

Definition required_confirmations (tx : ObservedTx) (finalised : bool) (configured : Z) : Z :=
  let required := if negb finalised && (0 <? ot_BlockHeight tx)
                     && (ot_BlockHeight tx <=? ot_FinaliseHeight tx)
                  then ot_FinaliseHeight tx -i ot_BlockHeight tx +i 1 else 0 in
  let required := if required <=? 0 then configured else required in
  if required <=? 0 then 1 else required.

Definition observed_session (tx : ObservedTx) (finalised : bool) (required : Z)
    (session : DepositSession) : DepositSession :=
  let sessionRequired := if 0 <? ds_BTCConfirmationsRequired session
                         then ds_BTCConfirmationsRequired session else required in
  let session := session
    <| ds_InboundTxID := tx_ID (ot_Tx tx) |>
    <| ds_SourceVout := tx_SourceVout (ot_Tx tx) |>
    <| ds_BTCObservedHeight := ot_BlockHeight tx |>
    <| ds_BTCConfirmations :=
         depositConfirmationProgress finalised (ot_BlockHeight tx) sessionRequired |>
    <| ds_BTCConfirmationsRequired := sessionRequired |> in
  if negb finalised && str_eq (ds_Status session) DepositStatusAddressIssued
  then session <| ds_Status := DepositStatusDepositObserved |> else session.

Definition observed_deposit (tx : ObservedTx) (finalised : bool) (required : Z)
    (deposit : DepositRecord) : DepositRecord :=
  let depositRequired := if 0 <? dr_BTCConfirmationsRequired deposit
                         then dr_BTCConfirmationsRequired deposit else required in
  deposit
    <| dr_InboundTxID := tx_ID (ot_Tx tx) |>
    <| dr_SourceVout := tx_SourceVout (ot_Tx tx) |>
    <| dr_BTCObservedHeight := ot_BlockHeight tx |>
    <| dr_BTCConfirmations :=
         depositConfirmationProgress finalised (ot_BlockHeight tx) depositRequired |>
    <| dr_BTCConfirmationsRequired := depositRequired |>.

Definition RecordDepositObservation (tx : ObservedTx) (finalised : bool) : KM unit :=
  let btc := ot_Tx tx in
  if negb (Chain_Equals (tx_Chain btc) BTCChain) || TxID.IsEmpty (tx_ID btc)
     || Address.IsEmpty (tx_ToAddress btc)
  then mret tt
  else
    mapping ← GetDepositAddress (tx_ToAddress btc);
    if PubKey.IsEmpty (da_VaultPubKey mapping) then mret tt
    else
      configured ← GetConfigInt64 BTC_ConfirmationsMin;
      let required := required_confirmations tx finalised configured in
      session ← GetDepositSession (da_Owner mapping);
      _ ← (if Address.Equals (tx_ToAddress btc) (ds_DepositAddress session)
           then SetDepositSession (observed_session tx finalised required session) else mret tt);
      found ← findDepositRecordByInboundOutpoint (tx_ID btc) (tx_SourceVout btc) (tx_ToAddress btc);
      match found with
      | Some deposit =>
          if TxID.IsEmpty (dr_DepositID deposit) then mret tt
          else SetDepositRecord (observed_deposit tx finalised required deposit)
      | None => mret tt
      end.

(** ** Returning a deposit *)

Definition return_item (deposit : DepositRecord) (vault : Vault) (gasRate amount : Z)
    (sourceInputs : list TxOutInput) : TxOutItem :=
  TxOutItem_zero
    <| to_Chain := BTCChain |>
    <| to_ToAddress := dr_ReturnAddress deposit |>
    <| to_VaultPubKey := va_PubKey vault |>
    <| to_VaultPathIndex := VaultPath.MainVaultPathIndex |>
    <| to_Coin := NewCoin BTCAsset amount |>
    <| to_GasRate := gasRate |>
    <| to_InHash := dr_DepositID deposit |>
    <| to_ModuleName := BaseName |>
    <| to_TxType := TxOutTypeRefund |>
    <| to_SourceInputs := sourceInputs |>.

Definition queueDepositReturnFromVault (deposit : DepositRecord) (vault : Vault)
    (sourceInputs : list TxOutInput) : KM unit :=
  _ ← fail_if (TxID.IsEmpty (dr_DepositID deposit)) "missing deposit id";
  _ ← fail_if (Address.IsEmpty (dr_ReturnAddress deposit)) "missing deposit return address";
  feeSats ← withdrawalFeeSats (dr_AmountSats deposit);
  if dr_AmountSats deposit <=? feeSats then addWithdrawalFee (dr_AmountSats deposit)
  else
    let amount := dr_AmountSats deposit -u feeSats in
    gasRate ← btcGasRateFromKeeper;
    _ ← appendBTCExactTxOut ctx (BlockHeight ctx)
          (return_item deposit vault gasRate amount sourceInputs);
    addWithdrawalFee feeSats.

Definition queueExpiredDepositReturn (deposit : DepositRecord) : KM unit :=
  '(vault, _) ← currentBTCVaultAddress ctx;
  queueDepositReturnFromVault deposit vault [].

Definition direct_deposit `{AccBytes} (tx : ObservedTx) (vault : Vault) (amountSats : Z)
    : DepositRecord :=
  DepositRecord_zero
    <| dr_DepositID := tx_ID (ot_Tx tx) |>
    <| dr_Owner := acc_of_bytes (tx_FromAddress (ot_Tx tx)) |>
    <| dr_AmountSats := amountSats |>
    <| dr_DepositAddress := tx_ToAddress (ot_Tx tx) |>
    <| dr_ReturnAddress := tx_FromAddress (ot_Tx tx) |>
    <| dr_VaultPubKey := va_PubKey vault |>
    <| dr_DepositPathIndex := VaultPath.MainVaultPathIndex |>
    <| dr_MatchedHeight := BlockHeight ctx |>
    <| dr_CreatedHeight := BlockHeight ctx |>
    <| dr_ExpiresAtHeight := BlockHeight ctx |>
    <| dr_Status := DepositStatusDepositMatched |>
    <| dr_InboundTxID := tx_ID (ot_Tx tx) |>
    <| dr_SourceVout := tx_SourceVout (ot_Tx tx) |>
    <| dr_BTCConfirmations := 1 |>
    <| dr_BTCConfirmationsRequired := 1 |>
    <| dr_BTCObservedHeight := ot_BlockHeight tx |>
    <| dr_RefundEligibleHeight := BlockHeight ctx |>
    <| dr_SweepComplete := true |>.

Definition queueDirectBaseVaultDepositReturn `{AccBytes} (tx : ObservedTx) (vault : Vault)
    : KM unit :=
  let btc := ot_Tx tx in
  let coin := Coins.GetCoin (tx_Coins btc) BTCAsset in
  _ ← fail_if (Coin_IsEmpty coin || (c_Amount coin =? 0)) "missing bitcoin direct deposit amount";
  _ ← fail_if (Address.IsEmpty (tx_FromAddress btc)) "missing bitcoin direct deposit return address";
  existing ← GetDepositRecord (tx_ID btc);
  _ ← fail_if (negb (TxID.IsEmpty (dr_DepositID existing))) "deposit tx already matched";
  amountSats ← lift (to_uint64 (c_Amount coin));
  let deposit := direct_deposit tx vault amountSats in
  _ ← queueDepositReturnFromVault deposit vault
        [mkTxOutInput (tx_ID btc) (tx_SourceVout btc) amountSats 0];
  SetDepositRecord (deposit <| dr_Status := DepositStatusReturnQueued |>
                            <| dr_RefundQueuedHeight := BlockHeight ctx |>).
End Outbound.

(** ** Removing queued items of a deposit *)

Definition purgeRefundTxOutItemExactHeight (height : Z) (depositID : string) : KM bool :=
  txOut ← GetTxOut height;
  let filtered := List.filter (λ item, negb (is_refund_of depositID item)) (txo_TxArray txOut) in
  if negb (existsb (is_refund_of depositID) (txo_TxArray txOut)) then mret false
  else
    _ ← (if (length filtered =? 0)%nat then ClearTxOut height
         else SetTxOut (txOut <| txo_TxArray := filtered |>));
    mret true.

(** Stops at the first height that had such an item; the last error is
    returned when no height had one. *)
Fixpoint purge_heights (depositID : string) (lastErr : option string) (heights : list Z) : KM bool :=
  match heights with
  | [] => match lastErr with Some e => fail e | None => mret false end
  | h :: heights =>
      r ← try (purgeRefundTxOutItemExactHeight h depositID);
      match r with
      | Ok true => mret true
      | Err e => purge_heights depositID (Some e) heights
      | _ => purge_heights depositID lastErr heights
      end
  end.

Definition purgeRefundTxOutItemAtHeight (height : Z) (depositID : string) : KM bool :=
  if (height <=? 0) || TxID.IsEmpty depositID then mret false
  else purge_heights depositID None
         (List.filter (λ h, 0 <? h) (seqZ (height - 100) 201)).

Definition purgeLegacyRefundTxOutForDeposit (deposit : DepositRecord) : KM bool :=
  if TxID.IsEmpty (dr_DepositID deposit) then mret false
  else
    let start := dr_RefundEligibleHeight deposit -i 200 in
    let start := if start <? dr_MatchedHeight deposit then dr_MatchedHeight deposit else start in
    let start := if start <? 1 then 1 else start in
    purge_heights (dr_DepositID deposit) None (seqZ start (BlockHeight ctx - start + 1)).

Definition purged (depositID : string) (txTypes : list string) (item : TxOutItem) : bool :=
  TxID.Equals (to_InHash item) depositID && existsb (str_eq (GetTxType item)) txTypes.

(** The blocks are read first, then the emptied ones are cleared and the
    others written. *)
Definition purgeTxOutItemsForDeposit (depositID : string) (txTypes : list string) : KM unit :=
  txOuts ← getIterator kv_txout;
  let changed := List.filter (λ txOut, existsb (purged depositID txTypes) (txo_TxArray txOut)) txOuts in
  let kept txOut := List.filter (λ item, negb (purged depositID txTypes item)) (txo_TxArray txOut) in
  let emptied txOut := (length (kept txOut) =? 0)%nat in
  _ ← mfor (λ txOut, ClearTxOut (txo_Height txOut)) (List.filter emptied changed);
  mfor (λ txOut, SetTxOut (txOut <| txo_TxArray := kept txOut |>))
    (List.filter (λ txOut, negb (emptied txOut)) changed).

Definition purgeRefundTxOutItems (depositID : string) : KM unit :=
  purgeTxOutItemsForDeposit depositID [TxOutTypeRefund].

Definition purgeRefundTxOutItemsForAddress (address : string) : KM unit :=
  deposits ← getIterator kv_deposit_record;
  let depositIDs := map dr_DepositID (List.filter (λ deposit,
    negb (TxID.IsEmpty (dr_DepositID deposit)) && Address.Equals (dr_DepositAddress deposit) address)
    deposits) in
  mfor purgeRefundTxOutItems depositIDs.

(** ** The end of a block *)

(** A queued return of a deposit that needs none is taken back, unless it was
    signed already. *)
Definition reset_unneeded (deposit : DepositRecord) : KM unit :=
  signed ← depositRefundTxOutSigned (dr_DepositID deposit);
  if (signed : bool) then mret tt
  else
    r ← try (purgeRefundTxOutItems (dr_DepositID deposit));
    match r with
    | Ok _ =>
        _ ← try (SetDepositRecord (deposit
              <| dr_Status := DepositStatusDepositMatched |>
              <| dr_RefundEligibleHeight := 0 |>
              <| dr_RefundQueuedHeight := 0 |>));
        mret tt
    | _ => mret tt
    end.

(** A queued return whose deposit is not swept goes back to matched; [None]
    when its outbound could not be removed. *)
Definition reset_premature (deposit : DepositRecord) : KM (option DepositRecord) :=
  r ← try (purgeRefundTxOutItemAtHeight (dr_RefundQueuedHeight deposit) (dr_DepositID deposit));
  match r with
  | Ok _ =>
      let deposit := deposit <| dr_Status := DepositStatusDepositMatched |>
                             <| dr_RefundQueuedHeight := 0 |> in
      _ ← try (SetDepositRecord deposit);
      mret (Some deposit)
  | _ => mret None
  end.

(** A matched deposit to an address of a retired vault that is due. *)
Definition return_due (deposit : DepositRecord) : KM bool :=
  if negb (str_eq (dr_Status deposit) DepositStatusDepositMatched) then mret false
  else
    completed ← depositSweepCompleted deposit;
    _ ← (if (completed : bool) then mret tt
         else _ ← try (purgeLegacyRefundTxOutForDeposit deposit); mret tt);
    if negb (is_empty (dr_Settlement deposit)) then mret false
    else
      expired ← depositMatchedAfterAddressExpiry deposit;
      if negb expired || (dr_RefundEligibleHeight deposit <=? 0)
         || (BlockHeight ctx <? dr_RefundEligibleHeight deposit)
      then mret false
      else depositSweepCompleted deposit.

(** One deposit of the scan: [Some] when it is to be returned. *)
Definition check_expired (deposit : DepositRecord) : KM (option DepositRecord) :=
  if str_eq (dr_Status deposit) DepositStatusErrata then
    _ ← try (purgeTxOutItemsForDeposit (dr_DepositID deposit) [TxOutTypeSweep; TxOutTypeRefund]);
    mret None
  else
    let queued := str_eq (dr_Status deposit) DepositStatusReturnQueued in
    requires ← (if queued then depositRequiresReturn deposit else mret true);
    if negb requires then _ ← reset_unneeded deposit; mret None
    else
      completed ← (if queued then depositSweepCompleted deposit else mret true);
      o ← (if (completed : bool) then mret (Some deposit) else reset_premature deposit);
      match o with
      | None => mret None
      | Some deposit =>
          due ← return_due deposit;
          mret (if (due : bool) then Some deposit else None)
      end.

Definition collect_expired (deposits : list DepositRecord) : KM (list DepositRecord) :=
  mfold (λ expired deposit,
    o ← check_expired deposit;
    mret (match o with Some d => expired ++ [d] | None => expired end)%list) [] deposits.

Section Returns.
Context `{BtcWire}.

(** An error is logged; the record is marked only once the return is queued. *)
Definition return_expired (deposit : DepositRecord) : KM unit :=
  r ← try (queueExpiredDepositReturn deposit);
  match r with
  | Ok _ =>
      _ ← try (SetDepositRecord (deposit <| dr_Status := DepositStatusReturnQueued |>
                                         <| dr_RefundQueuedHeight := BlockHeight ctx |>));
      mret tt
  | _ => mret tt
  end.

Definition ProcessExpiredDepositAddressReturns : KM unit :=
  deposits ← getIterator kv_deposit_record;
  expiredDeposits ← collect_expired deposits;
  mfor return_expired expiredDeposits.
End Returns.

Definition address_expired (mapping : DepositAddress) : KM bool :=
  if (da_PurgeAtHeight mapping <=? 0) || (BlockHeight ctx <? da_PurgeAtHeight mapping)
  then mret false else vaultPubKeyNoLongerActive (da_VaultPubKey mapping).

Definition purgeExpiredDepositAddresses : KM unit :=
  mappings ← getIterator kv_deposit_address;
  expired ← mfold (λ acc mapping,
    e ← address_expired mapping;
    mret (if (e : bool) then acc ++ [mapping] else acc)%list) [] mappings;
  mfor (λ mapping,
    _ ← try (DeleteDepositAddress (da_Address mapping));
    _ ← try (purgeRefundTxOutItemsForAddress (da_Address mapping));
    mret tt) expired.
End Deposits.

(** ** The next churn *)

Lemma churn_after_spec fuel next interval height :
  0 < interval → 0 <= next → 0 <= height → height + interval < two63 → next < two63 →
  height < next + interval * Z.of_nat fuel →
  ∃ k, 0 <= k ∧ churn_after fuel next interval height = next + k * interval
    ∧ height < next + k * interval
    ∧ ∀ j, 0 <= j → height < next + j * interval → k <= j.
Proof.
  intros Hi. revert next. induction fuel as [|fuel IH]; intros next Hn Hh Hb Hs Hf; cbn [churn_after].
  - exists 0. split_and!; lia.
  - destruct (Z.leb_spec next height) as [Hle|Hgt]; [|exists 0; split_and!; lia].
    rewrite i64_small by u64_lia.
    destruct (IH (next + interval)) as (k & Hk & -> & Hlt & Hmin); [lia..|].
    exists (k + 1). split_and!; [lia|lia|lia|].
    intros j Hj Hjlt. destruct (Z.eq_dec j 0) as [->|]; [lia|].
    specialize (Hmin (j - 1)). lia.
Qed.

Lemma churn_steps_suffice next interval height :
  0 < interval → height < next + interval * Z.of_nat (churn_steps next interval height).
Proof.
  intros Hi. unfold churn_steps. pose proof (Z.div_mod (height - next) interval).
  pose proof (Z.mod_pos_bound (height - next) interval). nia.
Qed.

(** What the last churn's height is read from. *)
Definition last_churn `{Ext} (ctx : Ctx) (s : KVStore) : Z :=
  match (GetBaseVaultsByStatus ctx ActiveVault s).1 with
  | Ok vaults =>
      foldl (λ last vault, if last <? va_StatusSince vault then va_StatusSince vault else last) 0 vaults
  | _ => 0
  end.

Lemma base_vaults_keeps `{Ext} {T} (p : KVStore → T) ctx status :
  keeps p (GetBaseVaultsByStatus ctx status).
Proof.
  unfold GetBaseVaultsByStatus, GetBaseVaults, getBaseIndex. keeps_tac. apply get_vault_keeps.
Qed.

#[local] Hint Resolve base_vaults_keeps current_vault_keeps : keeps.

Lemma last_churn_nonneg `{Ext} ctx s : 0 <= last_churn ctx s.
Proof.
  unfold last_churn. destruct (_.1) as [vs|e|e]; [|done..].
  assert (Hgen : ∀ a, 0 <= a → 0 <= foldl (λ last vault,
    if last <? va_StatusSince vault then va_StatusSince vault else last) a vs);
    [|apply Hgen; lia].
  induction vs as [|v l IH]; intros a Ha; simpl; [done|]. apply IH.
  destruct (Z.ltb_spec a (va_StatusSince v)); lia.
Qed.

(** The next churn height always exists: it is the first height above the
    given one that lies a whole number of intervals, at least one, after the
    last churn, so an address never expires in the block that issues it. *)
Theorem next_churn_first `{Ext} (ctx : Ctx) (height : Z) (s : KVStore)
    (interval := Config.getConfigDurationBlocks (kv_config s) Churn_IntervalMinutes)
    (Hread : ∀ e, (GetBaseVaultsByStatus ctx ActiveVault s).1 ≠ Panic e)
    (Hi : 0 < interval) (Hh : 0 <= height) (Hb : height + interval < two63)
    (Hlast : last_churn ctx s + interval < two63) :
  ∃ k, 1 <= k
    ∧ nextChurnHeightAfter ctx height s = (Ok (last_churn ctx s + k * interval), s)
    ∧ height < last_churn ctx s + k * interval
    ∧ ∀ j, 1 <= j → height < last_churn ctx s + j * interval → k <= j.
Proof.
  pose proof (last_churn_nonneg ctx s) as H0.
  assert (Hrun : getLastChurnHeight ctx s = (Ok (last_churn ctx s), s)).
  { pose proof (base_vaults_keeps (λ s, s) ctx ActiveVault s) as Hk.
    unfold getLastChurnHeight, last_churn, mbind, M_bind, try in *.
    destruct (GetBaseVaultsByStatus ctx ActiveVault s) as [[vs|e|e] s1]; simpl in *; subst; try done.
    by destruct (Hread e). }
  destruct (churn_after_spec (churn_steps (last_churn ctx s + interval) interval height)
    (last_churn ctx s + interval) interval height) as (k & Hk & Hc & Hlt & Hmin);
    [lia..|by apply churn_steps_suffice|].
  exists (k + 1). split_and!; [lia| |lia|].
  - unfold nextChurnHeightAfter, getConfigDurationBlocks. rewrite bind_run with (s1 := s) (a := interval) by done.
    destruct (Z.leb_spec interval 0); [lia|]. erewrite bind_run by exact Hrun. cbv zeta.
    rewrite i64_small by u64_lia. rewrite Hc. unfold mret, M_ret. do 2 f_equal. lia.
  - intros j Hj Hjlt. specialize (Hmin (j - 1)). lia.
Qed.

(** ** Registering a session *)

Definition path_cursor (s : KVStore) (vaultPubKey : string) : Z :=
  default 0 (kv_vault_deposit_path_index s !! ToUpper vaultPubKey).

Lemma allocate_run v pathType nonce index (s s' : KVStore) :
  AllocateVaultDepositPathIndex v pathType s = (Ok (nonce, index), s') →
  0 <= path_cursor s v →
  nonce = path_cursor s v ∧ index = path_cursor s v + 1
  ∧ s' = s <| kv_vault_deposit_path_index :=
             <[ToUpper v := index]> (kv_vault_deposit_path_index s) |>.
Proof.
  intros Hr H0. unfold AllocateVaultDepositPathIndex, GetNextVaultDepositPathIndex,
    SetNextVaultDepositPathIndex, getShielderJSON, setShielderJSON, vaultDepositPathCursorKey in Hr.
  go_inv. change (from_option 0 (kv_vault_deposit_path_index s !! ToUpper v))
    with (path_cursor s v) in *.
  unfold VaultPath.VaultDepositPathIndex in *.
  destruct (VaultPath.depositPathSegmentMask <? path_cursor s v) eqn:Hm; [discriminate|].
  destruct (negb _); [discriminate|].
  assert (Hu : path_cursor s v +u 1 = path_cursor s v + 1)
    by (apply u64_small; unfold VaultPath.depositPathSegmentMask in Hm; u64_lia).
  rewrite Hu in *. destruct pathType; try discriminate; go_inv; by simplify_eq.
Qed.

Lemma current_vault_reads `{Ext} ctx s a s' : currentBTCVaultAddress ctx s = (a, s') → s' = s.
Proof. apply (keeps_run (λ s, s)), current_vault_keeps. Qed.

Lemma next_churn_reads `{Ext} ctx h s a s' : nextChurnHeightAfter ctx h s = (a, s') → s' = s.
Proof. apply (keeps_run (λ s, s)). unfold nextChurnHeightAfter, getLastChurnHeight. frame_tac. Qed.

Lemma purge_height_reads ctx s a s' :
  depositAddressPurgeHeight (BlockHeight ctx) s = (a, s') → s' = s.
Proof. apply (keeps_run (λ s, s)). unfold depositAddressPurgeHeight. frame_tac. Qed.

Lemma current_difficulty_run s : Pow.currentDepositPowDifficulty s = (Ok (Pow.difficulty_of s), s).
Proof.
  unfold Pow.currentDepositPowDifficulty, Pow.difficulty_of, GetDepositPowDifficultyState,
    Keeper.GetConfigInt64, mbind, M_bind, gets, mret, M_ret.
  change (from_option DepositPowDifficultyState_zero (kv_deposit_pow_difficulty s))
    with (default DepositPowDifficultyState_zero (kv_deposit_pow_difficulty s)).
  by destruct (0 <? _).
Qed.

Lemma token_run owner powToken s a s' :
  Pow.validateDepositPowToken owner powToken s = (Ok a, s') →
  s' = s ∧ Pow.check_token (Pow.difficulty_of s) owner powToken = Ok tt.
Proof.
  unfold Pow.validateDepositPowToken. rewrite (bind_run _ _ _ _ _ (current_difficulty_run s)).
  intros [H ->]%lift_Ok. by destruct a.
Qed.

Lemma session_by_token_reads `{Ext} tok s a s' :
  try (GetDepositSessionByPowToken tok) s = (a, s') → s' = s.
Proof.
  apply (keeps_run (λ s, s)). unfold GetDepositSessionByPowToken. frame_tac.
Qed.

(** A session is issued only against an accepted proof of work, and its
    address is fresh: the path is the one after the vault's cursor, the cursor
    moves past it, and the address derived from that path is recorded as the
    owner's. *)
Theorem registration_issues_fresh_path `{Ext} (ctx : Ctx) (owner powToken : string) (ms : Z)
    (session : DepositSession) (s s' : KVStore)
    (v := ds_VaultPubKey session) (address := ds_DepositAddress session) :
  RegisterDepositPowToken ctx owner powToken ms s = (Ok session, s') →
  0 <= path_cursor s v →
  Pow.check_token (Pow.difficulty_of s) owner (TrimSpace powToken) = Ok tt
  ∧ ds_DepositPathIndex session = path_cursor s v + 1
  ∧ kv_vault_deposit_path_index s'
    = <[ToUpper v := path_cursor s v + 1]> (kv_vault_deposit_path_index s)
  ∧ VaultPath.DeriveBTCTaprootAddress v (path_cursor s v + 1) = Ok address
  ∧ (∃ mapping,
      kv_deposit_address s' = <[ToUpper address := mapping]> (kv_deposit_address s)
      ∧ da_Owner mapping = owner ∧ da_VaultPubKey mapping = v
      ∧ da_PathIndex mapping = ds_DepositPathIndex session
      ∧ da_PowToken mapping = TrimSpace powToken)
  ∧ kv_deposit_session s' = <[ToUpper owner := session]> (kv_deposit_session s)
  ∧ kv_deposit_record s' = kv_deposit_record s.
Proof.
  intros Hr H0. subst v address. unfold RegisterDepositPowToken in Hr. cbv zeta in Hr. go_guards Hr.
  rewrite (bind_run _ _ _ _ _ (current_difficulty_run _)) in Hr.
  apply bind_Ok in Hr as ([] & s1 & [-> Hpow]%token_run & Hr).
  apply bind_Ok in Hr as (existing & s1 & He & Hr). apply session_by_token_reads in He as ->.
  apply bind_Ok in Hr as ([] & s1 & He & Hr).
  apply (keeps_run (λ s, s)) in He as ->; [|frame_tac].
  apply bind_Ok in Hr as ([vault root] & s1 & Hv & Hr). apply current_vault_reads in Hv as ->.
  apply bind_Ok in Hr as ([nonce index] & s1 & Ha & Hr).
  apply bind_Ok in Hr as (address & s2 & [Hd ->]%lift_Ok & Hr).
  apply bind_Ok in Hr as (expires & s2 & Hx & Hr). apply next_churn_reads in Hx as ->.
  apply bind_Ok in Hr as (purge & s2 & Hx & Hr). apply purge_height_reads in Hx as ->.
  set (sess := set_field ds_Status _ _) in Hr. set (mapping := set_field da_PowDifficulty _ _) in Hr.
  assert (ds_VaultPubKey sess = va_PubKey vault ∧ ds_DepositAddress sess = address
    ∧ ds_DepositPathIndex sess = index ∧ ds_Owner sess = owner) as (Hs1 & Hs2 & Hs3 & Hs4) by done.
  assert (da_Address mapping = address ∧ da_VaultPubKey mapping = va_PubKey vault
    ∧ da_PathIndex mapping = index ∧ da_Owner mapping = owner
    ∧ da_PowToken mapping = TrimSpace powToken) as (Hm1 & Hm2 & Hm3 & Hm4 & Hm5) by done.
  clearbody sess mapping.
  apply bind_Ok in Hr as ([] & s2 & Hset & Hr).
  apply bind_Ok in Hr as ([] & s3 & Htime & Hr).
  apply bind_Ok in Hr as ([] & s4 & Hses & Hr). apply mret_Ok in Hr as [Hs ->]; subst sess.
  rewrite Hs1 in H0 |- *. apply allocate_run in Ha as (-> & -> & ->); [|done].
  unfold SetDepositAddress, SetDepositPowTiming, SetDepositSession, setShielderJSON, DepositSession_Key in *.
  go_inv. rec_simpl_all. split_and!; try done.
  - unfold DeriveBTCAddress in Hd. destruct (Vault.IsEmpty vault); [|done]. injection Hd as Hd.
    unfold DepositAddress_Valid in *. rewrite Hm1, <- Hd in *. discriminate.
  - exists mapping. rewrite Hm1, Hs3. split_and!; congruence.
Qed.

(** ** Matching *)

Lemma sweep_keeps `{Ext} `{BtcWire} {T} (p : KVStore → T) ctx tx pk path hash :
  (∀ f s, p (set_field kv_txout f s) = p s) →
  keeps p (queueVaultPathSweepWithInHash ctx tx pk path hash).
Proof.
  intros Hset. unfold queueVaultPathSweepWithInHash.
  frame_tac. by apply append_keeps.
Qed.

Lemma match_checks_ok `{Ext} ctx tx mapping depositID amountSats (s s' : KVStore) :
  match_checks ctx tx s = (Ok (mapping, depositID, amountSats), s') →
  s' = s ∧ Chain_Equals (tx_Chain (ot_Tx tx)) BTCChain = true
  ∧ depositID = BTCOutpointScopedTxID (ot_Tx tx)
  ∧ mapping = default (DepositAddress_zero <| da_Address := tx_ToAddress (ot_Tx tx) |>)
      (kv_deposit_address s !! ToUpper (tx_ToAddress (ot_Tx tx)))
  ∧ amountSats = c_Amount (Coins.GetCoin (tx_Coins (ot_Tx tx)) BTCAsset)
  ∧ TxID.IsEmpty (dr_DepositID (default DepositRecord_zero
      (kv_deposit_record s !! ToUpper depositID))) = true
  ∧ u64 (Config.GetConfigInt64 (kv_config s) Deposit_AmountMinSats) <= amountSats.
Proof.
  intros Hr. assert (Hs : s' = s).
  { apply (keeps_run (λ s, s)) in Hr; [done|]. unfold match_checks, findDepositRecordByInboundOutpoint.
    frame_tac. }
  split; [done|]. subst s'. unfold match_checks in Hr.
  go_guards Hr. apply bind_Ok in Hr as (m & s1 & Hm & Hr). apply bind_Ok in Hm as (o & s2 & [<- ->]%gets_Ok & [Hx ->]%mret_Ok); subst.
  go_guards Hr. apply bind_Ok in Hr as (e & s1 & He & Hr).
  apply (keeps_run (λ s, s)) in He as ->; [|unfold findDepositRecordByInboundOutpoint; frame_tac].
  go_guards Hr. apply bind_Ok in Hr as (e2 & s1 & He & Hr). apply bind_Ok in He as (o & s2 & [<- ->]%gets_Ok & [Hx ->]%mret_Ok); subst.
  go_guards Hr. apply bind_Ok in Hr as (mn & s1 & [Hx ->]%gets_Ok & Hr); subst.
  apply bind_Ok in Hr as (amt & s1 & [Ha ->]%lift_Ok & Hr).
  go_guards Hr. apply mret_Ok in Hr as [Heq _]. simplify_eq.
  repeat match goal with H : negb _ = false |- _ => apply negb_false_iff in H end.
  unfold to_uint64 in Ha. destruct (_ <? two64); [|done]. injection Ha as <-.
  split_and!; try done. lia.
Qed.

Lemma expired_reads `{Ext} ctx d s a s' : depositMatchedAfterAddressExpiry ctx d s = (a, s') → s' = s.
Proof.
  apply (keeps_run (λ s, s)). unfold depositMatchedAfterAddressExpiry, vaultPubKeyNoLongerActive.
  keeps_tac.
Qed.

Lemma matched_record_fields ctx tx mapping depositID amountSats conf :
  let d := matched_record ctx tx mapping depositID amountSats conf in
  dr_DepositID d = depositID ∧ dr_Owner d = da_Owner mapping ∧ dr_AmountSats d = amountSats
  ∧ dr_ShieldedSats d = 0 ∧ dr_Status d = DepositStatusDepositMatched
  ∧ dr_ReturnAddress d = tx_FromAddress (ot_Tx tx)
  ∧ dr_VaultPubKey d = da_VaultPubKey mapping ∧ dr_DepositPathIndex d = da_PathIndex mapping.
Proof. vm_compute. by split_and!. Qed.

Lemma with_refund_ok `{Ext} ctx base expires d (s s' : KVStore) :
  with_refund_height ctx base expires s = (Ok d, s') →
  s' = s ∧ ((∃ el, d = base <| dr_RefundEligibleHeight := el |>) ∨ d = base).
Proof.
  unfold with_refund_height. intros (expired & s1 & He & Hd)%bind_Ok.
  apply expired_reads in He as ->. destruct expired.
  - apply bind_Ok in Hd as (el & s2 & Hn & [Hx ->]%mret_Ok). subst d.
    split; [|left; by exists el].
    revert Hn. apply (keeps_run (λ s, s)). unfold depositRefundEligibleHeight.
    destruct (_ <? _); intros s0; destruct (nextChurnHeightAfter ctx _ s0) as [r s3] eqn:E;
      by rewrite (next_churn_reads _ _ _ _ _ E).
  - apply mret_Ok in Hd as [-> ->]. auto.
Qed.

Definition credits (d : DepositRecord) (depositID owner : string) (amountSats : Z)
    (returnAddress vaultPubKey : string) (path : Z) : Prop :=
  dr_DepositID d = depositID ∧ dr_Owner d = owner ∧ dr_AmountSats d = amountSats
  ∧ dr_ShieldedSats d = 0 ∧ dr_Status d = DepositStatusDepositMatched
  ∧ dr_ReturnAddress d = returnAddress
  ∧ dr_VaultPubKey d = vaultPubKey ∧ dr_DepositPathIndex d = path.


Lemma match_timing_keeps ctx tok id amt : keeps (λ s, (kv_deposit_record s, kv_txout s)) (match_timing ctx tok id amt).
Proof. unfold match_timing. frame_tac. Qed.
Lemma match_session_keeps tx d : keeps (λ s, (kv_deposit_record s, kv_txout s)) (match_session tx d).
Proof. unfold match_session. frame_tac. Qed.

(** The checker unfolds these before the monad's operations. *)
#[local] Strategy expand [match_writes match_checks MatchCoreDeposit].

Lemma match_writes_ok `{Ext} ctx tx mapping depositID amountSats d (s s' : KVStore) :
  match_writes ctx tx mapping depositID amountSats s = (Ok d, s') →
  kv_deposit_record s' = <[ToUpper depositID := d]> (kv_deposit_record s)
  ∧ kv_txout s' = kv_txout s ∧ TxID.IsEmpty depositID = false
  ∧ credits d depositID (da_Owner mapping) amountSats (tx_FromAddress (ot_Tx tx))
      (da_VaultPubKey mapping) (da_PathIndex mapping).
Proof.
  intros (conf & s1 & [_ ->]%gets_Ok & Hr)%bind_Ok. cbv zeta in Hr.
  apply bind_Ok in Hr as (dep & s1 & Hd & Hr). apply with_refund_ok in Hd as [-> Hd].
  assert (Hf : credits dep depositID (da_Owner mapping) amountSats (tx_FromAddress (ot_Tx tx))
      (da_VaultPubKey mapping) (da_PathIndex mapping)).
  { pose proof (matched_record_fields ctx tx mapping depositID amountSats
      (if conf <=? 0 then 1 else conf)) as Hbase. cbv zeta in Hbase. revert Hd Hbase.
    generalize (matched_record ctx tx mapping depositID amountSats (if conf <=? 0 then 1 else conf)).
    intros base [[el ->] | ->] Hbase; [|exact Hbase]. unfold credits. rec_simpl. exact Hbase. }
  clear Hd. apply bind_Ok in Hr as ([] & s1 & Hset & Hr).
  apply bind_Ok in Hset as ([] & s2 & [Hv ->]%lift_Ok & Hset%modify_Ok).
  apply bind_Ok in Hr as ([] & s2 & Ht & Hr).
  apply (keeps_run (λ s, (kv_deposit_record s, kv_txout s))) in Ht; [|apply match_timing_keeps].
  apply bind_Ok in Hr as ([] & s3 & Hx & Hr).
  apply (keeps_run (λ s, (kv_deposit_record s, kv_txout s))) in Hx; [|apply match_session_keeps].
  apply mret_Ok in Hr as [<- ->]. injection Hx as -> ->. injection Ht as -> ->. subst s1. rec_simpl.
  pose proof Hf as (Hid & _). rewrite Hid. split_and!; try done.
  unfold DepositRecord_Valid in Hv. rewrite Hid in Hv. by destruct (TxID.IsEmpty depositID).
Qed.

(** An output is credited as a deposit at most once: a match records the
    whole amount for the owner of the address under the id of the output, and
    every later match of the same output is refused, whoever observes it and
    whatever it claims besides. *)
Theorem deposit_matched_once `{Ext} `{BtcWire} (ctx ctx' : Ctx) (tx tx' : ObservedTx)
    (d : DepositRecord) (s s' s1 : KVStore)
    (Hrun : MatchCoreDeposit ctx tx s = (Ok d, s'))
    (Hlater : kv_deposit_record s1 = kv_deposit_record s')
    (Hid : tx_ID (ot_Tx tx') = tx_ID (ot_Tx tx))
    (Hvout : tx_SourceVout (ot_Tx tx') = tx_SourceVout (ot_Tx tx)) :
  let owner := default DepositAddress_zero
    (kv_deposit_address s !! ToUpper (tx_ToAddress (ot_Tx tx))) in
  kv_deposit_record s'
    = <[ToUpper (BTCOutpointScopedTxID (ot_Tx tx)) := d]> (kv_deposit_record s)
  ∧ TxID.IsEmpty (dr_DepositID (default DepositRecord_zero
      (kv_deposit_record s !! ToUpper (BTCOutpointScopedTxID (ot_Tx tx))))) = true
  ∧ dr_Owner d = da_Owner owner
  ∧ dr_AmountSats d = c_Amount (Coins.GetCoin (tx_Coins (ot_Tx tx)) BTCAsset)
  ∧ dr_ReturnAddress d = tx_FromAddress (ot_Tx tx)
  ∧ ∀ d' s2, MatchCoreDeposit ctx' tx' s1 ≠ (Ok d', s2).
Proof.
  unfold MatchCoreDeposit in *.
  apply bind_Ok in Hrun as ([[mapping depositID] amount] & s2 & Hc & Hrun).
  apply match_checks_ok in Hc as (-> & Hbtc & -> & Hm & -> & Hempty & _).
  apply bind_Ok in Hrun as (d0 & s2 & Hw & Hrun).
  apply match_writes_ok in Hw as (Hrec & _ & Hne & Hdid & Hown & Hamt & _ & _ & Hret & _).
  apply bind_Ok in Hrun as ([] & s3 & Hq & [-> ->]%mret_Ok).
  apply (keeps_run kv_deposit_record) in Hq; [|by apply sweep_keeps].
  rewrite Hq in *. rewrite Hrec in Hlater. split_and!; try done.
  - rewrite Hown, Hm. by destruct (kv_deposit_address s !! _).
  - intros d' s4 Hr'.
    apply bind_Ok in Hr' as ([[mapping' id'] amount'] & s5 & Hc & _).
    apply match_checks_ok in Hc as (_ & Hbtc' & -> & _ & _ & Hem & _).
    assert (Hsame : BTCOutpointScopedTxID (ot_Tx tx') = BTCOutpointScopedTxID (ot_Tx tx)).
    { unfold BTCOutpointScopedTxID. by rewrite Hid, Hvout, Hbtc, Hbtc'. }
    rewrite Hsame, Hlater, lookup_insert_eq in Hem. simpl in Hem. congruence.
Qed.

(** ** Returns *)

(** A deposit is returned less the withdrawal fee, exactly: either one
    output to the sender is queued and the fee is booked, and the two add up to
    the deposit, or the fee takes all of it and the whole amount is booked. *)
Theorem return_splits_deposit `{Ext} `{BtcWire} (ctx : Ctx) (deposit : DepositRecord)
    (vault : Vault) (inputs : list TxOutInput) (s s' : KVStore) :
  queueDepositReturnFromVault ctx deposit vault inputs s = (Ok tt, s') →
  is_u64 (dr_AmountSats deposit) →
  ∃ fee, (withdrawalFeeSats (dr_AmountSats deposit) s).1 = Ok fee
  ∧ (dr_AmountSats deposit <= fee
       ∧ addWithdrawalFee (dr_AmountSats deposit) s = (Ok tt, s')
       ∧ kv_txout s' = kv_txout s
     ∨ ∃ item s1, fee < dr_AmountSats deposit
       ∧ appendBTCExactTxOut ctx (BlockHeight ctx) item s = (Ok tt, s1)
       ∧ addWithdrawalFee fee s1 = (Ok tt, s')
       ∧ c_Amount (to_Coin item) + fee = dr_AmountSats deposit
       ∧ to_ToAddress item = dr_ReturnAddress deposit ∧ to_InHash item = dr_DepositID deposit
       ∧ to_TxType item = TxOutTypeRefund ∧ to_VaultPubKey item = va_PubKey vault
       ∧ to_SourceInputs item = inputs).
Proof.
  intros Hr Hu. unfold queueDepositReturnFromVault in Hr. go_guards Hr.
  apply bind_Ok in Hr as (fee & s1 & Hf & Hr).
  pose proof Hf as Hs. apply (keeps_run (λ s, s)) in Hs as ->; [|apply withdrawal_fee_keeps].
  exists fee. split; [by rewrite Hf|].
  destruct (Z.leb_spec (dr_AmountSats deposit) fee); cbv iota in Hr.
  - left. split_and!; [done..|]. apply (keeps_run kv_txout) in Hr; [done|]. frame_tac.
  - right. cbv zeta in Hr. apply bind_Ok in Hr as (rate & s1 & Hg & Hr). apply gas_rate_reads in Hg as ->.
    apply bind_Ok in Hr as ([] & s1 & Happ & Hr).
    eexists _, s1. split; [done|]. split; [exact Happ|]. split; [exact Hr|].
    unfold return_item. rec_simpl. unfold NewCoin. cbn [c_Amount].
    assert (Hr0 : is_u64 fee) by (by eapply withdrawal_fee_range).
    rewrite u64_small by (unfold is_u64 in *; lia). split_and!; try done. lia.
Qed.

(** Direct deposits to the main address are told apart by transaction, not
    by output: once one is recorded for return, every other output of the same
    transaction is refused. *)
Theorem direct_return_once_per_transaction `{Ext} `{BtcWire} `{AccBytes} (ctx ctx' : Ctx)
    (tx tx' : ObservedTx) (vault vault' : Vault) (s s' s1 s2 : KVStore) :
  queueDirectBaseVaultDepositReturn ctx tx vault s = (Ok tt, s') →
  kv_deposit_record s1 = kv_deposit_record s' →
  tx_ID (ot_Tx tx') = tx_ID (ot_Tx tx) →
  queueDirectBaseVaultDepositReturn ctx' tx' vault' s1 ≠ (Ok tt, s2).
Proof.
  intros Hr Hrec Hid Hr'. unfold queueDirectBaseVaultDepositReturn in Hr, Hr'.
  go_guards Hr. apply bind_Ok in Hr as (e & s3 & He & Hr).
  go_guards Hr. apply bind_Ok in Hr as (amt & s4 & _ & Hr). cbv zeta in Hr.
  assert (Hd : dr_DepositID (direct_deposit ctx tx vault amt) = tx_ID (ot_Tx tx)) by (vm_compute; reflexivity).
  set (d := direct_deposit _ _ _ _) in *. clearbody d.
  apply bind_Ok in Hr as ([] & s5 & _ & Hr).
  apply bind_Ok in Hr as ([] & s6 & [Hv ->]%lift_Ok & Hr%modify_Ok). 
  unfold DepositRecord_Valid in Hv. rec_simpl_all. rewrite Hd in *.
  assert (Hne : TxID.IsEmpty (tx_ID (ot_Tx tx)) = false) by (by destruct (TxID.IsEmpty (tx_ID (ot_Tx tx)))).
  clear Hv. subst s'. rec_simpl_all.
  go_guards Hr'. apply bind_Ok in Hr' as (e' & s7 & He' & Hr').
  apply bind_Ok in He' as (o & s8 & [Ho ->]%gets_Ok & [He' ->]%mret_Ok).
  apply bind_Ok in Hr' as ([] & s9 & [Hg _]%fail_if_Ok & _).
  rewrite Hrec, Hid, lookup_insert_eq in Ho. subst o. cbv beta iota in He'. subst e'. rec_simpl_all.
  unfold from_option in Hg. rec_simpl_all. rewrite Hd, Hne in Hg. done.
Qed.

(** ** Removing queued items *)

Definition txout_key (b : TxOut) : string := ToUpper (itoa (txo_Height b)).

(** The block as [SetTxOut] stores it. *)
Definition stored_txout (b : TxOut) : TxOut :=
  let b := if is_empty (txo_Status b) then b <| txo_Status := TxOutStatusPendingSign |> else b in
  if txOutComplete b then b <| txo_Status := TxOutStatusComplete |> else b.

Lemma stored_height b : txo_Height (stored_txout b) = txo_Height b.
Proof. unfold stored_txout. by repeat case_match; rec_simpl. Qed.

Definition clear_blocks (l : list TxOut) (m : gmap string TxOut) : gmap string TxOut :=
  foldl (λ m b, delete (txout_key b) m) m l.
Definition write_blocks (l : list TxOut) (m : gmap string TxOut) : gmap string TxOut :=
  foldl (λ m b, <[txout_key b := stored_txout b]> m) m l.

Lemma clear_run l (s : KVStore) :
  mfor (λ b, ClearTxOut (txo_Height b)) l s
  = (Ok tt, s <| kv_txout := clear_blocks l (kv_txout s) |>).
Proof.
  revert s. induction l as [|b l IH]; intros s; [by destruct s|].
  unfold mfor in *. cbn [mfold]. unfold mbind, M_bind at 1. cbn [ClearTxOut del modify].
  rewrite IH. by destruct s.
Qed.

Lemma write_run l (s : KVStore) :
  Forall (λ b, TxOut_IsEmpty b = false) l →
  mfor SetTxOut l s = (Ok tt, s <| kv_txout := write_blocks l (kv_txout s) |>).
Proof.
  revert s. induction l as [|b l IH]; intros s Hl; [by destruct s|].
  apply Forall_cons in Hl as [Hb Hl].
  unfold mfor in *. cbn [mfold]. unfold mbind, M_bind at 1.
  assert (Hset : SetTxOut b s
    = (Ok tt, s <| kv_txout := <[txout_key b := stored_txout b]> (kv_txout s) |>)).
  { unfold SetTxOut. rewrite Hb. cbv zeta. unfold setShielderJSON, modify. fold (stored_txout b).
    unfold txout_key. by rewrite stored_height. }
  rewrite Hset, IH by done. by destruct s.
Qed.

Lemma clear_lookup l (m : gmap string TxOut) k :
  clear_blocks l m !! k = if decide (k ∈ map txout_key l) then None else m !! k.
Proof.
  revert m. induction l as [|b l IH]; intros m; [done|]. cbn [clear_blocks foldl map].
  fold (clear_blocks l (delete (txout_key b) m)). rewrite IH.
  destruct (decide (k ∈ map txout_key l)) as [Hin|Hin], (decide (k ∈ txout_key b :: map txout_key l)) as [Hc|Hc];
    rewrite elem_of_cons in Hc; try tauto.
  - destruct Hc as [->|]; [by rewrite lookup_delete_eq|tauto].
  - rewrite lookup_delete_ne; [done|]. intros Hk. apply Hc. by left.
Qed.

Lemma write_other l (m : gmap string TxOut) k :
  k ∉ map txout_key l → write_blocks l m !! k = m !! k.
Proof.
  revert m. induction l as [|b l IH]; intros m Hk; [done|].
  cbn [map] in Hk. apply not_elem_of_cons in Hk as [Hk1 Hk2].
  cbn [write_blocks foldl]. fold (write_blocks l (<[txout_key b := stored_txout b]> m)).
  rewrite IH by done. by rewrite lookup_insert_ne.
Qed.

Lemma write_lookup l (m : gmap string TxOut) b :
  NoDup (map txout_key l) → b ∈ l → write_blocks l m !! txout_key b = Some (stored_txout b).
Proof.
  revert m. induction l as [|b0 l IH]; intros m Hn Hb; [by apply not_elem_of_nil in Hb|].
  cbn [map] in Hn. apply NoDup_cons in Hn as [Hk Hn].
  cbn [write_blocks foldl]. fold (write_blocks l (<[txout_key b0 := stored_txout b0]> m)).
  apply elem_of_cons in Hb as [->|Hb]; [|by apply IH].
  rewrite write_other by done. by rewrite lookup_insert_eq.
Qed.

(** Every block is stored under its height. *)
Definition keyed_by_height (s : KVStore) : Prop :=
  ∀ k b, kv_txout s !! k = Some b → k = txout_key b.

Lemma blocks_NoDup s : keyed_by_height s → NoDup (map txout_key (sorted_values (kv_txout s))).
Proof.
  intros Hk. rewrite (sorted_values_perm (kv_txout s)), map_map.
  assert (Hm : map (λ x, txout_key x.2) (map_to_list (kv_txout s)) = (map_to_list (kv_txout s)).*1).
  { apply map_ext_in. intros [k b] Hin%list_elem_of_In%elem_of_map_to_list. simpl. symmetry. by apply Hk. }
  rewrite Hm. apply NoDup_fst_map_to_list.
Qed.

(** What is left of a block: nothing, when every item of it is removed. *)
Definition after_purge (depositID : string) (txTypes : list string) (b : TxOut) : option TxOut :=
  let kept := List.filter (λ item, negb (purged depositID txTypes item)) (txo_TxArray b) in
  if negb (existsb (purged depositID txTypes) (txo_TxArray b)) then Some b
  else if (length kept =? 0)%nat then None
  else Some (stored_txout (b <| txo_TxArray := kept |>)).

Lemma mfor_map {S A B} (g : B → M S unit) (f : A → B) l s :
  mfor (λ x, g (f x)) l s = mfor g (map f l) s.
Proof.
  unfold mfor. revert s. induction l as [|x l IH]; intros s; [done|]. cbn [mfold map].
  unfold mbind, M_bind. destruct (g (f x) s) as [[[]|e|e] s1]; [apply IH|done|done].
Qed.

Lemma stored_items b : txo_TxArray (stored_txout b) = txo_TxArray b.
Proof. unfold stored_txout. by repeat case_match; rec_simpl. Qed.

Lemma after_purge_clean depositID txTypes b b' item :
  after_purge depositID txTypes b = Some b' → item ∈ txo_TxArray b' →
  purged depositID txTypes item = false.
Proof.
  unfold after_purge. cbv zeta.
  destruct (existsb _ _) eqn:E; cbn [negb].
  - destruct (_ =? 0)%nat; [done|]. intros [= <-]. rewrite stored_items. rec_simpl.
    intros [_ Hp%negb_true_iff]%list_elem_of_In%filter_In. done.
  - intros [= <-] Hin. destruct (purged _ _ item) eqn:Ep; [|done].
    assert (existsb (purged depositID txTypes) (txo_TxArray b) = true); [|congruence].
    apply existsb_exists. exists item. split; [by apply list_elem_of_In|done].
Qed.

Section Purge.
Context (depositID : string) (txTypes : list string).

Definition kept_items (b : TxOut) : list TxOutItem :=
  List.filter (λ item, negb (purged depositID txTypes item)) (txo_TxArray b).
Definition with_kept (b : TxOut) : TxOut := b <| txo_TxArray := kept_items b |>.
Definition changed_blocks (s : KVStore) : list TxOut :=
  List.filter (λ b, existsb (purged depositID txTypes) (txo_TxArray b)) (sorted_values (kv_txout s)).
Definition emptied (b : TxOut) : bool := (length (kept_items b) =? 0)%nat.
Definition purged_blocks (s : KVStore) : gmap string TxOut :=
  write_blocks (map with_kept (List.filter (λ b, negb (emptied b)) (changed_blocks s)))
    (clear_blocks (List.filter emptied (changed_blocks s)) (kv_txout s)).

Lemma purge_run s :
  purgeTxOutItemsForDeposit depositID txTypes s
  = (Ok tt, s <| kv_txout := purged_blocks s |>).
Proof.
  unfold purgeTxOutItemsForDeposit. unfold mbind, M_bind at 1. cbn [getIterator gets]. cbv zeta.
  fold (changed_blocks s). unfold mbind, M_bind at 1.
  rewrite clear_run, (mfor_map SetTxOut with_kept), write_run; [by destruct s|].
  apply Forall_forall. intros b (b0 & -> & Hb)%list_elem_of_fmap.
  apply list_elem_of_In, filter_In in Hb as [_ Hb%negb_true_iff]. exact Hb.
Qed.

Section Keyed.
Context (s : KVStore) (Hkeys : keyed_by_height s).

Lemma elem_of_changed b :
  b ∈ changed_blocks s
  ↔ kv_txout s !! txout_key b = Some b ∧ existsb (purged depositID txTypes) (txo_TxArray b) = true.
Proof using Hkeys.
  unfold changed_blocks. rewrite list_elem_of_In, filter_In, <- list_elem_of_In, elem_of_sorted_values.
  split; [|intros [? ?]; split; [by eexists|done]]. intros [[k Hk] He]. by rewrite <- (Hkeys k b Hk).
Qed.

Lemma changed_key f b : kv_txout s !! txout_key b = Some b →
  txout_key b ∈ map txout_key (List.filter f (changed_blocks s)) ↔ b ∈ changed_blocks s ∧ f b = true.
Proof using Hkeys.
  intros Hb. rewrite list_elem_of_fmap. split.
  - intros (b' & Hk & [Hc Hf]%list_elem_of_In%filter_In). apply list_elem_of_In in Hc.
    pose proof Hc as [Hl' _]%elem_of_changed. rewrite Hk, Hl' in Hb. by injection Hb as ->.
  - intros [Hc Hf]. exists b. split; [done|]. by apply list_elem_of_In, filter_In; rewrite <- list_elem_of_In.
Qed.

Lemma purged_lookup k :
  purged_blocks s !! k = kv_txout s !! k ≫= after_purge depositID txTypes.
Proof using Hkeys.
  unfold purged_blocks. set (written := List.filter (λ b, negb (emptied b)) _).
  assert (Hwkey : map txout_key (map with_kept written) = map txout_key written) by by rewrite map_map.
  destruct (kv_txout s !! k) as [b|] eqn:Hk.
  - pose proof (Hkeys k b Hk) as ->. simpl. unfold after_purge. cbv zeta. fold (kept_items b).
    destruct (existsb _ (txo_TxArray b)) eqn:E; cbn [negb].
    + change (length (kept_items b) =? 0)%nat with (emptied b). destruct (emptied b) eqn:Ee.
      * rewrite write_other, clear_lookup, decide_True; [done|..].
        -- by apply changed_key; rewrite ?elem_of_changed.
        -- rewrite Hwkey. intros [_ Hf]%changed_key; [|done]. by rewrite Ee in Hf.
      * change (txout_key b) with (txout_key (with_kept b)). apply write_lookup.
        -- rewrite Hwkey. unfold written, changed_blocks. by do 2 apply NoDup_map_filter; apply blocks_NoDup.
        -- apply list_elem_of_fmap. exists b. split; [done|].
           apply list_elem_of_In, filter_In. rewrite <- list_elem_of_In, elem_of_changed, Ee. done.
    + rewrite write_other, clear_lookup, decide_False; [done|..]; [|rewrite Hwkey];
        intros [[_ Hc]%elem_of_changed _]%changed_key; congruence.
  - assert (Hno : ∀ f, k ∉ map txout_key (List.filter f (changed_blocks s))).
    { intros f (b & -> & [Hc _]%list_elem_of_In%filter_In)%list_elem_of_fmap.
      apply list_elem_of_In, elem_of_changed in Hc as [Hc _]. congruence. }
    rewrite write_other, clear_lookup, decide_False; [done|apply Hno|rewrite Hwkey; apply Hno].
Qed.
End Keyed.
End Purge.

(** Purging a deposit removes exactly its queued items of the given kinds:
    every other item of every block stays where it was, a block left without
    items disappears, and nothing else in the store changes. *)
Theorem purge_exact (depositID : string) (txTypes : list string) (s : KVStore)
    (Hkeys : keyed_by_height s) :
  ∃ blocks, purgeTxOutItemsForDeposit depositID txTypes s
            = (Ok tt, s <| kv_txout := blocks |>)
  ∧ (∀ k, blocks !! k = kv_txout s !! k ≫= after_purge depositID txTypes)
  ∧ (∀ k b item, blocks !! k = Some b → item ∈ txo_TxArray b →
       purged depositID txTypes item = false).
Proof.
  exists (purged_blocks depositID txTypes s). split; [apply purge_run|].
  pose proof (purged_lookup depositID txTypes s Hkeys) as Hlook. split; [exact Hlook|].
  intros k b item Hk. rewrite Hlook in Hk. apply bind_Some in Hk as (b0 & _ & Hb).
  by eapply after_purge_clean.
Qed.


(** ** Witnesses *)

Import ToyExt ToyWire.
#[local] Existing Instance toy_ext.
#[local] Existing Instance toy_wire.
#[local] Instance toy_acc : AccBytes := λ s, s.

(** An active vault, and an address of path 3 issued to alice. *)
Definition issued_address : DepositAddress :=
  DepositAddress_zero
    <| da_Address := "vault3" |> <| da_VaultPubKey := "vault" |> <| da_PathIndex := 3 |>
    <| da_Owner := "alice" |> <| da_PowToken := "P" |>.
Definition issued_store : KVStore :=
  note_store <| kv_deposit_address := {[ "VAULT3" := issued_address ]} |>.

Definition user_deposit (vout amountSats : Z) : ObservedTx :=
  Observed.NewObservedTx
    (mkTx "D" BTCChain "from" "vault3" [NewCoin BTCAsset amountSats] [] vout []) 7 "vault" 7.

Lemma next_churn_first_witness :
  ∃ h, nextChurnHeightAfter (mkCtx 500) 500 note_store = (Ok h, note_store) ∧ 500 < h.
Proof.
  destruct (next_churn_first (mkCtx 500) 500 note_store) as (k & _ & Hrun & Hlt & _);
    [vm_compute; discriminate|reflexivity|discriminate|reflexivity|reflexivity|].
  exists (last_churn (mkCtx 500) note_store
    + k * Config.getConfigDurationBlocks (kv_config note_store) Churn_IntervalMinutes).
  split; [exact Hrun|exact Hlt].
Defined.

(** With the difficulty at zero every token passes. *)
Definition open_store : KVStore :=
  note_store <| kv_config := {[ "DEPOSIT_POWDIFFICULTYMIN" := 0 ]} |>.

Lemma registration_issues_fresh_path_witness : ∃ session s',
  RegisterDepositPowToken (mkCtx 9) "alice" "tok" 1000 open_store = (Ok session, s')
  ∧ ds_DepositPathIndex session = 1.
Proof.
  set (run := RegisterDepositPowToken (mkCtx 9) "alice" "tok" 1000 open_store).
  assert (Hrun : ∃ session, run.1 = Ok session ∧ ds_VaultPubKey session = "vault")
    by (vm_compute; eexists; split; reflexivity).
  destruct Hrun as (session & Hrun & Hv). exists session, run.2.
  destruct (registration_issues_fresh_path (mkCtx 9) "alice" "tok" 1000 session open_store run.2)
    as (_ & Hpath & _).
  - exact (run_ok _ _ _ Hrun).
  - rewrite Hv. discriminate.
  - split; [exact (run_ok _ _ _ Hrun)|]. rewrite Hpath, Hv. reflexivity.
Defined.

Lemma deposit_matched_once_witness : ∃ d s',
  MatchCoreDeposit (mkCtx 9) (user_deposit 1 20000) issued_store = (Ok d, s')
  ∧ dr_Owner d = "alice" ∧ dr_AmountSats d = 20000
  ∧ ∀ d' s2, MatchCoreDeposit (mkCtx 10) (user_deposit 1 30000) s' ≠ (Ok d', s2).
Proof.
  set (run := MatchCoreDeposit (mkCtx 9) (user_deposit 1 20000) issued_store).
  assert (Hrun : ∃ d, run.1 = Ok d) by (vm_compute; eexists; reflexivity).
  destruct Hrun as (d & Hrun). exists d, run.2.
  destruct (deposit_matched_once (mkCtx 9) (mkCtx 10) (user_deposit 1 20000) (user_deposit 1 30000)
    d issued_store run.2 run.2) as (_ & _ & Ho & Ha & _ & Hno).
  - exact (run_ok _ _ _ Hrun).
  - reflexivity.
  - reflexivity.
  - reflexivity.
  - split; [exact (run_ok _ _ _ Hrun)|]. split; [exact Ho|]. split; [exact Ha|exact Hno].
Defined.

Definition late_deposit : DepositRecord :=
  DepositRecord_zero <| dr_DepositID := "T" |> <| dr_AmountSats := 10000 |>
    <| dr_ReturnAddress := "from" |>.
Definition root_vault : Vault := Vault_zero <| va_PubKey := "vault" |>.

Lemma return_splits_deposit_witness : ∃ fee, fee < 10000 ∧
  ∃ item s1, appendBTCExactTxOut (mkCtx 9) 9 item note_store = (Ok tt, s1)
    ∧ c_Amount (to_Coin item) + fee = 10000 ∧ to_ToAddress item = "from".
Proof.
  set (run := queueDepositReturnFromVault (mkCtx 9) late_deposit root_vault [] note_store).
  assert (Hrun : run.1 = Ok tt) by (vm_compute; reflexivity).
  destruct (return_splits_deposit (mkCtx 9) late_deposit root_vault [] note_store run.2)
    as (fee & Hfee & Hcase).
  - exact (run_ok _ _ _ Hrun).
  - split; vm_compute; congruence.
  - assert (Hf : fee = 100) by (vm_compute in Hfee; congruence). subst fee.
    destruct Hcase as [[Hle _]|(item & s1 & _ & Happ & _ & Hsum & Hto & _)].
    + vm_compute in Hle. congruence.
    + exists 100. split; [reflexivity|]. exists item, s1.
      split; [exact Happ|]. split; [exact Hsum|exact Hto].
Defined.

Definition root_deposit (vout : Z) : ObservedTx :=
  Observed.NewObservedTx
    (mkTx "T" BTCChain "from" "vault0" [NewCoin BTCAsset 10000] [] vout []) 7 "vault" 7.

Lemma direct_return_once_per_transaction_witness : ∃ s',
  queueDirectBaseVaultDepositReturn (mkCtx 9) (root_deposit 0) root_vault note_store = (Ok tt, s')
  ∧ queueDirectBaseVaultDepositReturn (mkCtx 9) (root_deposit 1) root_vault s'
    ≠ (Ok tt, s').
Proof.
  set (run := queueDirectBaseVaultDepositReturn (mkCtx 9) (root_deposit 0) root_vault note_store).
  assert (Hrun : run.1 = Ok tt) by (vm_compute; reflexivity).
  exists run.2. split; [exact (run_ok _ _ _ Hrun)|].
  apply (direct_return_once_per_transaction (mkCtx 9) (mkCtx 9) (root_deposit 0) (root_deposit 1)
    root_vault root_vault note_store run.2 run.2 run.2);
    [exact (run_ok _ _ _ Hrun)|reflexivity|reflexivity].
Defined.

(** A block of a refund and a sweep of deposit D, of which the refund goes. *)
Definition queued_item (txType : string) : TxOutItem :=
  TxOutItem_zero <| to_InHash := "D" |> <| to_TxType := txType |>.
Definition queued_store : KVStore :=
  KVStore_empty <| kv_txout := {[ "5" := mkTxOut 5
    [queued_item TxOutTypeRefund; queued_item TxOutTypeSweep] 0 TxOutStatusPendingSign "" 0 0 ]} |>.

Lemma purge_exact_witness : ∃ blocks,
  purgeTxOutItemsForDeposit "D" [TxOutTypeRefund] queued_store
    = (Ok tt, queued_store <| kv_txout := blocks |>)
  ∧ txo_TxArray <$> blocks !! "5" = Some [queued_item TxOutTypeSweep].
Proof.
  destruct (purge_exact "D" [TxOutTypeRefund] queued_store) as (blocks & Hrun & Hlook & _).
  - intros k b Hk. unfold queued_store in Hk. rec_simpl_all. apply lookup_singleton_Some in Hk as [<- <-]. reflexivity.
  - exists blocks. split; [exact Hrun|]. rewrite Hlook. vm_compute. reflexivity.
Defined.

(** At 40 satoshis per byte the sweep of 10,000 costs all of them. *)
Definition busy_store : KVStore :=
  issued_store <| kv_network_fee := {[ "BTC" := mkNetworkFee BTCChain 250 40 ]} |>.

