(* ===== verification/Settle.v ===== *)
(** * Settling observed outbounds (x/thornado/handler_observed_tx_helpers.go)

An outbound the nodes have observed is matched against the queue: by its
inputs and amounts against a batch, or against one item.  A match stamps the
transaction's id on the items and settles what they were queued for (a deposit
swept or returned, a redeem paid); a migration also moves the vault balances.
A transaction that matches nothing is the sign of a theft. *)

From S2P Require Import Prelude GoStrings Config Common Types Vaults Voters Keeper BtcBatch Outbounds Deposits.

(** ** Inputs *)

(** The observed input is the wanted one; an unknown amount matches any. *)
Definition same_outpoint (want : TxOutInput) (got : TxInput) : bool :=
  TxID.Equals (ti_TxId want) (in_TxId got) && (ti_Vout want =? in_Vout got)
  && ((ti_AmountSats want =? 0) || (in_AmountSats got =? 0)
      || (ti_AmountSats want =? in_AmountSats got)).

(** The list without its first entry that passes the test: what is left
    unmatched after a match. *)
Fixpoint take_first {A} (p : A → bool) (l : list A) : option (list A) :=
  match l with
  | [] => None
  | x :: l => if p x then Some l else option_map (cons x) (take_first p l)
  end.
Fixpoint match_each {A B} (p : A → B → bool) (wants : list A) (gots : list B) : bool :=
  match wants with
  | [] => true
  | want :: wants =>
      match take_first (p want) gots with
      | Some gots => match_each p wants gots
      | None => false
      end
  end.

Definition observedTxSpentTxOutInputs (observed : list TxInput) (expected : list TxOutInput) : bool :=
  if (length expected =? 0)%nat then true
  else if (length observed =? 0)%nat then false
  else match_each same_outpoint expected observed.

Definition observedTxInputsSubsetOfTxOut (observed : list TxInput) (expected : list TxOutInput)
    : bool :=
  if (length observed =? 0)%nat || (length expected =? 0)%nat
     || (length expected <? length observed)%nat then false
  else match_each (λ got want, same_outpoint want got) observed expected.

Definition txOutInputsFromObserved (observed : list TxInput) : list TxOutInput :=
  map (λ input, TxOutInput_zero <| ti_TxId := in_TxId input |> <| ti_Vout := in_Vout input |>
                  <| ti_AmountSats := in_AmountSats input |>) observed.

(** ** Which transactions need a match *)

Definition IsEVM (chain : string) : bool := false.
Definition Chain_DustThreshold (chain : string) : Z := if str_eq chain BTCChain then 1000 else 0.
Definition isOutboundFakeGasTx (tx : ObservedTx) : bool := false.

Definition isCancelOrApprovalTx (tx : ObservedTx) : bool :=
  match tx_Coins (ot_Tx tx) with
  | [coin] =>
      let asset := c_Asset coin in
      IsEVM (a_Chain asset) && Asset_Equals asset (Chain_GetGasAsset (a_Chain asset))
      && (c_Amount coin =? Chain_DustThreshold (a_Chain asset))
  | _ => false
  end.

Definition of_bitcoin (tx : ObservedTx) : bool := Chain_Equals (tx_Chain (ot_Tx tx)) BTCChain.

Definition observedOutboundRequiresTxOutMatch (tx : ObservedTx) : bool :=
  of_bitcoin tx
  && negb (PubKey.IsEmpty (ot_ObservedPubKey tx) || isOutboundFakeGasTx tx || isCancelOrApprovalTx tx).

(** ** One item *)

Definition observed_amount (tx : ObservedTx) (asset : Asset) : Z :=
  c_Amount (Coins.GetCoin (tx_Coins (ot_Tx tx)) asset).
Definition observed_gas (tx : ObservedTx) (asset : Asset) : Z :=
  c_Amount (Coins.GetCoin (Gas.ToCoins (tx_Gas (ot_Tx tx))) asset).
Definition max_gas (item : TxOutItem) (asset : Asset) : Z :=
  c_Amount (Coins.GetCoin (Gas.ToCoins (to_MaxGas item)) asset).

(** The amounts of an internal bitcoin transfer. *)
Definition internal_amounts (subset : bool) (tx : ObservedTx) (item : TxOutItem) : res bool :=
  let maxGas := max_gas item BTCAsset in
  let observedAmount := observed_amount tx BTCAsset in
  let observedGas := observed_gas tx BTCAsset in
  let coin := c_Amount (to_Coin item) in
  intended ← uint_add coin maxGas;
  sourceTotal ← rfold uint_add 0
    (if subset then map in_AmountSats (tx_SourceInputs (ot_Tx tx))
     else map ti_AmountSats (to_SourceInputs item));
  let intended := if intended <? sourceTotal then sourceTotal else intended in
  actual ← uint_add observedAmount observedGas;
  Ok (if subset then
        negb (observedAmount =? 0) && (actual =? sourceTotal) && negb (maxGas =? 0)
        && (observedGas <=? maxGas)
      else
        (actual <=? intended) && (observedGas <=? maxGas) && (coin <=? observedAmount)
        && (observedAmount <=? intended)).

(** The amounts of a payment: the coin itself, or coin and gas together, or on
    bitcoin anything between the two. *)
Definition payment_amounts (tx : ObservedTx) (item : TxOutItem) : res bool :=
  let asset := Chain_GetGasAsset (to_Chain item) in
  let coin := c_Amount (to_Coin item) in
  if Coins.EqualsEx (tx_Coins (ot_Tx tx)) [to_Coin item] then Ok true
  else if negb (Asset_Equals (c_Asset (to_Coin item)) asset) then Ok false
  else
    intended ← uint_add coin (max_gas item asset);
    actual ← uint_add (observed_amount tx asset) (observed_gas tx asset);
    Ok ((actual =? intended)
        || (of_bitcoin tx && (coin <=? observed_amount tx asset)
            && (observed_amount tx asset <=? intended))).

Section Settle.
Context `{Ext}.

(** The transaction comes from the address of the item's vault and path. *)
Definition from_item_source (tx : ObservedTx) (item : TxOutItem) : bool :=
  match VaultPath.DeriveBTCTaprootAddress (to_VaultPubKey item) (to_VaultPathIndex item) with
  | Ok sourceAddr => Address.Equals (tx_FromAddress (ot_Tx tx)) sourceAddr
  | _ => false
  end.

Definition observedOutboundMatchesTxOut (tx : ObservedTx) (item : TxOutItem) : res bool :=
  if negb (TxID.IsEmpty (to_OutHash item))
     || negb (Chain_Equals (tx_Chain (ot_Tx tx)) (to_Chain item))
     || negb (Address.Equals (tx_ToAddress (ot_Tx tx)) (to_ToAddress item))
  then Ok false
  else
    let btcInternal := of_bitcoin tx
      && (IsInternalTxOutType (to_TxType item) || negb (to_VaultPathIndex item =? 0)) in
    if negb (PubKey.Equals (ot_ObservedPubKey tx) (to_VaultPubKey item))
       && negb (btcInternal && from_item_source tx item)
    then Ok false
    else if btcInternal then
      let inputs := tx_SourceInputs (ot_Tx tx) in
      let exactSourceInputs := observedTxSpentTxOutInputs inputs (to_SourceInputs item) in
      let consolidateSourceSubset := str_eq (to_TxType item) TxOutTypeConsolidate
        && observedTxInputsSubsetOfTxOut inputs (to_SourceInputs item) in
      if negb (length (to_SourceInputs item) =? 0)%nat
         && negb exactSourceInputs && negb consolidateSourceSubset then Ok false
      else if negb (from_item_source tx item) then Ok false
      else if Asset_Equals (c_Asset (to_Coin item)) BTCAsset
      then internal_amounts (consolidateSourceSubset && negb exactSourceInputs) tx item
      else payment_amounts tx item
    else payment_amounts tx item.

Definition observedOutboundMatchesTxOutExact (tx : ObservedTx) (item : TxOutItem) : res bool :=
  let inputs := tx_SourceInputs (ot_Tx tx) in
  if (length (to_SourceInputs item) =? 0)%nat
     || negb (length inputs =? length (to_SourceInputs item))%nat then Ok false
  else if negb (observedTxSpentTxOutInputs inputs (to_SourceInputs item)) then Ok false
  else observedOutboundMatchesTxOut tx item.

(** The item as it was before it was settled. *)
Definition open_item (item : TxOutItem) : TxOutItem :=
  TxOutItem_zero
    <| to_Chain := to_Chain item |> <| to_ToAddress := to_ToAddress item |>
    <| to_VaultPubKey := to_VaultPubKey item |> <| to_Coin := to_Coin item |>
    <| to_MaxGas := to_MaxGas item |> <| to_GasRate := to_GasRate item |>
    <| to_InHash := to_InHash item |> <| to_ModuleName := to_ModuleName item |>
    <| to_TxType := to_TxType item |> <| to_VaultPathIndex := to_VaultPathIndex item |>
    <| to_SourceInputs := to_SourceInputs item |>.

Definition observedOutboundMatchesSettledTxOut (tx : ObservedTx) (item : TxOutItem) : res bool :=
  if TxID.IsEmpty (to_OutHash item)
     || negb (TxID.Equals (to_OutHash item) (tx_ID (ot_Tx tx)))
     || negb (Chain_Equals (tx_Chain (ot_Tx tx)) (to_Chain item))
     || negb (Address.Equals (tx_ToAddress (ot_Tx tx)) (to_ToAddress item))
     || negb (PubKey.Equals (ot_ObservedPubKey tx) (to_VaultPubKey item))
  then Ok false
  else if of_bitcoin tx && IsInternalTxOutType (to_TxType item) then
    Ok (observedTxSpentTxOutInputs (tx_SourceInputs (ot_Tx tx)) (to_SourceInputs item)
        && from_item_source tx item
        && (observed_amount tx BTCAsset =? c_Amount (to_Coin item)))
  else observedOutboundMatchesTxOut tx (open_item item).

(** ** A batch *)

Record Expectations := mkExpectations {
  ex_externalTotal : Z;
  ex_selfTotal : Z;
  ex_unionValue : Z;
  ex_totalMaxGas : Z;
  ex_inputs : list TxOutInput;
  ex_items : Z;
  ex_vinOnly : Z
}.
#[local] Instance Expectations_eta : Eta Expectations := fun r =>
  mkExpectations (ex_externalTotal r) (ex_selfTotal r) (ex_unionValue r) (ex_totalMaxGas r)
    (ex_inputs r) (ex_items r) (ex_vinOnly r).

(** An item that may stand in the batch of the transaction: settled by it, or
    not settled yet. *)
Definition batch_item (tx : ObservedTx) (requireOutHash : bool) (item : TxOutItem) : bool :=
  (if requireOutHash
   then negb (TxID.IsEmpty (to_OutHash item)) && TxID.Equals (to_OutHash item) (tx_ID (ot_Tx tx))
   else TxID.IsEmpty (to_OutHash item))
  && Chain_Equals (to_Chain item) BTCChain
  && PubKey.Equals (to_VaultPubKey item) (ot_ObservedPubKey tx)
  && btcEpochBatchItem item
  && Asset_Equals (c_Asset (to_Coin item)) BTCAsset
  && negb (length (to_SourceInputs item) =? 0)%nat.

Definition expect_value (rootAddr : string) (exp : Expectations) (item : TxOutItem)
    : res Expectations :=
  let amount := c_Amount (to_Coin item) in
  if btcBatchVinOnlyItem item then Ok (exp <| ex_vinOnly := ex_vinOnly exp + 1 |>)
  else if Address.Equals (to_ToAddress item) rootAddr then
    total ← uint_add (ex_selfTotal exp) amount; Ok (exp <| ex_selfTotal := total |>)
  else total ← uint_add (ex_externalTotal exp) amount; Ok (exp <| ex_externalTotal := total |>).

(** [None]: the block is not a batch of the transaction. *)
Definition expect_item (tx : ObservedTx) (rootAddr : string) (requireOutHash : bool)
    (o : option Expectations) (item : TxOutItem) : res (option Expectations) :=
  match o with
  | None => Ok None
  | Some exp =>
      if negb (batch_item tx requireOutHash item) then Ok None
      else if negb (length (ex_inputs exp) =? 0)%nat
              && negb (btcTxOutInputsEqual (ex_inputs exp) (to_SourceInputs item)) then Ok None
      else
        let exp := if (length (ex_inputs exp) =? 0)%nat
                   then exp <| ex_inputs := to_SourceInputs item |> else exp in
        exp ← expect_value rootAddr exp item;
        gas ← uint_add (ex_totalMaxGas exp) (max_gas item BTCAsset);
        Ok (Some (exp <| ex_totalMaxGas := gas |> <| ex_items := ex_items exp + 1 |>))
  end.

Definition btcEpochBatchExpectationsFor (txOut : TxOut) (tx : ObservedTx) (rootAddr : string)
    (requireOutHash : bool) : res (option Expectations) :=
  o ← rfold (expect_item tx rootAddr requireOutHash) (Some (mkExpectations 0 0 0 0 [] 0 0))
        (txo_TxArray txOut);
  match o with
  | None => Ok None
  | Some exp =>
      unionValue ← btcSourceInputsAmount (ex_inputs exp);
      Ok (if 0 <? ex_items exp then Some (exp <| ex_unionValue := unionValue |>) else None)
  end.

Definition btcEpochBatchAmountMatches (exp : Expectations) (observedAmount observedGas : Z) : bool :=
  if negb (ex_externalTotal exp =? 0) then observedAmount =? ex_externalTotal exp
  else if negb (ex_selfTotal exp =? 0) then observedAmount =? ex_selfTotal exp
  else if ex_unionValue exp <=? observedGas then false
  else observedAmount =? ex_unionValue exp - observedGas.

(** A block of one item is only a batch when it is a sweep without a coin. *)
Definition single_sweep (txOut : TxOut) (exp : Expectations) : bool :=
  (ex_vinOnly exp =? ex_items exp) && (ex_items exp =? 1)
  && match txo_TxArray txOut with item :: _ => c_Amount (to_Coin item) =? 0 | [] => false end.

Definition batch_shape (txOut : TxOut) (tx : ObservedTx) (rootAddr : string) (exp : Expectations)
    : bool :=
  negb ((ex_items exp <? 2) && negb (single_sweep txOut exp))
  && negb (negb (Address.Equals (tx_FromAddress (ot_Tx tx)) rootAddr) && (ex_vinOnly exp =? 0))
  && btcEpochBatchAmountMatches exp (observed_amount tx BTCAsset) (observed_gas tx BTCAsset)
  && observedTxSpentTxOutInputs (tx_SourceInputs (ot_Tx tx)) (ex_inputs exp)
  && negb (ex_totalMaxGas exp =? 0).

Definition batch_matches (txOut : TxOut) (tx : ObservedTx) (requireOutHash : bool) : res bool :=
  if negb (of_bitcoin tx) || (length (txo_TxArray txOut) =? 0)%nat then Ok false
  else
    match VaultPath.DeriveBTCTaprootAddress (ot_ObservedPubKey tx) VaultPath.MainVaultPathIndex with
    | Ok rootAddr =>
        o ← btcEpochBatchExpectationsFor txOut tx rootAddr requireOutHash;
        Ok (match o with Some exp => batch_shape txOut tx rootAddr exp | None => false end)
    | _ => Ok false
    end.

Definition observedOutboundAlreadyMatchedTxOutBatch (txOut : TxOut) (tx : ObservedTx) : res bool :=
  if TxID.IsEmpty (tx_ID (ot_Tx tx)) then Ok false else batch_matches txOut tx true.

(** Some item, tested in order. *)
Fixpoint exists_item (p : TxOutItem → res bool) (items : list TxOutItem) : res bool :=
  match items with
  | [] => Ok false
  | item :: items => b ← p item; if (b : bool) then Ok true else exists_item p items
  end.

Definition already_settled (tx : ObservedTx) (item : TxOutItem) : res bool :=
  if TxID.IsEmpty (to_OutHash item) || negb (TxID.Equals (to_OutHash item) (tx_ID (ot_Tx tx)))
  then Ok false
  else
    settled ← observedOutboundMatchesSettledTxOut tx item;
    if (settled : bool) then Ok true
    else observedOutboundMatchesTxOut tx (item <| to_OutHash := "" |>).

Definition observedOutboundAlreadyMatchedTxOut (txOut : TxOut) (tx : ObservedTx) : res bool :=
  batch ← observedOutboundAlreadyMatchedTxOutBatch txOut tx;
  if (batch : bool) then Ok true
  else if TxID.IsEmpty (tx_ID (ot_Tx tx)) then Ok false
  else exists_item (already_settled tx) (txo_TxArray txOut).

(** ** Settling what an item was queued for *)

Definition settle_refund (item : TxOutItem) : KM unit :=
  deposit ← GetDepositRecord (to_InHash item);
  if str_eq (dr_Status deposit) DepositStatusReturnQueued then
    _ ← try (SetDepositRecord (deposit <| dr_Status := DepositStatusReturnComplete |>));
    mret tt
  else mret tt.

Definition settle_redeem (item : TxOutItem) (tx : ObservedTx) : KM unit :=
  redeem ← GetShielderRedeem (to_InHash item);
  if str_eq (sr_Status redeem) DepositStatusKeysignQueued then
    let redeem := redeem <| sr_Status := ShielderRedeemStatusSettled |>
                    <| sr_OutHash := tx_ID (ot_Tx tx) |> in
    _ ← try (SetShielderRedeem redeem);
    if negb (TxID.IsEmpty (tx_ID (ot_Tx tx))) then
      _ ← try (SetShielderRedeemOutHash (tx_ID (ot_Tx tx)) (sr_WithdrawalID redeem)); mret tt
    else mret tt
  else mret tt.

Definition markMatchedTxOutItemSettled (item : TxOutItem) (tx : ObservedTx) : KM unit :=
  let has_in := negb (TxID.IsEmpty (to_InHash item)) in
  _ ← (if str_eq (to_TxType item) TxOutTypeSweep && has_in
       then markDepositSweepComplete item else mret tt);
  _ ← (if str_eq (to_TxType item) TxOutTypeRefund && has_in
       then settle_refund item else mret tt);
  if str_eq (to_TxType item) TxOutTypeOut && has_in then settle_redeem item tx else mret tt.

Definition u32 (z : Z) : Z := z mod 2 ^ 32.

(** The items of a batch pay the outputs in order; an item that only adds
    inputs pays none. *)
Fixpoint stamp_batch (tx : ObservedTx) (vout : Z) (items : list TxOutItem) : list TxOutItem :=
  match items with
  | [] => []
  | item :: items =>
      let item := item <| to_OutHash := tx_ID (ot_Tx tx) |> in
      if btcBatchVinOnlyItem item
      then (item <| to_OutVout := 0 |>) :: stamp_batch tx vout items
      else (item <| to_OutVout := vout |>) :: stamp_batch tx (u32 (vout + 1)) items
  end.

Definition markObservedOutboundTxOutBatch (txOut : TxOut) (tx : ObservedTx) : KM bool :=
  matches ← lift (batch_matches txOut tx false);
  if negb matches then mret false
  else
    let txOut := txOut <| txo_TxArray := stamp_batch tx 0 (txo_TxArray txOut) |> in
    _ ← SetTxOut txOut;
    _ ← mfor (λ item, markMatchedTxOutItemSettled item tx) (txo_TxArray txOut);
    mret true.

(** ** Looking for the match in the queue *)

(** The blocks of one signing period up to now, oldest first. *)
Definition signing_window (ctx : Ctx) : KM (Z * list Z) :=
  signingPeriod ← getConfigDurationBlocks Keysign_PeriodMinutes;
  let earliest := BlockHeight ctx -i signingPeriod in
  let earliest := if earliest <? 1 then 1 else earliest in
  mret (earliest, seqZ earliest (BlockHeight ctx - earliest + 1)).

(** The first height at which [f] finds something. *)
Fixpoint search {A} (f : TxOut → KM (option A)) (heights : list Z) : KM (option A) :=
  match heights with
  | [] => mret None
  | height :: heights =>
      txOut ← GetTxOut height;
      o ← f txOut;
      match o with Some a => mret (Some a) | None => search f heights end
  end.

Definition whether (b : bool) : option unit := if b then Some tt else None.

Definition observedOutboundAlreadySettledAnyTxOut (tx : ObservedTx) : KM bool :=
  if TxID.IsEmpty (tx_ID (ot_Tx tx)) then mret false
  else
    all ← getIterator kv_txout;
    mfold (λ found txOut,
      if (found : bool) then mret true
      else lift (observedOutboundAlreadyMatchedTxOut txOut tx)) false all.

(** What the transaction really moved replaces what an internal item planned. *)
Definition stamp_observed (tx : ObservedTx) (item : TxOutItem) : TxOutItem :=
  let observedCoin := Coins.GetCoin (tx_Coins (ot_Tx tx)) BTCAsset in
  let observedGas := Coins.GetCoin (Gas.ToCoins (tx_Gas (ot_Tx tx))) BTCAsset in
  let item := if negb (Coin_IsEmpty observedCoin) && negb (c_Amount observedCoin =? 0)
              then item <| to_Coin := observedCoin |> else item in
  let item := if negb (length (tx_SourceInputs (ot_Tx tx)) =? 0)%nat
              then item <| to_SourceInputs := txOutInputsFromObserved (tx_SourceInputs (ot_Tx tx)) |>
              else item in
  if negb (Coin_IsEmpty observedGas) then item <| to_MaxGas := [observedGas] |> else item.

Definition stamp_hash (tx : ObservedTx) (item : TxOutItem) : TxOutItem :=
  item <| to_OutHash := tx_ID (ot_Tx tx) |> <| to_OutVout := 0 |>.
Definition stamp_match (tx : ObservedTx) (item : TxOutItem) : TxOutItem :=
  if of_bitcoin tx && IsInternalTxOutType (to_TxType item)
     && Asset_Equals (c_Asset (to_Coin item)) BTCAsset
  then stamp_observed tx (stamp_hash tx item) else stamp_hash tx item.

(** Rewrites the first item that passes the test; returns it rewritten. *)
Fixpoint stamp_first (p : TxOutItem → res bool) (f : TxOutItem → TxOutItem) (items : list TxOutItem)
    : res (option (TxOutItem * list TxOutItem)) :=
  match items with
  | [] => Ok None
  | item :: items =>
      b ← p item;
      if (b : bool) then Ok (Some (f item, f item :: items))
      else
        o ← stamp_first p f items;
        Ok (option_map (λ '(found, items), (found, item :: items)) o)
  end.

Definition settle_first (tx : ObservedTx) (p : TxOutItem → res bool) (f : TxOutItem → TxOutItem)
    (txOut : TxOut) : KM (option unit) :=
  o ← lift (stamp_first p f (txo_TxArray txOut));
  match o with
  | None => mret None
  | Some (settledItem, items) =>
      _ ← SetTxOut (txOut <| txo_TxArray := items |>);
      _ ← markMatchedTxOutItemSettled settledItem tx;
      mret (Some tt)
  end.

(** One scan of the older blocks for an internal item. *)
Definition historical_item (exact : bool) (tx : ObservedTx) (item : TxOutItem) : res bool :=
  if negb (IsInternalTxOutType (to_TxType item)) || negb (TxID.IsEmpty (to_OutHash item))
  then Ok false
  else if exact then observedOutboundMatchesTxOutExact tx item
  else observedOutboundMatchesTxOut tx item.

Definition markObservedBTCInternalHistoricalTxOutPass (tx : ObservedTx) (latestHeight : Z)
    (exact : bool) : KM (option unit) :=
  search (settle_first tx (historical_item exact tx) (λ item, stamp_observed tx (stamp_hash tx item)))
    (reverse (seqZ 1 latestHeight)).

Definition markObservedBTCInternalHistoricalTxOut (tx : ObservedTx) (latestHeight : Z)
    : KM (option unit) :=
  if (latestHeight <? 1) || negb (Observed.IsFinal tx) || negb (of_bitcoin tx)
     || (length (tx_SourceInputs (ot_Tx tx)) =? 0)%nat
  then mret None
  else
    o ← markObservedBTCInternalHistoricalTxOutPass tx latestHeight true;
    if Address.is_some o then mret o
    else markObservedBTCInternalHistoricalTxOutPass tx latestHeight false.

(** The best open item so far: an exact match before another, then the higher
    block. *)
Record Best := mkBest { be_txOut : TxOut; be_index : nat; be_exact : bool }.
Definition better (txOut : TxOut) (exact : bool) (best : option Best) : bool :=
  match best with
  | None => true
  | Some b => (exact && negb (be_exact b))
              || (Bool.eqb exact (be_exact b) && (txo_Height (be_txOut b) <? txo_Height txOut))
  end.
Fixpoint best_item (tx : ObservedTx) (txOut : TxOut) (i : nat) (items : list TxOutItem)
    (best : option Best) : res (option Best) :=
  match items with
  | [] => Ok best
  | item :: items =>
      matches ← (if negb (TxID.IsEmpty (to_OutHash item)) then Ok false
                    else observedOutboundMatchesTxOut tx item);
      best ← (if (matches : bool) then
                   exact ← observedOutboundMatchesTxOutExact tx item;
                   Ok (if better txOut exact best then Some (mkBest txOut i exact) else best)
                 else Ok best);
      best_item tx txOut (S i) items best
  end.

(** [inl]: a batch took the transaction; [inr]: the best item found. *)
Fixpoint scan_open (tx : ObservedTx) (latestHeight : Z) (batchEligible : bool) (all : list TxOut)
    (best : option Best) : KM (unit + option Best) :=
  match all with
  | [] => mret (inr best)
  | txOut :: all =>
      if (latestHeight <? txo_Height txOut) || TxOut_IsEmpty txOut || negb (txOutHasPendingItems txOut)
      then scan_open tx latestHeight batchEligible all best
      else
        batch ← (if batchEligible then markObservedOutboundTxOutBatch txOut tx else mret false);
        if (batch : bool) then mret (inl tt)
        else
          best ← lift (best_item tx txOut 0 (txo_TxArray txOut) best);
          scan_open tx latestHeight batchEligible all best
  end.

Definition settle_best (tx : ObservedTx) (b : Best) : KM unit :=
  let items := alter (stamp_hash tx) (be_index b) (txo_TxArray (be_txOut b)) in
  _ ← SetTxOut ((be_txOut b) <| txo_TxArray := items |>);
  markMatchedTxOutItemSettled (nth (be_index b) items TxOutItem_zero) tx.

Definition markObservedOpenBTCOutboundOutsideSigningWindow (tx : ObservedTx) (latestHeight : Z)
    : KM (option unit) :=
  if (latestHeight <? 1) || negb (Observed.IsFinal tx) || negb (of_bitcoin tx)
     || negb (observedOutboundRequiresTxOutMatch tx)
  then mret None
  else
    settled ← observedOutboundAlreadySettledAnyTxOut tx;
    all ← getIterator kv_txout;
    found ← scan_open tx latestHeight (negb settled) all None;
    match found with
    | inl _ => mret (Some tt)
    | inr None => mret None
    | inr (Some b) => _ ← settle_best tx b; mret (Some tt)
    end.

(** The first item of the chain's history that passes the test. *)
Fixpoint find_item (p : TxOutItem → res bool) (items : list TxOutItem) : res (option TxOutItem) :=
  match items with
  | [] => Ok None
  | item :: items => b ← p item; if (b : bool) then Ok (Some item) else find_item p items
  end.
Definition find_in_history (ctx : Ctx) (p : TxOutItem → res bool) : KM (option (TxOutItem * Z)) :=
  search (λ txOut,
    o ← lift (find_item p (txo_TxArray txOut));
    mret (option_map (λ item, (item, txo_Height txOut)) o))
    (reverse (seqZ 1 (BlockHeight ctx))).

Definition findMatchingBTCInternalTxOut (ctx : Ctx) (tx : ObservedTx) : KM (option (TxOutItem * Z)) :=
  find_in_history ctx (λ item,
    if negb (IsInternalTxOutType (to_TxType item)) || TxID.IsEmpty (to_OutHash item)
       || negb (TxID.Equals (to_OutHash item) (tx_ID (ot_Tx tx)))
    then Ok false else observedOutboundMatchesSettledTxOut tx item).

(** The batches of the signing window, oldest first, unless the transaction has
    settled something before. *)
Definition mark_batch (tx : ObservedTx) (heights : list Z) : KM (option unit) :=
  settled ← observedOutboundAlreadySettledAnyTxOut tx;
  if (settled : bool) then mret None
  else search (λ txOut,
         b ← markObservedOutboundTxOutBatch txOut tx; mret (whether b)) heights.

(** Whether the transaction matches, and whether it does for the first time. *)
Definition markObservedOutboundTxOutStatus (ctx : Ctx) (tx : ObservedTx) : KM (bool * bool) :=
  '(earliestHeight, heights) ← signing_window ctx;
  already ← search (λ txOut,
              b ← lift (observedOutboundAlreadyMatchedTxOut txOut tx); mret (whether b)) heights;
  if Address.is_some already then mret (true, false)
  else
    batch ← mark_batch tx heights;
    if Address.is_some batch then mret (true, true)
    else
      item ← search (settle_first tx (observedOutboundMatchesTxOut tx) (stamp_match tx))
               (reverse heights);
      if Address.is_some item then mret (true, true)
      else
        old ← markObservedBTCInternalHistoricalTxOut tx (earliestHeight -i 1);
        if Address.is_some old then mret (true, true)
        else
          late ← markObservedOpenBTCOutboundOutsideSigningWindow tx (earliestHeight -i 1);
          if Address.is_some late then mret (true, true)
          else
            done ← findMatchingBTCInternalTxOut ctx tx;
            mret (Address.is_some done, false).

Definition markObservedOutboundTxOut (ctx : Ctx) (tx : ObservedTx) : KM bool :=
  '(matched, _) ← markObservedOutboundTxOutStatus ctx tx; mret matched.

(** ** Migrations between vaults *)

Definition observedBTCMigrationMatchesTxOut (tx : ObservedTx) (item : TxOutItem) : bool :=
  str_eq (to_TxType item) TxOutTypeMigrate
  && negb (TxID.IsEmpty (to_OutHash item))
  && TxID.Equals (to_OutHash item) (tx_ID (ot_Tx tx))
  && of_bitcoin tx
  && Chain_Equals (to_Chain item) BTCChain
  && Address.Equals (tx_ToAddress (ot_Tx tx)) (to_ToAddress item)
  && Asset_Equals (c_Asset (to_Coin item)) BTCAsset
  && observedTxSpentTxOutInputs (tx_SourceInputs (ot_Tx tx)) (to_SourceInputs item)
  && from_item_source tx item.

Definition findMatchingBTCMigrationTxOut (ctx : Ctx) (tx : ObservedTx) : KM (option (TxOutItem * Z)) :=
  find_in_history ctx (λ item,
    Ok (str_eq (to_TxType item) TxOutTypeMigrate && observedBTCMigrationMatchesTxOut tx item)).

Definition migration_to (tx : ObservedTx) (item : TxOutItem) : bool :=
  str_eq (to_TxType item) TxOutTypeMigrate
  && negb (TxID.IsEmpty (to_OutHash item))
  && TxID.Equals (to_OutHash item) (tx_ID (ot_Tx tx))
  && Address.Equals (to_ToAddress item) (tx_ToAddress (ot_Tx tx))
  && Asset_Equals (c_Asset (to_Coin item)) BTCAsset.

Definition observedBTCMigrationInbound (ctx : Ctx) (tx : ObservedTx) : KM bool :=
  '(_, heights) ← signing_window ctx;
  o ← search (λ txOut, mret (whether (existsb (migration_to tx) (txo_TxArray txOut))))
        (reverse heights);
  mret (Address.is_some o).

Definition btcMigrationDestinationCreditedByInbound (tx : ObservedTx) : KM bool :=
  voter ← GetObservedTxInVoter (tx_ID (ot_Tx tx)); mret (ov_UpdatedVault voter).
Definition btcMigrationDestinationCreditedByOutbound (tx : ObservedTx) : KM bool :=
  voter ← GetObservedTxOutVoter (tx_ID (ot_Tx tx)); mret (ov_UpdatedVault voter).
Definition btcMigrationDestinationAlreadyCredited (tx : ObservedTx) : KM bool :=
  b ← btcMigrationDestinationCreditedByInbound tx;
  if (b : bool) then mret true else btcMigrationDestinationCreditedByOutbound tx.

Definition btcMigrationDestinationVault (ctx : Ctx) (item : TxOutItem) : KM (option Vault) :=
  if negb (str_eq (to_TxType item) TxOutTypeMigrate) || negb (Chain_Equals (to_Chain item) BTCChain)
     || negb (Asset_Equals (c_Asset (to_Coin item)) BTCAsset)
     || Address.IsEmpty (to_ToAddress item)
  then mret None
  else
    r ← try (GetBaseVaults ctx);
    mret (match r with
          | Ok vaults =>
              List.find (λ vault,
                match Vault.DeriveBTCAddress vault VaultPath.MainVaultPathIndex with
                | Ok addr => Address.Equals addr (to_ToAddress item)
                | _ => false
                end) vaults
          | _ => None
          end).

Definition to_itself (tx : ObservedTx) : bool :=
  Address.Equals (tx_FromAddress (ot_Tx tx)) (tx_ToAddress (ot_Tx tx)).

(** The coins of the transaction arrive in the vault. *)
Definition credit_vault (tx : ObservedTx) (vault : Vault) : res Vault :=
  vault ← Vault.AddFunds vault (tx_Coins (ot_Tx tx));
  Ok (vault <| va_InboundTxCount := va_InboundTxCount vault +i 1 |>).

Definition creditBTCMigrationDestination (ctx : Ctx) (voter : ObservedTxVoter) (tx : ObservedTx)
    : KM (bool * ObservedTxVoter) :=
  if negb (of_bitcoin tx) || TxID.IsEmpty (tx_ID (ot_Tx tx)) || negb (Observed.IsFinal tx)
     || ov_UpdatedVault voter
  then mret (false, voter)
  else
    credited ← btcMigrationDestinationAlreadyCredited tx;
    if (credited : bool) then mret (false, voter <| ov_UpdatedVault := true |>)
    else
      o ← findMatchingBTCMigrationTxOut ctx tx;
      match o with
      | None => mret (false, voter)
      | Some (item, _) =>
          dest ← btcMigrationDestinationVault ctx item;
          match dest with
          | None => mret (false, voter)
          | Some destVault =>
              destVault ← (if to_itself tx then mret destVault else lift (credit_vault tx destVault));
              r ← try (SetVault destVault);
              match r with
              | Ok _ => mret (true, voter <| ov_UpdatedVault := true |>)
              | _ => mret (false, voter)
              end
          end
      end.

Definition creditBTCMigrationInboundDestination (ctx : Ctx) (vault : Vault)
    (voter : ObservedTxVoter) (tx : ObservedTx) : KM (Vault * ObservedTxVoter) :=
  if negb (of_bitcoin tx) || negb (Vault.IsBase vault) || ov_UpdatedVault voter
  then mret (vault, voter)
  else
    migration ← observedBTCMigrationInbound ctx tx;
    if negb migration then mret (vault, voter)
    else
      credited ← btcMigrationDestinationCreditedByOutbound tx;
      let voter := voter <| ov_UpdatedVault := true |> in
      if (credited : bool) then mret (vault, voter)
      else
        vault ← (if to_itself tx then mret vault else lift (credit_vault tx vault));
        mret (vault, voter).

(** A retiring vault without funds is done. *)
Definition retire_if_empty (ctx : Ctx) (vault : Vault) : Vault :=
  if negb (Vault.HasFunds vault) && Vault.status_eqb (va_Status vault) RetiringVault
  then Vault.UpdateStatus vault InactiveVault (BlockHeight ctx) else vault.

Definition vaultHasPendingTxHeight (vault : Vault) (height : Z) : bool :=
  existsb (Z.eqb height) (va_PendingTxBlockHeights vault).

(** The inputs of the migration leave the source vault, once per pending
    height. *)
Definition settle_source (ctx : Ctx) (txOutHeight spent : Z) (vault : Vault) : Vault :=
  retire_if_empty ctx
    (Vault.RemovePendingTxBlockHeights (Vault.SubFunds vault [NewCoin BTCAsset spent]) txOutHeight).

Definition settleBTCMigrationSourceVaultItem (ctx : Ctx) (txOutHeight : Z) (item : TxOutItem)
    : KM bool :=
  if negb (str_eq (to_TxType item) TxOutTypeMigrate) || PubKey.IsEmpty (to_VaultPubKey item)
     || (length (to_SourceInputs item) =? 0)%nat
  then mret false
  else
    spent ← lift (rfold uint_add 0 (map ti_AmountSats (to_SourceInputs item)));
    if spent =? 0 then mret false
    else
      r ← try (GetVault ctx (to_VaultPubKey item));
      match r with
      | Ok vault =>
          if negb (vaultHasPendingTxHeight vault txOutHeight) then mret false
          else
            r ← try (SetVault (settle_source ctx txOutHeight spent vault));
            mret (match r with Ok _ => true | _ => false end)
      | _ => mret false
      end.

Definition settleBTCMigrationSourceVault (ctx : Ctx) (tx : ObservedTx) : KM bool :=
  if negb (of_bitcoin tx) || TxID.IsEmpty (tx_ID (ot_Tx tx)) || negb (Observed.IsFinal tx)
  then mret false
  else
    o ← findMatchingBTCMigrationTxOut ctx tx;
    match o with
    | Some (item, height) => settleBTCMigrationSourceVaultItem ctx height item
    | None => mret false
    end.

(** ** Balances *)

(** The transaction sweeps a child address of the vault to its root. *)
Definition isBTCChildSweepToRoot (tx : ObservedTx) (pubkey : string) : bool :=
  if negb (of_bitcoin tx) || PubKey.IsEmpty pubkey then false
  else
    match VaultPath.DeriveBTCTaprootAddress pubkey VaultPath.MainVaultPathIndex with
    | Ok rootAddr =>
        Address.Equals (tx_ToAddress (ot_Tx tx)) rootAddr
        && match
             rfold (λ (found : bool) pathType,
               pathIndexes ← VaultPath.VaultDepositLookaheadPathIndexes pathType;
               rfold (λ (found : bool) pathIndex,
                 if found then Ok true
                 else
                   childAddr ← VaultPath.DeriveBTCTaprootAddress pubkey pathIndex;
                   Ok (Address.Equals (tx_FromAddress (ot_Tx tx)) childAddr)) found pathIndexes)
               false [VaultPath.VaultDepositPathUser; VaultPath.VaultDepositPathNode]
           with Ok found => found | _ => false end
    | _ => false
    end.

(** What the transaction takes out of the vault, besides the gas. *)
Definition debit_vault (tx : ObservedTx) (count : bool) (vault : Vault) : Vault :=
  if negb (to_itself tx) && negb (isBTCChildSweepToRoot tx (va_PubKey vault)) then
    let vault := if isOutboundFakeGasTx tx then vault
                 else Vault.SubFunds vault (tx_Coins (ot_Tx tx)) in
    if count then vault <| va_OutboundTxCount := va_OutboundTxCount vault +i 1 |> else vault
  else vault.

(** ** Repairs *)

Definition observedTxOutVoterDone (voter : ObservedTxVoter) : bool :=
  bool_decide (ot_Status (ov_Tx voter) = Status_done)
  || existsb (λ tx, bool_decide (ot_Status tx = Status_done)) (ov_Txs voter).

Definition shouldSkipAlreadyProcessedObservedOutbound (voter : ObservedTxVoter)
    (matchedTxOut : bool) (tx : ObservedTx) : bool :=
  if negb matchedTxOut || negb (observedOutboundRequiresTxOutMatch tx) then false
  else observedTxOutVoterDone voter.

Definition txForOutboundReplayMatch (voter : ObservedTxVoter) (tx : ObservedTx) : ObservedTx :=
  if Observed.IsFinal tx && negb (length (tx_SourceInputs (ot_Tx tx)) =? 0)%nat
     && Bool.eqb (Observed.IsFinal (ov_Tx voter)) (Observed.IsFinal tx)
     && PubKey.Equals (ot_ObservedPubKey (ov_Tx voter)) (ot_ObservedPubKey tx)
     && Tx.EqualsEx (ot_Tx (ov_Tx voter)) (ot_Tx tx)
  then tx else ov_Tx voter.

Definition observedOutboundAlreadyMatchedHistoricalTxOut (tx : ObservedTx) : KM bool :=
  if negb (Observed.IsFinal tx) || TxID.IsEmpty (tx_ID (ot_Tx tx))
     || negb (observedOutboundRequiresTxOutMatch tx)
  then mret false
  else observedOutboundAlreadySettledAnyTxOut tx.

(** The voter as stored after the repair; [None] when there is nothing to
    repair. *)
Definition repairRevertedObservedOutbound (ctx : Ctx) (voter : ObservedTxVoter) (tx : ObservedTx)
    : KM bool :=
  if negb (ov_Reverted voter) || negb (Observed.IsFinal tx) || TxID.IsEmpty (tx_ID (ot_Tx tx))
     || negb (of_bitcoin tx) || negb (observedOutboundRequiresTxOutMatch tx)
  then mret false
  else if Observed.IsEmpty (ov_Tx voter)
     || negb (TxID.Equals (tx_ID (ot_Tx (ov_Tx voter))) (tx_ID (ot_Tx tx)))
     || negb (PubKey.Equals (ot_ObservedPubKey (ov_Tx voter)) (ot_ObservedPubKey tx))
     || negb (Tx.EqualsEx (ot_Tx (ov_Tx voter)) (ot_Tx tx))
  then mret false
  else
    marked ← markObservedOutboundTxOut ctx tx;
    matched ← (if (marked : bool) then mret true
                  else observedOutboundAlreadyMatchedHistoricalTxOut tx);
    if negb matched then mret false
    else
      r ← try (GetVault ctx (ot_ObservedPubKey tx));
      match r with
      | Ok vault =>
          r ← try (SetVault (retire_if_empty ctx (debit_vault tx false vault)));
          match r with
          | Ok _ =>
              _ ← SetObservedTxOutVoter (TxVoter.SetDone (voter <| ov_Reverted := false |>));
              mret true
          | _ => mret false
          end
      | _ => mret false
      end.

Definition repairBTCInternalOutboundReplay (ctx : Ctx) (tx : ObservedTx) : KM bool :=
  if negb (Observed.IsFinal tx) || negb (of_bitcoin tx)
     || (length (tx_SourceInputs (ot_Tx tx)) =? 0)%nat
  then mret false
  else
    o ← findMatchingBTCInternalTxOut ctx tx;
    match o with
    | None => mret false
    | Some (item, _) =>
        voter ← GetObservedTxOutVoter (tx_ID (ot_Tx tx));
        if observedTxOutVoterDone voter then mret false
        else if IsInternalTxOutType (to_TxType item) && str_eq (to_TxType item) TxOutTypeMigrate
        then settleBTCMigrationSourceVault ctx tx
        else if negb (IsInternalTxOutType (to_TxType item)) then mret false
        else
          r ← try (GetVault ctx (ot_ObservedPubKey tx));
          match r with
          | Ok vault =>
              r ← try (SetVault (retire_if_empty ctx (debit_vault tx true vault)));
              match r with
              | Ok _ =>
                  let voter := if Observed.IsEmpty (ov_Tx voter) then voter <| ov_Tx := tx |>
                               else voter in
                  _ ← SetObservedTxOutVoter (TxVoter.SetDone voter);
                  mret true
              | _ => mret false
              end
          | _ => mret false
          end
    end.
End Settle.

(** ** Inputs are matched one to one *)

Section MatchEach.
Context {A B K : Type} (p : A → B → bool).

Lemma take_first_Some w l rest :
  take_first (p w) l = Some rest → ∃ x, p w x = true ∧ l ≡ₚ x :: rest.
Proof.
  revert rest. induction l as [|y l IH]; intros rest; [done|]. cbn. destruct (p w y) eqn:E.
  - intros [= <-]. by exists y.
  - destruct (take_first _ l) as [l'|]; [|done]. intros [= <-].
    destruct (IH l' eq_refl) as (x & Hx & Hp). exists x. split; [done|].
    rewrite Hp. constructor.
Qed.
Lemma take_first_found w l x : x ∈ l → p w x = true → is_Some (take_first (p w) l).
Proof.
  intros Hin Hx. induction Hin as [|? y ? _ IH]; cbn.
  - rewrite Hx. by eexists.
  - destruct (p w y); [by eexists|]. destruct (IH Hx) as [l' ->]. by eexists.
Qed.

(** Every entry wanted has one of its own among those found. *)
Definition matched_apart (wants : list A) (gots : list B) : Prop :=
  ∃ chosen rest, gots ≡ₚ (chosen ++ rest)%list ∧ Forall2 (λ w g, p w g = true) wants chosen.

Lemma match_each_sound wants : ∀ gots, match_each p wants gots = true → matched_apart wants gots.
Proof.
  induction wants as [|w wants IH]; intros gots; cbn.
  - intros _. exists [], gots. by split.
  - destruct (take_first _ gots) as [l|] eqn:E; [|done]. intros Hm.
    destruct (take_first_Some _ _ _ E) as (x & Hx & Hp).
    destruct (IH l Hm) as (chosen & rest & Hl & Hf).
    exists (x :: chosen), rest. split; [by rewrite Hp, Hl|by constructor].
Qed.

(** Where an entry wanted can only be one of those found, taking the first
    that fits is enough. *)
Lemma match_each_complete (key : B → K) wants :
  (∀ w g g', p w g = true → p w g' = true → key g = key g') →
  ∀ gots, NoDup (map key gots) → matched_apart wants gots → match_each p wants gots = true.
Proof.
  intros Hkey. induction wants as [|w wants IH]; intros gots Hnd (chosen & rest & Hp & Hf); [done|].
  inversion Hf as [|? g ? chosen' Hg Hf']; subst. cbn.
  destruct (take_first_found w gots g) as [l Hl]; [rewrite Hp; constructor|done|]. rewrite Hl.
  destruct (take_first_Some _ _ _ Hl) as (x & Hx & Hpx).
  assert (x = g) as ->.
  { assert (Hin : x ∈ g :: chosen' ++ rest) by (rewrite <- Hp, Hpx; constructor).
    apply elem_of_cons in Hin as [->|Hin]; [done|]. exfalso.
    rewrite Hp in Hnd. cbn in Hnd. apply NoDup_cons in Hnd as [Hn _]. apply Hn.
    apply list_elem_of_fmap. exists x. split; [by apply (Hkey w)|done]. }
  apply IH.
  - rewrite Hpx in Hnd. by apply NoDup_cons in Hnd as [_ Hnd].
  - exists chosen', rest. split; [|done]. rewrite Hpx in Hp.
    by apply Permutation_cons_inv in Hp.
Qed.
End MatchEach.

Definition outpoint (input : TxInput) : string * Z := (ToLower (in_TxId input), in_Vout input).

Lemma same_outpoint_key want got got' :
  same_outpoint want got = true → same_outpoint want got' = true → outpoint got = outpoint got'.
Proof.
  unfold same_outpoint, outpoint, TxID.Equals, EqualFold.
  intros [[H1%bool_decide_eq_true H2%Z.eqb_eq]%andb_true_iff _]%andb_true_iff
    [[H3%bool_decide_eq_true H4%Z.eqb_eq]%andb_true_iff _]%andb_true_iff.
  congruence.
Qed.

(** A transaction that spends distinct outputs, as every Bitcoin transaction
    does, spends the inputs an item expects exactly when each expected input is
    one of its inputs, none standing for two, with the amount where both name
    one. *)
Theorem spent_inputs_iff (observed : list TxInput) (expected : list TxOutInput) :
  NoDup (map outpoint observed) →
  observedTxSpentTxOutInputs observed expected = true
  ↔ ∃ chosen rest, observed ≡ₚ (chosen ++ rest)%list
      ∧ Forall2 (λ want got, EqualFold (ti_TxId want) (in_TxId got) = true
          ∧ ti_Vout want = in_Vout got
          ∧ (ti_AmountSats want = 0 ∨ in_AmountSats got = 0
             ∨ ti_AmountSats want = in_AmountSats got)) expected chosen.
Proof.
  intros Hnd.
  assert (Heq : ∀ want got, same_outpoint want got = true
    ↔ EqualFold (ti_TxId want) (in_TxId got) = true ∧ ti_Vout want = in_Vout got
      ∧ (ti_AmountSats want = 0 ∨ in_AmountSats got = 0
         ∨ ti_AmountSats want = in_AmountSats got)).
  { intros. unfold same_outpoint, TxID.Equals.
    rewrite !andb_true_iff, !orb_true_iff, !Z.eqb_eq. tauto. }
  transitivity (matched_apart same_outpoint expected observed).
  - unfold observedTxSpentTxOutInputs. destruct expected as [|e es].
    { split; [|done]. intros _. exists [], observed. by split. }
    destruct observed as [|o os].
    + split; [done|]. intros (c & r & Hp & Hf). inversion Hf; subst.
      by apply Permutation_nil_cons in Hp.
    + split; [apply match_each_sound|].
      by apply (match_each_complete _ outpoint); [apply same_outpoint_key|].
  - unfold matched_apart. split; intros (chosen & rest & Hp & Hf); exists chosen, rest;
      (split; [done|]); (eapply Forall2_impl; [exact Hf|]); intros; by apply Heq.
Qed.

(** ** A batch is settled once *)

Section Batch.
Context `{Ext}.

(** The queue at a height. *)
Definition block_at (s : KVStore) (height : Z) : TxOut :=
  from_option (NewTxOut height) (kv_txout s !! ToUpper (itoa height)).
Lemma GetTxOut_run height s : GetTxOut height s = (Ok (block_at s height), s).
Proof. reflexivity. Qed.

(** What a stamp changes of an item. *)
Definition stamped (txID : string) (item item' : TxOutItem) : Prop :=
  ∃ vout, item' = item <| to_OutHash := txID |> <| to_OutVout := vout |>.

Lemma stamp_batch_stamped tx items : ∀ vout,
  Forall2 (stamped (tx_ID (ot_Tx tx))) items (stamp_batch tx vout items).
Proof.
  induction items as [|item items IH]; intros vout; cbn [stamp_batch]; [constructor|].
  destruct (btcBatchVinOnlyItem _); (constructor; [by eexists|apply IH]).
Qed.

Lemma expect_item_stamped tx root exp item item' e :
  TxID.IsEmpty (tx_ID (ot_Tx tx)) = false → stamped (tx_ID (ot_Tx tx)) item item' →
  expect_item tx root false (Some exp) item = Ok (Some e) →
  expect_item tx root true (Some exp) item' = Ok (Some e).
Proof.
  intros Hid [vout ->] He. unfold expect_item in *.
  destruct (negb (batch_item tx false item)) eqn:Hb; [done|].
  replace (negb (batch_item tx true _)) with false; [exact He|].
  apply negb_false_iff in Hb. symmetry. apply negb_false_iff. unfold batch_item in *.
  apply andb_true_iff in Hb as [Hb H1]. apply andb_true_iff in Hb as [Hb H2].
  apply andb_true_iff in Hb as [Hb H3]. apply andb_true_iff in Hb as [Hb H4].
  apply andb_true_iff in Hb as [_ H5].
  rewrite !andb_true_iff. rec_simpl. rewrite Hid. split_and!; try done.
  apply EqualFold_refl.
Qed.
Lemma expect_none tx root r items :
  rfold (expect_item tx root r) None items = Ok None.
Proof. by induction items. Qed.

Lemma expect_items_stamped tx root items : ∀ items' exp e,
  TxID.IsEmpty (tx_ID (ot_Tx tx)) = false →
  Forall2 (stamped (tx_ID (ot_Tx tx))) items items' →
  rfold (expect_item tx root false) (Some exp) items = Ok (Some e) →
  rfold (expect_item tx root true) (Some exp) items' = Ok (Some e).
Proof.
  intros items' exp e Hid Hf. revert exp. induction Hf as [|i i' l l' Hi _ IH]; intros exp Hr; [done|].
  cbn [rfold] in *. apply rbind_Ok in Hr as ([exp'|] & He & Hr).
  - rewrite (expect_item_stamped _ _ _ _ i' _ Hid Hi He). by apply IH.
  - by rewrite expect_none in Hr.
Qed.

Lemma expectations_stamped tx root txOut b exp :
  TxID.IsEmpty (tx_ID (ot_Tx tx)) = false →
  Forall2 (stamped (tx_ID (ot_Tx tx))) (txo_TxArray txOut) (txo_TxArray b) →
  btcEpochBatchExpectationsFor txOut tx root false = Ok (Some exp) →
  btcEpochBatchExpectationsFor b tx root true = Ok (Some exp).
Proof.
  intros Hid Hf. unfold btcEpochBatchExpectationsFor. intros (o & Hr & Ho)%rbind_Ok.
  destruct o as [exp'|]; [|done].
  by rewrite (expect_items_stamped _ _ _ _ _ _ Hid Hf Hr).
Qed.
Lemma shape_stamped tx root txOut b exp :
  Forall2 (stamped (tx_ID (ot_Tx tx))) (txo_TxArray txOut) (txo_TxArray b) →
  batch_shape b tx root exp = batch_shape txOut tx root exp.
Proof.
  intros Hf. unfold batch_shape, single_sweep.
  by inversion Hf as [|i i' l l' [vout ->] _ Heq1 Heq2].
Qed.

(** The block of a batch that matched is recognised as matched by it. *)
Lemma batch_stamped tx txOut b :
  TxID.IsEmpty (tx_ID (ot_Tx tx)) = false →
  Forall2 (stamped (tx_ID (ot_Tx tx))) (txo_TxArray txOut) (txo_TxArray b) →
  batch_matches txOut tx false = Ok true → observedOutboundAlreadyMatchedTxOutBatch b tx = Ok true.
Proof.
  intros Hid Hf. unfold observedOutboundAlreadyMatchedTxOutBatch. rewrite Hid.
  unfold batch_matches. rewrite <- (Forall2_length _ _ _ Hf).
  destruct (negb _ || _); [done|]. destruct (VaultPath.DeriveBTCTaprootAddress _ _) as [root|e|e]; [|done..].
  intros (o & Ho & Hm)%rbind_Ok. destruct o as [exp|]; [|done].
  rewrite (expectations_stamped _ _ _ _ _ Hid Hf Ho). cbn. by rewrite (shape_stamped _ _ _ _ _ Hf).
Qed.

(** A block whose first item is settled is no batch of any transaction. *)
Lemma batch_settled_block b tx item rest :
  txo_TxArray b = item :: rest → TxID.IsEmpty (to_OutHash item) = false →
  batch_matches b tx false = Ok false.
Proof.
  intros Hb Ho. unfold batch_matches, btcEpochBatchExpectationsFor. rewrite Hb.
  destruct (negb _ || _); [done|]. destruct (VaultPath.DeriveBTCTaprootAddress _ _) as [root|e|e]; [|done..].
  cbn [rfold]. unfold expect_item at 2, batch_item. rewrite Ho. cbn [andb negb].
  unfold mbind, res_bind. by rewrite expect_none.
Qed.

Lemma batch_nonempty txOut tx r : batch_matches txOut tx r = Ok true → txo_TxArray txOut ≠ [].
Proof. unfold batch_matches. intros Hm Hn. rewrite Hn, orb_true_r in Hm. done. Qed.

Lemma mark_settled_keeps item tx : keeps kv_txout (markMatchedTxOutItemSettled item tx).
Proof.
  unfold markMatchedTxOutItemSettled, settle_refund, settle_redeem, markDepositSweepComplete. frame_tac.
Qed.

(** What the store holds of a block after it was written. *)
Lemma SetTxOut_stored b s s' :
  txo_TxArray b ≠ [] → SetTxOut b s = (Ok tt, s') →
  txo_TxArray (block_at s' (txo_Height b)) = txo_TxArray b.
Proof.
  unfold SetTxOut, TxOut_IsEmpty. destruct (txo_TxArray b) as [|i l] eqn:E; [done|]. intros _.
  cbv zeta. cbn [length Nat.eqb]. set (b1 := if is_empty (txo_Status b) then _ else b).
  set (b2 := if txOutComplete b1 then _ else b1). unfold setShielderJSON, modify. intros [= <-].
  assert (Hh : txo_Height b2 = txo_Height b ∧ txo_TxArray b2 = i :: l).
  { subst b2 b1. by destruct (is_empty _), (txOutComplete _). }
  destruct Hh as [Hh Ht]. unfold block_at. rewrite <- Hh. rec_simpl.
  by rewrite lookup_insert_eq.
Qed.

Lemma signing_window_reads ctx s r s' : signing_window ctx s = (r, s') → s' = s.
Proof. apply (keeps_run (λ s, s)). unfold signing_window. frame_tac. Qed.

(** The items of a block that pay an output. *)
Definition paying (items : list TxOutItem) : list TxOutItem :=
  List.filter (λ item, negb (btcBatchVinOnlyItem item)) items.

Lemma stamp_vouts tx items : ∀ vout, 0 ≤ vout → vout + Z.of_nat (length items) < 2 ^ 32 →
  map to_OutVout (paying (stamp_batch tx vout items))
  = seqZ vout (Z.of_nat (length (paying items))).
Proof.
  induction items as [|item items IH]; intros vout H0 Hlt; [done|].
  cbn [stamp_batch]. cbv zeta. set (item' := item <| to_OutHash := tx_ID (ot_Tx tx) |>).
  cbn [length] in Hlt. unfold paying in *. cbn [List.filter].
  change (btcBatchVinOnlyItem item') with (btcBatchVinOnlyItem item).
  destruct (btcBatchVinOnlyItem item) eqn:E; cbn [List.filter negb].
  - change (btcBatchVinOnlyItem (item' <| to_OutVout := 0 |>)) with (btcBatchVinOnlyItem item).
    rewrite E. cbn [negb]. apply IH; lia.
  - change (btcBatchVinOnlyItem (item' <| to_OutVout := vout |>)) with (btcBatchVinOnlyItem item).
    rewrite E. cbn [negb map length]. unfold u32. rewrite Z.mod_small by lia.
    rewrite IH by lia. rewrite (seqZ_cons vout) by lia. f_equal. f_equal; lia.
Qed.

Lemma search_finds {A} (f : TxOut → KM (option A)) heights s h a :
  (∀ h, h ∈ heights → ∃ o, f (block_at s h) s = (Ok o, s)) →
  h ∈ heights → f (block_at s h) s = (Ok (Some a), s) →
  ∃ a', search f heights s = (Ok (Some a'), s).
Proof.
  intros Hok Hin Hf. induction heights as [|h0 heights IH]; [by apply not_elem_of_nil in Hin|].
  cbn [search]. rewrite (bind_run _ _ _ _ _ (GetTxOut_run h0 s)).
  destruct (Hok h0) as [o Ho]; [constructor|]. rewrite (bind_run _ _ _ _ _ Ho).
  destruct o as [a0|]; [by eexists|]. apply IH.
  - intros h1 Hh1. apply Hok. by constructor.
  - apply elem_of_cons in Hin as [->|Hin]; [by rewrite Hf in Ho|done].
Qed.

(** C17. One transaction settles one batch, and a batch is settled by one
    transaction.  When a transaction settles a batch, every item of the block
    takes its id and the items that pay an output are numbered in their order;
    from then on the block is no batch of any transaction, and seeing the
    transaction again while the block is in the signing window finds it matched
    and changes nothing. *)
Theorem batch_settled_once txOut tx s s' :
  TxID.IsEmpty (tx_ID (ot_Tx tx)) = false →
  markObservedOutboundTxOutBatch txOut tx s = (Ok true, s') →
  let items := txo_TxArray (block_at s' (txo_Height txOut)) in
  Forall2 (stamped (tx_ID (ot_Tx tx))) (txo_TxArray txOut) items
  ∧ (Z.of_nat (length items) < 2 ^ 32 →
     map to_OutVout (paying items) = seqZ 0 (Z.of_nat (length (paying (txo_TxArray txOut)))))
  ∧ (∀ tx' s0, markObservedOutboundTxOutBatch (block_at s' (txo_Height txOut)) tx' s0 = (Ok false, s0))
  ∧ (∀ ctx earliest heights,
     signing_window ctx s' = (Ok (earliest, heights), s') → txo_Height txOut ∈ heights →
     (∀ h, h ∈ heights → is_ok (observedOutboundAlreadyMatchedTxOut (block_at s' h) tx) = true) →
     markObservedOutboundTxOutStatus ctx tx s' = (Ok (true, false), s')).
Proof.
  intros Hid Hr. unfold markObservedOutboundTxOutBatch in Hr.
  apply bind_Ok in Hr as (m & s0 & [Hm ->]%lift_Ok & Hr). destruct m; [|go_inv; simplify_eq].
  cbn [negb] in Hr. cbv zeta in Hr. apply bind_Ok in Hr as ([] & s1 & Hset & Hr).
  apply bind_Ok in Hr as ([] & s2 & Hfor & [_ ->]%mret_Ok).
  apply (keeps_run kv_txout) in Hfor; [|apply keeps_mfor; intros; apply mark_settled_keeps].
  pose proof (stamp_batch_stamped tx (txo_TxArray txOut) 0) as Hst.
  pose proof (batch_nonempty _ _ _ Hm) as Hne.
  set (items' := stamp_batch tx 0 (txo_TxArray txOut)) in *.
  assert (Hb : txo_TxArray (block_at s2 (txo_Height txOut)) = items').
  { unfold block_at. rewrite Hfor. apply (SetTxOut_stored _ _ _) in Hset; [exact Hset|].
    rec_simpl. intros Hn. rewrite Hn in Hst. by inversion Hst. }
  rewrite Hb. split; [done|]. split; [|split].
  - intros Hlt. apply stamp_vouts; [done|]. by rewrite (Forall2_length _ _ _ Hst).
  - intros tx' s3. unfold markObservedOutboundTxOutBatch.
    destruct items' as [|i is'] eqn:Ei; [by inversion Hst|].
    rewrite (batch_settled_block _ tx' i is' Hb); [done|].
    inversion Hst as [|? ? ? ? [vout ->]]; subst. exact Hid.
  - intros ctx earliest heights Hw Hin Hok. unfold markObservedOutboundTxOutStatus.
    rewrite (bind_run _ _ _ _ _ Hw). cbv beta iota.
    destruct (search_finds (λ b, b ← lift (observedOutboundAlreadyMatchedTxOut b tx); mret (whether b))
      heights s2 (txo_Height txOut) tt) as [[] Hs]; [|done| |by rewrite (bind_run _ _ _ _ _ Hs)].
    + intros h Hh. specialize (Hok h Hh). unfold lift, mbind, M_bind, mret, M_ret.
      destruct (observedOutboundAlreadyMatchedTxOut _ _); [by eexists|done..].
    + unfold lift, mbind, M_bind. unfold observedOutboundAlreadyMatchedTxOut.
      rewrite <- Hb in Hst. by rewrite (batch_stamped _ _ _ Hid Hst Hm).
Qed.
End Batch.

(** ** A migration leaves its source vault once *)

Section Migration.
Context `{Ext}.

Lemma GetVault_stored ctx pk v s :
  kv_vault s !! ToUpper pk = Some v → PubKey.IsEmpty (va_PubKey v) = false → va_BlockHeight v ≠ 0 →
  GetVault ctx pk s = (Ok v, s).
Proof.
  intros Hv Hpk Hb. unfold GetVault. rewrite bind_run with (a := size (kv_vault_base_eddsa_index s)) (s1 := s)
    by reflexivity.
  cbn [GetVault_fuel]. unfold getShielderJSON. rewrite bind_run with (a := Some v) (s1 := s)
    by (by unfold gets; rewrite Hv).
  cbv beta iota zeta. rewrite Hpk. by rewrite (proj2 (Z.eqb_neq _ _) Hb).
Qed.

Lemma SetVault_stored v s s' :
  SetVault v s = (Ok tt, s') → kv_vault s' !! ToUpper (va_PubKey v) = Some v.
Proof.
  unfold SetVault. intros (? & s1 & _ & Hr)%bind_Ok. unfold setShielderJSON, modify in Hr.
  injection Hr as <-. rec_simpl. by rewrite lookup_insert_eq.
Qed.

Lemma pending_count h l : existsb (Z.eqb h) l = true ↔ (0 < count_occ Z.eq_dec l h)%nat.
Proof.
  rewrite existsb_exists. pose proof (count_occ_In Z.eq_dec l h) as Hc. split.
  - intros (x & Hin & ->%Z.eqb_eq). by apply Hc.
  - intros Hin%Hc. exists h. split; [done|]. apply Z.eqb_refl.
Qed.

Lemma settle_source_fields ctx h spent v :
  let v' := settle_source ctx h spent v in
  va_PubKey v' = va_PubKey v ∧ va_BlockHeight v' = va_BlockHeight v
  ∧ va_Coins v' = va_Coins (Vault.SubFunds v [NewCoin BTCAsset spent])
  ∧ va_PendingTxBlockHeights v' = va_PendingTxBlockHeights (Vault.RemovePendingTxBlockHeights v h).
Proof.
  cbv zeta. unfold settle_source, retire_if_empty.
  destruct (_ && _); [unfold Vault.UpdateStatus|]; by destruct v.
Qed.

(** C25. The inputs a migration spent leave the books of its source vault once
    for each height the vault is waiting for: settling the item takes exactly
    the amounts of its inputs off the vault's balance and the height off its
    list, and settling it again, when the height stood there once, does
    nothing. *)
Theorem migration_debited_once ctx h item v spent s s1 :
  str_eq (to_TxType item) TxOutTypeMigrate = true → to_SourceInputs item ≠ [] →
  rfold uint_add 0 (map ti_AmountSats (to_SourceInputs item)) = Ok spent → 0 < spent →
  kv_vault s !! ToUpper (to_VaultPubKey item) = Some v → va_PubKey v = to_VaultPubKey item →
  PubKey.IsEmpty (to_VaultPubKey item) = false → va_BlockHeight v ≠ 0 →
  count_occ Z.eq_dec (va_PendingTxBlockHeights v) h = 1%nat →
  SetVault (settle_source ctx h spent v) s = (Ok tt, s1) →
  settleBTCMigrationSourceVaultItem ctx h item s = (Ok true, s1)
  ∧ (∃ v', kv_vault s1 !! ToUpper (to_VaultPubKey item) = Some v'
       ∧ va_Coins v' = va_Coins (Vault.SubFunds v [NewCoin BTCAsset spent])
       ∧ vaultHasPendingTxHeight v' h = false)
  ∧ settleBTCMigrationSourceVaultItem ctx h item s1 = (Ok false, s1).
Proof.
  intros Ht Hin Hspent Hpos Hv Hpk Hne Hb Hocc Hset.
  destruct (settle_source_fields ctx h spent v) as (Fpk & Fb & Fc & Fp).
  pose proof (SetVault_stored _ _ _ Hset) as Hst. rewrite Fpk, Hpk in Hst.
  set (v' := settle_source ctx h spent v) in *.
  assert (Hp : vaultHasPendingTxHeight v h = true) by (apply pending_count; lia).
  assert (Hp' : vaultHasPendingTxHeight v' h = false).
  { unfold vaultHasPendingTxHeight. rewrite Fp. apply not_true_iff_false. rewrite pending_count.
    unfold Vault.RemovePendingTxBlockHeights. rec_simpl. rewrite VaultFacts.remove_first_count.
    destruct (Z.eq_dec h h); [lia|done]. }
  assert (Hrun : ∀ w s0, kv_vault s0 !! ToUpper (to_VaultPubKey item) = Some w →
    va_PubKey w = to_VaultPubKey item → va_BlockHeight w ≠ 0 →
    settleBTCMigrationSourceVaultItem ctx h item s0
    = (if negb (vaultHasPendingTxHeight w h) then mret false
       else r ← try (SetVault (settle_source ctx h spent w));
            mret (match r with Ok _ => true | _ => false end)) s0).
  { intros w s0 Hw Hwpk Hwb. unfold settleBTCMigrationSourceVaultItem. rewrite Ht, Hne.
    destruct (to_SourceInputs item) as [|i l]; [done|]. cbn [negb orb length Nat.eqb].
    rewrite Hspent, bind_run with (a := spent) (s1 := s0) by reflexivity.
    rewrite (proj2 (Z.eqb_neq _ _)) by lia.
    rewrite bind_run with (a := Ok w) (s1 := s0); [done|].
    unfold try. by rewrite (GetVault_stored ctx _ w s0 Hw) by congruence. }
  split; [|split].
  - rewrite (Hrun v s Hv Hpk Hb), Hp. cbn [negb]. fold v'.
    rewrite bind_run with (a := Ok tt) (s1 := s1); [done|]. unfold try. by rewrite Hset.
  - by exists v'.
  - rewrite (Hrun v' s1 Hst) by congruence. by rewrite Hp'.
Qed.
End Migration.

(** ** Concrete transactions *)

Module ToySettle.
Import ToyExt.
#[export] Existing Instance toy_ext.

Definition toy_payout (to inHash : string) (amount : Z) : TxOutItem :=
  TxOutItem_zero <| to_Chain := BTCChain |> <| to_ToAddress := to |> <| to_VaultPubKey := "v1" |>
    <| to_Coin := NewCoin BTCAsset amount |> <| to_MaxGas := [NewCoin BTCAsset 60] |>
    <| to_InHash := inHash |> <| to_TxType := TxOutTypeOut |>
    <| to_SourceInputs := [mkTxOutInput "AA" 0 2000 0] |>.
Definition toy_batch : TxOut :=
  (NewTxOut 20) <| txo_Status := TxOutStatusPendingSign |>
    <| txo_TxArray := [toy_payout "alice" "R1" 700; toy_payout "bob" "R2" 800] |>.
Definition toy_tx : ObservedTx :=
  ObservedTx_zero
    <| ot_Tx := mkTx "FEED" BTCChain "v10" "alice" [NewCoin BTCAsset 1500] [NewCoin BTCAsset 100]
                  0 [mkTxInput "AA" 0 2000] |>
    <| ot_ObservedPubKey := "v1" |> <| ot_BlockHeight := 100 |> <| ot_FinaliseHeight := 100 |>.
Definition toy_store : KVStore := KVStore_empty <| kv_txout := {[ "20" := toy_batch ]} |>.
Definition toy_settled : KVStore := (markObservedOutboundTxOutBatch toy_batch toy_tx toy_store).2.
End ToySettle.

Section Concrete.
Import ToySettle.

Lemma spent_inputs_iff_witness :
  observedTxSpentTxOutInputs [mkTxInput "aa" 0 2000; mkTxInput "BB" 1 5] [mkTxOutInput "AA" 0 2000 0]
  = true.
Proof.
  apply (spent_inputs_iff [mkTxInput "aa" 0 2000; mkTxInput "BB" 1 5] [mkTxOutInput "AA" 0 2000 0]).
  - apply NoDup_cons; split; [|apply NoDup_singleton]. vm_compute. intros Hin.
    apply list_elem_of_singleton in Hin. discriminate.
  - exists [mkTxInput "aa" 0 2000], [mkTxInput "BB" 1 5]. split; [reflexivity|].
    constructor; [|constructor]. vm_compute. auto.
Defined.

Lemma batch_settled_once_witness :
  map (λ i, (to_OutHash i, to_OutVout i)) (txo_TxArray (block_at toy_settled 20))
    = [("FEED", 0); ("FEED", 1)]
  ∧ markObservedOutboundTxOutStatus (mkCtx 25) toy_tx toy_settled = (Ok (true, false), toy_settled).
Proof.
  split; [vm_compute; reflexivity|].
  assert (Hrun0 : (markObservedOutboundTxOutBatch toy_batch toy_tx toy_store).1 = Ok true)
    by (vm_compute; reflexivity).
  assert (Hrun : markObservedOutboundTxOutBatch toy_batch toy_tx toy_store = (Ok true, toy_settled))
    by exact (run_ok _ _ _ Hrun0).
  assert (Hw : (signing_window (mkCtx 25) toy_settled).1
    = Ok (1, seqZ 1 25)) by (vm_compute; reflexivity).
  pose proof (run_ok _ _ _ Hw) as Hw2. rewrite (signing_window_reads _ _ _ _ Hw2) in Hw2.
  assert (Hid : TxID.IsEmpty (tx_ID (ot_Tx toy_tx)) = false) by reflexivity.
  destruct (batch_settled_once toy_batch toy_tx toy_store toy_settled Hid Hrun)
    as (_ & _ & _ & Hagain).
  apply (Hagain (mkCtx 25) 1 (seqZ 1 25) Hw2).
  - apply elem_of_seqZ. vm_compute. split; [discriminate|reflexivity].
  - intros h Hin.
    assert (Hall : forallb (λ h, is_ok (observedOutboundAlreadyMatchedTxOut (block_at toy_settled h) toy_tx))
      (seqZ 1 25) = true) by (vm_compute; reflexivity).
    rewrite forallb_forall in Hall. apply Hall. by apply list_elem_of_In.
Defined.

Definition toy_migration : TxOutItem :=
  (toy_payout "w0" "" 1900) <| to_TxType := TxOutTypeMigrate |>.
Definition toy_source : Vault :=
  Vault_zero <| va_PubKey := "v1" |> <| va_BlockHeight := 1 |> <| va_Status := RetiringVault |>
    <| va_Coins := [NewCoin BTCAsset 5000] |> <| va_PendingTxBlockHeights := [20] |>.
Definition source_store : KVStore := KVStore_empty <| kv_vault := {[ "V1" := toy_source ]} |>.

Lemma migration_debited_once_witness :
  ∃ s1, settleBTCMigrationSourceVaultItem (mkCtx 25) 20 toy_migration source_store = (Ok true, s1)
    ∧ (∃ v', kv_vault s1 !! "V1" = Some v' ∧ va_Coins v' = [NewCoin BTCAsset 3000]
         ∧ vaultHasPendingTxHeight v' 20 = false)
    ∧ settleBTCMigrationSourceVaultItem (mkCtx 25) 20 toy_migration s1 = (Ok false, s1).
Proof.
  set (run := SetVault (settle_source (mkCtx 25) 20 2000 toy_source) source_store).
  assert (Hrun : run.1 = Ok tt) by (vm_compute; reflexivity).
  exists run.2.
  apply (migration_debited_once (mkCtx 25) 20 toy_migration toy_source 2000 source_store run.2);
    [vm_compute; reflexivity|vm_compute; discriminate|vm_compute; reflexivity|lia
    |vm_compute; reflexivity|reflexivity|reflexivity|discriminate|reflexivity|exact (run_ok _ _ _ Hrun)].
Defined.
End Concrete.
