(* ===== verification/Observe.v ===== *)
(** * Observing transactions (handler_observed_tx_helpers.go, handler_observed_txin.go,
      handler_observed_txout.go, handler_observed_tx_quorum.go, manager_observer_current.go,
      manager_penalty_current.go, manager_gas_current.go)

The nodes attest to the transactions they see on the chain of the vaults.
Attestations are collected by voter; the one that makes a majority triggers
the effects: an inbound credits its vault and is matched as a deposit, an
outbound settles the queue and debits its vault.  Every attestation costs
penalty points, returned when it agrees with the majority in time. *)

From S2P Require Import Prelude GoStrings Config Common Types Vaults Voters Keeper BtcBatch GasMgr Outbounds Notes Redeem Deposits Settle.

(** ** The observers of a block *)

Module Observers.
(** The addresses that observed each chain in this block. *)
Definition t := gmap string (list string).

Definition AppendObserver (om : t) (chain : string) (addrs : list string) : t :=
  <[chain := foldl TxVoter.add_new [] (default [] (om !! chain) ++ addrs)%list]> om.

Definition tracker (om : t) : gmap string Z :=
  foldl (λ counts addr, <[addr := default 0 (counts !! addr) + 1]> counts) ∅
    (concat (sorted_values om)).

(** Those which observed every chain, sorted. *)
Definition List (om : t) : list string :=
  insert_sort str_lt
    (omap (λ '(key, count), if Z.of_nat (size om) <=? count then Some key else None)
      (sorted_items (tracker om))).

Definition EndBlock (om : t) : KM t :=
  _ ← AddObservingAddresses (List om); mret ∅.
End Observers.

(** The store with the managers that live in memory. *)
Record Mgr := mkMgr { mg_store : KVStore; mg_observers : Observers.t; mg_gas : GasMgr.t }.
#[export] Instance Mgr_eta : Eta Mgr := fun r => mkMgr (mg_store r) (mg_observers r) (mg_gas r).
Abbreviation OM := (M Mgr).

Definition on_store {A} (m : KM A) : OM A := λ g,
  let '(r, s) := m (mg_store g) in (r, g <| mg_store := s |>).
Definition AppendObserver (chain : string) (addrs : list string) : OM unit :=
  modify (λ g, g <| mg_observers := Observers.AppendObserver (mg_observers g) chain addrs |>).
Definition AddGasAsset (outAsset : Asset) (gas : list Coin) (increaseTxCount : bool) : OM unit :=
  g ← gets mg_gas;
  g ← lift (GasMgr.AddGasAsset g outAsset gas increaseTxCount);
  modify (set_field mg_gas (λ _, g)).

(** ** Penalty points *)

Definition IncPenaltyPoints (point : Z) (addresses : list string) : KM unit :=
  mfor (λ addr, IncNodeAccountPenaltyPoints addr point) addresses.
Definition DecPenaltyPoints (point : Z) (addresses : list string) : KM unit :=
  mfor (λ addr, DecNodeAccountPenaltyPoints addr point) addresses.

Definition getNonSigners (nas : list NodeAccount) (signers : list string) : list string :=
  map na_NodeAddress
    (List.filter (λ na, negb (existsb (Acc_Equals (na_NodeAddress na)) signers)) nas).

#[export] Instance Tx_eta : Eta Tx := fun r =>
  mkTx (tx_ID r) (tx_Chain r) (tx_FromAddress r) (tx_ToAddress r) (tx_Coins r) (tx_Gas r)
    (tx_SourceVout r) (tx_SourceInputs r).
#[export] Instance TxInput_eq_dec : EqDecision TxInput.
Proof. solve_decision. Defined.

Section Observe.
Context `{Ext}.

(** ** Repeated attestations (ante.go) *)

Definition btcSourceInputsEqual (existing replay : list TxInput) : bool :=
  bool_decide (existing = replay).

Definition matchingExactObservedTxReplay (existing tx : ObservedTx) (signer : string) : bool :=
  negb (Observed.IsEmpty existing) && HasSigned existing signer && Observed.Equals existing tx
  && btcSourceInputsEqual (tx_SourceInputs (ot_Tx existing)) (tx_SourceInputs (ot_Tx tx)).

Definition matchingFinalBTCObservedTxReplay (existing tx : ObservedTx) (signer : string) : bool :=
  Observed.IsFinal existing && HasSigned existing signer
  && PubKey.Equals (ot_ObservedPubKey existing) (ot_ObservedPubKey tx)
  && Tx.EqualsEx (ot_Tx existing) (ot_Tx tx)
  && btcSourceInputsEqual (tx_SourceInputs (ot_Tx existing)) (tx_SourceInputs (ot_Tx tx)).

Definition matchingFinalBTCSourceInputReplay (existing tx : ObservedTx) (signer : string) : bool :=
  negb (length (tx_SourceInputs (ot_Tx existing)) =? 0)%nat
  && negb (length (tx_SourceInputs (ot_Tx tx)) =? 0)%nat
  && matchingFinalBTCObservedTxReplay existing tx signer.

Definition among (f : ObservedTx → bool) (voter : ObservedTxVoter) : bool :=
  f (ov_Tx voter) || existsb f (ov_Txs voter).

Definition isExactObservedTxReplay (voter : ObservedTxVoter) (tx : ObservedTx) (signer : string)
    : bool :=
  among (λ existing, matchingExactObservedTxReplay existing tx signer) voter.
Definition isFinalBTCObservedTxReplay (voter : ObservedTxVoter) (tx : ObservedTx) (signer : string)
    : bool :=
  Observed.IsFinal tx && of_bitcoin tx
  && among (λ existing, matchingFinalBTCObservedTxReplay existing tx signer) voter.
Definition isFinalBTCSourceInputReplay (voter : ObservedTxVoter) (tx : ObservedTx) (signer : string)
    : bool :=
  Observed.IsFinal tx && of_bitcoin tx && negb (length (tx_SourceInputs (ot_Tx tx)) =? 0)%nat
  && among (λ existing, matchingFinalBTCSourceInputReplay existing tx signer) voter.

(** ** One attestation *)

Record Policy := mkPolicy {
  po_submit : Z;      (** [Observation_SubmitPenaltyPoints] *)
  po_miss : Z;        (** [Observation_MissPenaltyPoints] *)
  po_flex : Z         (** [Observation_DelayFlexibilityMinutes], in blocks *)
}.
Definition policy : KM Policy :=
  submit ← GetConfigInt64 Observation_SubmitPenaltyPoints;
  miss ← GetConfigInt64 Observation_MissPenaltyPoints;
  flex ← getConfigDurationBlocks Observation_DelayFlexibilityMinutes;
  mret (mkPolicy submit miss flex).

(** The heights recorded when a majority is first reached. *)
Definition first_heights (ctx : Ctx) (voter : ObservedTxVoter) : ObservedTxVoter :=
  let voter := voter <| ov_Height := BlockHeight ctx |> in
  if ov_UnfinalizedHeight voter =? 0
  then voter <| ov_UnfinalizedHeight := ov_Height voter |> else voter.
Definition take_consensus (nas : list NodeAccount) (voter : ObservedTxVoter) : ObservedTxVoter :=
  voter <| ov_Tx := TxVoter.GetTx voter nas |>.

(** The majority gets its points back, the others pay for missing it. *)
Definition reward_majority (p : Policy) (nas : list NodeAccount) (voter : ObservedTxVoter) : KM unit :=
  let signers := TxVoter.GetConsensusSigners voter in
  _ ← DecPenaltyPoints (po_submit p) signers;
  IncPenaltyPoints (po_miss p) (getNonSigners nas signers).

(** The transaction the majority agreed on, attested late but in time. *)
Definition in_time (ctx : Ctx) (p : Policy) (since : Z) (voter : ObservedTxVoter) (tx : ObservedTx)
    (signer : string) : bool :=
  (BlockHeight ctx <=? since +i po_flex p)
  && Bool.eqb (Observed.IsFinal (ov_Tx voter)) (Observed.IsFinal tx)
  && Tx.EqualsEx (ot_Tx (ov_Tx voter)) (ot_Tx tx)
  && negb (HasSigned (ov_Tx voter) signer).

Definition join_late (ctx : Ctx) (p : Policy) (since : Z) (voter : ObservedTxVoter)
    (tx : ObservedTx) (signer : string) : KM ObservedTxVoter :=
  if in_time ctx p since voter tx signer then
    let seen := ov_Tx voter in
    _ ← DecPenaltyPoints (po_submit p +i po_miss p) [signer];
    mret (voter <| ov_Tx := seen <| ot_Signers := (ot_Signers seen ++ [signer])%list |> |>)
  else mret voter.

(** A majority that is not final yet; the flag is whether this attestation made
    it. *)
Definition preliminary (ctx : Ctx) (p : Policy) (nas : list NodeAccount) (voter : ObservedTxVoter)
    (tx : ObservedTx) (signer : string) : KM (ObservedTxVoter * bool) :=
  if ov_Height voter =? 0 then
    let voter := take_consensus nas (first_heights ctx voter) in
    _ ← reward_majority p nas voter;
    mret (voter, true)
  else
    voter ← join_late ctx p (ov_Height voter) voter tx signer;
    mret (voter, false).

Definition is_preliminary (nas : list NodeAccount) (voter : ObservedTxVoter) (tx : ObservedTx) : bool :=
  TxVoter.HasConsensus voter nas && negb (Observed.IsFinal tx) && (ov_FinalisedHeight voter =? 0).

(** What every attestation does first: its height and its price. *)
Definition attest (p : Policy) (tx : ObservedTx) (signer : string) : KM unit :=
  _ ← (if 0 <? ot_BlockHeight tx
       then SetLastObserveHeight (tx_Chain (ot_Tx tx)) signer (ot_BlockHeight tx) else mret tt);
  IncPenaltyPoints (po_submit p) [signer].

(** A repeated attestation is free where it is no fault of the node. *)
Definition duplicate (p : Policy) (voter : ObservedTxVoter) (tx : ObservedTx) (signer : string)
    (shouldPenalizeForDuplicate : bool) : KM unit :=
  if negb shouldPenalizeForDuplicate || isExactObservedTxReplay voter tx signer
     || isFinalBTCObservedTxReplay voter tx signer
  then DecPenaltyPoints (po_submit p) [signer] else mret tt.

Definition finalise_in (ctx : Ctx) (p : Policy) (nas : list NodeAccount) (voter : ObservedTxVoter)
    (tx : ObservedTx) (signer : string) : KM (ObservedTxVoter * bool) :=
  if negb (TxVoter.HasFinalised voter nas) then mret (voter, false)
  else if ov_FinalisedHeight voter =? 0 then
    let voter := (first_heights ctx voter) <| ov_FinalisedHeight := BlockHeight ctx |> in
    let voter := take_consensus nas voter in
    _ ← reward_majority p nas voter;
    mret (voter, true)
  else
    voter ← join_late ctx p (ov_FinalisedHeight voter) voter tx signer;
    mret (voter, false).

Definition processTxInAttestation (ctx : Ctx) (voter : ObservedTxVoter) (nas : list NodeAccount)
    (tx : ObservedTx) (signer : string) (shouldPenalizeForDuplicate : bool)
    : KM (ObservedTxVoter * bool) :=
  p ← policy;
  _ ← attest p tx signer;
  let '(added, voter) := TxVoter.Add voter tx signer in
  if negb added then
    _ ← duplicate p voter tx signer shouldPenalizeForDuplicate; mret (voter, false)
  else
    '(voter, ok) ← finalise_in ctx p nas voter tx signer;
    '(voter, ok) ← (if negb ok && is_preliminary nas voter tx
                    then preliminary ctx p nas voter tx signer else mret (voter, ok));
    _ ← SetObservedTxInVoter voter;
    mret (voter, ok).

(** ** One attestation to an outbound *)

Definition countMatchingSigners (voter : ObservedTxVoter) (tx : ObservedTx) (nas : list NodeAccount) : Z :=
  let matching := List.filter (λ otherTx,
    Bool.eqb (Observed.IsFinal otherTx) (Observed.IsFinal tx)
    && Tx.EqualsEx (ot_Tx otherTx) (ot_Tx tx)) (ov_Txs voter) in
  Z.of_nat (size (list_to_set (List.filter (IsNodeKeys nas) (concat (map GetSigners matching)))
                  : gset string)).

(** One gas coin of the corrected transaction: more gas leaves the vault, less
    comes back. *)
Definition correct_coin (oldGas : list Coin) (acc : Vault * list Coin) (newGasCoin : Coin)
    : res (Vault * list Coin) :=
  let '(vault, additionalGas) := acc in
  let oldAmount := c_Amount (Coins.GetCoin (Gas.ToCoins oldGas) (c_Asset newGasCoin)) in
  let newAmount := c_Amount newGasCoin in
  if oldAmount <? newAmount then
    let delta := NewCoin (c_Asset newGasCoin) (newAmount - oldAmount) in
    additionalGas ← Gas.Add additionalGas [delta];
    Ok (Vault.SubFunds vault [delta], additionalGas)
  else if newAmount <? oldAmount then
    vault ← Vault.AddFunds vault [NewCoin (c_Asset newGasCoin) (oldAmount - newAmount)];
    Ok (vault, additionalGas)
  else Ok (vault, additionalGas).

Definition first_asset (tx : ObservedTx) : Asset :=
  match tx_Coins (ot_Tx tx) with coin :: _ => c_Asset coin | [] => EmptyAsset end.

Definition correctOutboundGas (ctx : Ctx) (consensusTx correctedTx : ObservedTx) : OM unit :=
  r ← on_store (try (GetVault ctx (ot_ObservedPubKey correctedTx)));
  match r with
  | Ok vault =>
      '(vault, additionalGas) ← lift (rfold (correct_coin (tx_Gas (ot_Tx consensusTx))) (vault, [])
                                       (tx_Gas (ot_Tx correctedTx)));
      r ← on_store (try (SetVault vault));
      match r with
      | Ok _ =>
          if Gas.IsEmpty additionalGas || Vault.status_eqb (va_Status vault) InactiveVault then mret tt
          else AddGasAsset (first_asset correctedTx) additionalGas false
      | _ => mret tt
      end
  | _ => mret tt
  end.

(** The same transaction with another gas, once a majority reports it. *)
Definition correct_gas (ctx : Ctx) (nas : list NodeAccount) (applies : bool)
    (voter : ObservedTxVoter) (tx : ObservedTx) : OM ObservedTxVoter :=
  let seen := ov_Tx voter in
  if applies && negb (Gas.Equals (tx_Gas (ot_Tx seen)) (tx_Gas (ot_Tx tx)))
     && Tx.EqualsExIgnoreGas (ot_Tx seen) (ot_Tx tx)
     && HasSuperMajority (countMatchingSigners voter tx nas) (Z.of_nat (length nas))
  then
    _ ← correctOutboundGas ctx seen tx;
    let corrected := (ot_Tx seen) <| tx_Gas := tx_Gas (ot_Tx tx) |> in
    mret (voter <| ov_Tx := seen <| ot_Tx := corrected |> |>)
  else mret voter.

Definition finalise_out (ctx : Ctx) (p : Policy) (nas : list NodeAccount) (voter : ObservedTxVoter)
    (tx : ObservedTx) (signer : string) : OM (ObservedTxVoter * bool) :=
  if negb (TxVoter.HasFinalised voter nas) then mret (voter, false)
  else
    '(voter, ok) ←
      (if ov_FinalisedHeight voter =? 0 then
         let first := ov_Height voter =? 0 in
         let voter := if first then first_heights ctx voter else voter in
         let voter := take_consensus nas (voter <| ov_FinalisedHeight := BlockHeight ctx |>) in
         _ ← on_store (reward_majority p nas voter);
         mret (voter, first)
       else
         voter ← on_store (join_late ctx p (ov_FinalisedHeight voter) voter tx signer);
         mret (voter, false));
    voter ← correct_gas ctx nas
      ((0 <? ov_FinalisedHeight voter)
       && Bool.eqb (Observed.IsFinal (ov_Tx voter)) (Observed.IsFinal tx)) voter tx;
    mret (voter, ok).

Definition processTxOutAttestation (ctx : Ctx) (voter : ObservedTxVoter) (nas : list NodeAccount)
    (tx : ObservedTx) (signer : string) (shouldPenalizeForDuplicate : bool)
    : OM (ObservedTxVoter * bool) :=
  p ← on_store policy;
  _ ← on_store (attest p tx signer);
  let '(added, voter) := TxVoter.Add voter tx signer in
  if negb added then
    _ ← on_store (duplicate p voter tx signer shouldPenalizeForDuplicate); mret (voter, false)
  else
    '(voter, ok) ← finalise_out ctx p nas voter tx signer;
    '(voter, ok) ←
      (if negb ok && is_preliminary nas voter tx then
         '(voter, ok) ← on_store (preliminary ctx p nas voter tx signer);
         voter ← correct_gas ctx nas (0 <? ov_Height voter) voter tx;
         mret (voter, ok)
       else mret (voter, ok));
    _ ← on_store (SetObservedTxOutVoter voter);
    mret (voter, ok).

(** ** The voters *)

Definition ensureVaultAndGetTxInVoter (vaultPubKey txID : string) : KM ObservedTxVoter :=
  exists_vault ← VaultExists vaultPubKey;
  _ ← fail_if (negb exists_vault) "vault not found for observed tx in pubkey";
  GetObservedTxInVoter txID.

Definition ensureVaultAndGetTxOutVoter (vaultPubKey txID : string) (observers : list string)
    (keysignMs : Z) : KM ObservedTxVoter :=
  exists_vault ← VaultExists vaultPubKey;
  _ ← fail_if (negb exists_vault) "vault not found for observed tx out pubkey";
  _ ← (if 0 <? keysignMs then
         keysignMetric ← GetFrostKeysignMetric txID;
         SetFrostKeysignMetric
           (foldl (λ m o, FrostMetrics.AddNodeFrostTime m o keysignMs) keysignMetric observers)
       else mret tt);
  GetObservedTxOutVoter txID.

(** ** Quorum on an inbound *)

Section Inbound.
Context `{BtcWire} `{AccBytes}.

(** The voter is processed again under the migration it belongs to. *)
Definition replay_inbound (ctx : Ctx) (voter : ObservedTxVoter) (tx : ObservedTx)
    (observers : list string) : OM unit :=
  _ ← (if (ov_Height voter =? BlockHeight ctx) || (ov_FinalisedHeight voter =? BlockHeight ctx)
       then AppendObserver (tx_Chain (ot_Tx tx)) observers else mret tt);
  if (0 <? ov_FinalisedHeight voter) && Observed.IsFinal tx then
    migration ← on_store (observedBTCMigrationInbound ctx tx);
    if (migration : bool) then _ ← on_store (settleBTCMigrationSourceVault ctx tx); mret tt
    else mret tt
  else mret tt.

(** The vault receives the coins of a final transaction once. *)
Definition credit_inbound (finalised creditedByOutbound : bool) (vault : Vault)
    (voter : ObservedTxVoter) (tx : ObservedTx) : res (Vault * ObservedTxVoter) :=
  if finalised && Vault.IsBase vault && negb (ov_UpdatedVault voter) then
    if creditedByOutbound then Ok (vault, voter <| ov_UpdatedVault := true |>)
    else if to_itself tx then Ok (vault, voter)
    else vault ← credit_vault tx vault; Ok (vault, voter <| ov_UpdatedVault := true |>)
  else Ok (vault, voter).

Definition account_inbound (ctx : Ctx) (hasFinalised : bool) (vault : Vault)
    (voter : ObservedTxVoter) (tx : ObservedTx) : KM (Vault * ObservedTxVoter) :=
  migration ← (if of_bitcoin tx then observedBTCMigrationInbound ctx tx else mret false);
  creditedByOutbound ← (if (migration : bool) then btcMigrationDestinationCreditedByOutbound tx
                            else mret false);
  '(vault, voter) ← lift (credit_inbound hasFinalised creditedByOutbound vault voter tx);
  '(vault, voter) ← creditBTCMigrationInboundDestination ctx vault voter tx;
  _ ← (if hasFinalised then
         migration ← observedBTCMigrationInbound ctx tx;
         if (migration : bool) then _ ← settleBTCMigrationSourceVault ctx tx; mret tt else mret tt
       else mret tt);
  _ ← (if 0 <? ot_BlockHeight tx then
         _ ← try (SetLastChainHeight (tx_Chain (ot_Tx tx)) (ot_BlockHeight tx)); mret tt
       else mret tt);
  mret (vault, voter).

Definition set_done_in (voter : ObservedTxVoter) : KM unit :=
  SetObservedTxInVoter (TxVoter.SetDone voter).

(** Runs [m]; when it succeeds the voter is done and the rest is skipped. *)
Definition or_else (m : KM unit) (voter : ObservedTxVoter) (rest : KM unit) : KM unit :=
  r ← try m;
  match r with Ok _ => set_done_in voter | _ => rest end.

Definition root_address (tx : ObservedTx) : option string :=
  match VaultPath.DeriveBTCTaprootAddress (ot_ObservedPubKey tx) VaultPath.MainVaultPathIndex with
  | Ok rootAddr => Some rootAddr
  | _ => None
  end.
Definition to_root (tx : ObservedTx) : bool :=
  match root_address tx with
  | Some rootAddr => Address.Equals (tx_ToAddress (ot_Tx tx)) rootAddr
  | None => false
  end.

(** A payment to the main address of a live vault is sent back. *)
Definition is_direct (ctx : Ctx) (hasFinalised : bool) (vault : Vault) (tx : ObservedTx) : KM bool :=
  if hasFinalised && of_bitcoin tx && Vault.IsBase vault
     && (Vault.status_eqb (va_Status vault) ActiveVault
         || Vault.status_eqb (va_Status vault) RetiringVault)
     && negb (to_itself tx)
  then
    migration ← observedBTCMigrationInbound ctx tx;
    mret (negb migration && to_root tx)
  else mret false.

(** A payment to the main address of a vault that is not the current one. *)
Definition is_old_root (ctx : Ctx) (tx : ObservedTx) : KM bool :=
  if of_bitcoin tx then
    current ← try (currentBTCVaultAddress ctx);
    mret (match current with
          | Ok (currentVault, _) =>
              to_root tx && negb (PubKey.Equals (ot_ObservedPubKey tx) (va_PubKey currentVault))
          | _ => false
          end)
  else mret false.

Definition sweep_root (ctx : Ctx) (voter : ObservedTxVoter) (tx : ObservedTx) : KM unit :=
  queueVaultPathSweep ctx (ov_Tx voter) (ot_ObservedPubKey tx) VaultPath.MainVaultPathIndex.

(** What becomes of the final transaction. *)
Definition dispose_inbound (ctx : Ctx) (vault : Vault) (voter : ObservedTxVoter) (tx : ObservedTx)
    : KM unit :=
  r ← try (MatchCoreDeposit ctx (ov_Tx voter));
  match r with
  | Ok _ => set_done_in voter
  | _ =>
      old_root ← is_old_root ctx tx;
      let rest :=
        if Vault.status_eqb (va_Status vault) InactiveVault then
          if of_bitcoin tx then or_else (sweep_root ctx voter tx) voter (mret tt) else mret tt
        else set_done_in voter in
      if (old_root : bool) then or_else (sweep_root ctx voter tx) voter rest else rest
  end.

Definition deposit_inbound (ctx : Ctx) (hasFinalised : bool) (vault : Vault)
    (voter : ObservedTxVoter) (tx : ObservedTx) : KM unit :=
  direct ← is_direct ctx hasFinalised vault tx;
  let rest :=
    _ ← try (RecordDepositObservation (ov_Tx voter) hasFinalised);
    if negb hasFinalised then mret tt else dispose_inbound ctx vault voter tx in
  if (direct : bool) then or_else (queueDirectBaseVaultDepositReturn ctx (ov_Tx voter) vault) voter rest
  else rest.

Definition handleObservedTxInQuorum (ctx : Ctx) (activeNodeAccounts : list NodeAccount)
    (tx : ObservedTx) (voter : ObservedTxVoter) (observers : list string) (isQuorum : bool)
    : OM unit :=
  if negb isQuorum then replay_inbound ctx voter tx observers
  else if ov_Reverted voter then mret tt
  else
    r ← on_store (try (GetVault ctx (ot_ObservedPubKey tx)));
    match r with
    | Ok vault =>
        let hasFinalised := TxVoter.HasFinalised voter activeNodeAccounts in
        '(vault, voter) ← on_store (account_inbound ctx hasFinalised vault voter tx);
        _ ← on_store (SetObservedTxInVoter voter);
        r ← on_store (try (SetVault vault));
        match r with
        | Ok _ =>
            if negb (Vault.IsBase vault) then mret tt
            else
              _ ← AppendObserver (tx_Chain (ot_Tx tx)) (GetSigners (ov_Tx voter));
              on_store (deposit_inbound ctx hasFinalised vault voter tx)
        | _ => mret tt
        end
    | _ => mret tt
    end.
End Inbound.

(** ** Quorum on an outbound *)

(** The gas leaves the vault; that of a live vault is to be reimbursed. *)
Definition addGasFees (ctx : Ctx) (tx : ObservedTx) : OM unit :=
  let gas := tx_Gas (ot_Tx tx) in
  if Gas.IsEmpty gas then mret tt
  else
    known ← on_store (VaultExists (ot_ObservedPubKey tx));
    if negb known then mret tt
    else
      vault ← on_store (GetVault ctx (ot_ObservedPubKey tx));
      let vault := Vault.SubFunds vault (Gas.ToCoins gas) in
      _ ← on_store (SetVault vault);
      if Vault.status_eqb (va_Status vault) InactiveVault then mret tt
      else AddGasAsset (first_asset tx) gas true.

Definition haltBTCVaultForIssue (ctx : Ctx) : KM unit :=
  _ ← SetConfig ("HaltSigning" ++ BTCChain) (BlockHeight ctx);
  SetConfig (ConfigName_String Halt_SolvencyCheck) (BlockHeight ctx).

Definition btcUnmatchedOutboundGraceBlocks : Z := 1.

(** A final transaction nothing in the queue explains: the first time its height
    is noted, later the vault is halted. *)
Definition unmatched_outbound (ctx : Ctx) (tx : ObservedTx) : KM unit :=
  firstUnmatched ← GetUnmatchedOutboundHeight (tx_ID (ot_Tx tx));
  if firstUnmatched =? 0 then SetUnmatchedOutboundHeight (tx_ID (ot_Tx tx)) (BlockHeight ctx)
  else if firstUnmatched +i btcUnmatchedOutboundGraceBlocks <? BlockHeight ctx
  then haltBTCVaultForIssue ctx
  else mret tt.

(** A chain whose transaction was seen is no longer frozen. *)
Fixpoint remove_chain (chain : string) (frozen : list string) : list string :=
  match frozen with
  | [] => []
  | c :: frozen => if EqualFold chain c then frozen else c :: remove_chain chain frozen
  end.
Definition unfreeze (tx : ObservedTx) (vault : Vault) : Vault :=
  vault <| va_Frozen := foldl (λ frozen coin, remove_chain (a_Chain (c_Asset coin)) frozen)
                          (va_Frozen vault) (tx_Coins (ot_Tx tx)) |>.

Definition debit_outbound (ctx : Ctx) (tx : ObservedTx) : KM unit :=
  r ← try (GetVault ctx (ot_ObservedPubKey tx));
  match r with
  | Ok vault =>
      _ ← try (SetVault (unfreeze tx (retire_if_empty ctx (debit_vault tx true vault))));
      mret tt
  | _ => mret tt
  end.

Definition replay_outbound (ctx : Ctx) (tx : ObservedTx) (voter : ObservedTxVoter)
    (observers : list string) : OM unit :=
  _ ← (if (ov_Height voter =? BlockHeight ctx) || (ov_FinalisedHeight voter =? BlockHeight ctx)
       then AppendObserver (tx_Chain (ot_Tx tx)) observers else mret tt);
  repaired ← on_store (repairRevertedObservedOutbound ctx voter tx);
  if (repaired : bool) then mret tt
  else if 0 <? ov_FinalisedHeight voter then
    let replayTx := txForOutboundReplayMatch voter tx in
    matched ← on_store (markObservedOutboundTxOut ctx replayTx);
    if matched || negb (length (tx_SourceInputs (ot_Tx replayTx)) =? 0)%nat
    then _ ← on_store (repairBTCInternalOutboundReplay ctx replayTx); mret tt
    else mret tt
  else if Observed.IsFinal tx then _ ← on_store (markObservedOutboundTxOut ctx tx); mret tt
  else mret tt.

(** The match in the queue and what a migration moves; the flags are whether it
    matched and whether the source vault was settled here. *)
Definition match_outbound (ctx : Ctx) (tx : ObservedTx) (voter : ObservedTxVoter)
    : KM (bool * bool * ObservedTxVoter) :=
  '(matchedTxOut, _) ← markObservedOutboundTxOutStatus ctx tx;
  if (matchedTxOut : bool) then
    _ ← DeleteUnmatchedOutbound (tx_ID (ot_Tx tx));
    '(_, voter) ← creditBTCMigrationDestination ctx voter tx;
    settled ← settleBTCMigrationSourceVault ctx tx;
    mret (true, settled, voter)
  else mret (false, false, voter).

(** The accounts of the vault, once for each voter. *)
Definition account_outbound (ctx : Ctx) (tx : ObservedTx) (voter : ObservedTxVoter)
    (migrationSourceSettled : bool) : OM unit :=
  _ ← (if migrationSourceSettled then mret tt
       else
         _ ← try (addGasFees ctx tx);
         on_store (debit_outbound ctx tx));
  on_store (SetObservedTxOutVoter (TxVoter.SetDone voter)).

Definition append_signers (tx txOut : ObservedTx) : OM unit :=
  if Observed.IsEmpty txOut || Chain_IsEmpty (tx_Chain (ot_Tx tx)) then mret tt
  else AppendObserver (tx_Chain (ot_Tx tx)) (GetSigners txOut).

Definition handleObservedTxOutQuorum (ctx : Ctx) (activeNodeAccounts : list NodeAccount)
    (tx : ObservedTx) (voter : ObservedTxVoter) (observers : list string) (isQuorum : bool)
    : OM unit :=
  if negb isQuorum then replay_outbound ctx tx voter observers
  else
    repaired ← on_store (repairRevertedObservedOutbound ctx voter tx);
    if (repaired : bool) then mret tt
    else if isCancelOrApprovalTx tx then _ ← try (addGasFees ctx tx); mret tt
    else
      _ ← append_signers tx (TxVoter.GetTx voter activeNodeAccounts);
      '(matchedTxOut, migrationSourceSettled, voter) ← on_store (match_outbound ctx tx voter);
      if shouldSkipAlreadyProcessedObservedOutbound voter matchedTxOut tx then mret tt
      else
        _ ← on_store
          (if negb matchedTxOut && Observed.IsFinal tx && observedOutboundRequiresTxOutMatch tx
           then unmatched_outbound ctx tx else mret tt);
        account_outbound ctx tx voter migrationSourceSettled.

(** ** The messages *)

(** [isSignedByActiveNodeAccounts]; the module account is the chain itself. *)
Definition signedByActiveNodeAccount (ctx : Ctx) (signer : string) : KM unit :=
  nodeAccount ← GetNodeAccount ctx signer;
  _ ← fail_if (NodeAccount_IsEmpty nodeAccount) "node account is unexpectedly empty";
  _ ← fail_if (negb (bool_decide (na_Status nodeAccount = NodeActive))) "node account not active";
  fail_if (negb (bool_decide (na_Type nodeAccount = TypeNode))) "node account must be a node".

(** [cosmos-sdk]'s account of a module, and the signatures of attestations. *)
Class Attestor := {
  module_address : string → string;
  att_bech32 : string → res string;
  att_verifies : string → string → string → bool;
  att_address : string → string;
  signable_payload : ObservedTx → bool → res string
}.

Record Attestation := mkAttestation { att_PubKey : string; att_Signature : string }.

Section Messages.
Context `{Attestor} `{BtcWire} `{AccBytes}.

Fixpoint isSignedByActiveNodeAccounts_from (ctx : Ctx) (signers : list string) : KM bool :=
  match signers with
  | [] => mret true
  | signer :: signers =>
      if Acc_Equals signer (module_address BaseName)
      then isSignedByActiveNodeAccounts_from ctx signers
      else
        r ← try (signedByActiveNodeAccount ctx signer);
        match r with
        | Ok _ => isSignedByActiveNodeAccounts_from ctx signers
        | _ => mret false
        end
  end.
Definition isSignedByActiveNodeAccounts (ctx : Ctx) (signers : list string) : KM bool :=
  if (length signers =? 0)%nat then mret false else isSignedByActiveNodeAccounts_from ctx signers.

Definition ObservedTxIn_one (ctx : Ctx) (nas : list NodeAccount) (signer : string) (tx : ObservedTx)
    : OM unit :=
  r ← on_store (try (ensureVaultAndGetTxInVoter (ot_ObservedPubKey tx)
                       (BTCOutpointScopedTxID (ot_Tx tx))));
  match r with
  | Ok voter =>
      '(voter, isQuorum) ← on_store (processTxInAttestation ctx voter nas tx signer true);
      _ ← try (handleObservedTxInQuorum ctx nas tx voter (GetSigners (ov_Tx voter)) isQuorum);
      mret tt
  | _ => mret tt
  end.
Definition ObservedTxIn_handle (ctx : Ctx) (txs : list ObservedTx) (signer : string) : OM unit :=
  activeNodeAccounts ← on_store ListActiveNodes;
  mfor (ObservedTxIn_one ctx activeNodeAccounts signer) txs.

Definition ObservedTxOut_one (ctx : Ctx) (nas : list NodeAccount) (signer : string) (tx : ObservedTx)
    : OM unit :=
  r ← on_store (try (ensureVaultAndGetTxOutVoter (ot_ObservedPubKey tx) (tx_ID (ot_Tx tx)) [signer]
                       (ot_KeysignMs tx)));
  match r with
  | Ok voter =>
      '(voter, isQuorum) ← processTxOutAttestation ctx voter nas tx signer true;
      _ ← try (handleObservedTxOutQuorum ctx nas tx voter [signer] isQuorum);
      mret tt
  | _ => mret tt
  end.
Definition ObservedTxOut_handle (ctx : Ctx) (txs : list ObservedTx) (signer : string) : OM unit :=
  activeNodeAccounts ← on_store ListActiveNodes;
  mfor (ObservedTxOut_one ctx activeNodeAccounts signer) txs.

(** *** Attestations gathered by the proposer *)

Fixpoint dedup_from (seen : gset string) (count maxCount : nat) (l : list Attestation)
    : list Attestation :=
  match l with
  | [] => []
  | att :: l =>
      if bool_decide (att_PubKey att ∈ seen) then dedup_from seen count maxCount l
      else att :: (if (maxCount <=? S count)%nat then []
                   else dedup_from ({[att_PubKey att]} ∪ seen) (S count) maxCount l)
  end.
Definition deduplicateAttestations (attestations : list Attestation) (maxCount : nat)
    : list Attestation := dedup_from ∅ 0 maxCount attestations.

Definition verifyQuorumAttestation (activeNodeAccounts : list NodeAccount) (signBz : string)
    (att : Attestation) : res string :=
  if is_empty (att_PubKey att) then Err "pubkey is empty"
  else if is_empty (att_Signature att) then Err "signature is empty"
  else
    bech32Pub ← att_bech32 (att_PubKey att);
    if negb (existsb (λ node, str_eq bech32Pub (pks_Secp256k1 (na_PubKeySet node))) activeNodeAccounts)
    then Err "signer is not an active node account"
    else if negb (att_verifies (att_PubKey att) signBz (att_Signature att))
    then Err "failed to verify signature"
    else Ok (att_address (att_PubKey att)).

Definition quorum_step (ctx : Ctx) (nas : list NodeAccount) (inbound : bool) (obsTx : ObservedTx)
    (signBz : string) (acc : ObservedTxVoter * list string * bool) (att : Attestation)
    : OM (ObservedTxVoter * list string * bool) :=
  let '(voter, accAddrs, crossedQuorum) := acc in
  match verifyQuorumAttestation nas signBz att with
  | Ok accAddr =>
      '(voter, isQuorum) ←
        (if inbound then on_store (processTxInAttestation ctx voter nas obsTx accAddr false)
         else processTxOutAttestation ctx voter nas obsTx accAddr false);
      mret (voter, (accAddrs ++ [accAddr])%list, crossedQuorum || isQuorum)
  | Panic e => panic e
  | Err _ => mret acc
  end.

Definition quorumSigners (attestations : list Attestation) : list string :=
  map (λ att, att_address (att_PubKey att)) attestations.

Definition ObservedTxQuorum_handle (ctx : Ctx) (obsTx : ObservedTx) (inbound : bool)
    (attestations : list Attestation) : OM unit :=
  nas ← on_store ListActiveNodes;
  r ← on_store (try
    (if inbound
     then ensureVaultAndGetTxInVoter (ot_ObservedPubKey obsTx) (BTCOutpointScopedTxID (ot_Tx obsTx))
     else ensureVaultAndGetTxOutVoter (ot_ObservedPubKey obsTx) (tx_ID (ot_Tx obsTx))
            (quorumSigners attestations) (ot_KeysignMs obsTx)));
  match r, signable_payload obsTx inbound with
  | Ok voter, Ok signBz =>
      '(voter, accAddrs, crossedQuorum) ←
        mfold (quorum_step ctx nas inbound obsTx signBz) (voter, [], false)
          (deduplicateAttestations attestations (length nas));
      if inbound then handleObservedTxInQuorum ctx nas obsTx voter accAddrs crossedQuorum
      else handleObservedTxOutQuorum ctx nas obsTx voter accAddrs crossedQuorum
  | _, _ => mret tt
  end.
End Messages.
End Observe.

(** ** A majority is reached once *)

Section Quorum.
Context `{Ext}.

Lemma add_keeps_voter voter tx signer b voter' :
  TxVoter.Add voter tx signer = (b, voter') →
  ov_Height voter' = ov_Height voter ∧ ov_FinalisedHeight voter' = ov_FinalisedHeight voter
  ∧ ov_UpdatedVault voter' = ov_UpdatedVault voter.
Proof.
  unfold TxVoter.Add. intros Ha. destruct (existsb _ _); [by injection Ha as <- <-|].
  destruct (TxVoter.last_equal _ _) as [i|]; [|by injection Ha as <- <-].
  destruct (ov_Txs voter !! i) as [t|]; [|by injection Ha as <- <-].
  destruct (Sign t signer) as [added t']. by injection Ha as <- <-.
Qed.

(** What later attestations change of a voter. *)
Definition same_heights (voter voter' : ObservedTxVoter) : Prop :=
  ov_Height voter' = ov_Height voter ∧ ov_FinalisedHeight voter' = ov_FinalisedHeight voter
  ∧ ov_UpdatedVault voter' = ov_UpdatedVault voter.

Lemma join_late_heights ctx p since voter tx signer s voter' s' :
  join_late ctx p since voter tx signer s = (Ok voter', s') → same_heights voter voter'.
Proof.
  unfold join_late. intros Hr. destruct (in_time _ _ _ _ _ _); cbv zeta in Hr; go_inv; by simplify_eq.
Qed.
Lemma correct_gas_heights ctx nas applies voter tx g voter' g' :
  correct_gas ctx nas applies voter tx g = (Ok voter', g') → same_heights voter voter'.
Proof.
  unfold correct_gas. intros Hr. cbv zeta in Hr. destruct (_ && _); go_inv; by simplify_eq.
Qed.

Lemma on_store_Ok {A} (m : KM A) g a g' :
  on_store m g = (Ok a, g') ↔ ∃ s', m (mg_store g) = (Ok a, s') ∧ g' = g <| mg_store := s' |>.
Proof.
  unfold on_store. destruct (m (mg_store g)) as [r s']. split.
  - intros [= -> <-]. by exists s'.
  - by intros (? & [= -> ->] & ->).
Qed.

Lemma preliminary_heights ctx p nas voter tx signer s voter' ok s' :
  preliminary ctx p nas voter tx signer s = (Ok (voter', ok), s') →
  (ok = true ∧ ov_Height voter = 0 ∧ ov_Height voter' = BlockHeight ctx
   ∧ ov_FinalisedHeight voter' = ov_FinalisedHeight voter
   ∧ ov_UpdatedVault voter' = ov_UpdatedVault voter)
  ∨ (ok = false ∧ same_heights voter voter').
Proof.
  unfold preliminary. intros Hr. destruct (ov_Height voter =? 0) eqn:E.
  - apply Z.eqb_eq in E. cbv zeta in Hr. go_inv. simplify_eq. left.
    unfold take_consensus, first_heights. cbv zeta. by destruct (_ =? 0).
  - go_inv. simplify_eq. right. split; [done|]. by eapply join_late_heights.
Qed.

Lemma finalise_out_heights ctx p nas voter tx signer g voter' ok g' :
  finalise_out ctx p nas voter tx signer g = (Ok (voter', ok), g') →
  (ok = true ∧ ov_Height voter = 0 ∧ ov_Height voter' = BlockHeight ctx)
  ∨ (ok = false ∧ ov_Height voter' = ov_Height voter).
Proof.
  unfold finalise_out. intros Hr. destruct (negb _); [go_inv; simplify_eq; by right|].
  apply bind_Ok in Hr as ([v1 ok1] & g1 & H1 & Hr).
  apply bind_Ok in Hr as (v2 & g2 & H2 & [[= -> ->] ->]%mret_Ok).
  apply correct_gas_heights in H2 as (-> & _). destruct (ov_FinalisedHeight voter =? 0).
  - cbv zeta in H1. go_inv. simplify_eq. unfold take_consensus, first_heights. cbv zeta.
    destruct (ov_Height voter =? 0) eqn:E; [left|by right]. apply Z.eqb_eq in E.
    by destruct (_ =? 0).
  - apply bind_Ok in H1 as (v3 & g3 & H3 & [[= -> ->] ->]%mret_Ok).
    apply on_store_Ok in H3 as (s3 & H3 & _). apply join_late_heights in H3 as (-> & _).
    by right.
Qed.

(** The flag of an attestation is raised when the height of the majority is
    first recorded, and only then. *)
Lemma out_attestation_heights ctx voter nas tx signer dup g voter' ok g' :
  processTxOutAttestation ctx voter nas tx signer dup g = (Ok (voter', ok), g') →
  (ok = true ∧ ov_Height voter = 0 ∧ ov_Height voter' = BlockHeight ctx)
  ∨ (ok = false ∧ ov_Height voter' = ov_Height voter).
Proof.
  unfold processTxOutAttestation. intros Hr.
  apply bind_Ok in Hr as (p & g1 & _ & Hr). apply bind_Ok in Hr as ([] & g2 & _ & Hr).
  destruct (TxVoter.Add voter tx signer) as [added v1] eqn:Ea.
  apply add_keeps_voter in Ea as (<- & _ & _). destruct (negb added); [go_inv; simplify_eq; by right|].
  apply bind_Ok in Hr as ([v2 ok2] & g3 & H2 & Hr).
  apply bind_Ok in Hr as ([v3 ok3] & g4 & H3 & Hr).
  apply bind_Ok in Hr as ([] & g5 & _ & [[= -> ->] ->]%mret_Ok).
  apply finalise_out_heights in H2. destruct (negb ok2 && _) eqn:E; [|go_inv; by simplify_eq].
  apply andb_true_iff in E as [E _]. destruct H2 as [(-> & _)|[-> <-]]; [done|].
  apply bind_Ok in H3 as ([v4 ok4] & g6 & H4 & H3).
  apply bind_Ok in H3 as (v5 & g7 & H5 & [[= -> ->] ->]%mret_Ok).
  apply correct_gas_heights in H5 as (-> & _). apply on_store_Ok in H4 as (s4 & H4 & _).
  apply preliminary_heights in H4 as [(-> & ? & ? & _)|[-> (? & _)]]; [by left|by right].
Qed.

(** The life of the voter of one outbound: attestations of any nodes in any
    blocks, and handlers that leave its height alone.  The number counts the
    attestations that reported a majority. *)
Inductive out_history : ObservedTxVoter → nat → ObservedTxVoter → Prop :=
| out_new voter : out_history voter 0 voter
| out_attested voter n v1 v2 ctx nas tx signer dup g g' (ok : bool) :
    out_history voter n v1 → 0 < BlockHeight ctx →
    processTxOutAttestation ctx v1 nas tx signer dup g = (Ok (v2, ok), g') →
    out_history voter (if ok then S n else n) v2
| out_handled voter n v1 v2 :
    out_history voter n v1 → ov_Height v2 = ov_Height v1 → out_history voter n v2.

(** C18. The majority on an outbound is reported once in the life of its voter,
    whatever the order of the attestations, the blocks they come in, the nodes
    active then and the reports of different transactions: what the report
    triggers, the debit of the vault, happens once.  After it the height of the
    majority stays recorded. *)
Theorem outbound_majority_once voter n voter' :
  out_history voter n voter' →
  (n ≤ 1)%nat ∧ (ov_Height voter ≠ 0 → n = 0%nat) ∧ (n = 1%nat → ov_Height voter' ≠ 0).
Proof.
  intros Hh.
  assert (G : (n ≤ 1)%nat ∧ (ov_Height voter ≠ 0 → n = 0%nat ∧ ov_Height voter' ≠ 0)
    ∧ (n = 1%nat → ov_Height voter' ≠ 0)).
  { induction Hh as [voter|voter n v1 v2 ctx nas tx signer dup g g' ok _ (I1 & I2 & I3) Hpos Hr
                    |voter n v1 v2 _ (I1 & I2 & I3) Heq].
    - split; [lia|]. by split.
    - apply out_attestation_heights in Hr as [(-> & H0 & H1)|[-> H1]].
      + assert (n = 0%nat) as -> by (destruct (decide (n = 1%nat)) as [->|]; [by destruct I3|lia]).
        split; [lia|]. rewrite H1. split; [|lia]. intros Hne. by destruct (I2 Hne).
      + rewrite H1. by split.
    - rewrite Heq. by split. }
  destruct G as (G1 & G2 & G3). split; [done|]. split; [|done]. intros Hne. by apply G2.
Qed.

(** *** The vault of an inbound *)

Lemma finalise_in_updated ctx p nas voter tx signer s voter' ok s' :
  finalise_in ctx p nas voter tx signer s = (Ok (voter', ok), s') →
  ov_UpdatedVault voter' = ov_UpdatedVault voter.
Proof.
  unfold finalise_in. intros Hr. destruct (negb _); [go_inv; by simplify_eq|].
  destruct (_ =? 0).
  - cbv zeta in Hr. go_inv. simplify_eq. unfold take_consensus, first_heights. cbv zeta.
    by destruct (_ =? 0).
  - apply bind_Ok in Hr as (v3 & s3 & H3 & [[= -> ->] ->]%mret_Ok).
    by apply join_late_heights in H3 as (_ & _ & ->).
Qed.

Lemma in_attestation_updated ctx voter nas tx signer dup s voter' ok s' :
  processTxInAttestation ctx voter nas tx signer dup s = (Ok (voter', ok), s') →
  ov_UpdatedVault voter' = ov_UpdatedVault voter.
Proof.
  unfold processTxInAttestation. intros Hr.
  apply bind_Ok in Hr as (p & s1 & _ & Hr). apply bind_Ok in Hr as ([] & s2 & _ & Hr).
  destruct (TxVoter.Add voter tx signer) as [added v1] eqn:Ea.
  apply add_keeps_voter in Ea as (_ & _ & <-). destruct (negb added); [go_inv; by simplify_eq|].
  apply bind_Ok in Hr as ([v2 ok2] & s3 & H2 & Hr).
  apply bind_Ok in Hr as ([v3 ok3] & s4 & H3 & Hr).
  apply bind_Ok in Hr as ([] & s5 & _ & [[= -> ->] ->]%mret_Ok).
  apply finalise_in_updated in H2 as <-. destruct (negb ok2 && _); [|go_inv; by simplify_eq].
  by apply preliminary_heights in H3 as [(_ & _ & _ & _ & ->)|[_ (_ & _ & ->)]].
Qed.

(** Either the vault is as it was, or it received the coins of the transaction
    and the voter says so. *)
Definition credited_or_not (tx : ObservedTx) (vault : Vault) (voter : ObservedTxVoter)
    (vault' : Vault) (voter' : ObservedTxVoter) : Prop :=
  (vault' = vault ∧ (ov_UpdatedVault voter = true → ov_UpdatedVault voter' = true))
  ∨ (ov_UpdatedVault voter = false ∧ ov_UpdatedVault voter' = true
     ∧ to_itself tx = false ∧ credit_vault tx vault = Ok vault').

Lemma credit_inbound_once fin by_out vault voter tx vault' voter' :
  credit_inbound fin by_out vault voter tx = Ok (vault', voter') →
  credited_or_not tx vault voter vault' voter'.
Proof.
  unfold credit_inbound. destruct (fin && _ && _) eqn:E; [|intros [= <- <-]; by left].
  apply andb_true_iff in E as [_ Hu%negb_true_iff]. destruct by_out; [intros [= <- <-]; by left|].
  destruct (to_itself tx) eqn:Ei; [intros [= <- <-]; by left|].
  intros (v & Hv & [= <- <-])%rbind_Ok. by right.
Qed.

Lemma credit_migration_once ctx vault voter tx s vault' voter' s' :
  creditBTCMigrationInboundDestination ctx vault voter tx s = (Ok (vault', voter'), s') →
  credited_or_not tx vault voter vault' voter'.
Proof.
  unfold creditBTCMigrationInboundDestination. intros Hr.
  destruct (negb _ || _ || _) eqn:E; [go_inv; simplify_eq; by left|].
  apply orb_false_iff in E as [_ Hu]. apply bind_Ok in Hr as (m & s1 & _ & Hr).
  destruct (negb m); [go_inv; simplify_eq; by left|].
  apply bind_Ok in Hr as (c & s2 & _ & Hr). cbv zeta in Hr.
  destruct c; [go_inv; simplify_eq; by left|]. destruct (to_itself tx) eqn:Ei.
  - go_inv. simplify_eq. by left.
  - apply bind_Ok in Hr as (v & s3 & [Hv ->]%lift_Ok & [[= -> ->] ->]%mret_Ok). by right.
Qed.

Lemma credited_trans tx vault voter v1 w1 v2 w2 :
  credited_or_not tx vault voter v1 w1 → credited_or_not tx v1 w1 v2 w2 →
  credited_or_not tx vault voter v2 w2.
Proof.
  intros [[-> H1]|(H1 & H2 & H3 & H4)] [[-> H5]|(H5 & H6 & H7 & H8)]; [left; auto|right| |congruence].
  - split; [|done]. destruct (ov_UpdatedVault voter); [by rewrite H1 in H5|done].
  - right. split_and!; auto.
Qed.

Lemma account_inbound_once ctx fin vault voter tx s vault' voter' s' :
  account_inbound ctx fin vault voter tx s = (Ok (vault', voter'), s') →
  credited_or_not tx vault voter vault' voter'.
Proof.
  unfold account_inbound. intros Hr.
  apply bind_Ok in Hr as (m & s1 & _ & Hr). apply bind_Ok in Hr as (c & s2 & _ & Hr).
  apply bind_Ok in Hr as ([v1 w1] & s3 & [H1 _]%lift_Ok & Hr).
  apply bind_Ok in Hr as ([v2 w2] & s4 & H2 & Hr).
  apply bind_Ok in Hr as ([] & s5 & _ & Hr). apply bind_Ok in Hr as ([] & s6 & _ & Hr).
  apply mret_Ok in Hr as [[= -> ->] ->].
  eapply credited_trans; [by eapply credit_inbound_once|by eapply credit_migration_once].
Qed.

(** The life of the voter of one inbound: attestations, the accounting of a
    majority on any of its transactions in any state of their vault, and other
    changes that leave the mark alone.  The list holds the vaults that changed,
    with the transaction. *)
Inductive in_history : ObservedTxVoter → list (ObservedTx * Vault * Vault) → ObservedTxVoter → Prop :=
| in_new voter : in_history voter [] voter
| in_attested voter l v1 v2 ctx nas tx signer dup s s' ok :
    in_history voter l v1 →
    processTxInAttestation ctx v1 nas tx signer dup s = (Ok (v2, ok), s') →
    in_history voter l v2
| in_accounted voter l v1 v2 ctx fin vault vault' tx s s' :
    in_history voter l v1 →
    account_inbound ctx fin vault v1 tx s = (Ok (vault', v2), s') →
    vault' ≠ vault → in_history voter ((tx, vault, vault') :: l) v2
| in_unchanged voter l v1 v2 ctx fin vault tx s s' :
    in_history voter l v1 →
    account_inbound ctx fin vault v1 tx s = (Ok (vault, v2), s') → in_history voter l v2
| in_handled voter l v1 v2 :
    in_history voter l v1 → ov_UpdatedVault v2 = ov_UpdatedVault v1 → in_history voter l v2.

(** C20. An inbound credits a vault once.  However often its voter reaches a
    majority (preliminary, final, or as a migration), one vault changes at most,
    by exactly the coins of the transaction, and never for a transaction from
    an address to itself; a voter marked as credited credits nothing. *)
Theorem inbound_credited_once voter l voter' :
  in_history voter l voter' →
  (ov_UpdatedVault voter = true → l = [])
  ∧ (l = [] ∨ ∃ tx vault vault', l = [(tx, vault, vault')] ∧ to_itself tx = false
       ∧ credit_vault tx vault = Ok vault' ∧ ov_UpdatedVault voter' = true).
Proof.
  intros Hh. cut ((l = [] ∧ (ov_UpdatedVault voter = true → ov_UpdatedVault voter' = true))
    ∨ (ov_UpdatedVault voter = false ∧ ∃ tx vault vault', l = [(tx, vault, vault')]
        ∧ to_itself tx = false ∧ credit_vault tx vault = Ok vault'
        ∧ ov_UpdatedVault voter' = true)).
  { intros [[-> _]|[Hu Hl]]; [auto|]. split; [by rewrite Hu|by right]. }
  induction Hh as [voter|voter l v1 v2 ????????? IH Hr|voter l v1 v2 ? ? vault vault' tx s s' _ IH Hr Hne
                  |voter l v1 v2 ? ? vault tx s s' _ IH Hr|voter l v1 v2 _ IH Heq].
  - by left.
  - apply in_attestation_updated in Hr as ->. exact IH.
  - apply account_inbound_once in Hr as [[? _]|(Hu & Hu' & Hi & Hc)]; [done|].
    right. destruct IH as [[-> Himp]|(_ & ? & ? & ? & _ & _ & _ & Hm)]; [|congruence].
    split; [destruct (ov_UpdatedVault voter); [by rewrite Himp in Hu|done]|].
    by exists tx, vault, vault'.
  - assert (Hm : ov_UpdatedVault v1 = true → ov_UpdatedVault v2 = true)
      by (apply account_inbound_once in Hr as [[_ ?]|(_ & ? & _)]; auto).
    destruct IH as [[-> Himp]|(Hu & tx' & w & w' & -> & ? & ? & ?)]; [left; auto|right].
    split; [done|]. exists tx', w, w'. split_and!; auto.
  - rewrite Heq. exact IH.
Qed.
End Quorum.

(** ** Concrete attestations *)

Module ToyNodes.
Import ToySettle.

Definition toy_node (a : string) : NodeAccount :=
  NodeAccount_zero <| na_NodeAddress := a |> <| na_Status := NodeActive |> <| na_Type := TypeNode |>
    <| na_PubKeySet := mkPubKeySet a "" |>.
Definition toy_nodes : list NodeAccount :=
  [toy_node "n1"; toy_node "n2"; toy_node "n3"; toy_node "n4"].
Definition toy_redeem (id : string) : ShielderRedeem :=
  mkShielderRedeem id "nf" "root" "alice" "" "" "" 800 100 "IN" "" "v1" 5 DepositStatusKeysignQueued.
Definition toy_vault : Vault :=
  Vault_zero <| va_PubKey := "v1" |> <| va_BlockHeight := 1 |> <| va_Type := BaseVault |>
    <| va_Status := ActiveVault |>
    <| va_Coins := [NewCoin BTCAsset 5000] |>.
Definition toy_chain : KVStore :=
  KVStore_empty <| kv_txout := {[ "20" := toy_batch ]} |>
    <| kv_node_account := {[ "N1" := toy_node "n1"; "N2" := toy_node "n2";
                             "N3" := toy_node "n3"; "N4" := toy_node "n4" ]} |>
    <| kv_vault := {[ "V1" := toy_vault ]} |>
    <| kv_shielder_withdrawal := {[ "R1" := toy_redeem "R1"; "R2" := toy_redeem "R2" ]} |>.
Definition toy_mgr : Mgr := mkMgr toy_chain ∅ GasMgr.newGasMgr.

(** The attestations of several nodes in one block, counting the majorities. *)
Fixpoint attest_each_out `{Ext} (ctx : Ctx) (nas : list NodeAccount) (tx : ObservedTx)
    (signers : list string) (acc : ObservedTxVoter * nat) : OM (ObservedTxVoter * nat) :=
  match signers with
  | [] => mret acc
  | signer :: signers =>
      '(voter, ok) ← processTxOutAttestation ctx acc.1 nas tx signer true;
      attest_each_out ctx nas tx signers (voter, if (ok : bool) then S acc.2 else acc.2)
  end.

Lemma attest_each_history `{Ext} ctx nas tx signers : ∀ voter acc g acc' g',
  0 < BlockHeight ctx → out_history voter acc.2 acc.1 →
  attest_each_out ctx nas tx signers acc g = (Ok acc', g') → out_history voter acc'.2 acc'.1.
Proof.
  induction signers as [|signer signers IH]; intros voter acc g acc' g' Hpos Hh Hr; cbn [attest_each_out] in Hr.
  - apply mret_Ok in Hr as [-> _]. exact Hh.
  - apply bind_Ok in Hr as ([v ok] & g1 & H1 & Hr).
    eapply IH; [exact Hpos| |exact Hr]. cbn [fst snd]. by eapply out_attested.
Qed.
End ToyNodes.

Section Concrete.
Import ToySettle ToyNodes.

Lemma outbound_majority_once_witness :
  ∃ voter', out_history ObservedTxVoter_zero 1 voter' ∧ ov_Height voter' ≠ 0.
Proof.
  set (run := attest_each_out (mkCtx 25) toy_nodes toy_tx ["n1"; "n2"; "n3"; "n4"]
                (ObservedTxVoter_zero, 0%nat) toy_mgr).
  assert (Hrun : ∃ voter', run.1 = Ok (voter', 1%nat)) by (vm_compute; by eexists).
  destruct Hrun as [voter' Hrun]. exists voter'.
  assert (Hh : out_history ObservedTxVoter_zero 1 voter').
  { eapply (attest_each_history (mkCtx 25) toy_nodes toy_tx _ _ (ObservedTxVoter_zero, 0%nat)
      toy_mgr (voter', 1%nat)); [reflexivity|constructor|exact (run_ok _ _ _ Hrun)]. }
  split; [exact Hh|]. destruct (outbound_majority_once _ _ _ Hh) as (_ & _ & H1). by apply H1.
Defined.

Lemma inbound_credited_once_witness :
  ∃ vault' voter', in_history ObservedTxVoter_zero [(toy_tx, toy_vault, vault')] voter'
    ∧ c_Amount (Vault.GetCoin vault' BTCAsset) = 6500 ∧ ov_UpdatedVault voter' = true.
Proof.
  set (run := account_inbound (mkCtx 25) true toy_vault ObservedTxVoter_zero toy_tx toy_chain).
  assert (Hrun : ∃ vault' voter', run.1 = Ok (vault', voter')
    ∧ c_Amount (Vault.GetCoin vault' BTCAsset) = 6500)
    by (eexists _, _; split; [vm_compute; reflexivity..]).
  destruct Hrun as (vault' & voter' & Hrun & Ha). exists vault', voter'.
  assert (Hh : in_history ObservedTxVoter_zero [(toy_tx, toy_vault, vault')] voter').
  { eapply in_accounted; [constructor|exact (run_ok _ _ _ Hrun)|]. intros Heq.
    rewrite Heq in Ha. vm_compute in Ha. discriminate Ha. }
  split; [exact Hh|]. split; [exact Ha|].
  destruct (inbound_credited_once _ _ _ Hh) as [_ [?|(? & ? & ? & _ & _ & _ & Hu)]]; [done|exact Hu].
Defined.

End Concrete.
