(* ===== verification/Reports.v ===== *)
(** * Reports of the nodes (handler_errata_tx_helpers.go, handler_solvency_helpers.go,
      handler_network_fee_helpers.go and their handlers)

Besides transactions the nodes report three things: that a transaction
vanished in a reorganisation (errata), what a vault's wallet holds (solvency),
and the fee of the network.  Each report collects signers until a majority
agrees, then acts: an errata takes back what the transaction credited, a wallet
short of its vault halts the chain, a fee is stored. *)

From S2P Require Import Prelude GoStrings Config Common Types Vaults Voters Keeper BtcBatch GasMgr Outbounds Notes Fees Redeem Deposits Settle Observe.

(** ** A report's signer *)

Inductive Phase := Duplicate | Pending | Late | Agreed.

Section Sign.
Context `{Ext} {V : Type} `{SignerList V}.
Context (consensus : V → list NodeAccount → bool) (height : V → Z).

(** What the attestation is to the voter, and the voter with it. *)
Definition sign_report (voter : V) (attester : string) (active : list NodeAccount) : Phase * V :=
  let '(signed, voter) := Sign voter attester in
  (if negb signed then Duplicate
   else if negb (consensus voter active) then Pending
   else if 0 <? height voter then Late
   else Agreed, voter).

(** Its price: returned to the signers once a majority agrees, and charged to
    the others. *)
Definition report_penalties (ctx : Ctx) (p : Policy) (phase : Phase) (voter : V) (attester : string)
    (active : list NodeAccount) (shouldPenalizeForDuplicate : bool) : KM unit :=
  match phase with
  | Duplicate =>
      if shouldPenalizeForDuplicate then IncPenaltyPoints (po_submit p) [attester] else mret tt
  | Pending => IncPenaltyPoints (po_submit p) [attester]
  | Late =>
      if BlockHeight ctx <=? height voter +i po_flex p
      then DecPenaltyPoints (po_miss p) [attester] else mret tt
  | Agreed =>
      _ ← IncPenaltyPoints (po_submit p) [attester];
      let signers := GetSigners voter in
      _ ← DecPenaltyPoints (po_submit p) signers;
      IncPenaltyPoints (po_miss p) (getNonSigners active signers)
  end.
End Sign.

Section Reports.
Context `{Ext}.

(** ** Errata *)

Record ErrataTx := mkErrataTx { er_Id : string; er_Chain : string }.

Section Errata.
Context `{BtcWire}.

Definition errata_session (er : ErrataTx) (session : DepositSession) : DepositSession :=
  let session := session <| ds_InboundTxID := "" |> <| ds_DepositID := "" |>
                   <| ds_BTCConfirmations := 0 |> <| ds_BTCObservedHeight := 0 |> in
  if str_eq (ds_Status session) DepositStatusDepositObserved
     || str_eq (ds_Status session) DepositStatusDepositMatched
  then session <| ds_Status := DepositStatusAddressIssued |> else session.

Definition processErrataDepositRecord (er : ErrataTx) : KM bool :=
  if negb (Chain_Equals (er_Chain er) BTCChain) || TxID.IsEmpty (er_Id er) then mret false
  else
    deposit ← GetDepositRecord (er_Id er);
    if TxID.IsEmpty (dr_DepositID deposit) then mret false
    else
      let deposit := deposit <| dr_Status := DepositStatusErrata |> <| dr_BTCConfirmations := 0 |>
                       <| dr_BTCObservedHeight := 0 |> in
      _ ← SetDepositRecord deposit;
      _ ← purgeTxOutItemsForDeposit (dr_DepositID deposit) [TxOutTypeSweep; TxOutTypeRefund];
      r ← try (GetDepositSession (dr_Owner deposit));
      _ ← match r with
          | Ok session =>
              if TxID.Equals (ds_InboundTxID session) (er_Id er)
              then SetDepositSession (errata_session er session) else mret tt
          | _ => mret tt
          end;
      mret true.

(** A redeem whose payment vanished is paid again. *)
Definition requeue_redeem (ctx : Ctx) (er : ErrataTx) : KM unit :=
  r ← try (GetShielderRedeemByOutHash (er_Id er));
  match r with
  | Ok (redeem, found) =>
      if found && str_eq (sr_Status redeem) ShielderRedeemStatusSettled then
        _ ← DeleteShielderRedeemOutHash (er_Id er);
        let redeem := redeem <| sr_OutHash := "" |>
                        <| sr_Status := ShielderRedeemStatusAuthorized |>
                        <| sr_RequestedHeight := BlockHeight ctx |> in
        current ← try (currentBTCVaultAddress ctx);
        let redeem := match current with
                      | Ok (vault, _) => redeem <| sr_VaultPubKey := va_PubKey vault |>
                      | _ => redeem
                      end in
        _ ← try (ReQueueAuthorizedWithdrawalTxOut ctx redeem);
        mret tt
      else mret tt
  | _ => mret tt
  end.

(** The coins of a vanished payment come back to its vault, once. *)
Definition processErrataOutboundTx (ctx : Ctx) (er : ErrataTx) : KM bool :=
  txOutVoter ← GetObservedTxOutVoter (er_Id er);
  if (length (ov_Txs txOutVoter) =? 0)%nat then mret false
  else if ov_Reverted txOutVoter then mret true
  else if Observed.IsEmpty (ov_Tx txOutVoter) then fail "tx out voter is not finalised"
  else
    let tx := ot_Tx (ov_Tx txOutVoter) in
    let vaultPubKey := ot_ObservedPubKey (ov_Tx txOutVoter) in
    if negb (Chain_Equals (tx_Chain tx) (er_Chain er)) || Coins.IsEmpty (tx_Coins tx) then mret true
    else
      _ ← (if negb (PubKey.IsEmpty vaultPubKey) then
             v ← GetVault ctx vaultPubKey;
             v ← lift (Vault.AddFunds v (tx_Coins tx));
             if negb (Vault.IsEmpty v) then SetVault v else mret tt
           else mret tt);
      _ ← requeue_redeem ctx er;
      _ ← SetObservedTxOutVoter (TxVoter.SetReverted txOutVoter);
      mret true.

(** What the vanished inbound credited leaves the vault again. *)
Definition debit_errata (ctx : Ctx) (voter : ObservedTxVoter) : KM unit :=
  let vaultPubKey := ot_ObservedPubKey (ov_Tx voter) in
  if ov_UpdatedVault voter && negb (PubKey.IsEmpty vaultPubKey) then
    vault ← GetVault ctx vaultPubKey;
    SetVault (Vault.SubFunds vault (tx_Coins (ot_Tx (ov_Tx voter))))
  else mret tt.

Definition processErrataState (ctx : Ctx) (er : ErrataTx) : KM unit :=
  _ ← processErrataDepositRecord er;
  observedVoter ← GetObservedTxInVoter (er_Id er);
  if (length (ov_Txs observedVoter) =? 0)%nat then
    _ ← processErrataOutboundTx ctx er; mret tt
  else if Observed.IsEmpty (ov_Tx observedVoter) then
    SetObservedTxInVoter (TxVoter.SetReverted observedVoter)
  else if negb (Chain_Equals (tx_Chain (ot_Tx (ov_Tx observedVoter))) (er_Chain er)) then mret tt
  else
    let observedVoter := TxVoter.SetReverted observedVoter in
    _ ← SetObservedTxInVoter observedVoter;
    debit_errata ctx observedVoter.

(** Whether the attestation acts: a majority acts again with every further
    attestation. *)
Definition errata_acts (phase : Phase) (voter : ErrataTxVoter) (active : list NodeAccount) : bool :=
  match phase with
  | Duplicate => (0 <? ev_BlockHeight voter) || ErrataTxVoter_HasConsensus voter active
  | Pending => false
  | Late | Agreed => true
  end.

(** The voter as it is stored, and the outcome. *)
Definition processErrataTxAttestation (ctx : Ctx) (voter : ErrataTxVoter) (attester : string)
    (active : list NodeAccount) (er : ErrataTx) (shouldPenalizeForDuplicate : bool)
    : KM (ErrataTxVoter * res unit) :=
  p ← policy;
  let '(phase, voter) := sign_report ErrataTxVoter_HasConsensus ev_BlockHeight voter attester active in
  _ ← report_penalties ev_BlockHeight ctx p phase voter attester active shouldPenalizeForDuplicate;
  let voter := match phase with
               | Agreed => voter <| ev_BlockHeight := BlockHeight ctx |>
               | _ => voter
               end in
  r ← (if errata_acts phase voter active then try (processErrataState ctx er) else mret (Ok tt));
  mret (voter, r).

Definition ErrataTx_handle (ctx : Ctx) (er : ErrataTx) (signer : string) : KM unit :=
  active ← ListActiveNodes;
  voter ← GetErrataTxVoter (er_Id er) (er_Chain er);
  '(voter, r) ← processErrataTxAttestation ctx voter signer active er true;
  _ ← SetErrataTxVoter voter;
  lift r.
End Errata.

(** ** Solvency *)

Record Solvency := mkSolvency {
  so_Id : string;
  so_Chain : string;
  so_PubKey : string;
  so_Coins : list Coin;
  so_Height : Z
}.

Definition txOutMaxGasCoin (txOutItem : TxOutItem) : Coin :=
  if Gas.IsEmpty (to_MaxGas txOutItem) then NoCoin
  else Coins.GetCoin (Gas.ToCoins (to_MaxGas txOutItem)) (Chain_GetGasAsset (to_Chain txOutItem)).

Definition observedTxGas (tx : ObservedTx) (txID : string) (vault : Vault) (chain : string)
    (asset : Asset) : option Z :=
  if Observed.IsEmpty tx || negb (TxID.Equals (tx_ID (ot_Tx tx)) txID)
     || negb (Chain_Equals (tx_Chain (ot_Tx tx)) chain)
     || negb (PubKey.Equals (ot_ObservedPubKey tx) (va_PubKey vault))
  then None
  else Some (observed_gas tx asset).

(** The first report of the voter that names the vault. *)
Definition observedOutboundGas (voter : ObservedTxVoter) (vault : Vault) (chain : string)
    (asset : Asset) : option Z :=
  match omap (λ tx, observedTxGas tx (ov_TxID voter) vault chain asset)
          (ov_Tx voter :: ov_Txs voter) with
  | gas :: _ => Some gas
  | [] => None
  end.

(** The deductions so far: the vault, what migrations take by asset, and the
    transactions whose gas is already counted. *)
Record Pendings := mkPendings {
  pe_vault : Vault;
  pe_migrate : gmap string Z;
  pe_seen : gset string
}.

Definition signedOutboundGasCoin (acc : Pendings) (txOutItem : TxOutItem) : KM Coin :=
  let asset := Chain_GetGasAsset (to_Chain txOutItem) in
  if bool_decide (to_OutHash txOutItem ∈ pe_seen acc) then mret NoCoin
  else
    voter ← GetObservedTxOutVoter (to_OutHash txOutItem);
    mret (match observedOutboundGas voter (pe_vault acc) (to_Chain txOutItem) asset with
          | Some gas => if gas =? 0 then txOutMaxGasCoin txOutItem else NewCoin asset gas
          | None => txOutMaxGasCoin txOutItem
          end).

Definition add_pending (migrate : gmap string Z) (coin : Coin) : res (gmap string Z) :=
  if Coin_IsEmpty coin then Ok migrate
  else
    let key := Asset_String (c_Asset coin) in
    total ← uint_add (default 0 (migrate !! key)) (c_Amount coin);
    Ok (<[key := total]> migrate).
Definition addPendingMigrateDeduction (migrate : gmap string Z) (txOutItem : TxOutItem)
    (gasCoin : Coin) : res (gmap string Z) :=
  if negb (str_eq (NormalizeTxOutType (to_TxType txOutItem)) TxOutTypeMigrate) then Ok migrate
  else rfold add_pending migrate [to_Coin txOutItem; gasCoin].

Definition deduct_item_coin (coin gasCoin vaultCoin : Coin) : Coin :=
  let take (c : Coin) (v : Coin) :=
    if negb (Coin_IsEmpty c) && Asset_Equals (c_Asset vaultCoin) (c_Asset c)
    then v <| c_Amount := SafeSub (c_Amount v) (c_Amount c) |> else v in
  take gasCoin (take coin vaultCoin).
Definition deductVaultOutboundItem (vault : Vault) (coin gasCoin : Coin) : Vault :=
  vault <| va_Coins := map (deduct_item_coin coin gasCoin) (va_Coins vault) |>.

Definition deduct_pending (acc : Pendings) (txOutItem : TxOutItem) (gasCoin : Coin)
    (seen : gset string) : res Pendings :=
  migrate ← addPendingMigrateDeduction (pe_migrate acc) txOutItem gasCoin;
  Ok (mkPendings (deductVaultOutboundItem (pe_vault acc) (to_Coin txOutItem) gasCoin) migrate seen).

(** An outbound of the vault that is not accounted for yet: not signed and still
    in time, or signed and not observed to the end. *)
Definition deduct_one (includeOpenTxOut : bool) (acc : Pendings) (txOutItem : TxOutItem)
    : KM Pendings :=
  if negb (PubKey.Equals (to_VaultPubKey txOutItem) (va_PubKey (pe_vault acc))) then mret acc
  else if TxID.IsEmpty (to_OutHash txOutItem) then
    if includeOpenTxOut
    then lift (deduct_pending acc txOutItem (txOutMaxGasCoin txOutItem) (pe_seen acc))
    else mret acc
  else if negb (Chain_Equals (to_Chain txOutItem) BTCChain) then mret acc
  else
    voter ← GetObservedTxOutVoter (to_OutHash txOutItem);
    if observedTxOutVoterDone voter then mret acc
    else
      gasCoin ← signedOutboundGasCoin acc txOutItem;
      lift (deduct_pending acc txOutItem gasCoin ({[to_OutHash txOutItem]} ∪ pe_seen acc)).

Definition window_start (ctx : Ctx) : KM Z :=
  signingPeriod ← getConfigDurationBlocks Keysign_PeriodMinutes;
  let startHeight := BlockHeight ctx -i signingPeriod in
  mret (if startHeight <? 1 then 1 else startHeight).

Definition excludePendingOutboundFromVault (ctx : Ctx) (vault : Vault) : KM Pendings :=
  startHeight ← window_start ctx;
  blocks ← txOutsAscending (BlockHeight ctx) false;
  mfold (λ acc blk, mfold (deduct_one (startHeight <=? txo_Height blk)) acc (txo_TxArray blk))
    (mkPendings (vault <| va_Coins := map (λ c, NewCoin (c_Asset c) (c_Amount c)) (va_Coins vault) |>)
       ∅ ∅) blocks.

(** The gas of the payments of one signing period, each transaction once. *)
Definition gas_of_item (vault : Vault) (chain : string) (asset : Asset) (acc : gset string * Z)
    (item : TxOutItem) : KM (gset string * Z) :=
  let '(seen, total) := acc in
  if negb (PubKey.Equals (to_VaultPubKey item) (va_PubKey vault))
     || negb (Chain_Equals (to_Chain item) chain) || TxID.IsEmpty (to_OutHash item)
     || bool_decide (to_OutHash item ∈ seen)
  then mret acc
  else
    voter ← GetObservedTxOutVoter (to_OutHash item);
    total ← lift (uint_add total (default 0 (observedOutboundGas voter vault chain asset)));
    mret ({[to_OutHash item]} ∪ seen, total).

Definition recentAuthorizedOutboundGas (ctx : Ctx) (vault : Vault) (chain : string) (asset : Asset)
    : KM Z :=
  if negb (Asset_Equals asset (Chain_GetGasAsset chain)) then mret 0
  else
    startHeight ← window_start ctx;
    '(_, total) ←
      mfold (λ acc height,
        blockOut ← GetTxOut height;
        mfold (gas_of_item vault chain asset) acc (txo_TxArray blockOut))
        (∅, 0) (seqZ startHeight (BlockHeight ctx - startHeight));
    mret total.

(** The balance the wallet must cover; what migrations spend is not owed. *)
Definition expected_amount (originalAmounts migrate : gmap string Z) (c : Coin) : option Z :=
  if negb (Coin_IsEmpty c) then Some (c_Amount c)
  else
    let key := Asset_String (c_Asset c) in
    match originalAmounts !! key with
    | None => None
    | Some origAmount =>
        if origAmount =? 0 then None
        else
          let origAmount := match migrate !! key with
                            | Some migrateAmount => SafeSub origAmount migrateAmount
                            | None => origAmount
                            end in
          if origAmount =? 0 then None else Some origAmount
    end.

Definition coin_short (ctx : Ctx) (vault : Vault) (coins : list Coin) (chain : string)
    (originalAmounts migrate : gmap string Z) (c : Coin) : KM bool :=
  if negb (Chain_Equals (a_Chain (c_Asset c)) chain) then mret false
  else
    match expected_amount originalAmounts migrate c with
    | None => mret false
    | Some amount =>
        let walletCoin := Coins.GetCoin coins (c_Asset c) in
        let gap := if Coin_IsEmpty walletCoin then amount
                   else if c_Amount walletCoin <? amount then amount - c_Amount walletCoin else 0 in
        if gap =? 0 then mret false
        else
          gasAllowance ← recentAuthorizedOutboundGas ctx vault chain (c_Asset c);
          mret (gasAllowance <? gap)
    end.

Definition original_amounts (vault : Vault) (chain : string) : gmap string Z :=
  foldl (λ m c, if Chain_Equals (a_Chain (c_Asset c)) chain && negb (Coin_IsEmpty c)
                then <[Asset_String (c_Asset c) := c_Amount c]> m else m) ∅ (va_Coins vault).

Definition insolvencyCheck (ctx : Ctx) (vault : Vault) (coins : list Coin) (chain : string) : KM bool :=
  acc ← excludePendingOutboundFromVault ctx vault;
  mfold (λ found c,
    if (found : bool) then mret true
    else coin_short ctx vault coins chain (original_amounts vault chain) (pe_migrate acc) c)
    false (va_Coins (pe_vault acc)).

Definition haltSigningKey (chain : string) : string := "HaltSigning" ++ chain.
Definition shouldSkipSolvencyHaltAction (haltHeight blockHeight : Z) : bool :=
  (haltHeight =? 1) || (blockHeight <=? haltHeight).
Definition setSolvencyAndSigningHalt (chain : string) (height : Z) : KM unit :=
  _ ← SetConfig (ConfigName_String Halt_SolvencyCheck) height;
  SetConfig (haltSigningKey chain) height.
Definition clearMatchingSolvencySigningHalt (chain : string) (haltChain : Z) : KM unit :=
  signingHalt ← gets (λ s, Config.GetConfig (kv_config s) (haltSigningKey chain));
  if negb (signingHalt =? haltChain) then mret tt else SetConfig (haltSigningKey chain) 0.

(** An insolvent vault halts the chain, or renews its halt; a solvent one lifts
    an older halt. *)
Definition halt_action (ctx : Ctx) (chain : string) (haltChain : Z) (isInsolvent : bool) : KM unit :=
  if isInsolvent then
    if (haltChain <=? 0) || ((1 <? haltChain) && (haltChain <? BlockHeight ctx))
    then setSolvencyAndSigningHalt chain (BlockHeight ctx) else mret tt
  else if 1 <? haltChain then
    _ ← SetConfig (ConfigName_String Halt_SolvencyCheck) 0;
    clearMatchingSolvencySigningHalt chain haltChain
  else mret tt.

Definition act_on_solvency (ctx : Ctx) (voter : SolvencyVoter) (vault : Vault) (s : Solvency)
    : KM unit :=
  haltChain ← GetConfigInt64 Halt_SolvencyCheck;
  if shouldSkipSolvencyHaltAction haltChain (BlockHeight ctx) then mret tt
  else
    lastChainHeight ← GetLastChainHeight (sv_Chain voter);
    if so_Height s <? lastChainHeight then mret tt
    else
      isInsolvent ← insolvencyCheck ctx vault (sv_Coins voter) (sv_Chain voter);
      halt_action ctx (sv_Chain voter) haltChain isInsolvent.

Definition processSolvencyAttestation (ctx : Ctx) (voter : SolvencyVoter) (attester : string)
    (active : list NodeAccount) (s : Solvency) (shouldPenalizeForDuplicate : bool)
    : KM (SolvencyVoter * res unit) :=
  p ← policy;
  let '(phase, voter) :=
    sign_report SolvencyVoter_HasConsensus sv_ConsensusBlockHeight voter attester active in
  let penalties voter :=
    report_penalties sv_ConsensusBlockHeight ctx p phase voter attester active
      shouldPenalizeForDuplicate in
  match phase with
  | Agreed =>
      r ← try (GetVault ctx (sv_PubKey voter));
      match r with
      | Ok vault =>
          _ ← penalties voter;
          let voter := voter <| sv_ConsensusBlockHeight := BlockHeight ctx |> in
          r ← try (act_on_solvency ctx voter vault s);
          mret (voter, r)
      | _ => mret (voter, Err "fail to get vault")
      end
  | _ => _ ← penalties voter; mret (voter, Ok tt)
  end.

Definition Solvency_voter (s : Solvency) : KM SolvencyVoter :=
  voter ← GetSolvencyVoter (so_Id s) (so_Chain s);
  mret (if SolvencyVoter_Empty voter
        then NewSolvencyVoter (so_Id s) (so_Chain s) (so_PubKey s) (so_Coins s) (so_Height s)
        else voter).

Definition Solvency_handle (ctx : Ctx) (s : Solvency) (signer : string) : KM unit :=
  active ← ListActiveNodes;
  voter ← Solvency_voter s;
  '(voter, r) ← processSolvencyAttestation ctx voter signer active s true;
  _ ← SetSolvencyVoter voter;
  lift r.

(** ** Network fees *)

Record NetworkFeeReport := mkNetworkFeeReport {
  nr_Chain : string;
  nr_Height : Z;
  nr_TransactionSize : Z;
  nr_TransactionRate : Z
}.

Definition processNetworkFeeAttestation (ctx : Ctx) (voter : ObservedNetworkFeeVoter)
    (attester : string) (active : list NodeAccount) (nf : NetworkFeeReport)
    (shouldPenalizeForDuplicate : bool) : KM (ObservedNetworkFeeVoter * res unit) :=
  p ← policy;
  let '(phase, voter) :=
    sign_report ObservedNetworkFeeVoter_HasConsensus nv_BlockHeight voter attester active in
  _ ← report_penalties nv_BlockHeight ctx p phase voter attester active shouldPenalizeForDuplicate;
  match phase with
  | Agreed =>
      r ← try (SaveNetworkFee (nr_Chain nf)
                 (mkNetworkFee (nr_Chain nf) (nr_TransactionSize nf) (nr_TransactionRate nf)));
      mret (voter <| nv_BlockHeight := BlockHeight ctx |>, r)
  | _ => mret (voter, Ok tt)
  end.

Definition NetworkFee_handle (ctx : Ctx) (nf : NetworkFeeReport) (signer : string) : KM unit :=
  active ← ListActiveNodes;
  voter ← GetObservedNetworkFeeVoter (nr_Height nf) (nr_Chain nf) (i64 (nr_TransactionRate nf))
            (i64 (nr_TransactionSize nf));
  '(voter, r) ← processNetworkFeeAttestation ctx voter signer active nf true;
  _ ← SetObservedNetworkFeeVoter voter;
  lift r.

(** ** Reports gathered by the proposer *)

Section Quorum.
Context `{Attestor} `{BtcWire}.
Context {V : Type} (process : V → string → KM (V * res unit)).

(** Each valid attestation in turn, up to the first error; the voter is stored
    in any case. *)
Fixpoint attest_each (nas : list NodeAccount) (signBz : string) (voter : V) (l : list Attestation)
    : KM (V * res unit) :=
  match l with
  | [] => mret (voter, Ok tt)
  | att :: l =>
      match verifyQuorumAttestation nas signBz att with
      | Ok accAddr =>
          '(voter, r) ← process voter accAddr;
          match r with Ok _ => attest_each nas signBz voter l | _ => mret (voter, r) end
      | Panic e => panic e
      | Err _ => attest_each nas signBz voter l
      end
  end.

Definition quorum_report (nas : list NodeAccount) (signBz : string) (voter : V)
    (attestations : list Attestation) (store : V → KM unit) : KM unit :=
  '(voter, r) ← attest_each nas signBz voter
                     (deduplicateAttestations attestations (length nas));
  _ ← store voter;
  lift r.
End Quorum.

Section QuorumHandlers.
Context `{Attestor} `{BtcWire}.

Definition ErrataTxQuorum_handle (ctx : Ctx) (er : ErrataTx) (signBz : string)
    (attestations : list Attestation) : KM unit :=
  active ← ListActiveNodes;
  voter ← GetErrataTxVoter (er_Id er) (er_Chain er);
  quorum_report (λ voter att, processErrataTxAttestation ctx voter att active er false)
    active signBz voter attestations SetErrataTxVoter.

Definition SolvencyQuorum_handle (ctx : Ctx) (s : Solvency) (signBz : string)
    (attestations : list Attestation) : KM unit :=
  active ← ListActiveNodes;
  voter ← Solvency_voter s;
  quorum_report (λ voter att, processSolvencyAttestation ctx voter att active s false)
    active signBz voter attestations SetSolvencyVoter.

Definition NetworkFeeQuorum_handle (ctx : Ctx) (nf : NetworkFeeReport) (signBz : string)
    (attestations : list Attestation) : KM unit :=
  active ← ListActiveNodes;
  _ ← fail_if ((two63 - 1 <? nr_TransactionRate nf) || (two63 - 1 <? nr_TransactionSize nf))
        "transaction rate or size exceeds int64 max";
  voter ← GetObservedNetworkFeeVoter (nr_Height nf) (nr_Chain nf) (nr_TransactionRate nf)
            (nr_TransactionSize nf);
  quorum_report (λ voter att, processNetworkFeeAttestation ctx voter att active nf false)
    active signBz voter attestations SetObservedNetworkFeeVoter.
End QuorumHandlers.
End Reports.

(** ** The solvency check *)

Section SolvencyFacts.
Context `{Ext}.

Definition nonneg_coin (c : Coin) : Prop := 0 ≤ c_Amount c.
(** Amounts are unsigned. *)
Definition amounts_nonneg (s : KVStore) : Prop :=
  (∀ k b item, kv_txout s !! k = Some b → item ∈ txo_TxArray b →
     nonneg_coin (to_Coin item) ∧ Forall nonneg_coin (to_MaxGas item))
  ∧ (∀ k v tx, kv_observed_txout s !! k = Some v → tx ∈ ov_Tx v :: ov_Txs v →
     Forall nonneg_coin (tx_Gas (ot_Tx tx))).

(** The vault's assets are told apart by their names. *)
Definition named_apart (vault : Vault) : Prop :=
  ∀ c c', c ∈ va_Coins vault → c' ∈ va_Coins vault →
  Asset_String (c_Asset c) = Asset_String (c_Asset c') → c_Asset c = c_Asset c'.

(** The wallet holds what the vault has of the coin. *)
Definition covered (wallet : list Coin) (c : Coin) : Prop :=
  c_Amount c = 0 ∨ (Coin_IsEmpty (Coins.GetCoin wallet (c_Asset c)) = false
                    ∧ c_Amount c ≤ c_Amount (Coins.GetCoin wallet (c_Asset c))).

(** The deductions only lower the balances. *)
Definition lowered (c c' : Coin) : Prop := c_Asset c' = c_Asset c ∧ 0 ≤ c_Amount c' ≤ c_Amount c.
Definition deducted (vault : Vault) (acc : Pendings) : Prop :=
  Forall2 lowered (va_Coins vault) (va_Coins (pe_vault acc))
  ∧ ∀ key m, pe_migrate acc !! key = Some m → 0 ≤ m.

Lemma safe_sub_bounds x y : 0 ≤ x → 0 ≤ y → 0 ≤ SafeSub x y ≤ x.
Proof. intros. rewrite VaultFacts.SafeSub_max. lia. Qed.

Lemma deduct_item_coin_lowered coin gasCoin c c' :
  nonneg_coin coin → nonneg_coin gasCoin → lowered c c' →
  lowered c (deduct_item_coin coin gasCoin c').
Proof.
  intros H1 H2 [Ha Hb]. unfold deduct_item_coin. cbv zeta.
  pose proof (safe_sub_bounds (c_Amount c') (c_Amount coin) ltac:(lia) H1) as B1.
  pose proof (safe_sub_bounds (c_Amount c') (c_Amount gasCoin) ltac:(lia) H2) as B2.
  pose proof (safe_sub_bounds _ (c_Amount gasCoin) (proj1 B1) H2) as B3.
  destruct (negb (Coin_IsEmpty coin) && _), (negb (Coin_IsEmpty gasCoin) && _);
    unfold lowered; rec_simpl; (split; [exact Ha|lia]).
Qed.

Lemma deduct_pending_deducted vault acc item gasCoin seen acc' :
  nonneg_coin (to_Coin item) → nonneg_coin gasCoin → deducted vault acc →
  deduct_pending acc item gasCoin seen = Ok acc' → deducted vault acc'.
Proof.
  intros H1 H2 [Hc Hm]. unfold deduct_pending. intros (m & Hadd & [= <-])%rbind_Ok.
  split; cbn [pe_vault pe_migrate].
  - unfold deductVaultOutboundItem. rec_simpl. apply Forall2_fmap_r.
    eapply Forall2_impl; [exact Hc|]. intros c c'. by apply deduct_item_coin_lowered.
  - assert (Hstep : ∀ m1 c m2, nonneg_coin c → (∀ k a, m1 !! k = Some a → 0 ≤ a) →
      add_pending m1 c = Ok m2 → ∀ k a, m2 !! k = Some a → 0 ≤ a).
    { intros m1 c m2 Hn Hm1. unfold add_pending. destruct (Coin_IsEmpty c); [by intros [= <-]|].
      cbv zeta. intros (t & Ht & [= <-])%rbind_Ok k a Hk. unfold uint_add in Ht.
      destruct (_ <? two256); [|done]. injection Ht as <-. unfold nonneg_coin in Hn.
      apply lookup_insert_Some in Hk as [[_ <-]|[_ Hk]]; [|by eapply Hm1].
      destruct (m1 !! Asset_String (c_Asset c)) as [a0|] eqn:E; cbn; [|lia].
      specialize (Hm1 _ _ E). lia. }
    unfold addPendingMigrateDeduction in Hadd. destruct (negb _); [by injection Hadd as <-|].
    cbn [rfold] in Hadd. apply rbind_Ok in Hadd as (m1 & Ha1 & Hadd).
    apply rbind_Ok in Hadd as (m2 & Ha2 & [= <-]).
    eapply Hstep; [exact H2| |exact Ha2]. eapply Hstep; [exact H1|exact Hm|exact Ha1].
Qed.

Lemma get_coin_nonneg cs a : Forall nonneg_coin cs → nonneg_coin (Coins.GetCoin cs a).
Proof.
  induction 1 as [|c cs Hc _ IH]; cbn [Coins.GetCoin]; [by vm_compute|].
  by destruct (Asset_Equals a (c_Asset c)).
Qed.
Lemma to_coins_nonneg g : Forall nonneg_coin g → Forall nonneg_coin (Gas.ToCoins g).
Proof. intros Hf. apply Forall_fmap. eapply Forall_impl; [exact Hf|]. by intros c. Qed.

Lemma max_gas_coin_nonneg item :
  Forall nonneg_coin (to_MaxGas item) → nonneg_coin (txOutMaxGasCoin item).
Proof.
  intros Hf. unfold txOutMaxGasCoin. destruct (Gas.IsEmpty _); [by vm_compute|].
  by apply get_coin_nonneg, to_coins_nonneg.
Qed.
Lemma observed_gas_nonneg voter vault chain asset gas :
  (∀ tx, tx ∈ ov_Tx voter :: ov_Txs voter → Forall nonneg_coin (tx_Gas (ot_Tx tx))) →
  observedOutboundGas voter vault chain asset = Some gas → 0 ≤ gas.
Proof.
  intros Hall. unfold observedOutboundGas. destruct (omap _ _) as [|g l] eqn:E; [done|].
  intros [= <-]. assert (Hin : g ∈ g :: l) by constructor. rewrite <- E in Hin.
  apply list_elem_of_omap in Hin as (tx & Htx & Hg). unfold observedTxGas in Hg.
  destruct (_ || _ || _ || _); [done|]. injection Hg as <-. unfold observed_gas.
  apply get_coin_nonneg, to_coins_nonneg, Hall, Htx.
Qed.

Lemma observed_voter_nonneg s txID voter s' :
  amounts_nonneg s → GetObservedTxOutVoter txID s = (Ok voter, s') →
  s' = s ∧ ∀ tx, tx ∈ ov_Tx voter :: ov_Txs voter → Forall nonneg_coin (tx_Gas (ot_Tx tx)).
Proof.
  intros [_ Hv] Hr. unfold GetObservedTxOutVoter, getShielderJSON in Hr. go_inv.
  split; [done|]. destruct (kv_observed_txout s !! _) as [v|] eqn:E; cbn.
  - intros tx. by apply (Hv _ _ _ E).
  - intros tx ->%list_elem_of_singleton. constructor.
Qed.

Lemma deduct_one_deducted vault includeOpen acc item s acc' s' :
  amounts_nonneg s → nonneg_coin (to_Coin item) → Forall nonneg_coin (to_MaxGas item) →
  deducted vault acc → deduct_one includeOpen acc item s = (Ok acc', s') →
  s' = s ∧ deducted vault acc'.
Proof.
  intros Hs Hc Hg Hd Hr. unfold deduct_one in Hr. destruct (negb _); [go_inv; by simplify_eq|].
  destruct (TxID.IsEmpty _).
  { destruct includeOpen; go_inv; simplify_eq; [|done]. split; [done|].
    eapply deduct_pending_deducted; [exact Hc|by apply max_gas_coin_nonneg|exact Hd|eassumption]. }
  destruct (negb _); [go_inv; by simplify_eq|].
  apply bind_Ok in Hr as (voter & s1 & Hv & Hr).
  apply (observed_voter_nonneg _ _ _ _ Hs) in Hv as [-> _].
  destruct (observedTxOutVoterDone voter); [go_inv; by simplify_eq|].
  apply bind_Ok in Hr as (gasCoin & s1 & Hgas & Hr).
  assert (s1 = s ∧ nonneg_coin gasCoin) as [-> Hn].
  { unfold signedOutboundGasCoin in Hgas. cbv zeta in Hgas.
    destruct (bool_decide _); [go_inv; by simplify_eq|].
    apply bind_Ok in Hgas as (v2 & s2 & Hv2 & [-> ->]%mret_Ok).
    apply (observed_voter_nonneg _ _ _ _ Hs) in Hv2 as [-> Hv2]. split; [done|].
    destruct (observedOutboundGas _ _ _ _) as [gas|] eqn:E; [|by apply max_gas_coin_nonneg].
    destruct (gas =? 0); [by apply max_gas_coin_nonneg|].
    by apply (observed_gas_nonneg _ _ _ _ _ Hv2) in E. }
  go_inv. split; [done|]. by eapply deduct_pending_deducted.
Qed.

Lemma exclude_deducted ctx vault s acc s' :
  amounts_nonneg s → Forall nonneg_coin (va_Coins vault) →
  excludePendingOutboundFromVault ctx vault s = (Ok acc, s') → s' = s ∧ deducted vault acc.
Proof.
  intros Hs Hv Hr. unfold excludePendingOutboundFromVault in Hr.
  apply bind_Ok in Hr as (start & s1 & H1 & Hr).
  apply (keeps_run (λ s, s)) in H1 as ->; [|unfold window_start; frame_tac].
  apply bind_Ok in Hr as (blocks & s1 & H1 & Hr). unfold txOutsAscending, getIterator in H1.
  apply bind_Ok in H1 as (all & s2 & [<- ->]%gets_Ok & [-> ->]%mret_Ok).
  eapply (mfold_inv _ (λ acc s1, s1 = s ∧ deducted vault acc)); [|split; [done|]|exact Hr].
  - intros acc0 b s0 acc1 s1 Hin [-> Hd] Hb. rewrite insert_sort_perm in Hin.
    apply list_elem_of_In, filter_In in Hin as [Hin _]. apply list_elem_of_In in Hin.
    apply elem_of_sorted_values in Hin as [k Hk].
    eapply (mfold_inv _ (λ acc s1, s1 = s ∧ deducted vault acc)); [|split; [done|exact Hd]|exact Hb].
    intros acc2 item s2 acc3 s3 Hitem [-> Hd2] Hone.
    destruct (proj1 Hs _ _ _ Hk Hitem) as [Hc Hg]. by eapply deduct_one_deducted.
  - split; cbn [pe_vault pe_migrate]; [|intros key m Hk; by rewrite lookup_empty in Hk].
    rec_simpl. apply Forall2_fmap_r. apply Forall2_same_length_lookup_2; [done|].
    intros i x y Hx Hy. simplify_eq. split; [done|]. cbn.
    pose proof (Forall_lookup_1 _ _ _ _ Hv Hx) as Hn. unfold nonneg_coin in Hn. lia.
Qed.

Lemma original_amount vault chain key a :
  original_amounts vault chain !! key = Some a →
  ∃ c, c ∈ va_Coins vault ∧ Asset_String (c_Asset c) = key
    ∧ Chain_Equals (a_Chain (c_Asset c)) chain = true ∧ c_Amount c = a.
Proof.
  unfold original_amounts.
  assert (G : ∀ l (m : gmap string Z), foldl (λ m c, if Chain_Equals (a_Chain (c_Asset c)) chain && negb (Coin_IsEmpty c)
      then <[Asset_String (c_Asset c) := c_Amount c]> m else m) m l !! key = Some a →
    m !! key = Some a ∨ ∃ c, c ∈ l ∧ Asset_String (c_Asset c) = key
      ∧ Chain_Equals (a_Chain (c_Asset c)) chain = true ∧ c_Amount c = a).
  { induction l as [|c l IH]; intros m Hm; cbn [foldl] in Hm; [by left|].
    apply IH in Hm as [Hm|(c' & Hin & ?)]; [|right; exists c'; split; [by right|done]].
    destruct (_ && _) eqn:E; [|by left]. apply andb_true_iff in E as [E _].
    apply lookup_insert_Some in Hm as [[<- <-]|[_ Hm]]; [|by left].
    right. exists c. split; [by left|done]. }
  intros Hk. apply G in Hk as [Hk|Hk]; [by rewrite lookup_empty in Hk|exact Hk].
Qed.

(** What the wallet must hold is at most what the vault has. *)
Lemma expected_bound vault chain acc c c' a :
  named_apart vault → Forall nonneg_coin (va_Coins vault) → deducted vault acc →
  c ∈ va_Coins vault → lowered c c' → Chain_Equals (a_Chain (c_Asset c')) chain = true →
  expected_amount (original_amounts vault chain) (pe_migrate acc) c' = Some a →
  0 < a ∧ ∃ c0, c0 ∈ va_Coins vault ∧ c_Asset c0 = c_Asset c' ∧ a ≤ c_Amount c0.
Proof.
  intros Hn Hnn [_ Hm] Hin [Ha Hb] Hch. rewrite List.Forall_forall in Hnn. unfold expected_amount.
  destruct (Coin_IsEmpty c') eqn:Ee; cbn [negb].
  - destruct (_ !! _) as [o|] eqn:Eo; [|done]. destruct (o =? 0) eqn:E0; [done|].
    apply original_amount in Eo as (c0 & Hin0 & Hs & _ & Ho). cbv zeta.
    assert (Has : c_Asset c0 = c_Asset c') by (rewrite Ha in Hs |- *; by apply Hn).
    pose proof (Hnn c0 (proj1 (list_elem_of_In _ _) Hin0)) as H0. unfold nonneg_coin in H0.
    set (o' := match pe_migrate acc !! _ with Some m => SafeSub o m | None => o end).
    assert (Ho' : 0 ≤ o' ≤ o).
    { subst o'. destruct (pe_migrate acc !! _) as [m|] eqn:Em; [|lia].
      specialize (Hm _ _ Em). apply safe_sub_bounds; lia. }
    destruct (Z.eqb_spec o' 0); [done|]. injection 1 as <-.
    split; [lia|]. exists c0. split; [done|]. split; [done|lia].
  - intros [= <-]. unfold Coin_IsEmpty in Ee. apply orb_false_iff in Ee as [_ Ee].
    apply Z.eqb_neq in Ee. split; [lia|]. exists c. split; [done|]. split; [done|lia].
Qed.

Lemma covered_not_short ctx vault wallet chain acc c c' s :
  named_apart vault → Forall nonneg_coin (va_Coins vault) → deducted vault acc →
  (∀ c, c ∈ va_Coins vault → Chain_Equals (a_Chain (c_Asset c)) chain = true → covered wallet c) →
  c ∈ va_Coins vault → lowered c c' →
  coin_short ctx vault wallet chain (original_amounts vault chain) (pe_migrate acc) c' s
  = (Ok false, s).
Proof.
  intros Hn Hnn Hd Hcov Hin Hl. unfold coin_short.
  destruct (Chain_Equals (a_Chain (c_Asset c')) chain) eqn:Ec; [|done]. cbn [negb].
  destruct (expected_amount _ _ c') as [a|] eqn:Ea; [|done].
  destruct (expected_bound _ _ _ _ _ _ Hn Hnn Hd Hin Hl Ec Ea) as (Hpos & c0 & Hin0 & Has & Hle).
  destruct (Hcov c0 Hin0) as [H0|[He Hw]]; [by rewrite Has|lia|]. rewrite Has in He, Hw.
  cbv zeta. rewrite He. rewrite (proj2 (Z.ltb_ge _ _)) by lia. done.
Qed.

(** The blocks without items leave nothing to deduct. *)
Lemma exclude_idle ctx vault s :
  kv_txout s = ∅ →
  excludePendingOutboundFromVault ctx vault s
  = (Ok (mkPendings (vault <| va_Coins := map (λ c, NewCoin (c_Asset c) (c_Amount c)) (va_Coins vault) |>)
           ∅ ∅), s).
Proof.
  intros Hq. unfold excludePendingOutboundFromVault, window_start, txOutsAscending, getIterator,
    getConfigDurationBlocks, gets, mbind, M_bind, mret, M_ret.
  by rewrite Hq, sorted_values_empty.
Qed.

Lemma gas_idle ctx vault chain asset s :
  kv_txout s = ∅ → recentAuthorizedOutboundGas ctx vault chain asset s = (Ok 0, s).
Proof.
  intros Hq. unfold recentAuthorizedOutboundGas. destruct (negb _); [done|].
  destruct (window_start ctx s) as [r s1] eqn:Ew. pose proof Ew as Hs.
  apply (keeps_run (λ s, s)) in Hs as ->; [|unfold window_start; frame_tac].
  assert (∃ start, r = Ok start) as [start ->].
  { unfold window_start, getConfigDurationBlocks, gets, mbind, M_bind, mret, M_ret in Ew.
    injection Ew as <-. by eexists. }
  rewrite (bind_run _ _ _ _ _ Ew).
  set (heights := seqZ _ _). clearbody heights.
  rewrite bind_run with (a := (∅, 0)) (s1 := s); [done|].
  induction heights as [|h hs IH]; [done|]. cbn [mfold].
  rewrite bind_run with (a := (∅, 0)) (s1 := s); [exact IH|].
  rewrite (bind_run _ _ _ _ _ (GetTxOut_run h s)). unfold block_at. by rewrite Hq, lookup_empty.
Qed.

Lemma short_idle ctx vault wallet chain originals c s :
  kv_txout s = ∅ → ∃ b, coin_short ctx vault wallet chain originals ∅ c s = (Ok b, s)
    ∧ (Chain_Equals (a_Chain (c_Asset c)) chain = true → Coin_IsEmpty c = false →
       c_Amount (Coins.GetCoin wallet (c_Asset c)) < c_Amount c → 0 < c_Amount c → b = true).
Proof.
  intros Hq. unfold coin_short. destruct (negb (Chain_Equals _ _)) eqn:Ec.
  { exists false. split; [done|]. intros Hch. by rewrite Hch in Ec. }
  destruct (expected_amount _ _ c) as [a|] eqn:Ea; cbv zeta.
  - set (w := Coins.GetCoin wallet (c_Asset c)).
    set (gap := if Coin_IsEmpty w then a else if c_Amount w <? a then a - c_Amount w else 0).
    assert (Hg : Coin_IsEmpty c = false → c_Amount w < c_Amount c → 0 < c_Amount c → 0 < gap).
    { intros He Hw Hp. unfold expected_amount in Ea. rewrite He in Ea. injection Ea as <-.
      subst gap. destruct (Coin_IsEmpty w); [done|]. rewrite (proj2 (Z.ltb_lt _ _)) by lia. lia. }
    destruct (Z.eqb_spec gap 0) as [E|E].
    + exists false. split; [done|]. intros _ He Hw Hp. specialize (Hg He Hw Hp). lia.
    + exists (0 <? gap). split; [by rewrite (bind_run _ _ _ _ _ (gas_idle ctx vault chain _ s Hq))|].
      intros _ He Hw Hp. apply Z.ltb_lt. auto.
  - exists false. split; [done|]. intros _ He. unfold expected_amount in Ea. by rewrite He in Ea.
Qed.

(** Once a coin is short, the rest is not looked at. *)
Lemma found_short (g : Coin → KM bool) l s :
  mfold (λ (found : bool) c, if found then mret true else g c) true l s = (Ok true, s).
Proof. induction l as [|c l IH]; [done|]. exact IH. Qed.

(** The solvency check.  A wallet that holds at least what the vault has of
    every coin of the chain is never found short, whatever is pending in the
    queue.  And while no outbound is queued, a wallet that is short of one coin,
    be it by a single satoshi, is found insolvent: there is no tolerance. *)
Theorem solvency_check ctx vault wallet chain s :
  named_apart vault → Forall nonneg_coin (va_Coins vault) → amounts_nonneg s →
  (∀ acc s1, excludePendingOutboundFromVault ctx vault s = (Ok acc, s1) →
     (∀ c, c ∈ va_Coins vault → Chain_Equals (a_Chain (c_Asset c)) chain = true → covered wallet c) →
     insolvencyCheck ctx vault wallet chain s = (Ok false, s))
  ∧ (∀ c, kv_txout s = ∅ → c ∈ va_Coins vault →
     Chain_Equals (a_Chain (c_Asset c)) chain = true → Asset_IsEmpty (c_Asset c) = false →
     0 < c_Amount c → c_Amount (Coins.GetCoin wallet (c_Asset c)) < c_Amount c →
     insolvencyCheck ctx vault wallet chain s = (Ok true, s)).
Proof.
  intros Hn Hnn Hs. split.
  - intros acc s1 Hex Hcov. destruct (exclude_deducted _ _ _ _ _ Hs Hnn Hex) as [-> Hd].
    unfold insolvencyCheck. rewrite (bind_run _ _ _ _ _ Hex). pose proof (proj1 Hd) as Hl.
    assert (Hall : Forall (λ c', ∃ c, c ∈ va_Coins vault ∧ lowered c c') (va_Coins (pe_vault acc))).
    { apply Forall_forall. intros c' Hin. apply list_elem_of_lookup in Hin as [i Hi].
      destruct (Forall2_lookup_r _ _ _ _ _ Hl Hi) as (c & Hc & Hlow). exists c.
      split; [by eapply list_elem_of_lookup_2|done]. }
    clear Hl. induction Hall as [|c' cs (c & Hin & Hlow) _ IH]; [done|].
    cbn [mfold]. cbv iota.
    by rewrite (bind_run _ _ _ _ _ (covered_not_short _ _ _ _ _ _ _ s Hn Hnn Hd Hcov Hin Hlow)).
  - intros c Hq Hin Hch Ha Hp Hw. unfold insolvencyCheck.
    rewrite (bind_run _ _ _ _ _ (exclude_idle ctx vault s Hq)). cbn [pe_vault pe_migrate].
    set (orig := original_amounts vault chain). clearbody orig. rec_simpl.
    clear Hn Hnn Hs. induction Hin as [c cs|c c0 cs Hin IH]; cbn [map mfold]; cbv iota.
    + destruct (short_idle ctx vault wallet chain orig (NewCoin (c_Asset c) (c_Amount c)) s Hq)
        as (b & Hb & Hbt).
      rewrite (bind_run _ _ _ _ _ Hb), Hbt; try done; [|unfold Coin_IsEmpty; cbn; rewrite Ha; lia].
      apply found_short.
    + destruct (short_idle ctx vault wallet chain orig (NewCoin (c_Asset c0) (c_Amount c0)) s Hq)
        as (b & Hb & _).
      rewrite (bind_run _ _ _ _ _ Hb). destruct b; [|by apply IH]. apply found_short.
Qed.
End SolvencyFacts.

(** ** What a solvency report does *)

Section Halt.
Context `{Ext}.

(** The heights at which the chain and the signing of a chain are halted. *)
Definition check_halt (s : KVStore) : Z := Config.GetConfigInt64 (kv_config s) Halt_SolvencyCheck.
Definition signing_halt (s : KVStore) (chain : string) : Z :=
  Config.GetConfig (kv_config s) (haltSigningKey chain).

Lemma halt_keys chain : ToUpper (ConfigName_String Halt_SolvencyCheck) ≠ ToUpper (haltSigningKey chain).
Proof. by unfold haltSigningKey. Qed.

Definition with_config (s : KVStore) (key : string) (v : Z) : KVStore :=
  s <| kv_config := <[ToUpper key := v]> (kv_config s) |>.
Lemma SetConfig_run key v s : SetConfig key v s = (Ok tt, with_config s key v).
Proof. reflexivity. Qed.

Lemma check_halt_set s v :
  0 ≤ v → check_halt (with_config s (ConfigName_String Halt_SolvencyCheck) v) = v.
Proof.
  intros Hv. unfold check_halt, Config.GetConfigInt64, Config.GetConfig, with_config. rec_simpl.
  rewrite lookup_insert_eq. cbn [default from_option id]. cbv zeta.
  by rewrite (proj2 (Z.ltb_ge _ _)).
Qed.
Lemma check_halt_signing s chain v :
  check_halt (with_config s (haltSigningKey chain) v) = check_halt s.
Proof.
  unfold check_halt, Config.GetConfigInt64, Config.GetConfig, with_config. rec_simpl.
  by rewrite lookup_insert_ne by (symmetry; apply halt_keys).
Qed.
Lemma signing_halt_set s chain v : signing_halt (with_config s (haltSigningKey chain) v) chain = v.
Proof.
  unfold signing_halt, Config.GetConfig, with_config. rec_simpl. by rewrite lookup_insert_eq.
Qed.
Lemma signing_halt_check s chain v :
  signing_halt (with_config s (ConfigName_String Halt_SolvencyCheck) v) chain = signing_halt s chain.
Proof.
  unfold signing_halt, Config.GetConfig, with_config. rec_simpl.
  by rewrite lookup_insert_ne by apply halt_keys.
Qed.

(** C23. A solvency report on which the nodes agree sets the halts this way.  It
    changes nothing when the chain is halted for good (height 1) or at this
    height or a later one.  Otherwise an insolvent vault halts the chain and its
    signing at this height, also when an older halt stands; a solvent one lifts
    an older halt, and the halt of the signing only where it carries the same
    height; without a halt a solvent vault changes nothing. *)
Theorem solvency_halts ctx voter vault report insolvent last s :
  insolvencyCheck ctx vault (sv_Coins voter) (sv_Chain voter) s = (Ok insolvent, s) →
  GetLastChainHeight (sv_Chain voter) s = (Ok last, s) → last ≤ so_Height report →
  0 < BlockHeight ctx →
  let run := act_on_solvency ctx voter vault report s in
  let halt := check_halt s in
  let signing := signing_halt s (sv_Chain voter) in
  (halt = 1 ∨ BlockHeight ctx ≤ halt → run = (Ok tt, s))
  ∧ (halt ≠ 1 → halt < BlockHeight ctx → insolvent = true →
     run.1 = Ok tt ∧ check_halt run.2 = BlockHeight ctx
     ∧ signing_halt run.2 (sv_Chain voter) = BlockHeight ctx)
  ∧ (1 < halt < BlockHeight ctx → insolvent = false →
     run.1 = Ok tt ∧ check_halt run.2 = 0
     ∧ signing_halt run.2 (sv_Chain voter) = if signing =? halt then 0 else signing)
  ∧ (halt ≤ 0 → insolvent = false → run = (Ok tt, s)).
Proof.
  intros Hins Hlast Hle Hbh. cbv zeta. set (chain := sv_Chain voter) in *.
  set (halt := check_halt s).
  assert (Hrun : act_on_solvency ctx voter vault report s
    = (if shouldSkipSolvencyHaltAction halt (BlockHeight ctx) then (Ok tt, s)
       else halt_action ctx chain halt insolvent s)).
  { unfold act_on_solvency.
    change (GetConfigInt64 Halt_SolvencyCheck) with (gets check_halt).
    rewrite bind_run with (a := halt) (s1 := s) by reflexivity.
    destruct (shouldSkipSolvencyHaltAction _ _); [done|].
    rewrite (bind_run _ _ _ _ _ Hlast), (proj2 (Z.ltb_ge _ _)) by lia.
    by rewrite (bind_run _ _ _ _ _ Hins). }
  rewrite Hrun. clear Hrun Hins Hlast. unfold shouldSkipSolvencyHaltAction.
  split; [|split; [|split]].
  - intros [->| Hh]; [done|]. by rewrite (proj2 (Z.leb_le _ _) Hh), orb_true_r.
  - intros H1 H2 ->. rewrite (proj2 (Z.eqb_neq _ _) H1), (proj2 (Z.leb_gt _ _) H2). cbn [orb].
    unfold halt_action. replace (_ || _) with true by lia. unfold setSolvencyAndSigningHalt.
    rewrite (bind_run _ _ _ _ _ (SetConfig_run _ _ s)), SetConfig_run. cbn [fst snd].
    rewrite signing_halt_set, check_halt_signing, check_halt_set by lia. done.
  - intros H1 ->. rewrite (proj2 (Z.eqb_neq _ _)), (proj2 (Z.leb_gt _ _)) by lia. cbn [orb].
    unfold halt_action. rewrite (proj2 (Z.ltb_lt _ _)) by lia.
    rewrite (bind_run _ _ _ _ _ (SetConfig_run _ _ s)).
    set (s1 := with_config s _ 0). unfold clearMatchingSolvencySigningHalt.
    rewrite bind_run with (a := signing_halt s1 chain) (s1 := s1) by reflexivity.
    assert (Hs1 : check_halt s1 = 0 ∧ signing_halt s1 chain = signing_halt s chain)
      by (split; [by apply check_halt_set|apply signing_halt_check]).
    destruct Hs1 as [Hc ->]. destruct (signing_halt s chain =? halt) eqn:E; cbn [negb].
    + rewrite SetConfig_run. cbn [fst snd]. by rewrite signing_halt_set, check_halt_signing.
    + split; [done|]. split; [exact Hc|apply signing_halt_check].
  - intros H1 ->. destruct (_ || _); [done|]. unfold halt_action.
    by rewrite (proj2 (Z.ltb_ge _ _)) by lia.
Qed.
End Halt.

(** ** An errata undoes an outbound *)

Section Undo.
Context `{Ext} `{BtcWire}.
Import VaultFacts.

Lemma requeue_keeps ctx er :
  keeps (λ s, (kv_vault s, kv_observed_txout s)) (requeue_redeem ctx er).
Proof.
  unfold requeue_redeem, ReQueueAuthorizedWithdrawalTxOut, queueAuthorizedWithdrawalTxOut,
    withdrawalFeeSats, withdrawalFeeBp, btcGasRateFromKeeper, addWithdrawalFee.
  frame_tac; first [by apply append_keeps|apply current_vault_keeps].
Qed.

Lemma voter_stored id voter s :
  kv_observed_txout s !! ToUpper id = Some voter → GetObservedTxOutVoter id s = (Ok voter, s).
Proof. intros Hv. unfold GetObservedTxOutVoter, getShielderJSON, gets, mbind, M_bind. by rewrite Hv. Qed.

Lemma sub_funds_fields l : ∀ w,
  va_PubKey (Vault.SubFunds w l) = va_PubKey w ∧ va_BlockHeight (Vault.SubFunds w l) = va_BlockHeight w.
Proof.
  unfold Vault.SubFunds. induction l as [|c l IH]; intros w; [done|]. cbn [foldl].
  by rewrite !(proj1 (IH _)), !(proj2 (IH _)).
Qed.

(** Receiving again what was paid restores the balance that covered it. *)
Lemma sub_add_balance w0 w l a :
  Forall (λ c, 0 ≤ c_Amount c) l → 0 ≤ c_Amount (Vault.GetCoin w0 a) →
  CoinsFacts.total a l ≤ c_Amount (Vault.GetCoin w0 a) →
  Vault.AddFunds (Vault.SubFunds w0 l) l = Ok w →
  c_Amount (Vault.GetCoin w a) = c_Amount (Vault.GetCoin w0 a).
Proof.
  rewrite !GetCoin_balance. unfold balance. intros Hnn Hp Ht [Hadd _]%AddFunds_coins.
  rewrite (CoinsFacts.Add_amount _ _ _ a Hadd), SubFunds_coins, CoinsFacts.SafeSub_amount by done.
  unfold CoinsFacts.amount in *. lia.
Qed.

Lemma reverted_fields voter :
  let voter' := TxVoter.SetReverted voter in
  ov_TxID voter' = ov_TxID voter ∧ length (ov_Txs voter') = length (ov_Txs voter)
  ∧ ov_Reverted voter' = true.
Proof.
  cbv zeta. unfold TxVoter.SetReverted, TxVoter.setStatus. cbv zeta.
  destruct (negb _); (split; [done|]; split; [apply length_map|done]).
Qed.

End Undo.

(** ** Concrete reports *)

Module ToyReports.
Import ToySettle ToyNodes.

(** An inbound of 1500 that the vault was credited with. *)
Definition credited_voter : ObservedTxVoter :=
  (NewObservedTxVoter "FEED" [toy_tx]) <| ov_Tx := toy_tx |> <| ov_UpdatedVault := true |>
    <| ov_Height := 10 |> <| ov_FinalisedHeight := 10 |>.
Definition credited_chain : KVStore :=
  toy_chain <| kv_txout := ∅ |> <| kv_observed_txin := {[ "FEED" := credited_voter ]} |>.
Definition vanished : ErrataTx := mkErrataTx "FEED" BTCChain.

(** The same payment leaving the vault. *)
Definition paid_chain : KVStore :=
  toy_chain <| kv_observed_txout := {[ "FEED" := credited_voter ]} |>
    <| kv_vault := {[ "V1" := Vault.SubFunds toy_vault [NewCoin BTCAsset 1500] ]} |>.

(** The vault's balance after the errata reports of some nodes. *)
Fixpoint report_errata `{BtcWire} (signers : list string) : KM unit :=
  match signers with
  | [] => mret tt
  | signer :: signers => _ ← ErrataTx_handle (mkCtx 25) vanished signer; report_errata signers
  end.
Definition vault_balance (s : KVStore) : option Z :=
  option_map (λ v, c_Amount (Vault.GetCoin v BTCAsset)) (kv_vault s !! "V1").

Definition toy_report : Solvency := mkSolvency "S" BTCChain "v1" [NewCoin BTCAsset 4999] 100.
Definition toy_voter : SolvencyVoter := NewSolvencyVoter "S" BTCChain "v1" [NewCoin BTCAsset 4999] 100.
End ToyReports.

Section Concrete.
Import ToySettle ToyNodes ToyReports ToyWire.
#[local] Existing Instance toy_wire.



Lemma solvency_check_witness :
  insolvencyCheck (mkCtx 25) toy_vault [NewCoin BTCAsset 4999] BTCChain credited_chain
  = (Ok true, credited_chain).
Proof.
  assert (Hn : named_apart toy_vault).
  { intros c c' Hc Hc' _. cbn in Hc, Hc'. apply list_elem_of_singleton in Hc, Hc'. by subst. }
  assert (Hnn : Forall nonneg_coin (va_Coins toy_vault))
    by (apply Forall_singleton; vm_compute; discriminate).
  assert (Hs : amounts_nonneg credited_chain).
  { split; [intros k b item Hb|intros k v tx Hv].
    - change ((∅ : gmap string TxOut) !! k = Some b) in Hb. by rewrite lookup_empty in Hb.
    - change ((∅ : gmap string ObservedTxVoter) !! k = Some v) in Hv. by rewrite lookup_empty in Hv. }
  apply (proj2 (solvency_check (mkCtx 25) toy_vault [NewCoin BTCAsset 4999] BTCChain credited_chain
    Hn Hnn Hs) (NewCoin BTCAsset 5000)); try (vm_compute; reflexivity). by left.
Defined.

Lemma solvency_halts_witness :
  check_halt (act_on_solvency (mkCtx 25) toy_voter toy_vault toy_report credited_chain).2 = 25.
Proof.
  set (run := insolvencyCheck (mkCtx 25) toy_vault [NewCoin BTCAsset 4999] BTCChain credited_chain).
  assert (Hrun : run = (Ok true, credited_chain)) by (vm_compute; reflexivity).
  destruct (solvency_halts (mkCtx 25) toy_voter toy_vault toy_report true 0 credited_chain Hrun)
    as (_ & Hhalt & _); [vm_compute; reflexivity|vm_compute; discriminate|reflexivity|].
  apply Hhalt; [vm_compute; discriminate|vm_compute; reflexivity|reflexivity].
Defined.
End Concrete.
