(* ===== verification/Nodes.v ===== *)
(** * Nodes (keeper_node_account.go, keeper_version.go, keeper_config_values.go)

Who a node is and what the store remembers of it: its jail, the version the
nodes agree on, its votes on parameters, and the operator that may act for it.
[IP] is the part of Go's [net] package that decides what an address is. *)

From S2P Require Import Prelude GoStrings Config Common Types Vaults Sha256 Keeper.

(** ** [net.ParseIP] *)

Module IP.
(** A decimal octet without a leading zero. *)
Definition octet (s : string) : bool :=
  match s with
  | EmptyString => false
  | String c s' =>
      (is_empty s' || negb (Ascii.eqb c "0"))
      && match parse_dec s with Some v => v <=? 255 | None => false end
  end.

Fixpoint split_dots (s : string) : string * list string :=
  match s with
  | EmptyString => ("", [])
  | String c s' =>
      let '(cur, rest) := split_dots s' in
      if Ascii.eqb c "." then ("", cur :: rest) else (String c cur, rest)
  end.

(** [netip.parseIPv4Fields]: four octets. *)
Definition ipv4 (s : string) : bool :=
  let '(first, rest) := split_dots s in
  (length rest =? 3)%nat && forallb octet (first :: rest).

Definition is_hex (c : ascii) : bool :=
  let n := Z.of_nat (nat_of_ascii c) in
  ((48 <=? n) && (n <=? 57)) || ((97 <=? n) && (n <=? 102)) || ((65 <=? n) && (n <=? 70)).

(** The number of hexadecimal digits at the front, and what follows. *)
Fixpoint hex_run (s : string) : nat * string :=
  match s with
  | String c s' => if is_hex c then let '(n, rest) := hex_run s' in (S n, rest) else (O, s)
  | EmptyString => (O, s)
  end.

(** [netip.parseIPv6] from byte [2 * i] on; [ellipsis] records a double colon
    met before.  Every round takes one of the eight groups. *)
Fixpoint ipv6_groups (fuel : nat) (i : nat) (ellipsis : bool) (s : string) : bool :=
  match fuel with
  | O => is_empty s && negb ellipsis
  | S fuel =>
      match hex_run s with
      | (O, _) => false
      | (n, rest) =>
          if (4 <? n)%nat then false
          else match rest with
          | EmptyString => if (S i =? 8)%nat then negb ellipsis else ellipsis
          | String c rest =>
              if Ascii.eqb c "." then
                (ellipsis || (i =? 6)%nat) && (i <=? 6)%nat && ipv4 s
                && (if (i =? 6)%nat then negb ellipsis else ellipsis)
              else if negb (Ascii.eqb c ":") then false
              else match rest with
              | EmptyString => false
              | String c' rest' =>
                  if Ascii.eqb c' ":" then
                    if ellipsis then false
                    else if is_empty rest' then (S i <? 8)%nat
                    else ipv6_groups fuel (S i) true rest'
                  else ipv6_groups fuel (S i) ellipsis rest
              end
          end
      end
  end.

Definition ipv6 (s : string) : bool :=
  match s with
  | String ":" (String ":" s') => if is_empty s' then true else ipv6_groups 8 0 true s'
  | _ => ipv6_groups 8 0 false s
  end.

(** The first of the three separators decides the family; a zone is refused. *)
Fixpoint family (s : string) : option bool :=
  match s with
  | EmptyString => None
  | String c s' =>
      if Ascii.eqb c "." then Some true
      else if Ascii.eqb c ":" then Some false
      else if Ascii.eqb c "%" then None else family s'
  end.

Definition has_zone (s : string) : bool := negb (all_chars (λ c, negb (Ascii.eqb c "%")) s).

(** [net.ParseIP(s) != nil] *)
Definition ParseIP (s : string) : bool :=
  match family s with
  | Some true => ipv4 s
  | Some false => negb (has_zone s) && ipv6 s
  | None => false
  end.
End IP.

(** ** Versions

[github.com/blang/semver]: parsing, the order of precedence and printing. *)

Class SemVer := {
  Version : Type;
  Version_zero : Version;
  semver_Parse : string → res Version;
  semver_Compare : Version → Version → Z;
  semver_String : Version → string;
  (** a pre-release or a build tag *)
  semver_tagged : Version → bool
}.

(** The order of precedence is a total preorder, and a printed version is read
    back. *)
Class SemVerLaws `{SemVer} := {
  parse_string v : semver_Parse (semver_String v) = Ok v;
  compare_refl v : semver_Compare v v = 0;
  compare_opp v w : semver_Compare w v = - semver_Compare v w;
  compare_trans u v w :
    semver_Compare u v <= 0 → semver_Compare v w <= 0 → semver_Compare u w <= 0
}.

Section Versions.
Context `{SemVer}.

Definition Version_LT (v w : Version) : bool := semver_Compare v w <? 0.
Definition Version_LTE (v w : Version) : bool := semver_Compare v w <=? 0.
Definition Version_GT (v w : Version) : bool := 0 <? semver_Compare v w.
Definition Version_Equals (v w : Version) : bool := semver_Compare v w =? 0.

(** [semver.Make]: the zero version for a text that does not parse. *)
Definition semver_Make (s : string) : Version :=
  match semver_Parse s with Ok v => v | _ => Version_zero end.

Definition semver_MustParse (s : string) : res Version :=
  match semver_Parse s with Ok v => Ok v | Err e | Panic e => Panic e end.

Definition NodeAccount_GetVersion (m : NodeAccount) : Version := semver_Make (na_Version m).
End Versions.

Section Nodes.
Context `{Ext}.

(** ** Jail *)

Definition IsJailed (m : Jail) (ctx : Ctx) : bool := BlockHeight ctx <? jl_ReleaseHeight m.

Definition GetNodeAccountJail (addr : string) : KM Jail :=
  o ← getShielderJSON kv_node_jail addr; mret (from_option (NewJail addr) o).

(** A sentence is never reduced. *)
Definition SetNodeAccountJail (addr : string) (height : Z) (reason : string) : KM unit :=
  jail ← GetNodeAccountJail addr;
  if height <? jl_ReleaseHeight jail then mret tt
  else setShielderJSON kv_node_jail addr
         (jail <| jl_ReleaseHeight := height |> <| jl_Reason := reason |>).

Definition ReleaseNodeAccountFromJail (ctx : Ctx) (addr : string) : KM unit :=
  jail ← GetNodeAccountJail addr;
  setShielderJSON kv_node_jail addr
    (jail <| jl_ReleaseHeight := BlockHeight ctx |> <| jl_Reason := "" |>).

(** ** The version to join with *)

Section MinJoin.
Context `{SemVer}.

(** One node's turn: its version is entered when its text is new, and every
    entered version it supports gains a vote. *)
Definition count_version (vCount : list (Version * Z)) (na : NodeAccount) : list (Version * Z) :=
  let v := NodeAccount_GetVersion na in
  let vCount :=
    if existsb (λ item, str_eq (semver_String item.1) (na_Version na)) vCount then vCount
    else (vCount ++ [(v, 0)])%list in
  map (λ item, if Version_LTE item.1 v then (item.1, item.2 + 1) else item) vCount.

Definition min_join_version (nodes : list NodeAccount) : Version :=
  let nodes := insert_sort
    (λ a b, Version_LT (NodeAccount_GetVersion a) (NodeAccount_GetVersion b)) nodes in
  let vCount := foldl count_version [] nodes in
  let totalCount := Z.of_nat (length nodes) in
  let vCount := insert_sort (λ a b, Version_GT a.1 b.1) vCount in
  foldl (λ version info,
    if negb (HasSuperMajority info.2 totalCount) then version
    else if Version_GT info.1 version then info.1 else version) Version_zero vCount.

Definition GetMinJoinVersion : KM Version :=
  nodes ← ListActiveNodes; mret (min_join_version nodes).

Definition GetMinJoinLast : KM (Version * Z) :=
  o ← gets kv_min_join_last;
  let minJoinLast := from_option MinJoinLast_zero o in
  version ← (if is_empty (mj_Version minJoinLast) then mret Version_zero
             else lift (semver_MustParse (mj_Version minJoinLast)));
  let lastHeight := mj_LastChangedHeight minJoinLast in
  if Version_Equals version Version_zero || (lastHeight <=? 0)
  then v ← GetMinJoinVersion; mret (v, 0)
  else mret (version, lastHeight).

Definition SetMinJoinLast (ctx : Ctx) : KM unit :=
  minJoinVersion ← GetMinJoinVersion;
  '(minJoinLast, lastHeight) ← GetMinJoinLast;
  if negb (Version_Equals minJoinVersion minJoinLast) || (lastHeight <=? 0)
  then modify (λ s, s <| kv_min_join_last :=
         Some (mkMinJoinLast (BlockHeight ctx) (semver_String minJoinVersion)) |>)
  else mret tt.
End MinJoin.

(** ** Votes on parameters *)

Definition GetNodeConfigs (key : string) : KM NodeConfigs :=
  o ← getShielderJSON kv_node_config (ToUpper key); mret (from_option [] o).

Definition DeleteNodeConfigs (key : string) : KM unit := del kv_node_config key.

(** A negative value withdraws the vote. *)
Definition SetNodeConfig (key : string) (value : Z) (acc : string) : KM unit :=
  let key := ToUpper key in
  record ← GetNodeConfigs key;
  let record := NodeConfigs.Set_ record key value acc in
  let record := if value <? 0 then NodeConfigs.Delete record key acc else record in
  if (length record =? 0)%nat then del kv_node_config key
  else setShielderJSON kv_node_config key record.

Fixpoint str_contains (sub s : string) : bool :=
  String.prefix sub s || match s with EmptyString => false | String _ s' => str_contains sub s' end.

Definition IsOperationalConfig (key : string) : bool :=
  if EqualFold key (ConfigName_String Chain_PauseNodeMinutes) then false
  else existsb (λ m, str_contains m (ToUpper key)) ["HALT"; "PAUSE"; "STOPSOLVENCYCHECK"].

Definition PurgeOperationalNodeConfigs : KM unit :=
  keys ← gets (λ s, (sorted_items (kv_node_config s)).*1);
  mfor (λ key, if IsOperationalConfig key then DeleteNodeConfigs key else mret tt) keys.

Definition GetNodePauseChain (acc : string) : KM Z :=
  o ← getShielderJSON kv_node_pause_chain acc; mret (from_option (-1) o).
Definition SetNodePauseChain (ctx : Ctx) (acc : string) : KM unit :=
  setShielderJSON kv_node_pause_chain acc (BlockHeight ctx).

(** ** Key generation blocks *)

Definition GetKeygenBlock (height : Z) : KM KeygenBlock :=
  o ← getShielderJSON kv_keygen (itoa height); mret (from_option (NewKeygenBlock height) o).
Definition SetKeygenBlock (keygen : KeygenBlock) : KM unit :=
  setShielderJSON kv_keygen (itoa (kb_Height keygen)) keygen.

Definition KeygenBlock_Contains (m : KeygenBlock) (keygen : Keygen) : bool :=
  existsb (λ item, TxID.Equals (kg_ID item) (kg_ID keygen)) (kb_Keygens m).

Definition getKeygenID (height : Z) (members : list string) (keygenType : KeygenType) : string :=
  ToLower (Sha256.Sum256Hex (itoa height ++ KeygenType_String keygenType ++ join "" members)).

(** [NewKeygen] sorts its members. *)
Definition NewKeygen (height : Z) (members : list string) (keygenType : KeygenType) : Keygen :=
  let members := insert_sort str_lt members in
  mkKeygen (getKeygenID height members keygenType) keygenType members.

Definition Keygen_GetMembers (m : Keygen) : list string := parse_pubkeys (kg_Members m).

(** ** Who acts for a node (helpers.go) *)

(** The node of one bond whose operator is the signer, once per node. *)
Definition operated_by (ctx : Ctx) (signer : string) (matches : list NodeAccount)
    (bond : ShielderNodeBond) : KM (list NodeAccount) :=
  if PubKey.IsEmpty (nb_OperatorPubKey bond) || Acc_Empty (nb_NodeAddress bond) then mret matches
  else match PubKey.GetThorAddress (nb_OperatorPubKey bond) with
  | Ok operator =>
      if negb (Acc_Equals operator signer) then mret matches
      else
        candidate ← GetNodeAccount ctx (nb_NodeAddress bond);
        if NodeAccount_IsEmpty candidate || negb (bool_decide (na_Type candidate = TypeNode))
        then mret matches
        else if existsb (λ m, Acc_Equals (na_NodeAddress m) (na_NodeAddress candidate)) matches
        then mret matches
        else mret (matches ++ [candidate])%list
  | _ => mret matches
  end.

Definition resolveNodeBondForNodeAccount (nodeAccount : NodeAccount) : KM ShielderNodeBond :=
  bond ← (if is_blank (na_NodeConsPubKey nodeAccount) then mret ShielderNodeBond_zero
          else GetShielderNodeBond (na_NodeConsPubKey nodeAccount));
  if negb (Acc_Empty (nb_NodeAddress bond))
     && Acc_Equals (nb_NodeAddress bond) (na_NodeAddress nodeAccount)
  then mret bond
  else
    bonds ← getIterator kv_shielder_node_bond;
    match List.find (λ bond, Acc_Equals (nb_NodeAddress bond) (na_NodeAddress nodeAccount)) bonds with
    | Some bond => mret bond
    | None => fail "missing node bond"
    end.

Definition resolveNodeAccountBySigner (ctx : Ctx) (signer : string) : KM NodeAccount :=
  bonds ← getIterator kv_shielder_node_bond;
  matches ← mfold (operated_by ctx signer) [] bonds;
  match matches with
  | [nodeAccount] => mret nodeAccount
  | _ :: _ => fail "operator controls multiple node accounts"
  | [] =>
      nodeAccount ← GetNodeAccount ctx signer;
      _ ← fail_if (NodeAccount_IsEmpty nodeAccount) "node account is unexpectedly empty";
      _ ← fail_if (negb (bool_decide (na_Type nodeAccount = TypeNode))) "node account must be a node";
      r ← try (resolveNodeBondForNodeAccount nodeAccount);
      _ ← fail_if (is_ok r) "not the current operator for node";
      mret nodeAccount
  end.

Definition resolveActiveNodeAccountBySigner (ctx : Ctx) (signer : string) : KM NodeAccount :=
  nodeAccount ← resolveNodeAccountBySigner ctx signer;
  _ ← fail_if (negb (bool_decide (na_Status nodeAccount = NodeActive))) "node account not active";
  mret nodeAccount.

(** A node without a bond acts for itself. *)
Definition resolveNodeAccountByAddressAndSigner (ctx : Ctx) (nodeAddress signer : string)
    : KM NodeAccount :=
  nodeAccount ← GetNodeAccount ctx nodeAddress;
  _ ← fail_if (NodeAccount_IsEmpty nodeAccount) "node account is unexpectedly empty";
  _ ← fail_if (negb (bool_decide (na_Type nodeAccount = TypeNode))) "node account must be a node";
  r ← try (resolveNodeBondForNodeAccount nodeAccount);
  match r with
  | Ok bond =>
      operator ← lift (PubKey.GetThorAddress (nb_OperatorPubKey bond));
      if Acc_Equals operator signer then mret nodeAccount
      else fail "not authorized for node"
  | Err e | Panic e =>
      if Acc_Equals signer (na_NodeAddress nodeAccount) then mret nodeAccount else fail e
  end.
End Nodes.

Lemma min_join_keeps `{SemVer} {T} (p : KVStore → T) ctx :
  (∀ v s, p (s <| kv_min_join_last := v |>) = p s) → keeps p (SetMinJoinLast ctx).
Proof.
  intros Hp. unfold SetMinJoinLast, GetMinJoinLast, GetMinJoinVersion, ListActiveNodes,
    ListNodesByStatus, getIterator. keeps_tac. apply keeps_modify. intros s. apply Hp.
Qed.

Lemma min_join_last_keeps `{SemVer} {T} (p : KVStore → T) : keeps p GetMinJoinLast.
Proof.
  unfold GetMinJoinLast, GetMinJoinVersion, ListActiveNodes, ListNodesByStatus, getIterator.
  keeps_tac.
Qed.

(** ** The registry of nodes

The well-formed registries: an account is filed under its own address and is
not empty, it has a height of activation exactly while it is active, and scores
and penalties are not negative.  [offered] is what may be written. *)

Module Registry.
Definition offered (na : NodeAccount) : Prop :=
  (na_Status na ≠ NodeActive → na_ActiveBlockHeight na = 0) ∧ 0 <= na_LeaveScore na.

Definition account_ok (na : NodeAccount) : Prop :=
  NodeAccount_IsEmpty na = false ∧ offered na
  ∧ (na_Status na = NodeActive → na_ActiveBlockHeight na ≠ 0).

Definition accounts_ok (accounts : gmap string NodeAccount) : Prop :=
  ∀ k na, accounts !! k = Some na → k = ToUpper (na_NodeAddress na) ∧ account_ok na.

Definition penalties_ok (penalties : gmap string Z) : Prop :=
  ∀ k p, penalties !! k = Some p → 0 <= p ∧ is_i64 p.

Definition registry_ok (s : KVStore) : Prop :=
  accounts_ok (kv_node_account s) ∧ penalties_ok (kv_penalty s).

(** The nodes of a status, in the order of the store. *)
Definition nodes_by_status (status : NodeStatus) (s : KVStore) : list NodeAccount :=
  List.filter (λ na, bool_decide (na_Type na = TypeNode) && bool_decide (na_Status na = status))
    (sorted_values (kv_node_account s)).

Lemma list_nodes_run status s :
  ListNodesByStatus status s = (Ok (nodes_by_status status s), s).
Proof. reflexivity. Qed.

Lemma elem_of_nodes status s na :
  na ∈ nodes_by_status status s ↔
  (∃ k, kv_node_account s !! k = Some na) ∧ na_Type na = TypeNode ∧ na_Status na = status.
Proof.
  unfold nodes_by_status. rewrite list_elem_of_In, filter_In, <- list_elem_of_In,
    elem_of_sorted_values, andb_true_iff, !bool_decide_eq_true. done.
Qed.

Lemma nodes_ok status s : registry_ok s →
  Forall (λ na, account_ok na ∧ na_Status na = status) (nodes_by_status status s).
Proof.
  intros [Ha _]. apply Forall_forall. intros na Hin. apply elem_of_nodes in Hin as ([k Hk] & _ & Hst).
  split; [|done]. by apply (Ha k).
Qed.

Lemma account_offered na : account_ok na → offered na.
Proof. by intros (_ & H & _). Qed.

Lemma registry_frame s s' :
  (kv_node_account s, kv_penalty s) = (kv_node_account s', kv_penalty s') →
  registry_ok s → registry_ok s'.
Proof. unfold registry_ok. by intros [= -> ->]. Qed.

(** Whatever leaves the two maps alone keeps the registry. *)
Lemma registry_kept {A} (m : KM A) :
  keeps (λ s, (kv_node_account s, kv_penalty s)) m → yields registry_ok m (λ _, True).
Proof. apply yields_keeps, registry_frame. Qed.

Lemma offered_update na status height : offered na → offered (UpdateStatus na status height).
Proof.
  intros [Ha Hs]. unfold UpdateStatus. case_bool_decide; [done|]. cbv zeta.
  case_bool_decide; (split; [|done]); rec_simpl; [done|by intros _].
Qed.

Lemma offered_new addr status keys cons bond addr' height :
  offered (NewNodeAccount addr status keys cons bond addr' height).
Proof. unfold NewNodeAccount. cbv zeta. apply offered_update. split; [done|]. by vm_compute. Qed.

Lemma insert_penalty s k p : registry_ok s → 0 <= p → is_i64 p →
  registry_ok (set_field kv_penalty <[k:=p]> s).
Proof.
  intros [Ha Hp] H0 Hi. split; [exact Ha|]. intros k' p'. rec_simpl.
  rewrite lookup_insert. case_decide; [by intros [= <-]|apply Hp].
Qed.

Lemma delete_penalty s k : registry_ok s → registry_ok (set_field kv_penalty (delete k) s).
Proof.
  intros [Ha Hp]. split; [exact Ha|]. intros k' p'. rec_simpl.
  rewrite lookup_delete. case_decide; [done|apply Hp].
Qed.

Lemma insert_account s na : registry_ok s → account_ok na →
  registry_ok (set_field kv_node_account <[ToUpper (na_NodeAddress na):=na]> s).
Proof.
  intros [Ha Hp] Hna. split; [|exact Hp]. intros k' na'. rec_simpl.
  rewrite lookup_insert. case_decide; [by intros [= <-]|apply Ha].
Qed.

Lemma reset_yields addr : yields registry_ok (ResetNodeAccountPenaltyPoints addr) (λ _, True).
Proof. apply yields_modify. intros s. apply delete_penalty. Qed.

Lemma set_penalty_yields addr pts : is_i64 pts →
  yields registry_ok (SetNodeAccountPenaltyPoints addr pts) (λ _, True).
Proof.
  intros Hi. apply yields_modify. intros s Hs.
  apply insert_penalty; [done|destruct (pts <? 0) eqn:E; lia|].
  destruct (pts <? 0); [|done]. by unfold is_i64, two63.
Qed.

Lemma get_penalty_yields addr : yields registry_ok (GetNodeAccountPenaltyPoints addr) (λ _, True).
Proof. apply registry_kept. unfold GetNodeAccountPenaltyPoints. frame_tac. Qed.

Lemma i64_range z : is_i64 (i64 z).
Proof.
  unfold is_i64, i64, two63, two64. pose proof (Z.mod_pos_bound (z + 9223372036854775808)
    18446744073709551616 ltac:(lia)). lia.
Qed.

Lemma inc_penalty_yields addr pts :
  yields registry_ok (IncNodeAccountPenaltyPoints addr pts) (λ _, True).
Proof.
  eapply yields_bind; [apply get_penalty_yields|]. intros cur _. apply set_penalty_yields, i64_range.
Qed.

Lemma dec_penalty_yields addr pts :
  yields registry_ok (DecNodeAccountPenaltyPoints addr pts) (λ _, True).
Proof.
  eapply yields_bind; [apply get_penalty_yields|]. intros cur _. apply set_penalty_yields, i64_range.
Qed.

Lemma set_account_yields ctx na : BlockHeight ctx ≠ 0 → offered na →
  yields registry_ok (SetNodeAccount ctx na) (λ _, True).
Proof.
  intros Hh [Hidle Hscore]. unfold SetNodeAccount.
  destruct (NodeAccount_IsEmpty na) eqn:Ee; [by apply yields_ret|].
  apply (yields_bind _ _ _ (λ na', account_ok na')).
  - destruct (_ && _) eqn:E.
    + apply andb_true_iff in E as [Ea%bool_decide_eq_true _].
      eapply yields_bind; [apply reset_yields|]. intros _ _. apply yields_ret.
      split; [exact Ee|]. split; [|by intros _]. split; [by intros []|done].
    + apply yields_ret. split; [done|]. split; [done|]. intros Ha H0.
      rewrite bool_decide_eq_true_2, H0 in E by done. discriminate.
  - intros na' Hna'. apply yields_modify. intros s Hs. by apply insert_account.
Qed.

Lemma get_account_yields ctx addr : yields registry_ok (GetNodeAccount ctx addr) offered.
Proof.
  eapply (yields_bind _ _ _ (λ o, ∀ na, o = Some na → offered na)).
  - apply yields_gets. intros s [Ha _] na Hna. by apply (Ha _ _ Hna).
  - intros [na|] Hna; apply yields_ret; simpl; [by apply Hna|apply offered_new].
Qed.

Lemma list_nodes_yields status :
  yields registry_ok (ListNodesByStatus status) (Forall (λ na, account_ok na ∧ na_Status na = status)).
Proof. intros s Hs. split; [done|]. intros l [= <-]. by apply nodes_ok. Qed.

(** *** Runs that write accounts *)

Definition key (na : NodeAccount) : string := ToUpper (na_NodeAddress na).

(** What a write files: an active node gets its height of activation. *)
Definition stored (ctx : Ctx) (na : NodeAccount) : NodeAccount :=
  if bool_decide (na_Status na = NodeActive) && (na_ActiveBlockHeight na =? 0)
  then na <| na_ActiveBlockHeight := BlockHeight ctx |> else na.

(** The store without the registry. *)
Definition others (s : KVStore) : KVStore :=
  s <| kv_node_account := ∅ |> <| kv_penalty := ∅ |>.

Lemma stored_status ctx na : na_Status (stored ctx na) = na_Status na.
Proof. unfold stored. by case_match. Qed.

Lemma stored_empty ctx na : NodeAccount_IsEmpty (stored ctx na) = NodeAccount_IsEmpty na.
Proof.
  unfold stored. destruct (bool_decide (na_Status na = NodeActive)); [|done].
  by destruct (na_ActiveBlockHeight na =? 0).
Qed.

Lemma set_account_run ctx na s : NodeAccount_IsEmpty na = false →
  ∃ s', SetNodeAccount ctx na s = (Ok tt, s')
    ∧ kv_node_account s' = <[key na := stored ctx na]> (kv_node_account s)
    ∧ others s' = others s.
Proof.
  intros He. unfold SetNodeAccount, stored. rewrite He. unfold mbind, M_bind.
  destruct (_ && _); eexists; (split; [reflexivity|]); done.
Qed.

(** The registry after accounts are written one by one. *)
Definition written (f : NodeAccount → NodeAccount) (m : gmap string NodeAccount)
    (l : list NodeAccount) : gmap string NodeAccount :=
  foldl (λ m na, <[key na := f na]> m) m l.

Lemma written_lookup f (m0 m : gmap string NodeAccount) l k :
  (∀ na, na ∈ l → m0 !! key na = Some na) →
  written f m l !! k = if decide (k ∈ map key l) then f <$> m0 !! k else m !! k.
Proof.
  unfold written. revert m. induction l as [|x l IH] using rev_ind; intros m Hl; [done|].
  rewrite foldl_app. simpl. rewrite lookup_insert.
  assert (Hx : m0 !! key x = Some x) by (apply Hl; set_solver).
  rewrite map_app. simpl. destruct (decide (key x = k)) as [Hk|Hk].
  - subst k. rewrite decide_True by set_solver. by rewrite Hx.
  - rewrite IH by (intros; apply Hl; set_solver).
    destruct (decide (k ∈ map key l)); [rewrite decide_True by set_solver; done|].
    rewrite decide_False by set_solver. done.
Qed.

Lemma set_all_run ctx f l : ∀ s,
  (∀ na, na ∈ l → NodeAccount_IsEmpty (f na) = false ∧ key (f na) = key na) →
  ∃ s', mfor (λ na, SetNodeAccount ctx (f na)) l s = (Ok tt, s')
    ∧ kv_node_account s' = written (λ na, stored ctx (f na)) (kv_node_account s) l
    ∧ others s' = others s.
Proof.
  induction l as [|x l IH]; intros s Hl; [by exists s|].
  destruct (Hl x) as [He Hk]; [by left|].
  destruct (set_account_run ctx (f x) s He) as (s1 & Hr & Ha & Ho).
  destruct (IH s1) as (s2 & Hr2 & Ha2 & Ho2); [intros; apply Hl; by right|].
  exists s2. unfold mfor in *. rewrite mfold_cons, (bind_run _ _ _ _ _ Hr).
  split; [done|]. split; [|congruence]. rewrite Ha2, Ha, Hk. done.
Qed.

Lemma nodes_keys_NoDup status s : registry_ok s → NoDup (map key (nodes_by_status status s)).
Proof.
  intros [Ha _]. apply NoDup_map_filter.
  assert (Hk : map key (sorted_values (kv_node_account s)) ≡ₚ (map_to_list (kv_node_account s)).*1).
  { rewrite (fmap_Permutation key _ _ (sorted_values_perm _)). rewrite <- list_fmap_compose.
    apply reflexive_eq, list_fmap_ext. intros i [k na] Hi.
    apply list_elem_of_lookup_2, elem_of_map_to_list in Hi. simpl. by destruct (Ha k na Hi). }
  rewrite Hk. apply NoDup_fst_map_to_list.
Qed.

Lemma node_filed status s na : registry_ok s → na ∈ nodes_by_status status s →
  kv_node_account s !! key na = Some na.
Proof.
  intros [Ha _] Hin. apply elem_of_nodes in Hin as ([k Hk] & _). unfold key.
  by destruct (Ha k na Hk) as [<- _].
Qed.

Lemma update_nonempty na status height : NodeAccount_IsEmpty na = false → status ≠ NodeUnknown →
  NodeAccount_IsEmpty (UpdateStatus na status height) = false.
Proof.
  unfold NodeAccount_IsEmpty, UpdateStatus. intros [Ha Hs]%orb_false_iff Hst.
  destruct (bool_decide (na_Status na = status)); [by apply orb_false_iff|]. cbv zeta.
  destruct (bool_decide (status = NodeActive)); (apply orb_false_iff; split; [exact Ha|by apply bool_decide_eq_false]).
Qed.

Lemma update_same na status height :
  na_Status (UpdateStatus na status height) = status
  ∧ key (UpdateStatus na status height) = key na.
Proof.
  unfold UpdateStatus, key. case_bool_decide; [done|]. cbv zeta. by case_bool_decide.
Qed.
End Registry.

(** ** The version of a supermajority *)

Module MinJoin.
Section Versions.
Context `{SemVerLaws}.
#[local] Abbreviation V := NodeAccount_GetVersion.
#[local] Notation "v ≼ w" := (semver_Compare v w <= 0) (at level 70).

Lemma total v w : v ≼ w ∨ w ≼ v.
Proof. pose proof (compare_opp v w). lia. Qed.

(** How many of the nodes run at least this version. *)
Definition supporters (nodes : list NodeAccount) (v : Version) : Z :=
  sum_by (λ na, if Version_LTE v (V na) then 1 else 0) nodes.

Lemma supporters_app l l' v : supporters (l ++ l') v = supporters l v + supporters l' v.
Proof. apply sum_by_app. Qed.

Lemma supporters_one na v : supporters [na] v = if Version_LTE v (V na) then 1 else 0.
Proof. unfold supporters. rewrite sum_by_cons, sum_by_nil. lia. Qed.

Lemma supporters_equiv l v w : v ≼ w → w ≼ v → supporters l v = supporters l w.
Proof.
  intros Hvw Hwv. apply sum_by_ext. intros na _. unfold Version_LTE.
  pose proof (compare_trans w v (V na)). pose proof (compare_trans v w (V na)).
  destruct (semver_Compare v (V na) <=? 0) eqn:E, (semver_Compare w (V na) <=? 0) eqn:F; lia.
Qed.

Lemma supporters_bounds l v : 0 <= supporters l v <= Z.of_nat (length l).
Proof.
  unfold supporters. induction l as [|x l IH]; [by vm_compute|]. rewrite sum_by_cons.
  cbn [length]. case_match; lia.
Qed.

Lemma supporters_none l v : (∀ na, na ∈ l → ¬ v ≼ V na) → supporters l v = 0.
Proof.
  intros Hl. apply sum_by_zero. intros na Hna. unfold Version_LTE. specialize (Hl na Hna).
  destruct (_ <=? 0) eqn:E; [lia|done].
Qed.

(** The counts after some of the nodes, taken in the order of their versions:
    none is too large, and every version met has an exact one. *)
Definition counted (done : list NodeAccount) (vCount : list (Version * Z)) : Prop :=
  (∀ v c, (v, c) ∈ vCount → (∃ na, na ∈ done ∧ v = V na) ∧ c <= supporters done v)
  ∧ (∀ na, na ∈ done → ∃ v c, (v, c) ∈ vCount ∧ v ≼ V na ∧ V na ≼ v ∧ c = supporters done v).

Lemma text_version v na : str_eq (semver_String v) (na_Version na) = true → v = V na.
Proof.
  intros He%bool_decide_eq_true. unfold NodeAccount_GetVersion, semver_Make.
  by rewrite <- He, parse_string.
Qed.

Lemma counted_entry done vCount na v : counted done vCount → (∀ x, x ∈ done → V x ≼ V na) →
  v ∈ done → ∃ w c, (w, c) ∈ count_version vCount na ∧ w ≼ V v ∧ V v ≼ w
    ∧ c = supporters (done ++ [na]) w.
Proof.
  intros [_ Hex] Hle Hv. destruct (Hex v Hv) as (w & c & Hin & Hw1 & Hw2 & Hc).
  assert (Hwna : w ≼ V na) by (eapply compare_trans; [exact Hw1|by apply Hle]).
  exists w, (c + 1). split; [|rewrite supporters_app, supporters_one; unfold Version_LTE].
  - unfold count_version. apply list_elem_of_fmap. exists (w, c). cbn [fst snd]. split.
    + unfold Version_LTE. by replace (semver_Compare w (V na) <=? 0) with true by lia.
    + case_match; [done|]. apply elem_of_app. by left.
  - by replace (semver_Compare w (V na) <=? 0) with true by lia; rewrite Hc.
Qed.

Lemma count_version_counted done vCount na : counted done vCount →
  (∀ x, x ∈ done → V x ≼ V na) → counted (done ++ [na]) (count_version vCount na).
Proof.
  intros Hc Hle. split.
  - intros v c Hin0. apply list_elem_of_fmap in Hin0 as ([v' c'] & Heq & Hin). cbn [fst snd] in Heq.
    assert (Hv : v = v' ∧ c = c' + (if Version_LTE v' (V na) then 1 else 0)).
    { destruct (Version_LTE v' (V na)); simplify_eq; split; (done || lia). }
    destruct Hv as [-> ->]. rewrite supporters_app, supporters_one.
    assert (Hin' : (v', c') ∈ vCount ∨ (v', c') = (V na, 0)).
    { destruct (existsb _ vCount); [by left|]. apply elem_of_app in Hin as [Hin|Hin]; [by left|].
      right. by apply list_elem_of_singleton in Hin. }
    destruct Hin' as [Hin'|Hin'].
    + destruct (proj1 Hc _ _ Hin') as [(x & Hx & ->) Hle']. split; [|lia].
      exists x. split; [|done]. apply elem_of_app. by left.
    + simplify_eq. split; [|pose proof (supporters_bounds done (V na)); lia].
      exists na. split; [|done]. apply elem_of_app. right. by apply list_elem_of_singleton.
  - intros x Hx. apply elem_of_app in Hx as [Hx|Hx]; [by apply (counted_entry done)|].
    apply list_elem_of_singleton in Hx as ->.
    destruct (decide (Exists (λ y, V na ≼ V y) done)) as [Hex|Hnone].
    + apply Exists_exists in Hex as (y & Hy & Hny).
      destruct (counted_entry done vCount na y Hc Hle Hy) as (w & c & Hin & Hw1 & Hw2 & Hcc).
      exists w, c. split; [done|]. split; [eapply compare_trans; [exact Hw1|by apply Hle]|].
      split; [by eapply compare_trans|done].
    + unfold count_version. destruct (existsb _ vCount) eqn:E.
      { apply existsb_exists in E as ([w c] & Hin & Ht). apply text_version in Ht.
        destruct (proj1 Hc w c) as [(y & Hy & Hwy) _]; [by apply list_elem_of_In|].
        exfalso. apply Hnone, Exists_exists. exists y. split; [done|].
        simpl in Ht. rewrite <- Ht, Hwy, compare_refl. done. }
      exists (V na), 1. rewrite supporters_app, supporters_one, supporters_none.
      * unfold Version_LTE. rewrite compare_refl. split; [|done].
        rewrite map_app. apply elem_of_app. right. cbn [map fst snd].
        rewrite compare_refl. by left.
      * intros y Hy Hny. apply Hnone, Exists_exists. eauto.
Qed.

Lemma counted_all todo : ∀ done vCount, counted done vCount →
  StronglySorted (λ a b, V a ≼ V b) (done ++ todo)%list →
  counted (done ++ todo) (foldl count_version vCount todo).
Proof.
  induction todo as [|na todo IH]; intros done vCount Hc Hs; [by rewrite app_nil_r|].
  simpl. replace (done ++ na :: todo)%list with ((done ++ [na]) ++ todo)%list in *
    by (by rewrite <- app_assoc).
  apply IH; [|done]. apply count_version_counted; [done|]. intros x Hx. clear IH Hc.
  induction done as [|y done IHd]; simpl in *; [by apply elem_of_nil in Hx|].
  inversion_clear Hs as [|? ? Hs' Hy]. apply elem_of_cons in Hx as [->|Hx]; [|by apply IHd].
  rewrite Forall_forall in Hy. apply Hy. rewrite !elem_of_app. left. right.
  by apply list_elem_of_singleton.
Qed.

(** The greatest version that passes, from a start version on. *)
Lemma greatest_passing n l : ∀ start r,
  foldl (λ version info, if negb (HasSuperMajority info.2 n) then version
                         else if Version_GT info.1 version then info.1 else version) start l = r →
  start ≼ r ∧ (∀ v c, (v, c) ∈ l → HasSuperMajority c n = true → v ≼ r)
  ∧ (r = start ∨ ∃ c, (r, c) ∈ l ∧ HasSuperMajority c n = true).
Proof.
  induction l as [|[v c] l IH]; intros start r Hr; simpl in Hr.
  { subst r. rewrite compare_refl. split; [done|]. split; [|by left].
    by intros ? ? ?%elem_of_nil. }
  destruct (IH _ _ Hr) as (H1 & H2 & H3). clear IH Hr.
  destruct (HasSuperMajority c n) eqn:E; cbn [negb] in *.
  - unfold Version_GT in *. destruct (0 <? semver_Compare v start) eqn:F.
    + pose proof (compare_opp start v).
      split; [eapply compare_trans; [|exact H1]; lia|]. split.
      * intros v' c' [Heq|Hin]%elem_of_cons Hm; [by simplify_eq|by apply (H2 v' c')].
      * right. destruct H3 as [->|(c' & Hin & Hm)]; [exists c|exists c']; (split; [|done]).
        -- by left. -- by right.
    + split; [done|]. split.
      * intros v' c' [Heq|Hin]%elem_of_cons Hm; [|by apply (H2 v' c')]. simplify_eq.
        eapply compare_trans; [|exact H1]. lia.
      * destruct H3 as [->|(c' & Hin & Hm)]; [by left|]. right. exists c'. split; [by right|done].
  - split; [done|]. split.
    + intros v' c' [Heq|Hin]%elem_of_cons Hm; [simplify_eq; congruence|by apply (H2 v' c')].
    + destruct H3 as [->|(c' & Hin & Hm)]; [by left|]. right. exists c'. split; [by right|done].
Qed.

Lemma min_join_counted nodes :
  counted (insert_sort (λ a b, Version_LT (V a) (V b)) nodes)
    (foldl count_version [] (insert_sort (λ a b, Version_LT (V a) (V b)) nodes)).
Proof.
  set (l := insert_sort _ nodes).
  assert (Hs : StronglySorted (λ a b, V a ≼ V b) l).
  { apply insert_sort_Sorted; unfold Version_LT.
    - intros a b c. apply compare_trans.
    - intros a b. lia.
    - intros a b. pose proof (compare_opp (V a) (V b)). lia. }
  apply (counted_all l [] []); [|done]. split.
  - by intros v c ?%elem_of_nil.
  - by intros na ?%elem_of_nil.
Qed.
End Versions.
End MinJoin.

(** ** Properties *)

(** The version to join with is the greatest one that a supermajority of
    the active nodes runs or exceeds: it is supported by a supermajority (or is
    the zero version) and no greater version of an active node is. *)
Theorem min_join_supermajority `{SemVerLaws} (s : KVStore) :
  let active := Registry.nodes_by_status NodeActive s in
  let passes v := HasSuperMajority (MinJoin.supporters active v) (Z.of_nat (length active)) in
  ∃ r, GetMinJoinVersion s = (Ok r, s)
    ∧ (r = Version_zero
       ∨ passes r = true ∧ ∃ na, na ∈ active ∧ r = NodeAccount_GetVersion na)
    ∧ ∀ na, na ∈ active → passes (NodeAccount_GetVersion na) = true →
        semver_Compare (NodeAccount_GetVersion na) r <= 0.
Proof.
  intros active passes. exists (min_join_version active). split; [reflexivity|].
  unfold min_join_version. cbv zeta.
  set (l := insert_sort (λ a b, Version_LT _ _) active).
  assert (Hl : l ≡ₚ active) by apply insert_sort_perm.
  assert (Hsup : ∀ v, MinJoin.supporters l v = MinJoin.supporters active v)
    by (intros v; by apply sum_by_perm).
  rewrite (Permutation_length Hl).
  set (n := Z.of_nat (length active)) in *.
  destruct (MinJoin.min_join_counted active) as [Hup Hex]. fold l in Hup, Hex.
  destruct (MinJoin.greatest_passing n
    (insert_sort (λ a b, Version_GT a.1 b.1) (foldl count_version [] l)) Version_zero _ eq_refl) as (_ & Hmax & Hr).
  set (r := foldl _ Version_zero _) in *. split.
  - destruct Hr as [Hr|(c & Hin & Hm)]; [by left|right].
    rewrite insert_sort_perm in Hin. destruct (Hup _ _ Hin) as [(na & Hna & Hv) Hc].
    rewrite Hl in Hna. split; [|eauto]. rewrite Hsup in Hc. unfold passes.
    apply super_majority_spec; [lia|]. apply super_majority_spec in Hm; [|lia].
    pose proof (MinJoin.supporters_bounds active r). lia.
  - intros na Hna Hm. rewrite <- Hl in Hna.
    destruct (Hex na Hna) as (v & c & Hin & H1 & H2 & Hc).
    eapply compare_trans; [exact H2|]. apply (Hmax v c).
    + by rewrite insert_sort_perm.
    + rewrite Hc, Hsup, (MinJoin.supporters_equiv _ v (NodeAccount_GetVersion na)) by done.
      exact Hm.
Qed.

(** Versions that are single numbers. *)
Module ToyVersions.
#[export] Instance toy_versions : SemVer := {|
  Version := nat;
  Version_zero := O;
  semver_Parse s := match parse_dec s with Some z => Ok (Z.to_nat z) | None => Err "invalid" end;
  semver_Compare v w := match (v ?= w)%nat with Lt => -1 | Eq => 0 | Gt => 1 end;
  semver_String v := itoa (Z.of_nat v);
  semver_tagged v := false
|}.

Lemma compare_le (v w : nat) : semver_Compare v w <= 0 ↔ (v <= w)%nat.
Proof. simpl. destruct (Nat.compare_spec v w); lia. Qed.

#[export] Instance toy_versions_laws : SemVerLaws.
Proof.
  split.
  - intros v. simpl. rewrite parse_itoa by lia. by rewrite Nat2Z.id.
  - intros v. simpl. by rewrite Nat.compare_refl.
  - intros v w. simpl. rewrite (Nat.compare_antisym v w). by destruct (v ?= w)%nat.
  - intros u v w. rewrite !compare_le. lia.
Qed.

Definition registry (l : list NodeAccount) : gmap string NodeAccount :=
  list_to_map (map (λ na, (ToUpper (na_NodeAddress na), na)) l).

Lemma registry_list_ok l : Forall Registry.account_ok l → Registry.accounts_ok (registry l).
Proof.
  intros Hl k na Hk. apply elem_of_list_to_map_2 in Hk. apply list_elem_of_fmap in Hk as (x & Hx & Hin).
  simplify_eq. rewrite Forall_forall in Hl. split; [done|]. by apply Hl.
Qed.

Definition running (addr version : string) : NodeAccount :=
  NodeAccount_zero <| na_NodeAddress := addr |> <| na_Status := NodeActive |>
    <| na_Version := version |>.

Definition six_nodes : KVStore :=
  KVStore_empty <| kv_node_account := registry
    [running "a" "1"; running "b" "1"; running "c" "2"; running "d" "3"; running "e" "4";
     running "f" "5"] |>.
End ToyVersions.

Section Concrete.
Import ToyVersions.

(** Version 1 is the most popular, yet 2 is the version to join with. *)
Lemma min_join_supermajority_witness :
  (GetMinJoinVersion six_nodes).1 = Ok (2 : nat).
Proof.
  destruct (min_join_supermajority six_nodes)
    as (r & Hr & _ & Hmax).
  rewrite Hr. simpl. f_equal.
  assert (Hrun : (GetMinJoinVersion six_nodes).1
    = Ok (2 : nat)) by (vm_compute; reflexivity).
  rewrite Hr in Hrun. by injection Hrun.
Defined.
End Concrete.
