(* ===== verification/Rotation.v ===== *)
(** * Vault rotation (x/thornado/manager_network_current.go)

A churn asks for a key generation among the next members
([NetworkMgr.TriggerKeygen]); the vault it produces replaces the active vaults
that share a member with it ([NetworkMgr.RotateVault]). *)

From S2P Require Import Prelude GoStrings Config Common Types Vaults Keeper Nodes.

Definition genesisBlockHeight : Z := 1.

(** [halt > 0 && halt <= height]: the halt is set and its height reached. *)
Definition halted_at (halt height : Z) : bool := (0 <? halt) && (halt <=? height).

Section Rotation.
Context `{Ext} (ctx : Ctx).

(** The members of a ceremony, in the order of the nodes; none may be missing
    its keys or appear twice. *)
Definition keygen_member (members : list string) (na : NodeAccount) : res (list string) :=
  if PubKeySet_IsEmpty (na_PubKeySet na) then Err "fail to trigger keygen: node has empty pubkey set"
  else
    let member := pks_Secp256k1 (na_PubKeySet na) in
    if existsb (str_eq member) members
    then Err "fail to trigger keygen: duplicate secp256k1 pubkey"
    else Ok (members ++ [member])%list.

Definition keygen_members (nas : list NodeAccount) : res (list string) :=
  rfold keygen_member [] nas.

Definition retire_init_vault (v : Vault) : KM unit :=
  if Vault.HasFunds v then mret tt
  else _ ← try (SetVault (Vault.UpdateStatus v InactiveVault (BlockHeight ctx))); mret tt.

Definition TriggerKeygen (nas : list NodeAccount) : KM unit :=
  halt ← GetConfigInt64 Halt_Churning;
  if halted_at halt (BlockHeight ctx) then mret tt
  else
    minimumMembers ← GetConfigInt64 Vault_BaseMembersMin;
    if (0 <? minimumMembers) && (Z.of_nat (length nas) <? minimumMembers) then mret tt
    else
      members ← lift (keygen_members nas);
      let keygen := NewKeygen (BlockHeight ctx) members BaseVaultKeygen in
      keygenBlock ← GetKeygenBlock (BlockHeight ctx);
      let keygenBlock := if KeygenBlock_Contains keygenBlock keygen then keygenBlock
        else keygenBlock <| kb_Keygens := (kb_Keygens keygenBlock ++ [keygen])%list |> in
      active ← GetBaseVaultsByStatus ctx ActiveVault;
      if existsb (λ vault, Vault.MembershipEquals vault (Keygen_GetMembers keygen)) active
      then mret tt
      else
        _ ← SetKeygenBlock keygenBlock;
        r ← try (GetBaseVaultsByStatus ctx InitVault);
        match r with
        | Ok initVaults => mfor retire_init_vault initVaults
        | _ => mret tt
        end.

(** An active vault that shares a member with the new one retires. *)
Definition shares_member (vault base : Vault) : bool :=
  existsb (Vault.Contains vault) (Vault.GetMembership base).

Definition retire_conflicting (vault base : Vault) : KM unit :=
  if shares_member vault base
  then SetVault (Vault.UpdateStatus base RetiringVault (BlockHeight ctx))
  else mret tt.

Definition join_vault (vaultPubKey member : string) : KM unit :=
  na ← GetNodeAccountByPubKey ctx member;
  SetNodeAccount ctx (TryAddSignerPubKey na vaultPubKey).

Definition cleanup_vault (vault : Vault) : KM unit :=
  if PubKey.IsEmpty (va_PubKey vault) || negb (Vault.IsBase vault) then mret tt
  else if Vault.status_eqb (va_Status vault) InactiveVault
  then _ ← try (RemoveFromBaseIndex (va_PubKey vault)); mret tt
  else mret tt.

Definition cleanupBaseIndex : KM unit :=
  baseVaults ← GetBaseVaults ctx; mfor cleanup_vault baseVaults.

Definition RotateVault (vault : Vault) : KM unit :=
  active ← GetBaseVaultsByStatus ctx ActiveVault;
  _ ← mfor (retire_conflicting vault) active;
  _ ← mfor (join_vault (va_PubKey vault)) (Vault.GetMembership vault);
  _ ← SetVault (Vault.UpdateStatus vault ActiveVault (BlockHeight ctx));
  _ ← try cleanupBaseIndex;
  mret tt.

(** The first vault of a new chain: a key generation, or the only node's key. *)
Definition processGenesisSetup : KM unit :=
  if negb (BlockHeight ctx =? genesisBlockHeight) then mret tt
  else
    vaults ← GetBaseVaults ctx;
    if (0 <? length vaults)%nat then mret tt
    else
      active ← ListActiveNodes;
      _ ← fail_if (length active =? 0)%nat "no active accounts,cannot proceed";
      minimumMembers ← GetConfigInt64 Vault_BaseMembersMin;
      if (0 <? minimumMembers) && (Z.of_nat (length active) <? minimumMembers) then mret tt
      else match active with
      | [na] =>
          let pubSet := na_PubKeySet na in
          SetVault ((Vault.NewVaultV2 0 ActiveVault BaseVault (pks_Secp256k1 pubSet)
                       [BTCChain; BTCChain] "")
                      <| va_Membership := [pks_Secp256k1 pubSet] |>)
      | _ => TriggerKeygen active
      end.
End Rotation.
