(* ===== verification/Churn.v ===== *)
(** * The validator manager (x/thornado/manager_validator_current.go)

At the end of a churn interval the candidates are ranked, the nodes to leave
are marked and the members of the next vault are chosen ([NodeMgr.churn]); when
the new vault is active the end of the block moves its members into the active
set and the others out of it ([NodeMgr.EndBlock]). *)

From S2P Require Import Prelude GoStrings Config Common Types Vaults Keeper BtcBatch Bonds Pow Deposits Nodes Rotation.

(** [sdk.ValAddress(pk.Address()).String()] of a consensus key's text. *)
Class ConsAddress := cons_val_address : string → string.

(** ** How many may leave (manager_validator.go) *)

Definition findMaxAbleToLeave (count : Z) : Z :=
  let majority := Z.quot (count * 2) 3 + 1 in
  let max := count - majority in
  if count - max <? 4 then Z.max 0 (count - 4) else max.

Definition leave_candidates (active : list NodeAccount) : list NodeAccount :=
  List.filter (λ na, 0 <? na_LeaveScore na) active.

Definition wants_to_leave (na : NodeAccount) : bool :=
  (0 <? na_LeaveScore na) || na_ForcedToLeave na || na_RequestedToLeave na.

Definition hasLeaveCandidate (active : list NodeAccount) : bool := existsb wants_to_leave active.

Definition findCountToRemove (active : list NodeAccount) : Z :=
  let candidateCount := Z.of_nat (length (leave_candidates active)) in
  let maxRemove := findMaxAbleToLeave (Z.of_nat (length active)) in
  match active with
  | [] => 0
  | first :: _ =>
      if maxRemove =? 0
      then (if na_ForcedToLeave first || na_RequestedToLeave first then 1 else 0)
      else Z.min candidateCount maxRemove
  end.

Definition findCountToRemoveWithReplacements (active : list NodeAccount)
    (replacementCount targetCount minimumNodesForBFT : Z) : Z :=
  let toRemove := findCountToRemove active in
  if 0 <? toRemove then toRemove
  else if (replacementCount <=? 0) || negb (hasLeaveCandidate active)
          || (Z.of_nat (length active) <? targetCount) then 0
  else if Z.of_nat (length active) - 1 + replacementCount <? minimumNodesForBFT then 0
  else 1.

Definition lowest_first (a b : NodeAccount) : bool := na_Bond a <? na_Bond b.
Definition highest_first (a b : NodeAccount) : bool := na_Bond b <? na_Bond a.

(** ** Groups of members (splitNext) *)

Definition operator_count (nas : list NodeAccount) (na : NodeAccount) : Z :=
  Z.of_nat (length (List.filter (λ n, str_eq (na_BondAddress n) (na_BondAddress na)) nas)).

Definition multi_node_before (nas : list NodeAccount) (a b : NodeAccount) : bool :=
  if operator_count nas a =? operator_count nas b then
    if str_eq (na_BondAddress a) (na_BondAddress b) then na_Bond b <? na_Bond a
    else str_lt (na_BondAddress a) (na_BondAddress b)
  else operator_count nas b <? operator_count nas a.

Definition dealt (groupNum : nat) (nas : list NodeAccount) (i : nat) : list NodeAccount :=
  (List.filter (λ p, (p.1 mod groupNum =? i)%nat) (imap pair nas)).*2.

Definition group_size_ok (max : Z) (groups : list (list NodeAccount)) (i : nat) : bool :=
  let len j := Z.of_nat (length (default [] (groups !! j))) in
  negb (max <? len i) && negb (len i <? 2)
  && ((i =? 0)%nat || negb (1 <? Z.abs (len i - len (i - 1)%nat))).

Definition splitNext (nas : list NodeAccount) (baseVaultMembersMinimum : Z)
    : list (list NodeAccount) :=
  if baseVaultMembersMinimum <=? 0 then []
  else
    let n := Z.of_nat (length nas) in
    let groupNum := Z.quot n baseVaultMembersMinimum
      + (if 0 <? Z.rem n baseVaultMembersMinimum then 1 else 0) in
    if groupNum <=? 0 then []
    else
      let multi := insert_sort (multi_node_before nas)
        (List.filter (λ na, 1 <? operator_count nas na) nas) in
      let single := insert_sort lowest_first
        (List.filter (λ na, negb (1 <? operator_count nas na)) nas) in
      let k := Z.to_nat groupNum in
      let groups := map (dealt k (multi ++ single)) (seq 0 k) in
      if forallb (group_size_ok baseVaultMembersMinimum groups) (seq 0 k) then groups else [].

Section Churn.
Context `{Ext} `{SemVer} (ctx : Ctx).

(** ** Marking nodes to leave *)

(** How long since the last churn, per penalty point. *)
Definition getScore (penaltyPts lastChurnHeight : Z) : Z :=
  let score := u64 ((BlockHeight ctx -i lastChurnHeight) *i One) in
  if penaltyPts =? 0 then score else score / u64 penaltyPts.

Definition markActor (na : NodeAccount) : KM unit :=
  if negb (NodeAccount_IsEmpty na) && (na_LeaveScore na =? 0) then
    penaltyPts ← GetNodeAccountPenaltyPoints (na_NodeAddress na);
    lastChurnHeight ← getLastChurnHeight ctx;
    SetNodeAccount ctx (na <| na_LeaveScore := getScore penaltyPts lastChurnHeight |>)
  else mret tt.

(** The nodes above the penalty threshold with their scores, and the total. *)
Definition track_bad (minPenaltyPointsForBadNode lastChurnHeight : Z)
    (acc : list (Z * NodeAccount) * Z) (na : NodeAccount) : KM (list (Z * NodeAccount) * Z) :=
  penaltyPts ← GetNodeAccountPenaltyPoints (na_NodeAddress na);
  if penaltyPts <=? minPenaltyPointsForBadNode then mret acc
  else
    let score := getScore penaltyPts lastChurnHeight in
    totalScore ← lift (uint_add acc.2 score);
    mret ((acc.1 ++ [(score, na)])%list, totalScore).

(** Everyone at or below the redline, or else the worst offender. *)
Definition bad_actors (badNodeRedline total : Z) (nodes : Z) (tracker : list (Z * NodeAccount))
    : list NodeAccount :=
  let tracker := insert_sort (λ a b, a.1 <? b.1) tracker in
  let redline := total / nodes / u64 badNodeRedline in
  match (List.filter (λ t, t.1 <=? redline) tracker).*2, tracker with
  | [], worst :: _ => [worst.2]
  | bad, _ => bad
  end.

Definition findBadActors (minPenaltyPointsForBadNode badNodeRedline : Z) : KM (list NodeAccount) :=
  if badNodeRedline <=? 0 then mret []
  else
    nas ← ListActiveNodes;
    if (length nas =? 0)%nat then mret []
    else
      lastChurnHeight ← getLastChurnHeight ctx;
      '(tracker, totalScore) ← mfold (track_bad minPenaltyPointsForBadNode lastChurnHeight)
                                 ([], 0) nas;
      if (length tracker =? 0)%nat then mret []
      else mret (bad_actors badNodeRedline totalScore (Z.of_nat (length nas)) tracker).

Definition markBadActor (minPenaltyPointsForBadNode redline : Z) : KM Z :=
  nas ← findBadActors minPenaltyPointsForBadNode redline;
  _ ← mfor markActor nas;
  mret (Z.of_nat (length nas)).

(** At most [room] of the nodes that missed too many blocks. *)
Fixpoint mark_missing (maxMissingBlocks : Z) (room : nat) (nas : list NodeAccount) : KM unit :=
  match nas with
  | [] => mret tt
  | n :: nas =>
      if 0 <? na_LeaveScore n then mark_missing maxMissingBlocks room nas
      else if maxMissingBlocks <? i64 (na_MissingBlocks n) then
        _ ← markActor n;
        match room with
        | O | S O => mret tt
        | S room => mark_missing maxMissingBlocks room nas
        end
      else mark_missing maxMissingBlocks room nas
  end.

Definition markMissingActors : KM unit :=
  maxMissingBlocks ← GetConfigInt64 Node_MissingBlocksChurnOut;
  maxChurnOut ← GetConfigInt64 Node_MissingBlocksChurnOutMax;
  if (maxMissingBlocks =? 0) || (maxChurnOut =? 0) then mret tt
  else
    nas ← ListActiveNodes;
    mark_missing maxMissingBlocks (Z.to_nat maxChurnOut)
      (insert_sort (λ a b, na_MissingBlocks b <? na_MissingBlocks a) nas).

Definition oldest (start : NodeAccount) (nas : list NodeAccount) : NodeAccount :=
  foldl (λ na n, if 0 <? na_LeaveScore n then na
                 else if na_StatusSince n <? na_StatusSince na then n else na) start nas.

Definition findOldActor : KM NodeAccount :=
  nas ← ListActiveNodes;
  mret (oldest (NodeAccount_zero <| na_StatusSince := BlockHeight ctx |>) nas).

Definition lowest_bond (nas : list NodeAccount) : NodeAccount :=
  default NodeAccount_zero (foldl (λ best n,
    if 0 <? na_LeaveScore n then best
    else match best with
         | None => Some n
         | Some na => if na_Bond n <? na_Bond na then Some n else best
         end) None nas).

Definition findLowBondActor : KM NodeAccount :=
  nas ← ListActiveNodes; mret (lowest_bond nas).

Definition markOldActor : KM unit := na ← findOldActor; markActor na.

Definition best_bond (selected : list NodeAccount) : option Z :=
  match selected with
  | [] => None
  | first :: rest =>
      Some (foldl (λ best item, if best <? na_Bond item then na_Bond item else best)
              (na_Bond first) rest)
  end.

(** Marks the lowest bond unless every replacement has a lower one. *)
Definition markLowBondActor (desiredNodeSet : Z) : KM bool :=
  below ← (if 0 <? desiredNodeSet
           then nas ← ListActiveNodes; mret (Z.of_nat (length nas) <? desiredNodeSet)
           else mret false);
  if below : bool then mret false
  else
    na ← findLowBondActor;
    if NodeAccount_IsEmpty na then mret false
    else
      selected ← ListNodesByStatus NodeSelected;
      if match best_bond selected with Some best => best <? na_Bond na | None => false end
      then mret false
      else _ ← markActor na; mret true.

Fixpoint low_versions (minimumVersion : Version) (room : nat) (nas : list NodeAccount)
    : list NodeAccount :=
  match room, nas with
  | O, _ | _, [] => []
  | S room', na :: nas =>
      if 0 <? na_LeaveScore na then low_versions minimumVersion room nas
      else if Version_LT (NodeAccount_GetVersion na) minimumVersion
      then na :: low_versions minimumVersion room' nas
      else low_versions minimumVersion room nas
  end.

Definition findLowVersionNodes (maxNodesToFind : nat) : KM (list NodeAccount) :=
  '(minimumVersion, _) ← GetMinJoinLast;
  activeNodes ← ListNodesByStatus NodeActive;
  mret (low_versions minimumVersion maxNodesToFind activeNodes).

Definition markLowVersionNodes : KM unit :=
  '(_, minJoinLastHeight) ← GetMinJoinLast;
  if BlockHeight ctx <? minJoinLastHeight +i 21600 then mret tt
  else nodeAccs ← findLowVersionNodes 1; mfor markActor nodeAccs.

Definition clear_score (na : NodeAccount) : KM unit :=
  if na_RequestedToLeave na || na_ForcedToLeave na then mret tt
  else SetNodeAccount ctx (na <| na_LeaveScore := 0 |>).

Definition clearLeaveScores : KM unit := active ← ListActiveNodes; mfor clear_score active.

(** ** The candidates *)

Definition requiredBondForNode (na : NodeAccount) : KM Z :=
  slot ← (if is_blank (na_NodeConsPubKey na) then mret 0
          else
            r ← try (GetShielderNodeBond (na_NodeConsPubKey na));
            mret (match r with
                  | Ok bond => if is_empty (nb_NodePubKey bond) then 0 else nb_Slot bond
                  | _ => 0
                  end));
  shielderBondRequiredSats slot.

(** The status a candidate is to have, and whether it may be selected. *)
Definition NodeAccountPreflightCheck (na : NodeAccount) : KM (NodeStatus * res unit) :=
  if na_ForcedToLeave na then mret (NodeDisabled, Err "node account has been banned")
  else if na_RequestedToLeave na
  then mret (NodeStandby, Err "node account has requested to leave")
  else if na_Maintenance na then mret (NodeStandby, Err "node account is in maintenance mode")
  else if negb (IP.ParseIP (na_IPAddress na))
  then mret (NodeStandby, Err "node account has invalid registered IP address")
  else if PubKeySet_IsEmpty (na_PubKeySet na)
  then mret (NodeWhiteListed, Err "node account has not registered their pubkey set")
  else
    requiredBond ← requiredBondForNode na;
    if na_Bond na <? requiredBond then mret (NodeWhiteListed, Err "insufficient bond")
    else
      '(minVersion, _) ← GetMinJoinLast;
      if Version_LT (NodeAccount_GetVersion na) minVersion
      then mret (NodeStandby, Err "node account does not meet min version requirement")
      else
        jail ← GetNodeAccountJail (na_NodeAddress na);
        if IsJailed jail ctx then mret (NodeStandby, Err "node account is jailed")
        else mret (NodeSelected, Ok tt).

Definition bonded_higher (na selected : NodeAccount) : bool :=
  NodeAccount_IsEmpty selected || (na_Bond selected <? na_Bond na)
  || ((na_Bond na =? na_Bond selected) && str_lt (na_NodeAddress na) (na_NodeAddress selected)).

Definition selectHighestBondedNode (candidates : list NodeAccount) : KM NodeAccount :=
  mfold (λ selected na,
    '(status, err) ← NodeAccountPreflightCheck na;
    if negb (is_ok err) || negb (bool_decide (status = NodeSelected)) then mret selected
    else mret (if bonded_higher na selected then na else selected)) NodeAccount_zero candidates.

Definition mark_candidate (selected na : NodeAccount) : KM unit :=
  '(status, _) ← NodeAccountPreflightCheck na;
  let status :=
    if bool_decide (status = NodeSelected)
       && negb (Acc_Equals (na_NodeAddress na) (na_NodeAddress selected))
    then NodeWhiteListed else status in
  SetNodeAccount ctx (UpdateStatus na status (BlockHeight ctx)).

Definition churn_candidates : KM (list NodeAccount) :=
  mfold (λ candidates status,
    nodes ← ListNodesByStatus status; mret (candidates ++ nodes)%list)
    [] [NodeWhiteListed; NodeStandby; NodeSelected].

Definition markSelectedActors : KM unit :=
  candidates ← churn_candidates;
  selected ← selectHighestBondedNode candidates;
  mfor (mark_candidate selected) candidates.

(** ** The next members *)

Definition rescored (lastChurnHeight : Z) (item : NodeAccount) : KM NodeAccount :=
  if na_LeaveScore item =? 0 then mret item
  else
    r ← try (GetNodeAccountPenaltyPoints (na_NodeAddress item));
    match r with
    | Ok penaltyPts =>
        let newScore := getScore penaltyPts lastChurnHeight in
        mret (if newScore =? 0 then item else item <| na_LeaveScore := newScore |>)
    | _ => mret item
    end.

(** The banned first, then those that asked to leave, then the lowest score;
    nodes that are not to leave come last. *)
Definition leaves_before (a b : NodeAccount) : bool :=
  if negb (Bool.eqb (na_ForcedToLeave a) (na_ForcedToLeave b)) then na_ForcedToLeave a
  else if negb (Bool.eqb (na_RequestedToLeave a) (na_RequestedToLeave b)) then na_RequestedToLeave a
  else if (na_LeaveScore a =? 0) && (0 <? na_LeaveScore b) then false
  else if (0 <? na_LeaveScore a) && (na_LeaveScore b =? 0) then true
  else na_LeaveScore a <? na_LeaveScore b.

(** Adds at most [limit] of the selected nodes, up to the target. *)
Fixpoint add_selected (targetCount limit : Z) (i : Z) (active ready : list NodeAccount)
    : list NodeAccount :=
  if targetCount <=? Z.of_nat (length active) then active
  else match ready with
  | [] => active
  | r :: ready =>
      let active := (active ++ [r])%list in
      if limit <=? i then active else add_selected targetCount limit (i + 1) active ready
  end.

Definition next_members (active ready : list NodeAccount) (targetCount minimumNodesForBFT : Z)
    : list NodeAccount * bool :=
  let toRemove := findCountToRemoveWithReplacements active (Z.of_nat (length ready))
                    targetCount minimumNodesForBFT in
  let stay := if 0 <? toRemove then drop (Z.to_nat toRemove) active else active in
  let limit := toRemove + 1 in
  let limit := if Z.of_nat (length stay) + limit <? minimumNodesForBFT
               then minimumNodesForBFT - Z.of_nat (length stay) else limit in
  let next := add_selected targetCount limit 1 stay ready in
  (next, (0 <? toRemove) || (length stay <? length next)%nat).

Definition nextVaultNodeAccounts (targetCount : Z) : KM (list NodeAccount * bool) :=
  ready ← ListNodesByStatus NodeSelected;
  let ready := insert_sort highest_first ready in
  active ← ListActiveNodes;
  lastChurnHeight ← getLastChurnHeight ctx;
  active ← mfold (λ acc item, item ← rescored lastChurnHeight item; mret (acc ++ [item])%list)
             [] active;
  let active := insert_sort leaves_before active in
  minimumNodesForBFT ← GetConfigInt64 Vault_BaseMembersMin;
  mret (next_members active ready targetCount minimumNodesForBFT).

(** ** The churn *)

Definition at_capacity (active : list NodeAccount) (desiredNodeSet : Z) : bool :=
  (desiredNodeSet <=? Z.of_nat (length active)) && negb (hasLeaveCandidate active).

Definition churnInner : KM unit :=
  desiredNodeSet ← GetConfigInt64 Node_SetDesired;
  redline ← GetConfigInt64 Node_BadRedline;
  minPenaltyPointsForBadNode ← GetConfigInt64 Node_PenaltyChurnOutThreshold;
  _ ← markSelectedActors;
  _ ← clearLeaveScores;
  _ ← markBadActor minPenaltyPointsForBadNode redline;
  _ ← markLowVersionNodes;
  _ ← markMissingActors;
  activeNodes ← ListActiveNodes;
  activeNodes ← (if at_capacity activeNodes desiredNodeSet then
                   marked ← markLowBondActor desiredNodeSet;
                   if marked : bool then ListActiveNodes else mret activeNodes
                 else mret activeNodes);
  _ ← (if at_capacity activeNodes desiredNodeSet then markOldActor else mret tt);
  '(next, ok) ← nextVaultNodeAccounts desiredNodeSet;
  if ok : bool then TriggerKeygen ctx next else mret tt.

(** The branch of the store is committed when the churn succeeds. *)
Definition churn : KM unit := atomic churnInner.

(** ** The start of a block *)

(** [sort.Sort] by seniority: the addresses of a list are distinct. *)
Definition senior (a b : NodeAccount) : bool :=
  if na_StatusSince a <? na_StatusSince b then true
  else if na_StatusSince b <? na_StatusSince a then false
  else str_lt (na_NodeAddress a) (na_NodeAddress b).

Definition setupNodeNodes (height : Z) : KM unit :=
  if negb (height =? genesisBlockHeight) then mret tt
  else
    nas ← getIterator kv_node_account;
    let ready := List.filter (λ na, bool_decide (na_Status na = NodeSelected)) nas in
    let active := List.filter (λ na, bool_decide (na_Status na = NodeActive)) nas in
    _ ← fail_if ((length active =? 0)%nat && (length ready =? 0)%nat) "no nodes available";
    desiredNodeSet ← GetConfigInt64 Node_SetDesired;
    mfor (λ '(idx, item),
      SetNodeAccount ctx (UpdateStatus item
        (if Z.of_nat idx <? desiredNodeSet then NodeActive else NodeStandby) (BlockHeight ctx)))
      (imap pair (insert_sort senior active ++ insert_sort senior ready)).

Definition Chains_Distinct (chains : list string) : list string :=
  foldl (λ newChains chain, if Chains_Has newChains chain then newChains
                            else (newChains ++ [chain])%list) [] chains.

(** Whether one of the chains is halted; the others are not asked. *)
Fixpoint any_chain_halted (chains : list string) : KM bool :=
  match chains with
  | [] => mret false
  | chain :: chains =>
      halted ← IsChainHalted ctx;
      if halted : bool then mret true else any_chain_halted chains
  end.

(** The churn is due: at its height, or overdue at a retry. *)
Definition retry_tick (lastChurnHeight churnInterval churnRetryInterval : Z) : bool :=
  (0 <? churnRetryInterval) && (lastChurnHeight +i churnInterval <? BlockHeight ctx)
  && (Z.rem (BlockHeight ctx -i lastChurnHeight -i churnInterval) churnRetryInterval =? 0).

Definition NodeMgr_BeginBlock : KM unit :=
  _ ← (if BlockHeight ctx =? genesisBlockHeight then setupNodeNodes (BlockHeight ctx) else mret tt);
  lastChurnHeight ← getLastChurnHeight ctx;
  churnInterval ← getConfigDurationBlocks Churn_IntervalMinutes;
  churnRetryInterval ← getConfigDurationBlocks Churn_RetryIntervalMinutes;
  let onChurnTick := retry_tick lastChurnHeight churnInterval churnRetryInterval in
  let isRegularChurn := lastChurnHeight +i churnInterval =? BlockHeight ctx in
  if negb onChurnTick && negb isRegularChurn then mret tt
  else
    _ ← (if isRegularChurn then Pow.RetargetDepositPowDifficulty ctx else mret tt);
    halt ← GetConfigInt64 Halt_Churning;
    if halted_at halt (BlockHeight ctx) then mret tt
    else
      vaults ← GetBaseVaultsByStatus ctx ActiveVault;
      nas ← ListActiveNodes;
      let expectedActiveVaults := if (0 <? length nas)%nat then 1 else 0 in
      let incompleteChurnCheck := negb (Z.of_nat (length vaults) =? expectedActiveVaults) in
      let oldVaultCheck := churnInterval <? BlockHeight ctx -i lastChurnHeight in
      let retryChurn := (oldVaultCheck || incompleteChurnCheck) && onChurnTick in
      if negb (isRegularChurn || retryChurn) then mret tt
      else
        halted ← any_chain_halted (Chains_Distinct (concat (map Vault.GetChains vaults)));
        if halted : bool then mret tt
        else
          retiringVaults ← GetBaseVaultsByStatus ctx RetiringVault;
          if (0 <? length retiringVaults)%nat then mret tt else churn.

(** ** The end of a block *)

(** Active nodes outside the vaults, and the vaults' members that are not yet
    active; a member whose account cannot be read is passed over. *)
Definition removed_nodes (activeVaults : list Vault) (activeNodes : list NodeAccount)
    : list NodeAccount :=
  let membership := concat (map Vault.GetMembership activeVaults) in
  List.filter (λ na,
    let found := existsb (λ vault, Vault.Contains vault (pks_Secp256k1 (na_PubKeySet na)))
                   activeVaults && negb (na_ForcedToLeave na) in
    negb found && (0 <? length membership)%nat) activeNodes.

Definition new_node (newActive : list NodeAccount) (pk : string) : KM (list NodeAccount) :=
  r ← try (GetNodeAccountByPubKey ctx pk);
  mret (match r with
        | Ok na =>
            if bool_decide (na_Status na = NodeActive) || bool_decide (na_Status na = NodeDisabled)
            then newActive else (newActive ++ [na])%list
        | _ => newActive
        end).

Definition getChangedNodes (activeNodes : list NodeAccount)
    : KM (list NodeAccount * list NodeAccount) :=
  activeVaults ← GetBaseVaultsByStatus ctx ActiveVault;
  _ ← fail_if (length activeVaults =? 0)%nat "no active vault";
  newActive ← mfold new_node [] (concat (map Vault.GetMembership activeVaults));
  mret (newActive, removed_nodes activeVaults activeNodes).

(** A change to the set of validators: a consensus key and its power. *)
Record ValidatorUpdate := mkValidatorUpdate { vu_PubKey : string; vu_Power : Z }.

Definition activated (na : NodeAccount) : NodeAccount :=
  (UpdateStatus na NodeActive (BlockHeight ctx))
    <| na_LeaveScore := 0 |> <| na_RequestedToLeave := false |> <| na_MissingBlocks := 0 |>.

Definition activate_node (nodes : list ValidatorUpdate) (na : NodeAccount)
    : KM (list ValidatorUpdate) :=
  _ ← ResetNodeAccountPenaltyPoints (na_NodeAddress na);
  _ ← SetNodeAccount ctx (activated na);
  mret (match PubKey.check_cons_pubkey (na_NodeConsPubKey na) with
        | Ok _ => (nodes ++ [mkValidatorUpdate (na_NodeConsPubKey na) 100])%list
        | _ => nodes
        end).

Definition deactivated (nodeRemove : NodeAccount) : NodeAccount :=
  UpdateStatus (nodeRemove <| na_RequestedToLeave := false |>)
    (if na_ForcedToLeave nodeRemove then NodeDisabled else NodeStandby) (BlockHeight ctx).

(** The account is read again; only a known validator is taken out. *)
Definition deactivate_node `{ConsAddress} (existingNodes : list string)
    (nodes : list ValidatorUpdate) (na : NodeAccount) : KM (list ValidatorUpdate) :=
  nodeRemove ← GetNodeAccount ctx (na_NodeAddress na);
  _ ← SetNodeAccount ctx (deactivated nodeRemove);
  mret (match PubKey.check_cons_pubkey (na_NodeConsPubKey nodeRemove) with
        | Ok _ =>
            if existsb (str_eq (cons_val_address (na_NodeConsPubKey nodeRemove))) existingNodes
            then (nodes ++ [mkValidatorUpdate (na_NodeConsPubKey nodeRemove) 0])%list else nodes
        | _ => nodes
        end).

(** Whether the change would leave too few nodes while no vault retires. *)
Definition too_few (activeNodes newNodes removedNodes : list NodeAccount) (minimum : Z)
    (retiring : list Vault) : bool :=
  let after := Z.of_nat (length activeNodes) + Z.of_nat (length newNodes)
               - Z.of_nat (length removedNodes) in
  (minimum <=? Z.of_nat (length activeNodes)) && (after <? minimum) && (length retiring =? 0)%nat.

Definition apply_changes `{ConsAddress} (existingNodes : list string)
    (newNodes removedNodes : list NodeAccount) : KM (list ValidatorUpdate) :=
  nodes ← mfold activate_node [] newNodes;
  nodes ← mfold (deactivate_node existingNodes) nodes removedNodes;
  ready ← ListNodesByStatus NodeSelected;
  _ ← mfor (λ na, SetNodeAccount ctx (UpdateStatus na NodeStandby (BlockHeight ctx))) ready;
  _ ← SetMinJoinLast ctx;
  _ ← PurgeOperationalNodeConfigs;
  mret nodes.

Definition NodeMgr_EndBlock `{ConsAddress} (existingNodes : list string) : KM (list ValidatorUpdate) :=
  activeNodes ← ListActiveNodes;
  r ← try (getChangedNodes activeNodes);
  match r with
  | Ok (newNodes, removedNodes) =>
      minimumNodesForBFT ← GetConfigInt64 Vault_BaseMembersMin;
      v ← try (GetBaseVaultsByStatus ctx RetiringVault);
      let retiring := match v with Ok l => l | _ => [] end in
      if too_few activeNodes newNodes removedNodes minimumNodesForBFT retiring then mret []
      else if (length newNodes =? 0)%nat && (length removedNodes =? 0)%nat then mret []
      else apply_changes existingNodes newNodes removedNodes
  | _ => mret []
  end.
End Churn.

(** ** Lemmas *)

Module Leaving.
Lemma able_to_leave n : 0 <= n →
  0 <= findMaxAbleToLeave n <= n
  ∧ (findMaxAbleToLeave n = 0
     ∨ 3 * findMaxAbleToLeave n < n ∧ 4 <= n - findMaxAbleToLeave n).
Proof.
  intros Hn. unfold findMaxAbleToLeave. cbv zeta. rewrite Z.quot_div_nonneg by lia.
  Z.to_euclidean_division_equations. case_match; lia.
Qed.

(** The order of leaving as numbers: who goes first has the smaller rank. *)
Definition rank (na : NodeAccount) : Z :=
  (if na_ForcedToLeave na then 0 else 4) + (if na_RequestedToLeave na then 0 else 2)
  + (if na_LeaveScore na =? 0 then 1 else 0).
Definition before_or_equal (a b : NodeAccount) : Prop :=
  rank a < rank b ∨ rank a = rank b ∧ na_LeaveScore a <= na_LeaveScore b.

#[export] Instance before_or_equal_trans : Transitive before_or_equal.
Proof. intros a b c. unfold before_or_equal. lia. Qed.

Lemma leaves_before_spec a b :
  leaves_before a b = true ↔
  rank a < rank b ∨ rank a = rank b ∧ na_LeaveScore a < na_LeaveScore b.
Proof.
  unfold leaves_before, rank.
  destruct (na_ForcedToLeave a), (na_ForcedToLeave b), (na_RequestedToLeave a),
    (na_RequestedToLeave b); simpl; try (split; [lia|done]); try (split; [done|]);
    destruct (na_LeaveScore a =? 0) eqn:Ea, (na_LeaveScore b =? 0) eqn:Eb,
      (0 <? na_LeaveScore a) eqn:Fa, (0 <? na_LeaveScore b) eqn:Fb; simpl; lia.
Qed.

Lemma sorted_leaving l : StronglySorted before_or_equal (insert_sort leaves_before l).
Proof.
  apply insert_sort_Sorted; [apply _| |]; intros a b Hab.
  - apply leaves_before_spec in Hab. unfold before_or_equal. lia.
  - apply not_true_iff_false in Hab. rewrite leaves_before_spec in Hab.
    unfold before_or_equal. lia.
Qed.

Lemma stays_rank na : 0 <= na_LeaveScore na → wants_to_leave na = false ↔ rank na = 7.
Proof.
  unfold wants_to_leave, rank. intros Hs.
  destruct (na_ForcedToLeave na), (na_RequestedToLeave na), (na_LeaveScore na =? 0) eqn:E,
    (0 <? na_LeaveScore na) eqn:F; simpl; split; intros; try done; lia.
Qed.

Lemma rank_at_most na : rank na <= 7.
Proof. unfold rank. repeat case_match; lia. Qed.

(** Those who want to leave come first. *)
Lemma leaving_first l : StronglySorted before_or_equal l →
  Forall (λ na, 0 <= na_LeaveScore na) l →
  ∃ l1 l2, l = (l1 ++ l2)%list ∧ Forall (λ na, wants_to_leave na = true) l1
           ∧ Forall (λ na, wants_to_leave na = false) l2.
Proof.
  induction 1 as [|x l Hs IH Hx]; intros Hnn; [by exists [], []|].
  inversion_clear Hnn as [|? ? H0 Hnn']. destruct (IH Hnn') as (l1 & l2 & -> & H1 & H2).
  destruct (wants_to_leave x) eqn:E.
  - exists (x :: l1), l2. split; [done|]. split; [by constructor|done].
  - exists [], (x :: (l1 ++ l2))%list. split; [done|]. split; [done|]. constructor; [done|].
    apply stays_rank in E; [|done].
    eapply Forall_impl; [exact (List.Forall_and Hx Hnn')|]. cbv beta. intros y [Hxy Hy].
    apply stays_rank; [done|]. pose proof (rank_at_most y). unfold before_or_equal in Hxy. lia.
Qed.

Lemma filter_length_le {A} (p q : A → bool) l : (∀ x, p x = true → q x = true) →
  (length (List.filter p l) <= length (List.filter q l))%nat.
Proof.
  intros Hpq. induction l as [|x l IH]; [done|]. cbn [List.filter].
  destruct (p x) eqn:E; [rewrite (Hpq _ E); simpl; lia|]. destruct (q x); simpl; lia.
Qed.

Lemma wanting_count l1 l2 : Forall (λ na, wants_to_leave na = true) l1 →
  Forall (λ na, wants_to_leave na = false) l2 →
  List.filter wants_to_leave (l1 ++ l2) = l1.
Proof.
  intros H1 H2. induction H1 as [|x l1 Hx H1 IH]; simpl; [|by rewrite Hx, IH].
  induction H2 as [|y l2 Hy H2 IH]; [done|]. simpl. by rewrite Hy.
Qed.

(** How many are removed, and that so many want to leave. *)
Lemma removed_count active ready target minimum r :
  r = findCountToRemoveWithReplacements active ready target minimum →
  0 <= r <= Z.of_nat (length active)
  ∧ (r <= 1 ∨ 3 * r < Z.of_nat (length active) ∧ 4 <= Z.of_nat (length active) - r)
  ∧ (r <= Z.of_nat (length (List.filter wants_to_leave active))).
Proof.
  intros ->. unfold findCountToRemoveWithReplacements.
  assert (Hw : (length (leave_candidates active) <= length (List.filter wants_to_leave active))%nat).
  { apply filter_length_le. unfold wants_to_leave. by intros x ->. }
  assert (Hl : (length (List.filter wants_to_leave active) <= length active)%nat)
    by (apply List.filter_length_le).
  pose proof (able_to_leave (Z.of_nat (length active)) ltac:(lia)) as [Hm Hm'].
  assert (H0 : 0 <= findCountToRemove active
    ∧ (findCountToRemove active <= 1 ∨ 3 * findCountToRemove active < Z.of_nat (length active)
       ∧ 4 <= Z.of_nat (length active) - findCountToRemove active)
    ∧ findCountToRemove active <= Z.of_nat (length (List.filter wants_to_leave active))).
  { unfold findCountToRemove. destruct active as [|first rest]; [simpl; lia|].
    destruct (findMaxAbleToLeave _ =? 0) eqn:E; [|lia].
    destruct (na_ForcedToLeave first || na_RequestedToLeave first) eqn:Ef; [|lia].
    split; [lia|]. split; [lia|]. cbn [List.filter].
    assert (wants_to_leave first = true) as ->; [|simpl; lia].
    unfold wants_to_leave. rewrite <- orb_assoc, Ef. apply orb_true_r. }
  destruct (0 <? findCountToRemove active) eqn:E0; [lia|].
  destruct (_ || _) eqn:E1; [lia|]. destruct (_ <? minimum) eqn:E2; [lia|].
  apply orb_false_iff in E1 as [[_ E1]%orb_false_iff _]. apply negb_false_iff in E1.
  assert (1 <= length (List.filter wants_to_leave active))%nat; [|lia].
  unfold hasLeaveCandidate in E1. apply existsb_exists in E1 as (x & Hx & Ex).
  destruct (List.filter wants_to_leave active) eqn:Ef; [|simpl; lia].
  assert (Hin : In x (List.filter wants_to_leave active)) by (apply filter_In; auto).
  by rewrite Ef in Hin.
Qed.

Lemma added_prefix target limit ready : ∀ i active,
  ∃ n, add_selected target limit i active ready = (active ++ take n ready)%list
       ∧ Z.of_nat (length (add_selected target limit i active ready))
         <= Z.max (Z.of_nat (length active)) target.
Proof.
  induction ready as [|r ready IH]; intros i active; simpl;
    destruct (target <=? Z.of_nat (length active)) eqn:E.
  1-2: exists 0%nat; simpl; rewrite app_nil_r; (split; [done|lia]).
  - exists 0%nat. simpl. rewrite app_nil_r. split; [done|lia].
  - destruct (limit <=? i) eqn:El.
    + exists 1%nat. split; [by destruct ready|]. rewrite length_app. simpl. lia.
    + destruct (IH (i + 1) (active ++ [r])%list) as (n & -> & Hn). exists (S n).
      rewrite <- app_assoc. split; [done|]. rewrite !length_app in *. cbn [length] in *. lia.
Qed.
End Leaving.

Import Registry.

Section Members.
Context `{Ext} `{SemVer} (ctx : Ctx).

Lemma last_churn_keeps {T} (p : KVStore → T) : keeps p (getLastChurnHeight ctx).
Proof. unfold getLastChurnHeight. keeps_tac. apply base_vaults_keeps. Qed.

Lemma score_nonneg penaltyPts last : 0 <= getScore ctx penaltyPts last.
Proof.
  unfold getScore. cbv zeta. pose proof (u64_range ((BlockHeight ctx -i last) *i One)) as [Hz0 _].
  pose proof (u64_range penaltyPts) as [Hz1 _].
  destruct (penaltyPts =? 0); [done|].
  destruct (decide (u64 penaltyPts = 0)) as [->|]; [by rewrite Zdiv_0_r|]. apply Z.div_pos; lia.
Qed.

(** The score an account has at this churn. *)
Definition rescore (s : KVStore) (last : Z) (item : NodeAccount) : NodeAccount :=
  if na_LeaveScore item =? 0 then item
  else
    let newScore := getScore ctx (from_option 0 (kv_penalty s !! ToUpper (na_NodeAddress item))) last in
    if newScore =? 0 then item else item <| na_LeaveScore := newScore |>.

Lemma rescored_run s last item : rescored ctx last item s = (Ok (rescore s last item), s).
Proof. unfold rescored, rescore. by destruct (na_LeaveScore item =? 0). Qed.

Lemma rescored_all s last l : ∀ acc,
  mfold (λ acc item, item ← rescored ctx last item; mret (acc ++ [item])%list) acc l s
  = (Ok (acc ++ map (rescore s last) l)%list, s).
Proof.
  induction l as [|x l IH]; intros acc; [by rewrite app_nil_r|].
  rewrite mfold_cons, (bind_run _ _ s (acc ++ [rescore s last x])%list s).
  - rewrite IH, <- app_assoc. done.
  - by rewrite (bind_run _ _ _ _ _ (rescored_run s last x)).
Qed.

Lemma rescore_same s last x :
  na_NodeAddress (rescore s last x) = na_NodeAddress x
  ∧ (0 <= na_LeaveScore x →
     0 <= na_LeaveScore (rescore s last x)
     ∧ wants_to_leave (rescore s last x) = wants_to_leave x).
Proof.
  unfold rescore. destruct (na_LeaveScore x =? 0) eqn:E; [done|]. cbv zeta.
  pose proof (score_nonneg (from_option 0 (kv_penalty s !! ToUpper (na_NodeAddress x))) last) as Hn.
  set (sc := getScore _ _ _) in *. destruct (sc =? 0) eqn:E2; [by intros|].
  split; [by rec_simpl|]. intros Hx. rec_simpl. split; [done|].
  unfold wants_to_leave. rec_simpl. f_equal. f_equal. lia.
Qed.

Lemma highest_sorted l :
  StronglySorted (λ a b, na_Bond b <= na_Bond a) (insert_sort highest_first l).
Proof.
  apply insert_sort_Sorted; unfold highest_first.
  - intros a b c. lia.
  - intros a b. lia.
  - intros a b. lia.
Qed.

Lemma sorted_split {A} (R : A → A → Prop) l1 l2 : StronglySorted R (l1 ++ l2)%list →
  ∀ a b, a ∈ l1 → b ∈ l2 → R a b.
Proof.
  induction l1 as [|x l1 IH]; simpl; intros Hs a b Ha Hb; [by apply elem_of_nil in Ha|].
  inversion_clear Hs as [|? ? Hs' Hx]. apply elem_of_cons in Ha as [->|Ha].
  - rewrite Forall_forall in Hx. apply Hx. apply elem_of_app. by right.
  - by apply (IH Hs').
Qed.

(** C9. The nodes that leave want to, and they are one or less than a third of the
    active set, with four remaining; those that join are the selected nodes of
    the highest bonds; nothing is written. *)
Theorem churn_keeps_majority targetCount next rotation s s' :
  registry_ok s →
  nextVaultNodeAccounts ctx targetCount s = (Ok (next, rotation), s') →
  s' = s
  ∧ ∃ leaving staying joining waiting,
    nodes_by_status NodeActive s ≡ₚ (leaving ++ staying)%list
    ∧ nodes_by_status NodeSelected s ≡ₚ (joining ++ waiting)%list
    ∧ map na_NodeAddress next = map na_NodeAddress (staying ++ joining)
    ∧ Forall (λ na, wants_to_leave na = true) leaving
    ∧ ((length leaving <= 1)%nat
       ∨ (3 * length leaving < length (leaving ++ staying))%nat ∧ (4 <= length staying)%nat)
    ∧ (∀ j w, j ∈ joining → w ∈ waiting → na_Bond w <= na_Bond j)
    ∧ Z.of_nat (length next) <= Z.max (Z.of_nat (length staying)) targetCount.
Proof.
  intros Hok Hrun. unfold nextVaultNodeAccounts in Hrun. cbv zeta in Hrun.
  apply bind_Ok in Hrun as (ready & s1 & Hr & Hrun). rewrite list_nodes_run in Hr.
  injection Hr as <- <-.
  apply bind_Ok in Hrun as (active & s1 & Hr & Hrun). unfold ListActiveNodes in Hr.
  rewrite list_nodes_run in Hr. injection Hr as <- <-.
  apply bind_Ok in Hrun as (last & s1 & Hr & Hrun).
  apply (keeps_run (λ s, s) _ _ _ _ (last_churn_keeps _)) in Hr. simpl in Hr. subst s1.
  rewrite (bind_run _ _ _ _ _ (rescored_all s last _ [])) in Hrun. simpl in Hrun.
  apply bind_Ok in Hrun as (minimum & s1 & Hr & Hrun). apply gets_Ok in Hr as [_ ->].
  apply mret_Ok in Hrun as [Hnext ->]. split; [done|].
  destruct (Permutation_map_inv _ _ (insert_sort_perm leaves_before
    (map (rescore s last) (nodes_by_status NodeActive s)))) as (l & Hl & Hperm).
  set (sorted := insert_sort leaves_before _) in *.
  assert (Hnn : Forall (λ na, 0 <= na_LeaveScore na) l).
  { rewrite <- Hperm. eapply Forall_impl; [apply (nodes_ok NodeActive s Hok)|].
    by intros na [(_ & (_ & Hz2) & _) _]. }
  assert (Hnn' : Forall (λ na, 0 <= na_LeaveScore na) sorted).
  { rewrite Hl. apply Forall_map. eapply Forall_impl; [exact Hnn|]. intros x Hx.
    by apply (rescore_same s last x). }
  set (ready := insert_sort highest_first (nodes_by_status NodeSelected s)) in *.
  unfold next_members in Hnext.
  remember (findCountToRemoveWithReplacements sorted _ _ _) as r eqn:Er.
  destruct (Leaving.removed_count _ _ _ _ _ Er) as (Hr0 & Hr1 & Hr2).
  assert (Hstay : (if 0 <? r then drop (Z.to_nat r) sorted else sorted) = drop (Z.to_nat r) sorted).
  { destruct (0 <? r) eqn:E; [done|]. by replace (Z.to_nat r) with 0%nat by lia. }
  cbv zeta in Hnext. rewrite Hstay in Hnext. injection Hnext as Hnext _.
  destruct (Leaving.added_prefix targetCount
    (if Z.of_nat (length (drop (Z.to_nat r) sorted)) + (r + 1) <? minimum
     then minimum - Z.of_nat (length (drop (Z.to_nat r) sorted)) else r + 1)
    ready 1 (drop (Z.to_nat r) sorted)) as (n & Hadd & Hlen).
  rewrite <- Hnext in Hadd, Hlen.
  exists (take (Z.to_nat r) l), (drop (Z.to_nat r) l), (take n ready), (drop n ready).
  rewrite !take_drop.
  assert (Hls : length sorted = length l) by (by rewrite Hl, length_map).
  split; [done|]. split; [symmetry; apply insert_sort_perm|]. split; [|split; [|split; [|split]]].
  - rewrite Hadd, !map_app. f_equal. rewrite Hl, <- fmap_drop, map_map. apply map_ext.
    intros x. apply rescore_same.
  - destruct (Leaving.leaving_first sorted (Leaving.sorted_leaving _) Hnn') as (l1 & l2 & Hs & Hw1 & Hw2).
    rewrite Hs, Leaving.wanting_count in Hr2 by done.
    assert (Ht : Forall (λ na, wants_to_leave na = true) (take (Z.to_nat r) sorted)).
    { rewrite Hs, take_app_le by lia. by apply Forall_take. }
    rewrite Hl, <- fmap_take in Ht. apply Forall_map in Ht.
    eapply Forall_impl; [exact (List.Forall_and Ht (Forall_take _ _ _ Hnn))|].
    cbv beta. intros x [Hw Hz]. by rewrite <- (proj2 (proj2 (rescore_same s last x) Hz)).
  - rewrite length_take, length_drop. lia.
  - apply (sorted_split (λ a b, na_Bond b <= na_Bond a)). rewrite take_drop. apply highest_sorted.
  - rewrite length_drop in *. lia.
Qed.
End Members.

(** *** The end of a block *)

Section Changes.
Context `{Ext} `{SemVer} `{ConsAddress} (ctx : Ctx).

Definition update_of (power : Z) (na : NodeAccount) : option ValidatorUpdate :=
  match PubKey.check_cons_pubkey (na_NodeConsPubKey na) with
  | Ok _ => Some (mkValidatorUpdate (na_NodeConsPubKey na) power)
  | _ => None
  end.
Definition known (existingNodes : list string) (na : NodeAccount) : bool :=
  existsb (str_eq (cons_val_address (na_NodeConsPubKey na))) existingNodes.

Lemma activated_facts na : na_NodeAddress na ≠ "" →
  na_Status (activated ctx na) = NodeActive ∧ key (activated ctx na) = key na
  ∧ NodeAccount_IsEmpty (activated ctx na) = false.
Proof.
  intros Ha. unfold activated. destruct (update_same na NodeActive (BlockHeight ctx)) as [Hs Hk].
  split; [exact Hs|]. split; [exact Hk|]. unfold NodeAccount_IsEmpty. rec_simpl.
  rewrite Hs. unfold UpdateStatus. apply orb_false_iff. split; [|done].
  assert (Acc_Empty (na_NodeAddress na) = false) by (by apply bool_decide_eq_false).
  case_bool_decide; [done|]. cbv zeta. by case_bool_decide.
Qed.

Lemma deactivated_facts na : NodeAccount_IsEmpty na = false →
  na_Status (deactivated ctx na) = (if na_ForcedToLeave na then NodeDisabled else NodeStandby)
  ∧ key (deactivated ctx na) = key na ∧ NodeAccount_IsEmpty (deactivated ctx na) = false.
Proof.
  intros He. unfold deactivated.
  destruct (update_same (na <| na_RequestedToLeave := false |>)
    (if na_ForcedToLeave na then NodeDisabled else NodeStandby) (BlockHeight ctx)) as [Hs Hk].
  split; [exact Hs|]. split; [exact Hk|]. apply update_nonempty; [exact He|].
  by destruct (na_ForcedToLeave na).
Qed.

Lemma activate_all l : ∀ s acc, (∀ na, na ∈ l → na_NodeAddress na ≠ "") →
  ∃ s', mfold (activate_node ctx) acc l s = (Ok (acc ++ omap (update_of 100) l)%list, s')
    ∧ kv_node_account s' = written (λ na, stored ctx (activated ctx na)) (kv_node_account s) l
    ∧ others s' = others s.
Proof.
  induction l as [|x l IH]; intros s acc Hl; [by exists s; rewrite app_nil_r|].
  destruct (activated_facts x ltac:(apply Hl; by left)) as (_ & Hk & He).
  set (s0 := set_field kv_penalty (delete (key x)) s).
  destruct (set_account_run ctx _ s0 He) as (s1 & Hr & Ha & Ho).
  destruct (IH s1 (acc ++ match update_of 100 x with Some u => [u] | None => [] end)%list)
    as (s2 & Hr2 & Ha2 & Ho2); [intros; apply Hl; by right|].
  exists s2. rewrite mfold_cons.
  rewrite (bind_run _ _ s (acc ++ match update_of 100 x with Some u => [u] | None => [] end)%list s1).
  - rewrite Hr2. split; [f_equal; f_equal|].
    + rewrite <- app_assoc. f_equal. simpl. by destruct (update_of 100 x).
    + split; [|by rewrite Ho2, Ho]. rewrite Ha2, Ha, Hk. done.
  - unfold activate_node. rewrite (bind_run _ _ s tt s0) by reflexivity. rewrite (bind_run _ _ _ _ _ Hr).
    unfold update_of. destruct (PubKey.check_cons_pubkey _); rewrite ?app_nil_r; done.
Qed.

Lemma deactivate_all existing l : ∀ s acc, NoDup (map key l) →
  (∀ na, na ∈ l → kv_node_account s !! key na = Some na ∧ NodeAccount_IsEmpty na = false) →
  ∃ s', mfold (deactivate_node ctx existing) acc l s
      = (Ok (acc ++ omap (update_of 0) (List.filter (known existing) l))%list, s')
    ∧ kv_node_account s' = written (λ na, stored ctx (deactivated ctx na)) (kv_node_account s) l
    ∧ others s' = others s.
Proof.
  induction l as [|x l IH]; intros s acc Hnd Hl; [by exists s; rewrite app_nil_r|].
  destruct (Hl x) as [Hx Hxe]; [by left|]. apply NoDup_cons in Hnd as [Hnotin Hnd].
  destruct (deactivated_facts x Hxe) as (_ & Hk & He).
  destruct (set_account_run ctx _ s He) as (s1 & Hr & Ha & Ho).
  set (u := if known existing x then match update_of 0 x with Some u => [u] | None => [] end
            else []).
  destruct (IH s1 (acc ++ u)%list Hnd) as (s2 & Hr2 & Ha2 & Ho2).
  { intros y Hy. destruct (Hl y) as [Hy1 Hy2]; [by right|]. split; [|done].
    rewrite Ha, Hk, lookup_insert_ne; [done|]. intros Heq. apply Hnotin. rewrite Heq.
    by apply (list_elem_of_fmap_2 key). }
  exists s2. rewrite mfold_cons.
  rewrite (bind_run _ _ s (acc ++ u)%list s1).
  - rewrite Hr2. split; [f_equal; f_equal|].
    + rewrite <- app_assoc. f_equal. unfold u. simpl.
      destruct (known existing x); [|done]. simpl. by destruct (update_of 0 x).
    + split; [|by rewrite Ho2, Ho]. rewrite Ha2, Ha, Hk. done.
  - assert (Hget : GetNodeAccount ctx (na_NodeAddress x) s = (Ok x, s)).
    { unfold GetNodeAccount, getShielderJSON. unfold key in Hx.
      rewrite (bind_run _ _ s (Some x) s); [done|]. unfold gets. by rewrite Hx. }
    unfold deactivate_node. rewrite (bind_run _ _ _ _ _ Hget), (bind_run _ _ _ _ _ Hr).
    unfold u, known, update_of. destruct (PubKey.check_cons_pubkey _);
      destruct (existsb _ existing); rewrite ?app_nil_r; done.
Qed.

Definition members (vaults : list Vault) : list string := concat (map Vault.GetMembership vaults).

(** The account filed under the key belongs to a member of the vaults. *)
Definition member_of (vaults : list Vault) (k : string) : bool :=
  existsb (λ pk, match PubKey.GetThorAddress pk with
                 | Ok a => str_eq (ToUpper a) k | _ => false end) (members vaults).

Definition outside (vaults : list Vault) (na : NodeAccount) : bool :=
  negb (existsb (λ vault, Vault.Contains vault (pks_Secp256k1 (na_PubKeySet na))) vaults
        && negb (na_ForcedToLeave na)) && (0 <? length (members vaults))%nat.

(** The status an account has after the change. *)
Definition status_after (vaults : list Vault) (k : string) (na : NodeAccount) : NodeStatus :=
  match na_Status na with
  | NodeActive =>
      if bool_decide (na_Type na = TypeNode) && outside vaults na
      then (if na_ForcedToLeave na then NodeDisabled else NodeStandby) else NodeActive
  | NodeDisabled => NodeDisabled
  | status =>
      if member_of vaults k then NodeActive
      else if bool_decide (status = NodeSelected) && bool_decide (na_Type na = TypeNode)
      then NodeStandby else status
  end.

Definition members_known (vaults : list Vault) (s : KVStore) : Prop :=
  ∀ pk a, pk ∈ members vaults → PubKey.GetThorAddress pk = Ok a →
    is_Some (kv_node_account s !! ToUpper a).

Definition joins (na : NodeAccount) : bool :=
  negb (bool_decide (na_Status na = NodeActive) || bool_decide (na_Status na = NodeDisabled)).

Definition new_of (s : KVStore) (pk : string) : option NodeAccount :=
  match PubKey.GetThorAddress pk with
  | Ok a =>
      let na := from_option (NewNodeAccount a NodeUnknown Types.EmptyPubKeySet "" 0 "" (BlockHeight ctx))
                  (kv_node_account s !! ToUpper a) in
      if joins na then Some na else None
  | _ => None
  end.

Lemma new_nodes_run s pks : ∀ acc,
  mfold (new_node ctx) acc pks s = (Ok (acc ++ omap (new_of s) pks)%list, s).
Proof.
  induction pks as [|pk pks IH]; intros acc; [by rewrite app_nil_r|].
  rewrite mfold_cons.
  rewrite (bind_run _ _ s (acc ++ match new_of s pk with Some na => [na] | None => [] end)%list s).
  - rewrite IH. f_equal. f_equal. rewrite <- app_assoc. f_equal. simpl.
    by destruct (new_of s pk).
  - unfold new_node, GetNodeAccountByPubKey, new_of, joins, PubKey.GetThorAddress.
    destruct (acc_pubkey_address pk) as [a|]; [|by rewrite app_nil_r].
    unfold mbind, M_bind, try, lift, GetNodeAccount, getShielderJSON, gets, mret, M_ret. simpl.
    destruct (_ || _); simpl; by rewrite ?app_nil_r.
Qed.

Lemma elem_of_new s vaults na : registry_ok s → members_known vaults s →
  na ∈ omap (new_of s) (members vaults) ↔
  kv_node_account s !! key na = Some na ∧ joins na = true ∧ member_of vaults (key na) = true.
Proof.
  intros [Hacc _] Hkn. rewrite list_elem_of_omap. unfold member_of. split.
  - intros (pk & Hpk & Hnew). unfold new_of in Hnew.
    destruct (PubKey.GetThorAddress pk) as [a| |] eqn:Ea; [|done|done].
    destruct (Hkn pk a Hpk Ea) as [na' Hna']. rewrite Hna' in Hnew. cbn in Hnew.
    destruct (joins na') eqn:Ej; [|done]. simplify_eq.
    destruct (Hacc _ _ Hna') as [Hk _]. unfold key. rewrite <- Hk. split; [done|]. split; [done|].
    apply existsb_exists. exists pk. split; [by apply list_elem_of_In|]. rewrite Ea.
    by apply bool_decide_eq_true.
  - intros (Hna & Hj & Hm). apply existsb_exists in Hm as (pk & Hpk & Hm).
    destruct (PubKey.GetThorAddress pk) as [a| |] eqn:Ea; [|done|done].
    apply bool_decide_eq_true in Hm. exists pk. split; [by apply list_elem_of_In|].
    unfold new_of. rewrite Ea, Hm, Hna. cbn. by rewrite Hj.
Qed.

Lemma elem_of_removed s vaults na :
  na ∈ removed_nodes vaults (nodes_by_status NodeActive s) ↔
  (∃ k, kv_node_account s !! k = Some na) ∧ na_Status na = NodeActive ∧ na_Type na = TypeNode
  ∧ outside vaults na = true.
Proof.
  unfold removed_nodes. rewrite list_elem_of_In, filter_In, <- list_elem_of_In, elem_of_nodes.
  unfold outside, members. naive_solver.
Qed.

Lemma written_filed f (m : gmap string NodeAccount) l :
  (∀ na, key (f na) = key na) → (∀ k na, m !! k = Some na → k = key na) →
  ∀ k na, written f m l !! k = Some na → k = key na.
Proof.
  intros Hf. revert m. induction l as [|x l IH]; intros m Hm; [exact Hm|]. simpl. apply IH.
  intros k na. rewrite lookup_insert. case_decide as Hk; [|apply Hm].
  intros [= <-]. by rewrite Hf.
Qed.

Lemma stored_key na : key (stored ctx na) = key na.
Proof. unfold stored, key. by case_match. Qed.

Definition new_nodes (vaults : list Vault) (s : KVStore) : list NodeAccount :=
  omap (new_of s) (members vaults).
Definition gone_nodes (vaults : list Vault) (s : KVStore) : list NodeAccount :=
  removed_nodes vaults (nodes_by_status NodeActive s).

(** After the first two steps an account is active, out of the set, or as it was. *)
Lemma moved_lookup vaults s k : registry_ok s → members_known vaults s →
  written (λ na, stored ctx (deactivated ctx na))
    (written (λ na, stored ctx (activated ctx na)) (kv_node_account s) (new_nodes vaults s))
    (gone_nodes vaults s) !! k
  = (λ na,
      if joins na && member_of vaults k then stored ctx (activated ctx na)
      else if bool_decide (na_Status na = NodeActive) && bool_decide (na_Type na = TypeNode)
              && outside vaults na
      then stored ctx (deactivated ctx na) else na) <$> kv_node_account s !! k.
Proof.
  intros Hok Hkn. pose proof Hok as [Hacc _].
  assert (Hgone : ∀ na, na ∈ gone_nodes vaults s → kv_node_account s !! key na = Some na).
  { intros na Hna. apply elem_of_removed in Hna as ([k' Hk'] & _).
    destruct (Hacc _ _ Hk') as [Hkk _]. unfold key. by rewrite <- Hkk. }
  rewrite (written_lookup _ (kv_node_account s)) by done.
  rewrite (written_lookup _ (kv_node_account s))
    by (intros na Hna; by apply (elem_of_new s vaults)).
  destruct (kv_node_account s !! k) as [na|] eqn:Ek; cbn [fmap option_fmap option_map].
  2: { by repeat case_decide. }
  destruct (Hacc _ _ Ek) as [Hk _]. fold (key na) in Hk. subst k.
  assert (Hnew : key na ∈ map key (new_nodes vaults s)
    ↔ joins na = true ∧ member_of vaults (key na) = true).
  { rewrite list_elem_of_fmap. split.
    - intros (x & Hx & Hin). apply (elem_of_new s vaults) in Hin as (Hx' & Hj & Hm); [|done..].
      rewrite <- Hx in Hx', Hm. rewrite Hx' in Ek. by simplify_eq.
    - intros [Hj Hm]. exists na. split; [done|]. by apply elem_of_new. }
  assert (Hgo : key na ∈ map key (gone_nodes vaults s)
    ↔ na_Status na = NodeActive ∧ na_Type na = TypeNode ∧ outside vaults na = true).
  { rewrite list_elem_of_fmap. split.
    - intros (x & Hx & Hin). pose proof (Hgone x Hin) as Hx'.
      rewrite <- Hx, Ek in Hx'. injection Hx' as <-. by apply elem_of_removed in Hin as (_ & ?).
    - intros Hg. exists na. split; [done|]. apply elem_of_removed. eauto. }
  destruct (decide (key na ∈ map key (gone_nodes vaults s))) as [Hd|Hd].
  - apply Hgo in Hd as (Ha & Ht & Ho). unfold joins. by rewrite Ha, Ht, Ho.
  - destruct (decide (key na ∈ map key (new_nodes vaults s))) as [Hn|Hn].
    + apply Hnew in Hn as [-> ->]. done.
    + assert (Hf : joins na && member_of vaults (key na) = false).
      { apply not_true_iff_false. rewrite andb_true_iff. tauto. }
      assert (Hg : bool_decide (na_Status na = NodeActive) && bool_decide (na_Type na = TypeNode)
                   && outside vaults na = false).
      { apply not_true_iff_false. rewrite !andb_true_iff, !bool_decide_eq_true. tauto. }
      by rewrite Hf, Hg.
Qed.

Lemma reset_lookup (m : gmap string NodeAccount) s k :
  kv_node_account s = m → (∀ k na, m !! k = Some na → k = key na) →
  na_Status <$> written (λ na, stored ctx (UpdateStatus na NodeStandby (BlockHeight ctx))) m
    (nodes_by_status NodeSelected s) !! k
  = (λ na, if bool_decide (na_Status na = NodeSelected) && bool_decide (na_Type na = TypeNode)
           then NodeStandby else na_Status na) <$> m !! k.
Proof.
  intros <- Hf. rewrite (written_lookup _ (kv_node_account s)).
  2: { intros na Hna. apply elem_of_nodes in Hna as ([k' Hk'] & _). by rewrite <- (Hf _ _ Hk'). }
  destruct (kv_node_account s !! k) as [na|] eqn:Ek; cbn [fmap option_fmap option_map];
    [|by case_decide].
  pose proof (Hf _ _ Ek) as ->.
  assert (Hin : key na ∈ map key (nodes_by_status NodeSelected s)
    ↔ na_Type na = TypeNode ∧ na_Status na = NodeSelected).
  { rewrite list_elem_of_fmap. split.
    - intros (x & Hx & Hin). apply elem_of_nodes in Hin as ([k' Hk'] & Hin).
      pose proof (Hf _ _ Hk') as Hkk. rewrite Hkk, <- Hx, Ek in Hk'. injection Hk' as <-. done.
    - intros Hst. exists na. split; [done|]. apply elem_of_nodes. eauto. }
  case_decide as Hd.
  - apply Hin in Hd as [Ht Hst]. rewrite !bool_decide_eq_true_2 by done. cbn.
    rewrite stored_status. by destruct (update_same na NodeStandby (BlockHeight ctx)) as [-> _].
  - assert (Hg : bool_decide (na_Status na = NodeSelected) && bool_decide (na_Type na = TypeNode)
                 = false); [|by rewrite Hg].
    apply not_true_iff_false. rewrite andb_true_iff, !bool_decide_eq_true. tauto.
Qed.

Lemma apply_changes_run existing vaults s ups s' :
  registry_ok s → members_known vaults s →
  apply_changes ctx existing (new_nodes vaults s) (gone_nodes vaults s) s = (Ok ups, s') →
  (∀ k, na_Status <$> kv_node_account s' !! k = status_after vaults k <$> kv_node_account s !! k)
  ∧ ups = (omap (update_of 100) (new_nodes vaults s)
           ++ omap (update_of 0) (List.filter (known existing) (gone_nodes vaults s)))%list.
Proof.
  intros Hok Hkn Hrun. pose proof Hok as [Hacc _]. unfold apply_changes in Hrun.
  destruct (activate_all (new_nodes vaults s) s []) as (s1 & Hr1 & Ha1 & _).
  { intros na Hna. apply (elem_of_new s vaults) in Hna as (Hna & _); [|done..].
    destruct (Hacc _ _ Hna) as [_ [He _]]. apply orb_false_iff in He as [He _].
    by apply bool_decide_eq_false in He. }
  rewrite (bind_run _ _ _ _ _ Hr1) in Hrun. cbn [app] in Hrun.
  destruct (deactivate_all existing (gone_nodes vaults s) s1
    (omap (update_of 100) (new_nodes vaults s))) as (s2 & Hr2 & Ha2 & _).
  { apply NoDup_map_filter, nodes_keys_NoDup, Hok. }
  { intros na Hna. pose proof Hna as Hna'.
    apply elem_of_removed in Hna as ([k Hk] & Hact & _). destruct (Hacc _ _ Hk) as [Hkey [He _]].
    split; [|done]. fold (key na) in Hkey. subst k. rewrite Ha1.
    rewrite (written_lookup _ (kv_node_account s))
      by (intros x Hx; by apply (elem_of_new s vaults)).
    rewrite decide_False; [exact Hk|]. intros Hin. apply list_elem_of_fmap in Hin as (x & Hx & Hin).
    apply (elem_of_new s vaults) in Hin as (Hx' & Hj & _); [|done..].
    rewrite <- Hx, Hk in Hx'. simplify_eq. unfold joins in Hj. by rewrite Hact in Hj. }
  rewrite (bind_run _ _ _ _ _ Hr2), (bind_run _ _ _ _ _ (list_nodes_run _ _)) in Hrun.
  destruct (set_all_run ctx (λ na, UpdateStatus na NodeStandby (BlockHeight ctx))
    (nodes_by_status NodeSelected s2) s2) as (s3 & Hr3 & Ha3 & _).
  { intros na Hna. destruct (update_same na NodeStandby (BlockHeight ctx)) as [_ Hk].
    split; [|exact Hk]. apply update_nonempty; [|done].
    apply elem_of_nodes in Hna as ([k Hk'] & _). rewrite Ha2, Ha1, moved_lookup in Hk' by done.
    destruct (kv_node_account s !! k) as [x|] eqn:Ek; [|done]. cbn in Hk'.
    destruct (Hacc _ _ Ek) as [_ [He _]].
    assert (Hne : na_NodeAddress x ≠ "").
    { apply orb_false_iff in He as [He _]. by apply bool_decide_eq_false in He. }
    assert (Hst : ∀ y, NodeAccount_IsEmpty (stored ctx y) = NodeAccount_IsEmpty y)
      by (intros y; apply stored_empty).
    injection Hk' as <-. repeat case_match; rewrite ?Hst; try done.
    - by apply activated_facts.
    - by apply deactivated_facts. }
  rewrite (bind_run _ _ _ _ _ Hr3) in Hrun.
  apply bind_Ok in Hrun as (? & s4 & Hr4 & Hrun). apply bind_Ok in Hrun as (? & s5 & Hr5 & Hrun).
  apply mret_Ok in Hrun as [-> ->]. split; [|done]. intros k.
  assert (Hk45 : kv_node_account s5 = kv_node_account s3).
  { transitivity (kv_node_account s4).
    - revert Hr5. apply (keeps_run kv_node_account). unfold PurgeOperationalNodeConfigs, DeleteNodeConfigs.
      frame_tac.
    - revert Hr4. by apply (keeps_run kv_node_account), min_join_keeps. }
  rewrite Hk45, Ha3, (reset_lookup (kv_node_account s2)); [|done|].
  - rewrite Ha2, Ha1, moved_lookup by done. rewrite <- option_fmap_compose.
    destruct (kv_node_account s !! k) as [na|] eqn:Ek; [|done]. cbn. f_equal.
    assert (Hact : na_Status (stored ctx (activated ctx na)) = NodeActive).
    { rewrite stored_status. unfold activated. rec_simpl. apply update_same. }
    destruct (Hacc _ _ Ek) as [_ [He _]].
    destruct (deactivated_facts na He) as (Hde & _).
    assert (Hj : joins na = match na_Status na with NodeActive | NodeDisabled => false | _ => true end)
      by (unfold joins; by destruct (na_Status na)).
    assert (Hac : bool_decide (na_Status na = NodeActive)
                  = match na_Status na with NodeActive => true | _ => false end)
      by (by destruct (na_Status na)).
    unfold status_after. rewrite Hj, Hac.
    destruct (na_Status na) eqn:Est; cbn [andb]; try (destruct (member_of vaults k);
      [by rewrite Hact|by rewrite Est]); [|by rewrite Est].
    destruct (bool_decide (na_Type na = TypeNode) && outside vaults na); [|by rewrite Est].
    rewrite stored_status, Hde. by destruct (na_ForcedToLeave na).
  - rewrite Ha2, Ha1. apply written_filed; [|apply written_filed; [|]].
    + intros na. rewrite stored_key. exact (proj2 (update_same _ _ _)).
    + intros na. rewrite stored_key. exact (proj2 (update_same na _ _)).
    + intros k' na Hna. by destruct (Hacc _ _ Hna).
Qed.

(** The two lists are the accounts whose place in the set changes. *)
Lemma status_moves vaults k na :
  (na_Status na ≠ NodeActive ∧ status_after vaults k na = NodeActive
   ↔ joins na = true ∧ member_of vaults k = true)
  ∧ (na_Status na = NodeActive ∧ status_after vaults k na ≠ NodeActive
     ↔ na_Status na = NodeActive ∧ na_Type na = TypeNode ∧ outside vaults na = true).
Proof.
  unfold status_after, joins. destruct (na_Status na) eqn:Est.
  1,2,3,4,6: destruct (member_of vaults k); split; split; intros Hx; try naive_solver;
    revert Hx; repeat case_match; naive_solver.
  destruct (outside vaults na); rewrite ?andb_true_r, ?andb_false_r;
    [case_bool_decide; [destruct (na_ForcedToLeave na)|]|]; naive_solver.
Qed.

Lemma elem_of_updates existing vaults s u : registry_ok s → members_known vaults s →
  u ∈ (omap (update_of 100) (new_nodes vaults s)
       ++ omap (update_of 0) (List.filter (known existing) (gone_nodes vaults s)))%list
  ↔ ∃ k na, kv_node_account s !! k = Some na ∧ PubKey.check_cons_pubkey (na_NodeConsPubKey na) = Ok tt
    ∧ (na_Status na ≠ NodeActive ∧ status_after vaults k na = NodeActive
         ∧ u = mkValidatorUpdate (na_NodeConsPubKey na) 100
       ∨ na_Status na = NodeActive ∧ status_after vaults k na ≠ NodeActive
         ∧ known existing na = true ∧ u = mkValidatorUpdate (na_NodeConsPubKey na) 0).
Proof.
  intros Hok Hkn. pose proof Hok as [Hacc _].
  assert (Hu : ∀ power na, update_of power na = Some u ↔
    PubKey.check_cons_pubkey (na_NodeConsPubKey na) = Ok tt
    ∧ u = mkValidatorUpdate (na_NodeConsPubKey na) power).
  { intros power na. unfold update_of. destruct (PubKey.check_cons_pubkey _) as [[]|e|e];
      split; naive_solver. }
  rewrite elem_of_app, !list_elem_of_omap. split.
  - intros [(na & Hin & Hna)|(na & Hin & Hna)]; apply Hu in Hna as [Hc ->].
    + apply (elem_of_new s vaults) in Hin as (Hk & Hjm); [|done..].
      exists (key na), na. split; [done|]. split; [done|]. left.
      apply (proj1 (status_moves vaults (key na) na)) in Hjm as []. done.
    + apply list_elem_of_In, filter_In in Hin as [Hin Hkno]. apply list_elem_of_In in Hin.
      apply elem_of_removed in Hin as ([k Hk] & Hg). exists k, na. split; [done|]. split; [done|].
      right. apply (proj2 (status_moves vaults k na)) in Hg as []. done.
  - intros (k & na & Hk & Hc & [(Ha & Hs & ->)|(Ha & Hs & Hkno & ->)]).
    + left. exists na. split; [|by apply Hu]. apply elem_of_new; [done..|].
      destruct (Hacc _ _ Hk) as [Hkey _]. fold (key na) in Hkey. subst k. split; [done|].
      by apply status_moves.
    + right. exists na. split; [|by apply Hu]. apply list_elem_of_In, filter_In. split; [|done].
      apply list_elem_of_In, elem_of_removed. split; [eauto|]. by apply (status_moves vaults k).
Qed.

End Changes.

(** ** Concrete nodes

Five active nodes of which two are to leave, and two candidates. *)

Module ToyChurn.
Import ToyVersions.
#[export] Instance toy_cons : ConsAddress := λ s, s.

Definition node (addr : string) (status : NodeStatus) (bond score : Z) : NodeAccount :=
  NodeAccount_zero <| na_NodeAddress := addr |> <| na_Status := status |>
    <| na_Type := TypeNode |> <| na_Bond := bond |> <| na_LeaveScore := score |>
    <| na_PubKeySet := mkPubKeySet addr "" |> <| na_NodeConsPubKey := addr |>
    <| na_ActiveBlockHeight := if bool_decide (status = NodeActive) then 1 else 0 |>.

Definition seven_nodes : list NodeAccount :=
  [node "a" NodeActive 100 0; node "b" NodeActive 100 7; node "c" NodeActive 100 0;
   node "d" NodeActive 100 0; node "e" NodeActive 100 9; node "f" NodeSelected 300 0;
   node "g" NodeSelected 200 0].

Definition before_churn : KVStore := KVStore_empty <| kv_node_account := registry seven_nodes |>.

(** The new vault: [b] and [e] are out, [f] is in; only [b] and [e] were known. *)
Definition new_vault : Vault :=
  (Vault.NewVaultV2 1 ActiveVault BaseVault "V1" [BTCChain] "")
    <| va_Membership := ["a"; "c"; "d"; "f"] |>.

Definition rotated : KVStore :=
  before_churn <| kv_vault := {["V1" := new_vault]} |> <| kv_vault_base_index := ["V1"] |>.

Lemma nodes_registered s : kv_node_account s = registry seven_nodes → kv_penalty s = ∅ → registry_ok s.
Proof.
  intros Ha Hp. split; [|by rewrite Hp].
  rewrite Ha. apply registry_list_ok. repeat constructor; done.
Qed.
End ToyChurn.

Section Concrete.
Import ToyExt ToyVersions ToyChurn.
#[local] Existing Instance toy_ext.

(** One of the two leaves, since four must remain, and the higher bond joins. *)
Lemma churn_keeps_majority_witness : ∃ next,
  (nextVaultNodeAccounts (mkCtx 50) 5 before_churn).1 = Ok (next, true)
  ∧ map na_NodeAddress next = ["e"; "a"; "c"; "d"; "f"]
  ∧ ∃ leaving staying, nodes_by_status NodeActive before_churn ≡ₚ (leaving ++ staying)%list
      ∧ Forall (λ na, wants_to_leave na = true) leaving.
Proof.
  eexists. assert (Hrun : (nextVaultNodeAccounts (mkCtx 50) 5 before_churn).1 = Ok (_, true))
    by (vm_compute; reflexivity).
  split; [exact Hrun|]. split; [vm_compute; reflexivity|].
  destruct (churn_keeps_majority (mkCtx 50) 5 _ _ before_churn _
    (nodes_registered before_churn eq_refl eq_refl) (run_ok _ _ _ Hrun))
    as (_ & l & st & jo & wa & Hp & _ & _ & Hw & _).
  exists l, st. split; [exact Hp|exact Hw].
Defined.

End Concrete.
