(* ===== verification/NodeHandlers.v ===== *)
(** * The messages of node operators

Leaving, maintenance, addresses, versions, keys, votes on parameters, pauses of
the chain and the hand-over of an operator (x/thornado/handler_leave.go,
handler_maint.go, handler_ip_address.go, handler_version.go,
handler_set_node_keys.go, handler_config.go, handler_node_pause_chain.go,
handler_operator_rotate.go with the messages' ValidateBasic in types/).  A
[_Run] validates the message and handles it; the ante handlers check it before
it enters a block.  Events and priorities are not modelled. *)

From S2P Require Import Prelude GoStrings Config Common Types Vaults Keeper Voters BtcBatch Bonds Pow Deposits Settle Observe Nodes Rotation Churn.

(** [cosmos.VerifyAddressFormat] of an address that has a text. *)
Definition verify_address (a : string) : res unit :=
  if Acc_Empty a then Err "invalid address" else Ok tt.

Definition unauthorized {A} (m : KM A) : KM A :=
  r ← try m; match r with Ok a => mret a | Err e | Panic e => fail "unauthorized" end.

Section Handlers.
Context `{Ext} (ctx : Ctx).

(** ** Leaving (handler_leave.go) *)

Record MsgLeave := mkMsgLeave { lv_NodeAddress : string; lv_Signer : string }.

Definition MsgLeave_ValidateBasic (m : MsgLeave) : res unit :=
  _ ← verify_address (lv_Signer m); verify_address (lv_NodeAddress m).

Definition validateNodeOperatorAuth (nodeAddr signer : string) : KM unit :=
  _ ← unauthorized (resolveNodeAccountByAddressAndSigner ctx nodeAddr signer); mret tt.

Definition Leave_validate (msg : MsgLeave) : KM unit :=
  _ ← lift (MsgLeave_ValidateBasic msg);
  validateNodeOperatorAuth (lv_NodeAddress msg) (lv_Signer msg).

Definition LeaveAnteHandler (msg : MsgLeave) : KM unit := Leave_validate msg.

Definition Leave_handle (msg : MsgLeave) : KM unit :=
  nodeAccount ← GetNodeAccount ctx (lv_NodeAddress msg);
  _ ← fail_if (NodeAccount_IsEmpty nodeAccount) "unable to find account";
  let nodeAccount := nodeAccount <| na_RequestedToLeave := true |> in
  SetNodeAccount ctx
    (if na_LeaveScore nodeAccount =? 0
     then nodeAccount <| na_LeaveScore := u64 (BlockHeight ctx) |> else nodeAccount).

Definition Leave_Run (msg : MsgLeave) : KM unit := _ ← Leave_validate msg; Leave_handle msg.

(** ** Maintenance (handler_maint.go) *)

Record MsgMaint := mkMsgMaint { mt_NodeAddress : string; mt_Signer : string }.

Definition MsgMaint_ValidateBasic (m : MsgMaint) : res unit :=
  _ ← verify_address (mt_Signer m); verify_address (mt_NodeAddress m).

Definition validateMaintAuth (acc signer : string) : KM unit :=
  _ ← unauthorized (resolveNodeAccountByAddressAndSigner ctx acc signer); mret tt.

Definition Maint_validate (msg : MsgMaint) : KM unit :=
  _ ← lift (MsgMaint_ValidateBasic msg); validateMaintAuth (mt_NodeAddress msg) (mt_Signer msg).

Definition MaintAnteHandler (msg : MsgMaint) : KM unit := Maint_validate msg.

Definition Maint_handle (msg : MsgMaint) : KM unit :=
  nodeAccount ← unauthorized (GetNodeAccount ctx (mt_NodeAddress msg));
  SetNodeAccount ctx (nodeAccount <| na_Maintenance := negb (na_Maintenance nodeAccount) |>).

Definition Maint_Run (msg : MsgMaint) : KM unit := _ ← Maint_validate msg; Maint_handle msg.

(** ** Addresses (handler_ip_address.go) *)

Record MsgSetIPAddress := mkMsgSetIPAddress { ip_IPAddress : string; ip_Signer : string }.

Definition MsgSetIPAddress_ValidateBasic (m : MsgSetIPAddress) : res unit :=
  if Acc_Empty (ip_Signer m) then Err "invalid address"
  else if negb (IP.ParseIP (ip_IPAddress m)) then Err "invalid IP address" else Ok tt.

Definition validateIPAddressAuth (signer : string) : KM unit :=
  nodeAccount ← unauthorized (resolveNodeAccountBySigner ctx signer);
  fail_if (negb (bool_decide (na_Type nodeAccount = TypeNode))) "not authorized".

Definition IPAddress_validate (msg : MsgSetIPAddress) : KM unit :=
  _ ← lift (MsgSetIPAddress_ValidateBasic msg); validateIPAddressAuth (ip_Signer msg).

Definition IPAddressAnteHandler (msg : MsgSetIPAddress) : KM unit :=
  validateIPAddressAuth (ip_Signer msg).

Definition IPAddress_handle (msg : MsgSetIPAddress) : KM unit :=
  nodeAccount ← unauthorized (resolveNodeAccountBySigner ctx (ip_Signer msg));
  SetNodeAccount ctx (nodeAccount <| na_IPAddress := ip_IPAddress msg |>).

Definition IPAddress_Run (msg : MsgSetIPAddress) : KM unit :=
  _ ← IPAddress_validate msg; IPAddress_handle msg.

(** ** Keys (handler_set_node_keys.go) *)

Record MsgSetNodeKeys := mkMsgSetNodeKeys {
  sk_PubKeySet : PubKeySet;
  sk_NodeConsPubKey : string;
  sk_Signer : string
}.

Definition PubKeySet_Equals (p q : PubKeySet) : bool :=
  PubKey.Equals (pks_Ed25519 p) (pks_Ed25519 q) && PubKey.Equals (pks_Secp256k1 p) (pks_Secp256k1 q).

Definition MsgSetNodeKeys_ValidateBasic (m : MsgSetNodeKeys) : res unit :=
  if Acc_Empty (sk_Signer m) then Err "invalid address"
  else
    _ ← PubKey.check_cons_pubkey (sk_NodeConsPubKey m);
    if PubKeySet_IsEmpty (sk_PubKeySet m) then Err "node pub keys cannot be empty" else Ok tt.

Definition validateNodeKeysAuth (signer : string) : KM NodeAccount :=
  nodeAccount ← unauthorized (resolveNodeAccountBySigner ctx signer);
  _ ← fail_if (bool_decide (na_Status nodeAccount = NodeActive)) "node is active";
  _ ← fail_if (bool_decide (na_Status nodeAccount = NodeDisabled)) "node is disabled";
  mret nodeAccount.

(** The keys of a node are given once; its consensus key may be renewed. *)
Definition SetNodeKeys_validate (msg : MsgSetNodeKeys) : KM unit :=
  _ ← lift (MsgSetNodeKeys_ValidateBasic msg);
  nodeAccount ← validateNodeKeysAuth (sk_Signer msg);
  _ ← fail_if (negb (PubKeySet_IsEmpty (na_PubKeySet nodeAccount))
               && negb (PubKeySet_Equals (na_PubKeySet nodeAccount) (sk_PubKeySet msg)))
        "node already has pubkey set assigned";
  _ ← EnsureNodeKeysUnique (na_NodeAddress nodeAccount) (sk_NodeConsPubKey msg) (sk_PubKeySet msg);
  addr ← lift (PubKey.GetThorAddress (pks_Secp256k1 (sk_PubKeySet msg)));
  fail_if (negb (Acc_Equals (na_NodeAddress nodeAccount) addr))
    "node address must match secp256k1 pubkey".

Definition SetNodeKeysAnteHandler (msg : MsgSetNodeKeys) : KM unit :=
  _ ← validateNodeKeysAuth (sk_Signer msg); mret tt.

Definition SetNodeKeys_handle (msg : MsgSetNodeKeys) : KM unit :=
  nodeAccount ← unauthorized (resolveNodeAccountBySigner ctx (sk_Signer msg));
  SetNodeAccount ctx
    ((UpdateStatus nodeAccount NodeStandby (BlockHeight ctx))
       <| na_PubKeySet := sk_PubKeySet msg |> <| na_NodeConsPubKey := sk_NodeConsPubKey msg |>).

Definition SetNodeKeys_Run (msg : MsgSetNodeKeys) : KM unit :=
  _ ← SetNodeKeys_validate msg; SetNodeKeys_handle msg.

(** ** Pauses of the chain (handler_node_pause_chain.go) *)

Definition ConfigKeyNodePauseChainGlobal : string := "NodePauseChainGlobal".

Record MsgNodePauseChain := mkMsgNodePauseChain { np_Value : Z; np_Signer : string }.

Definition MsgNodePauseChain_ValidateBasic (m : MsgNodePauseChain) : res unit :=
  if Acc_Empty (np_Signer m) then Err "invalid address" else Ok tt.

Definition NodePauseChain_validate (msg : MsgNodePauseChain) : KM unit :=
  _ ← lift (MsgNodePauseChain_ValidateBasic msg);
  _ ← unauthorized (resolveActiveNodeAccountBySigner ctx (np_Signer msg)); mret tt.

(** The height of the last churn, or -1. *)
Definition last_churn (active : list Vault) : Z :=
  foldl (λ last vault, if last <? va_StatusSince vault then va_StatusSince vault else last)
    (-1) active.

(** The new pause height, or nothing to do. *)
Definition next_pause (value pauseHeight blocks : Z) : option Z :=
  if 0 <? value then
    Some (if BlockHeight ctx <? pauseHeight then pauseHeight +i blocks else BlockHeight ctx +i blocks)
  else if pauseHeight <=? BlockHeight ctx then None
  else Some (pauseHeight -i blocks).

Definition NodePauseChain_handle (msg : MsgNodePauseChain) : KM unit :=
  nodeAccount ← unauthorized (resolveActiveNodeAccountBySigner ctx (np_Signer msg));
  active ← GetBaseVaultsByStatus ctx ActiveVault;
  nodeHeight ← GetNodePauseChain (na_NodeAddress nodeAccount);
  _ ← fail_if ((0 <? nodeHeight) && (last_churn active <=? nodeHeight))
        "node has already chosen pause/resume since the last churn";
  pauseHeight ← gets (λ s, Config.GetConfig (kv_config s) ConfigKeyNodePauseChainGlobal);
  blocks ← getConfigDurationBlocks Chain_PauseNodeMinutes;
  match next_pause (np_Value msg) pauseHeight blocks with
  | Some pauseHeight =>
      _ ← SetNodePauseChain ctx (na_NodeAddress nodeAccount);
      SetConfig ConfigKeyNodePauseChainGlobal pauseHeight
  | None => mret tt
  end.

Definition NodePauseChain_Run (msg : MsgNodePauseChain) : KM unit :=
  _ ← NodePauseChain_validate msg; NodePauseChain_handle msg.

(** ** The hand-over of an operator (handler_operator_rotate.go) *)

Record MsgOperatorRotate := mkMsgOperatorRotate {
  or_Signer : string;
  or_OperatorAddress : string;
  or_OperatorPubKey : string;
  or_Coin : Coin
}.

Definition MsgOperatorRotate_ValidateBasic (m : MsgOperatorRotate) : res unit :=
  if Acc_Empty (or_Signer m) then Err "signer cannot be empty"
  else if Acc_Empty (or_OperatorAddress m) then Err "operator address cannot be empty"
  else
    operatorPubKey ← PubKey.NewPubKey (or_OperatorPubKey m);
    operatorAddress ← PubKey.GetThorAddress operatorPubKey;
    if negb (Acc_Equals operatorAddress (or_OperatorAddress m))
    then Err "operator pubkey does not match operator address"
    else if negb (Asset_IsEmpty (c_Asset (or_Coin m))) || negb (c_Amount (or_Coin m) =? 0)
    then Err "coin amount must be zero" else Ok tt.

Definition shielderNodeBonderHasState (bonder : ShielderNodeBonder) : bool :=
  negb (br_PendingSats bonder =? 0) || negb (br_PrincipalSats bonder =? 0)
  || negb (br_FeeDebtShare bonder =? 0) || negb (TxID.IsEmpty (br_PendingFeeDepositID bonder))
  || negb (TxID.IsEmpty (br_SaleEntitlementID bonder)) || negb (br_SalePayoutSats bonder =? 0)
  || negb (br_CreatedHeight bonder =? 0) || negb (br_UpdatedHeight bonder =? 0).

Definition shielderNodeBonderExists (bond : ShielderNodeBond) (bonder : ShielderNodeBonder)
    (address : string) : bool :=
  negb (Acc_Empty address)
  && (existsb (λ existing, str_eq (TrimSpace existing) address) (nb_Bonders bond)
      || (Acc_Equals (br_Bonder bonder) address && shielderNodeBonderHasState bonder)).

(** One bond of the signer: the new operator must be new to it. *)
Definition rotating_bond (msg : MsgOperatorRotate) (newOperatorAddress : string)
    (bonds : list ShielderNodeBond) (bond : ShielderNodeBond) : KM (list ShielderNodeBond) :=
  if nb_Sold bond || PubKey.IsEmpty (nb_OperatorPubKey bond) || Acc_Empty (nb_NodeAddress bond)
  then mret bonds
  else match PubKey.GetThorAddress (nb_OperatorPubKey bond) with
  | Ok operator =>
      if negb (Acc_Equals operator (or_Signer msg)) then mret bonds
      else
        newBonder ← GetShielderNodeBonder (nb_NodePubKey bond) newOperatorAddress;
        _ ← fail_if (shielderNodeBonderExists bond newBonder newOperatorAddress)
              "operator is already a bonder for node";
        oldBonder ← GetShielderNodeBonder (nb_NodePubKey bond) (or_Signer msg);
        _ ← fail_if (negb (shielderNodeBonderExists bond oldBonder (or_Signer msg)))
              "no bonder matches current operator";
        mret (bonds ++ [bond])%list
  | _ => mret bonds
  end.

Definition operatorRotateBonds (msg : MsgOperatorRotate)
    : KM (list ShielderNodeBond * string) :=
  newOperatorPubKey ← lift (PubKey.NewPubKey (or_OperatorPubKey msg));
  newOperatorAddress ← lift (PubKey.GetThorAddress newOperatorPubKey);
  _ ← fail_if (negb (Acc_Equals newOperatorAddress (or_OperatorAddress msg)))
        "operator pubkey does not match operator address";
  _ ← fail_if (Acc_Equals newOperatorAddress (or_Signer msg)) "operator is already assigned";
  all ← getIterator kv_shielder_node_bond;
  bonds ← mfold (rotating_bond msg newOperatorAddress) [] all;
  _ ← fail_if (length bonds =? 0)%nat "no node bonds found for operator";
  mret (bonds, newOperatorPubKey).

(** The first entry of the current operator is replaced. *)
Fixpoint replace_bonder (currentOperator newOperator : string) (bonders : list string)
    : option (list string) :=
  match bonders with
  | [] => None
  | b :: bonders =>
      if str_eq (TrimSpace b) currentOperator then Some (newOperator :: bonders)
      else l ← replace_bonder currentOperator newOperator bonders; Some (b :: l)
  end.

Definition rotateOperatorBonder (bond : ShielderNodeBond) (currentOperator newOperator : string)
    : KM ShielderNodeBond :=
  oldBonder ← GetShielderNodeBonder (nb_NodePubKey bond) currentOperator;
  _ ← fail_if (negb (shielderNodeBonderExists bond oldBonder currentOperator))
        "no bonder matches current operator";
  newBonder ← GetShielderNodeBonder (nb_NodePubKey bond) newOperator;
  _ ← fail_if (shielderNodeBonderExists bond newBonder newOperator)
        "operator is already a bonder for node";
  match replace_bonder currentOperator newOperator (nb_Bonders bond) with
  | None => fail "no bonder index matches current operator"
  | Some bonders =>
      _ ← DeleteShielderNodeBonder (nb_NodePubKey bond) currentOperator;
      _ ← SetShielderNodeBonder
            (oldBonder <| br_Bonder := newOperator |> <| br_UpdatedHeight := BlockHeight ctx |>);
      mret (bond <| nb_Bonders := bonders |>)
  end.

Definition rotate_auction (nodePubKey newOperatorAddress newOperatorPubKey : string)
    (auction : NodeSlotAuction) : KM unit :=
  if negb (str_eq (au_SellerNodePubKey auction) nodePubKey)
     || negb (str_eq (au_Status auction) NodeSlotAuctionOpen)
  then mret tt
  else SetNodeSlotAuction (auction <| au_Seller := newOperatorAddress |>
         <| au_SellerOperatorPubKey := newOperatorPubKey |>
         <| au_UpdatedHeight := BlockHeight ctx |>).

Definition rotateOpenAuctions (nodePubKey newOperatorAddress newOperatorPubKey : string)
    : KM unit :=
  auctions ← getIterator kv_node_slot_auction;
  mfor (rotate_auction nodePubKey newOperatorAddress newOperatorPubKey) auctions.

Definition rotate_bond (newOperatorPubKey newOperatorAddress newOperatorCommonAddress : string)
    (bond : ShielderNodeBond) : KM unit :=
  currentOperator ← lift (PubKey.GetThorAddress (nb_OperatorPubKey bond));
  bond ← rotateOperatorBonder bond currentOperator newOperatorAddress;
  let bond := bond <| nb_OperatorPubKey := newOperatorPubKey |>
                <| nb_UpdatedHeight := BlockHeight ctx |> in
  _ ← SetShielderNodeBond bond;
  nodeAccount ← GetNodeAccount ctx (nb_NodeAddress bond);
  _ ← (if NodeAccount_IsEmpty nodeAccount then mret tt
       else SetNodeAccount ctx (nodeAccount <| na_BondAddress := newOperatorCommonAddress |>));
  rotateOpenAuctions (nb_NodePubKey bond) newOperatorAddress newOperatorPubKey.

Definition OperatorRotate_validate (msg : MsgOperatorRotate) : KM unit :=
  _ ← lift (MsgOperatorRotate_ValidateBasic msg); _ ← operatorRotateBonds msg; mret tt.

Definition OperatorRotateAnteHandler (msg : MsgOperatorRotate) : KM unit :=
  _ ← lift (MsgOperatorRotate_ValidateBasic msg);
  _ ← unauthorized (operatorRotateBonds msg); mret tt.

Definition OperatorRotate_handle (msg : MsgOperatorRotate) : KM unit :=
  '(bonds, newOperatorPubKey) ← operatorRotateBonds msg;
  newOperatorAddress ← lift (PubKey.GetThorAddress newOperatorPubKey);
  newOperatorCommonAddress ← lift (Address.NewAddress newOperatorAddress);
  mfor (rotate_bond newOperatorPubKey newOperatorAddress newOperatorCommonAddress) bonds.

Definition OperatorRotate_Run (msg : MsgOperatorRotate) : KM unit :=
  _ ← OperatorRotate_validate msg; OperatorRotate_handle msg.
End Handlers.

(** ** Versions (handler_version.go) *)

Section VersionHandler.
Context `{Ext} `{SemVer} (ctx : Ctx).

Record MsgSetVersion := mkMsgSetVersion { sv_Version : string; sv_Signer : string }.

Definition MsgSetVersion_ValidateBasic (m : MsgSetVersion) : res unit :=
  if Acc_Empty (sv_Signer m) then Err "invalid address"
  else _ ← semver_Parse (sv_Version m); Ok tt.

Definition validateVersionAuth (signer : string) : KM unit :=
  nodeAccount ← unauthorized (resolveNodeAccountBySigner ctx signer);
  fail_if (negb (bool_decide (na_Type nodeAccount = TypeNode))) "not authorized".

Definition Version_validate (msg : MsgSetVersion) : KM unit :=
  _ ← lift (MsgSetVersion_ValidateBasic msg);
  v ← lift (semver_Parse (sv_Version msg));
  _ ← fail_if (semver_tagged v) "Thornado doesn't use Pre/Build version";
  unauthorized (validateVersionAuth (sv_Signer msg)).

Definition VersionAnteHandler (msg : MsgSetVersion) : KM unit := validateVersionAuth (sv_Signer msg).

(** A version is only ever raised. *)
Definition Version_handle (msg : MsgSetVersion) : KM unit :=
  nodeAccount ← unauthorized (resolveNodeAccountBySigner ctx (sv_Signer msg));
  version ← lift (semver_Parse (sv_Version msg));
  let nodeAccount :=
    if Version_LT (NodeAccount_GetVersion nodeAccount) version
    then nodeAccount <| na_Version := semver_String version |> else nodeAccount in
  _ ← SetNodeAccount ctx nodeAccount;
  if bool_decide (na_Status nodeAccount = NodeActive) then SetMinJoinLast ctx else mret tt.

Definition Version_Run (msg : MsgSetVersion) : KM unit :=
  _ ← Version_validate msg; Version_handle msg.
End VersionHandler.

(** ** Votes on parameters (handler_config.go)

Go iterates over the vote counts in an unspecified order: [iter]. *)

Section ConfigHandler.
Context `{Ext} `{Attestor} (iter : gmap Z Z → list (Z * Z)) (ctx : Ctx).

Record MsgConfig := mkMsgConfig { mc_Key : string; mc_Value : Z; mc_Signer : string }.

Definition MsgConfig_ValidateBasic (m : MsgConfig) : res unit :=
  if is_empty (mc_Key m) then Err "key cannot be empty"
  else if Acc_Empty (mc_Signer m) then Err "invalid address" else Ok tt.

(** [ConfigKeyRegex] *)
Definition config_key_char (c : ascii) : bool :=
  let n := Z.of_nat (nat_of_ascii c) in
  ((97 <=? n) && (n <=? 122)) || ((65 <=? n) && (n <=? 90)) || ((48 <=? n) && (n <=? 57))
  || Ascii.eqb c "_" || Ascii.eqb c "-".

Definition configValidKey (key : string) : bool :=
  negb (is_empty key) && all_chars config_key_char key.

Definition MaxConfigLength : Z := 128.

Fixpoint active_operational_signers (signers : list string) : KM unit :=
  match signers with
  | [] => mret tt
  | signer :: signers =>
      _ ← (if Acc_Equals signer (module_address BaseName) then mret tt
           else _ ← unauthorized (resolveActiveNodeAccountBySigner ctx signer); mret tt);
      active_operational_signers signers
  end.

Definition activeOperationalNodeSignerPriority (signers : list string) : KM unit :=
  _ ← fail_if (length signers =? 0)%nat "missing signer"; active_operational_signers signers.

Definition validateConfigAuth (msg : MsgConfig) : KM unit :=
  activeOperationalNodeSignerPriority [mc_Signer msg].

Definition ConfigAnteHandler (msg : MsgConfig) : KM unit := validateConfigAuth msg.

Definition NodePauseChainAnteHandler (msg : MsgNodePauseChain) : KM unit :=
  activeOperationalNodeSignerPriority [np_Signer msg].

Definition Config_validate (msg : MsgConfig) : KM unit :=
  _ ← lift (MsgConfig_ValidateBasic msg);
  _ ← fail_if (negb (configValidKey (mc_Key msg))
               || (MaxConfigLength <? Z.of_nat (String.length (mc_Key msg)))) "invalid config key";
  validateConfigAuth msg.

(** The value the votes give, negative for none. *)
Definition effective_value (key : string) (nodeConfigs : NodeConfigs) (minVotes : Z)
    (active : list string) : Z :=
  if IsOperationalConfig key then NodeConfigs.ValueOfOperational iter nodeConfigs key minVotes active
  else
    let '(value, currentlyHasSuperMajority) :=
      NodeConfigs.ConfigHasSuperMajority iter nodeConfigs key active in
    if currentlyHasSuperMajority : bool then value else -1.

Definition Config_handle (msg : MsgConfig) : KM unit :=
  nodeAccount ← unauthorized (resolveActiveNodeAccountBySigner ctx (mc_Signer msg));
  currentConfigValue ← gets (λ s, Config.GetConfig (kv_config s) (mc_Key msg));
  _ ← SetNodeConfig (mc_Key msg) (mc_Value msg) (na_NodeAddress nodeAccount);
  if mc_Value msg =? currentConfigValue then mret tt
  else
    nodeConfigs ← GetNodeConfigs (mc_Key msg);
    activeNodes ← ListActiveNodes;
    operationalVotesMin ← GetConfigInt64 Config_OperationalVotesMin;
    let effectiveValue := effective_value (mc_Key msg) nodeConfigs operationalVotesMin
                            (map na_NodeAddress activeNodes) in
    if (effectiveValue <? 0) || (currentConfigValue =? effectiveValue)
       || negb (mc_Value msg =? effectiveValue)
    then mret tt
    else SetConfig (mc_Key msg) effectiveValue.

Definition Config_Run (msg : MsgConfig) : KM unit :=
  _ ← Config_validate msg; Config_handle msg.
End ConfigHandler.

(** ** Who acts

Finding the account of a signer reads the store and writes nothing. *)

Section Reads.
Context `{Ext} {T : Type} (p : KVStore → T) (ctx : Ctx).

Lemma unauthorized_keeps {A} (m : KM A) : keeps p m → keeps p (unauthorized m).
Proof. intros Hm. unfold unauthorized. frame_tac. Qed.

Lemma node_bond_keeps na : keeps p (resolveNodeBondForNodeAccount na).
Proof. unfold resolveNodeBondForNodeAccount. frame_tac. Qed.

Lemma by_signer_keeps signer : keeps p (resolveNodeAccountBySigner ctx signer).
Proof.
  unfold resolveNodeAccountBySigner, operated_by. frame_tac; apply node_bond_keeps.
Qed.

Lemma active_keeps signer : keeps p (resolveActiveNodeAccountBySigner ctx signer).
Proof. unfold resolveActiveNodeAccountBySigner. frame_tac. apply by_signer_keeps. Qed.

Lemma by_address_keeps nodeAddress signer :
  keeps p (resolveNodeAccountByAddressAndSigner ctx nodeAddress signer).
Proof. unfold resolveNodeAccountByAddressAndSigner. frame_tac; apply node_bond_keeps. Qed.
End Reads.

(** ** The ballot

Who stands behind a count of votes: distinct active nodes with a vote of that
value on record. *)

Module Ballot.
Definition votes_for (m : NodeConfigs) (key : string) (v : Z) (a : string) : Prop :=
  ∃ e, e ∈ m ∧ nc_Signer e = a ∧ EqualFold (nc_Key e) key = true ∧ nc_Value e = v.

Definition backed (m : NodeConfigs) (key : string) (active : list string) (v c : Z) : Prop :=
  ∃ voters : gset string, Z.of_nat (size voters) = c
    ∧ ∀ a, a ∈ voters → a ∈ active ∧ votes_for m key v a.

(** What the fold over the votes keeps: a count is backed by nodes that have
    voted already. *)
Definition behind (m : NodeConfigs) (key : string) (active : list string)
    (st : gmap Z Z * gset string) : Prop :=
  ∀ v c, st.1 !! v = Some c →
    ∃ voters : gset string, Z.of_nat (size voters) = c ∧ voters ⊆ st.2
      ∧ ∀ a, a ∈ voters → a ∈ active ∧ votes_for m key v a.

Lemma step_behind m key active st e : e ∈ m → behind m key active st →
  behind m key active (NodeConfigs.count_step key active st e).
Proof.
  intros He Hst. destruct st as [counter voted]. unfold NodeConfigs.count_step.
  destruct (EqualFold (nc_Key e) key) eqn:Ek; [|done]. cbn [negb].
  case_bool_decide as Hv; [done|]. case_bool_decide as Ha; [|done].
  intros v c Hc. cbn in Hc. rewrite lookup_insert in Hc. case_decide as Hve.
  - injection Hc as <-. subst v.
    assert (Hold : ∃ voters : gset string, Z.of_nat (size voters) = default 0 (counter !! nc_Value e)
      ∧ voters ⊆ voted ∧ ∀ a, a ∈ voters → a ∈ active ∧ votes_for m key (nc_Value e) a).
    { destruct (counter !! nc_Value e) as [c|] eqn:Ec; [by apply Hst|]. by exists ∅. }
    destruct Hold as (voters & Hs & Hsub & Hin). exists ({[nc_Signer e]} ∪ voters).
    split; [rewrite size_union, size_singleton by set_solver; lia|]. split; [cbn; set_solver|].
    intros a [->%elem_of_singleton|Hain]%elem_of_union; [|by apply Hin].
    split; [done|]. by exists e.
  - destruct (Hst v c Hc) as (voters & Hs & Hsub & Hin). exists voters.
    split; [done|]. split; [cbn in *; set_solver|done].
Qed.

Lemma count_backed m key active v c : NodeConfigs.count_votes m key active !! v = Some c →
  backed m key active v c.
Proof.
  assert (H : ∀ l st, l ⊆ m → behind m key active st →
    behind m key active (foldl (NodeConfigs.count_step key active) st l)).
  { induction l as [|e l IH]; intros st Hl Hst; [done|]. apply IH; [set_solver|].
    apply step_behind; [set_solver|done]. }
  intros Hc. destruct (H m (∅, ∅) ltac:(done) ltac:(by intros ? ? ?) v c Hc)
    as (voters & Hs & _ & Hin). by exists voters.
Qed.

(** The value the most votes name; without a tie it is ahead of every other. *)
Lemma most_votes l v m t : Forall (λ vc, 0 < vc.2) l →
  foldl NodeConfigs.most_voted_tie (-1, 0, false) l = (v, m, t) →
  (l = [] ∧ (v, m, t) = (-1, 0, false))
  ∨ (v, m) ∈ l ∧ ∀ w c, (w, c) ∈ l → c <= m ∧ (t = false → c = m → w = v).
Proof.
  revert v m t. induction l as [|[w c] l IH] using rev_ind; intros v m t Hpos Hf;
    [left; split; [done|]; cbn in Hf; by rewrite Hf|right].
  apply Forall_app in Hpos as [Hpos Hl]. inversion_clear Hl as [|? ? Hc _]. cbn in Hc.
  rewrite foldl_app in Hf. cbn [foldl] in Hf.
  destruct (foldl _ _ l) as [[v1 m1] t1] eqn:E1. specialize (IH v1 m1 t1 Hpos eq_refl).
  unfold NodeConfigs.most_voted_tie in Hf. cbn [fst snd] in Hf.
  assert (Hle : ∀ w' c', (w', c') ∈ l → c' <= m1 ∧ (t1 = false → c' = m1 → w' = v1)).
  { destruct IH as [[-> _]|[_ IH]]; [|exact IH]. intros w' c' Hin. by apply elem_of_nil in Hin. }
  destruct (m1 <? c) eqn:E2; [|destruct (c =? m1) eqn:E3]; injection Hf as <- <- <-.
  - split; [set_solver|]. intros w' c' [Hin|Heq%list_elem_of_singleton]%elem_of_app;
      [|injection Heq as -> ->; split; [lia|done]].
    apply Hle in Hin as [Hin _]. split; [lia|]. intros _ ->. lia.
  - destruct IH as [[-> Hx]|[Hin _]]; [injection Hx as -> -> ->; lia|]. split; [set_solver|].
    intros w' c' [Hin'|Heq%list_elem_of_singleton]%elem_of_app;
      [|injection Heq as -> ->; split; [lia|done]].
    apply Hle in Hin' as [Hle' _]. split; [lia|done].
  - destruct IH as [[-> Hx]|[Hin _]]; [injection Hx as -> -> ->; lia|]. split; [set_solver|].
    intros w' c' [Hin'|Heq%list_elem_of_singleton]%elem_of_app; [by apply Hle|].
    injection Heq as -> ->. split; lia.
Qed.
End Ballot.

Section Votes.
Context `{Ext} `{Attestor} (iter : gmap Z Z → list (Z * Z)) (ctx : Ctx).

(** What a value needs to take effect. *)
Definition carried (key : string) (minVotes : Z) (m : NodeConfigs) (active : list string) (v : Z)
    : Prop :=
  if IsOperationalConfig key then
    ∃ c, Ballot.backed m key active v c ∧ minVotes <= c
      ∧ ∀ w c', NodeConfigs.count_votes m key active !! w = Some c' → w ≠ v → c' < c
  else
    ∃ c, Ballot.backed m key active v c ∧ 0 < c ∧ 2 * Z.of_nat (length active) <= 3 * c.

Lemma effective_carried key m minVotes active v : Votes.iterates iter →
  effective_value iter key m minVotes active = v → 0 <= v → carried key minVotes m active v.
Proof.
  intros Hi Hv H0v. unfold effective_value in Hv. unfold carried.
  destruct (Votes.iter_counts iter m key active Hi) as (Hpos & _ & Hcount).
  destruct (IsOperationalConfig key).
  - unfold NodeConfigs.ValueOfOperational in Hv.
    destruct (foldl _ _ _) as [[w mx] tie] eqn:Ef.
    destruct (Ballot.most_votes _ _ _ _ Hpos Ef) as [[_ Hx]|[Hin Hbest]].
    { injection Hx as -> -> ->. destruct (_ || _) in Hv; lia. }
    destruct (tie || (mx <? minVotes)) eqn:E; [lia|]. apply orb_false_iff in E as [-> E].
    subst w. exists mx. split; [apply Ballot.count_backed; by apply Hcount|]. split; [lia|].
    intros w c' Hc Hne. apply Hcount in Hc. destruct (Hbest w c' Hc) as [Hle Heq].
    destruct (decide (c' = mx)); [by contradict Hne; apply Heq|lia].
  - unfold NodeConfigs.ConfigHasSuperMajority, NodeConfigs.countActive in Hv.
    destruct (Votes.first_majority_spec HasSuperMajority (Z.of_nat (length active))
      (iter (NodeConfigs.count_votes m key active))) as [[Hf _]|(w & c & Hin & Hm & Hf)];
      rewrite Hf in Hv; [lia|]. subst w.
    apply super_majority_spec in Hm as [Hc Hm]; [|lia]. exists c.
    split; [apply Ballot.count_backed; by apply Hcount|]. lia.
Qed.

(** What a vote leaves on record. *)
Lemma set_node_config_run key value acc s r s' : SetNodeConfig key value acc s = (r, s') →
  kv_config s' = kv_config s ∧ kv_node_account s' = kv_node_account s.
Proof.
  intros Hr. split; [apply (keeps_run kv_config) in Hr; [done|]|
    apply (keeps_run kv_node_account) in Hr; [done|]];
    unfold SetNodeConfig, GetNodeConfigs; frame_tac.
Qed.

(** C19. A parameter changes only by the vote that a message carries: its value is
    the message's, no other parameter moves, and distinct active nodes with that
    value on record stand behind it: the required number and more than for any
    other value when the parameter is operational, two thirds of all active nodes
    when it is not. *)
Theorem config_changed_by_vote msg s s' :
  Votes.iterates iter →
  Config_handle iter ctx msg s = (Ok tt, s') →
  kv_config s' = kv_config s
  ∨ 0 <= mc_Value msg
    ∧ kv_config s' = <[ToUpper (mc_Key msg) := mc_Value msg]> (kv_config s)
    ∧ carried (mc_Key msg) (Config.GetConfigInt64 (kv_config s) Config_OperationalVotesMin)
        (default [] (kv_node_config s' !! ToUpper (mc_Key msg)))
        (map na_NodeAddress (Registry.nodes_by_status NodeActive s)) (mc_Value msg).
Proof.
  intros Hi Hrun. unfold Config_handle in Hrun.
  apply bind_Ok in Hrun as (na & s1 & Hr & Hrun).
  apply (keeps_run (λ s, s)) in Hr; [|apply unauthorized_keeps, active_keeps].
  simpl in Hr. subst s1.
  apply bind_Ok in Hrun as (cur & s1 & Hr & Hrun). apply gets_Ok in Hr as [Hcur ->].
  apply bind_Ok in Hrun as (? & s1 & Hr & Hrun). apply set_node_config_run in Hr as [Hc1 Ha1].
  destruct (mc_Value msg =? cur) eqn:Ecur; [apply mret_Ok in Hrun as [_ ->]; by left|].
  apply bind_Ok in Hrun as (m & s2 & Hr & Hrun). apply bind_Ok in Hr as (o & s3 & Hr & Hm).
  apply gets_Ok in Hr as [Ho ->]. apply mret_Ok in Hm as [-> ->].
  apply bind_Ok in Hrun as (active & s2 & Hr & Hrun). injection Hr as <- <-.
  apply bind_Ok in Hrun as (minVotes & s2 & Hr & Hrun). apply gets_Ok in Hr as [Hmin ->].
  cbv zeta in Hrun. set (v := effective_value _ _ _ _ _) in Hrun.
  destruct ((v <? 0) || (cur =? v) || negb (mc_Value msg =? v)) eqn:E;
    [apply mret_Ok in Hrun as [_ ->]; by left|].
  right. apply modify_Ok in Hrun. subst s'.
  apply orb_false_iff in E as [E Ev]. apply orb_false_iff in E as [E0 _].
  assert (Hv : mc_Value msg = v) by lia. split; [lia|].
  split; [cbn; by rewrite Hc1, Hv|].
  apply effective_carried; [done| |lia]. rewrite Hv. subst v.
  rewrite <- Hc1, Hmin, <- Ho, ToUpper_idem. unfold Registry.nodes_by_status. by rewrite Ha1.
Qed.
End Votes.

Module ToyVotes.
Import ToyVersions ToyChurn.
#[export] Instance toy_attestor : Attestor := {|
  module_address m := "module" ++ m;
  att_bech32 s := Ok s;
  att_verifies _ _ _ := true;
  att_address s := s;
  signable_payload _ _ := Ok ""
|}.

(** Four active nodes; two have voted for seven, one for six. *)
Definition ballot : KVStore :=
  before_churn <| kv_node_account := registry
      [node "a" NodeActive 1 0; node "b" NodeActive 1 0; node "c" NodeActive 1 0;
       node "d" NodeActive 1 0] |>
    <| kv_node_config := {[ "NODE_SETDESIRED" :=
      [mkNodeConfig "NODE_SETDESIRED" 7 "a"; mkNodeConfig "NODE_SETDESIRED" 7 "b";
       mkNodeConfig "NODE_SETDESIRED" 6 "c"] ]} |>.
End ToyVotes.

Section Concrete.
Import ToyExt ToyVotes.
#[local] Existing Instance toy_ext.

(** The third vote for seven decides; two votes would not. *)
Lemma config_changed_by_vote_witness :
  let msg := mkMsgConfig "Node_SetDesired" 7 "d" in
  let s' := (Config_handle map_to_list (mkCtx 50) msg ballot).2 in
  Config.GetConfig (kv_config s') "Node_SetDesired" = 7
  ∧ ∃ voters : gset string, (3 <= size voters)%nat
      ∧ ∀ a, a ∈ voters →
        Ballot.votes_for (default [] (kv_node_config s' !! "NODE_SETDESIRED")) "Node_SetDesired" 7 a.
Proof.
  intros msg s'.
  assert (Hrun : (Config_handle map_to_list (mkCtx 50) msg ballot).1 = Ok tt)
    by (vm_compute; reflexivity).
  assert (Hset : Config.GetConfig (kv_config s') "Node_SetDesired" = 7)
    by (vm_compute; reflexivity).
  split; [exact Hset|].
  destruct (config_changed_by_vote map_to_list (mkCtx 50) msg ballot s' ltac:(by intros m)
    (run_ok _ _ _ Hrun)) as [Hsame|(_ & _ & Hc)].
  - unfold Config.GetConfig in Hset. rewrite Hsame in Hset. discriminate.
  - destruct Hc as (c & (voters & Hs & Hin) & _ & Hmaj). exists voters.
    change (length _) with 4%nat in Hmaj. split; [lia|]. intros a Ha. by apply Hin.
Defined.
End Concrete.
