(* ===== verification/Upgrade.v ===== *)
(** * Votes on upgrades (x/thornado/handler_upgrade.go, keeper_upgrade.go)

An active node proposes an upgrade under a version and a height, active nodes
approve or reject it, and the plan on chain follows the approvals: it is
scheduled when two thirds of the active nodes approve and cleared when they no
longer do.  The plan itself is kept by the upgrade module of the Cosmos SDK: a
parameter ([UpgradeKeeper]), with what its documentation states as laws.  Votes
are kept under a key that ends with the address of the node, which the model
writes as the text of the address. *)

From S2P Require Import Prelude GoStrings Config Common Types Keeper Bonds Deposits Nodes NodeHandlers.

(** ** The upgrade module *)

Record Plan := mkPlan { pl_Name : string; pl_Height : Z; pl_Info : string }.

(** [GetUpgradePlan]: the plan, [ErrNoUpgradePlanFound], or another error. *)
Inductive planned := Planned (plan : Plan) | NoPlan | PlanError (e : string).

Class UpgradeKeeper := {
  PlanState : Type;
  plan_Get : PlanState → planned;
  plan_Schedule : Z → Plan → PlanState → res PlanState;
  plan_Clear : PlanState → res PlanState
}.

(** Scheduling stores the plan, clearing removes it. *)
Class UpgradeKeeperLaws `{UpgradeKeeper} := {
  get_scheduled h p st st' : plan_Schedule h p st = Ok st' → plan_Get st' = Planned p;
  get_cleared st st' : plan_Clear st = Ok st' → plan_Get st' = NoPlan
}.

(** ** Records *)

Record Upgrade := mkUpgrade { up_Height : Z; up_Info : string }.
Record UpgradeProposal := mkUpgradeProposal {
  pp_Height : Z; pp_Info : string; pp_Proposer : string }.

Record MsgProposeUpgrade := mkMsgProposeUpgrade {
  mp_Name : string; mp_Upgrade : Upgrade; mp_Signer : string }.
Record MsgApproveUpgrade := mkMsgApproveUpgrade { ma_Name : string; ma_Signer : string }.
Record MsgRejectUpgrade := mkMsgRejectUpgrade { mj_Name : string; mj_Signer : string }.

(** The store, with the records of the two prefixes by their keys, and the state
    of the upgrade module. A vote is [true] for the byte 0x1, [false] for 0xFF. *)
Record UState `{UpgradeKeeper} := mkUState {
  us_store : KVStore;
  us_proposals : gmap string UpgradeProposal;
  us_votes : gmap string bool;
  us_plan : PlanState
}.
#[export] Instance UState_eta `{UpgradeKeeper} : Eta UState := fun r =>
  mkUState _ (us_store r) (us_proposals r) (us_votes r) (us_plan r).

Record UpgradeQuorum := mkUpgradeQuorum {
  uq_Approved : bool; uq_ApprovingVals : Z; uq_TotalActive : Z; uq_NeededForQuorum : Z }.

(** ** Keys *)

Definition prefixUpgradeProposals : string := "upgr_props/".
Definition prefixUpgradeVotes : string := "upgr_votes/".
Definition ProposalKey (name : string) : string := prefixUpgradeProposals ++ name.
Definition VotePrefix (name : string) : string := prefixUpgradeVotes ++ name ++ "/".
Definition VoteKey (addr name : string) : string := VotePrefix name ++ addr.

(** What follows a prefix. *)
Fixpoint cut_prefix (p s : string) : option string :=
  match p, s with
  | EmptyString, _ => Some s
  | String a p, String b s => if Ascii.eqb a b then cut_prefix p s else None
  | String _ _, EmptyString => None
  end.

Fixpoint has_slash (s : string) : bool :=
  match s with
  | EmptyString => false
  | String c s => Ascii.eqb c "/" || has_slash s
  end.

(** The last part of [strings.Split(key, "/")]. *)
Fixpoint last_segment (s : string) : string :=
  match s with
  | EmptyString => EmptyString
  | String c s' => if has_slash s then last_segment s' else s
  end.

(** ** Messages *)

Section Messages.
Context `{SemVer}.

Definition MsgProposeUpgrade_ValidateBasic (m : MsgProposeUpgrade) : res unit :=
  if Acc_Empty (mp_Signer m) then Err "invalid address"
  else if is_empty (mp_Name m) then Err "name cannot be empty"
  else if (100 <? String.length (mp_Name m))%nat then Err "name cannot be longer than 100 characters"
  else match semver_Parse (mp_Name m) with
       | Err _ => Err "name is not a valid semver"
       | Panic e => Panic e
       | Ok _ =>
           if (2500 <? String.length (up_Info (mp_Upgrade m)))%nat
           then Err "info cannot be longer than 2500 characters"
           else if up_Height (mp_Upgrade m) =? 0 then Err "height cannot be zero" else Ok tt
       end.

Definition MsgApproveUpgrade_ValidateBasic (m : MsgApproveUpgrade) : res unit :=
  if Acc_Empty (ma_Signer m) then Err "invalid address"
  else if is_empty (ma_Name m) then Err "name cannot be empty" else Ok tt.

Definition MsgRejectUpgrade_ValidateBasic (m : MsgRejectUpgrade) : res unit :=
  if Acc_Empty (mj_Signer m) then Err "invalid address"
  else if is_empty (mj_Name m) then Err "name cannot be empty" else Ok tt.
End Messages.

Section Upgrade.
Context `{Ext} `{SemVer} `{UpgradeKeeper} (ctx : Ctx).

Abbreviation UM := (M UState).

(** An operation on the store alone. *)
Definition on_store {A} (m : KM A) : UM A := zoom us_store m.

(** ** The keeper *)

Definition GetUpgradePlan : UM planned := gets (λ s, plan_Get (us_plan s)).

(** An operation of the upgrade module; on an error its state stays. *)
Definition on_plan (f : PlanState → res PlanState) : UM unit := λ s,
  match f (us_plan s) with
  | Ok st => (Ok tt, s <| us_plan := st |>)
  | Err e => (Err e, s)
  | Panic e => (Panic e, s)
  end.
Definition ScheduleUpgrade (plan : Plan) : UM unit := on_plan (plan_Schedule (BlockHeight ctx) plan).
Definition ClearUpgradePlan : UM unit := on_plan plan_Clear.

Definition ProposeUpgrade (name : string) (upgrade : UpgradeProposal) : UM unit :=
  modify (set_field us_proposals <[ProposalKey name := upgrade]>).
Definition GetProposedUpgrade (name : string) : UM (option UpgradeProposal) :=
  gets (λ s, us_proposals s !! ProposalKey name).

(** [None] for the error of a missing vote. *)
Definition GetUpgradeVote (addr name : string) : UM (option bool) :=
  gets (λ s, us_votes s !! VoteKey addr name).
Definition ApproveUpgrade (addr name : string) : UM unit :=
  modify (set_field us_votes <[VoteKey addr name := true]>).
Definition RejectUpgrade (addr name : string) : UM unit :=
  modify (set_field us_votes <[VoteKey addr name := false]>).

(** The votes under the prefix of a name, with the addresses that cast them. *)
Definition GetUpgradeVoteIterator (name : string) : UM (list (string * bool)) :=
  gets (λ s, omap (λ kv : string * bool, (λ addr, (addr, kv.2)) <$> cut_prefix (VotePrefix name) kv.1)
               (sorted_items (us_votes s))).
Definition GetUpgradeProposalIterator : UM (list (string * UpgradeProposal)) :=
  gets (λ s, sorted_items (us_proposals s)).

Definition removeExpiredUpgradeProposalVotes (name : string) : UM unit :=
  modify (set_field us_votes
    (base.filter (λ kv : string * bool, cut_prefix (VotePrefix name) kv.1 = None))).

Definition expire_proposal (kv : string * UpgradeProposal) : UM unit :=
  let '(key, upgrade) := kv in
  let name := last_segment key in
  if BlockHeight ctx <=? pp_Height upgrade then mret tt
  else
    _ ← removeExpiredUpgradeProposalVotes name;
    modify (set_field us_proposals (delete key)).

Definition RemoveExpiredUpgradeProposals : UM unit :=
  proposals ← GetUpgradeProposalIterator; mfor expire_proposal proposals.

Definition UpgradeApprovedByMajority (name : string) : UM UpgradeQuorum :=
  activeVals ← on_store ListActiveNodes;
  let active : gset string := list_to_set (map na_NodeAddress activeVals) in
  let totalActive := Z.of_nat (size active) in
  votes ← GetUpgradeVoteIterator name;
  let approvingVals := Z.of_nat (length (List.filter (λ v : string * bool,
    v.2 && bool_decide (v.1 ∈ active)) votes)) in
  mret (if totalActive * 2 <=? approvingVals * 3
        then mkUpgradeQuorum true approvingVals totalActive 0
        else mkUpgradeQuorum false approvingVals totalActive
               (Z.quot (totalActive * 2 + 2) 3 - approvingVals)).

(** The nodes that run an upgrade take its version. *)
Definition UpdateActiveNodeVersions (version : string) : KM unit :=
  activeVals ← ListActiveNodes;
  _ ← mfor (λ v, SetNodeAccount ctx (v <| na_Version := version |>)) activeVals;
  SetMinJoinLast ctx.

(** ** The plan follows the votes *)

Definition plan_of (name : string) (u : UpgradeProposal) : Plan :=
  mkPlan name (pp_Height u) (pp_Info u).

Definition scheduleUpgradeIfNecessary (name : string) : UM unit :=
  upgradePlan ← GetUpgradePlan;
  let scheduled := match upgradePlan with Planned p => str_eq (pl_Name p) name | _ => false end in
  if scheduled : bool then mret tt
  else
    _ ← fail_if (match upgradePlan with PlanError _ => true | _ => false end)
          "failed to get upgrade plan";
    o ← GetProposedUpgrade name;
    match o with
    | None => fail "upgrade proposal not found"
    | Some u =>
        uq ← UpgradeApprovedByMajority name;
        if uq_Approved uq then
          match upgradePlan with
          | Planned _ => mret tt
          | _ => ScheduleUpgrade (plan_of name u)
          end
        else mret tt
    end.

Fixpoint schedule_first (proposals : list (string * UpgradeProposal)) : UM unit :=
  match proposals with
  | [] => mret tt
  | (key, proposal) :: rest =>
      let name := last_segment key in
      uq ← UpgradeApprovedByMajority name;
      if uq_Approved uq then ScheduleUpgrade (plan_of name proposal) else schedule_first rest
  end.

Definition scheduleAnyApprovedUpgrade : UM unit :=
  proposals ← GetUpgradeProposalIterator; schedule_first proposals.

Definition clearUpgradeIfNecessary (name : string) : UM unit :=
  upgradePlan ← GetUpgradePlan;
  match upgradePlan with
  | NoPlan => mret tt
  | PlanError _ => fail "failed to get upgrade plan"
  | Planned p =>
      if negb (str_eq (pl_Name p) name) then mret tt
      else
        uq ← UpgradeApprovedByMajority name;
        if negb (uq_Approved uq) then _ ← ClearUpgradePlan; scheduleAnyApprovedUpgrade
        else mret tt
  end.

(** ** Proposing *)

Definition signer_node (signer : string) : UM NodeAccount :=
  on_store (unauthorized (resolveActiveNodeAccountBySigner ctx signer)).

(** The proposer has reached the greatest number of proposals. *)
Fixpoint too_many (max count : Z) (proposer : string) (proposals : list UpgradeProposal) : bool :=
  match proposals with
  | [] => false
  | proposal :: rest =>
      if negb (Acc_Equals (pp_Proposer proposal) proposer) then too_many max count proposer rest
      else if count + 1 =? max then true else too_many max (count + 1) proposer rest
  end.

Definition ProposeUpgrade_validate (msg : MsgProposeUpgrade) : UM unit :=
  _ ← lift (MsgProposeUpgrade_ValidateBasic msg);
  nodeAccount ← signer_node (mp_Signer msg);
  _ ← fail_if (up_Height (mp_Upgrade msg) <=? BlockHeight ctx) "upgrade height must be in the future";
  u ← GetProposedUpgrade (mp_Name msg);
  _ ← fail_if (match u with Some _ => true | None => false end) "upgrade proposal already exists";
  proposals ← GetUpgradeProposalIterator;
  maxProposalCount ← on_store (GetConfigInt64 Upgrade_ProposalCountMax);
  fail_if (too_many maxProposalCount 0 (na_NodeAddress nodeAccount) (map snd proposals))
    "exceeded maximum number of upgrade proposals".

Definition ProposeUpgrade_handle (msg : MsgProposeUpgrade) : UM unit :=
  let name := mp_Name msg in
  nodeAccount ← signer_node (mp_Signer msg);
  _ ← ProposeUpgrade name (mkUpgradeProposal (up_Height (mp_Upgrade msg)) (up_Info (mp_Upgrade msg))
                             (na_NodeAddress nodeAccount));
  _ ← ApproveUpgrade (na_NodeAddress nodeAccount) name;
  scheduleUpgradeIfNecessary name.

Definition ProposeUpgrade_Run (msg : MsgProposeUpgrade) : UM unit :=
  _ ← ProposeUpgrade_validate msg; ProposeUpgrade_handle msg.

(** ** Approving and rejecting *)

Definition ApproveUpgrade_validate (msg : MsgApproveUpgrade) : UM unit :=
  _ ← lift (MsgApproveUpgrade_ValidateBasic msg);
  nodeAccount ← signer_node (ma_Signer msg);
  u ← GetProposedUpgrade (ma_Name msg);
  _ ← fail_if (match u with Some _ => false | None => true end) "upgrade proposal does not exist";
  v ← GetUpgradeVote (na_NodeAddress nodeAccount) (ma_Name msg);
  fail_if (default false v) "upgrade already approved".

Definition ApproveUpgrade_handle (msg : MsgApproveUpgrade) : UM unit :=
  nodeAccount ← signer_node (ma_Signer msg);
  _ ← ApproveUpgrade (na_NodeAddress nodeAccount) (ma_Name msg);
  scheduleUpgradeIfNecessary (ma_Name msg).

Definition ApproveUpgrade_Run (msg : MsgApproveUpgrade) : UM unit :=
  _ ← ApproveUpgrade_validate msg; ApproveUpgrade_handle msg.

Definition RejectUpgrade_validate (msg : MsgRejectUpgrade) : UM unit :=
  _ ← lift (MsgRejectUpgrade_ValidateBasic msg);
  nodeAccount ← signer_node (mj_Signer msg);
  u ← GetProposedUpgrade (mj_Name msg);
  _ ← fail_if (match u with Some _ => false | None => true end) "upgrade proposal does not exist";
  v ← GetUpgradeVote (na_NodeAddress nodeAccount) (mj_Name msg);
  fail_if (match v with Some v => negb v | None => false end) "upgrade already rejected".

Definition RejectUpgrade_handle (msg : MsgRejectUpgrade) : UM unit :=
  nodeAccount ← signer_node (mj_Signer msg);
  _ ← RejectUpgrade (na_NodeAddress nodeAccount) (mj_Name msg);
  clearUpgradeIfNecessary (mj_Name msg).

Definition RejectUpgrade_Run (msg : MsgRejectUpgrade) : UM unit :=
  _ ← RejectUpgrade_validate msg; RejectUpgrade_handle msg.

Definition ActiveNodeAnteHandler (signer : string) : KM unit :=
  _ ← resolveActiveNodeAccountBySigner ctx signer; mret tt.
End Upgrade.

(** ** The keys of the votes *)

Lemma cut_prefix_spec p s a : cut_prefix p s = Some a ↔ s = (p +:+ a)%string.
Proof.
  revert s. induction p as [|c p IH]; intros s; cbn.
  - split; [by intros [= ->]|by intros ->].
  - destruct s as [|d s]; [done|]. destruct (Ascii.eqb_spec c d) as [->|Hne].
    + rewrite IH. split; [by intros ->|by intros [= ->]].
    + split; [done|by intros [= <-]].
Qed.

Lemma slash_split m n a b :
  has_slash m = false → has_slash n = false → (m +:+ "/" +:+ a = n +:+ "/" +:+ b)%string → m = n.
Proof.
  revert n. induction m as [|c m IH]; intros [|d n] Hm Hn He; cbn in *; [done| | |].
  - injection He as <- _. done.
  - injection He as -> _. done.
  - injection He as <- He. f_equal. apply IH; [| |done].
    + by apply orb_false_iff in Hm as [_ Hm].
    + by apply orb_false_iff in Hn as [_ Hn].
Qed.

Lemma append_cancel (p a b : string) : (p +:+ a = p +:+ b)%string → a = b.
Proof. induction p as [|c p IH]; cbn; [done|]. intros [= H]. by apply IH. Qed.

Lemma append_assoc' (a b c : string) : ((a +:+ b) +:+ c = a +:+ (b +:+ c))%string.
Proof.
  induction a as [|x a IH]; [done|].
  change (String x ((a +:+ b) +:+ c) = String x (a +:+ (b +:+ c)))%string. by rewrite IH.
Qed.

(** Votes on two versions are under different keys. *)
Lemma vote_keys m n a b :
  has_slash m = false → has_slash n = false → VoteKey a m = VoteKey b n → m = n.
Proof.
  unfold VoteKey, VotePrefix. intros Hm Hn He. rewrite !append_assoc' in He.
  apply append_cancel in He. by eapply slash_split.
Qed.

Lemma vote_of_name m n a :
  has_slash m = false → has_slash n = false → m ≠ n →
  cut_prefix (VotePrefix m) (VoteKey a n) = None.
Proof.
  intros Hm Hn Hne. destruct (cut_prefix _ _) as [b|] eqn:E; [|done].
  apply cut_prefix_spec in E. destruct Hne. by eapply (vote_keys m n b a).
Qed.

Lemma last_segment_name p n :
  has_slash n = false → last_segment (p +:+ "/" +:+ n)%string = n.
Proof.
  intros Hn. assert (Hs : last_segment n = n).
  { destruct n as [|c n]; [done|]. cbn [last_segment]. by rewrite Hn. }
  induction p as [|c p IH].
  - change (last_segment (String "/" n) = n). cbn [last_segment]. by rewrite Hs.
  - assert (Ht : has_slash (String c p +:+ "/" +:+ n)%string = true).
    { clear. generalize (String c p) as q. intros q. induction q as [|d q IH]; [done|].
      change (Ascii.eqb d "/" || has_slash (q +:+ "/" +:+ n)%string = true).
      rewrite IH. by rewrite orb_true_r. }
    change (last_segment (String c (p +:+ "/" +:+ n)%string) = n).
    cbn [last_segment]. change (String c (p +:+ "/" +:+ n)) with (String c p +:+ "/" +:+ n)%string.
    by rewrite Ht.
Qed.

(** ** Counting *)

Section Counting.
Context `{UpgradeKeeper}.

Definition active_set (s : UState) : gset string :=
  match (ListActiveNodes (us_store s)).1 with
  | Ok nodes => list_to_set (map na_NodeAddress nodes)
  | _ => ∅
  end.

(** The active nodes that approve a version. *)
Definition approving (s : UState) (name : string) : gset string :=
  filter (λ addr, us_votes s !! VoteKey addr name = Some true) (active_set s).

Definition majority (s : UState) (name : string) : Prop :=
  2 * Z.of_nat (size (active_set s)) <= 3 * Z.of_nat (size (approving s name)).

Lemma votes_counted (active : gset string) (votes : gmap string bool) p :
  length (List.filter (λ v : string * bool, v.2 && bool_decide (v.1 ∈ active))
    (omap (λ kv : string * bool, (λ addr, (addr, kv.2)) <$> cut_prefix p kv.1) (sorted_items votes)))
  = size (filter (λ addr, votes !! (p +:+ addr)%string = Some true) active).
Proof.
  set (l := omap _ _). set (f := List.filter _ l).
  assert (Hl : ∀ a v, (a, v) ∈ l ↔ votes !! (p +:+ a)%string = Some v).
  { intros a v. unfold l. rewrite list_elem_of_omap. split.
    - intros ([k w] & Hin%elem_of_sorted_items & Hc). cbn in Hc.
      destruct (cut_prefix p k) as [b|] eqn:E; [|done]. injection Hc as -> ->.
      by apply cut_prefix_spec in E as ->.
    - intros Hk. exists ((p +:+ a)%string, v). split; [by apply elem_of_sorted_items|].
      cbn. by rewrite (proj2 (cut_prefix_spec p _ a) eq_refl). }
  assert (Hn : NoDup (map fst l)).
  { assert (Hs : NoDup (map fst (sorted_items votes))).
    { unfold sorted_items. rewrite (Permutation_map _ (insert_sort_perm _ _)).
      apply NoDup_fst_map_to_list. }
    unfold l. clear -Hs. induction (sorted_items votes) as [|[k v] r IH]; [constructor|].
    apply NoDup_cons in Hs as [Hk Hs]. cbn. destruct (cut_prefix p k) as [a|] eqn:E; [|by apply IH].
    cbn. apply NoDup_cons. split; [|by apply IH]. intros Hin. apply Hk. cbn.
    apply list_elem_of_fmap in Hin as ([b w] & -> & Hin).
    apply list_elem_of_omap in Hin as ([k' w'] & Hin & Hc). cbn in Hc.
    destruct (cut_prefix p k') as [b'|] eqn:E'; [|done]. injection Hc as -> ->.
    apply cut_prefix_spec in E as ->. apply cut_prefix_spec in E' as ->.
    apply list_elem_of_fmap. eexists. split; [|exact Hin]. done. }
  assert (Hf : NoDup (map fst f)) by (apply NoDup_map_filter; exact Hn).
  rewrite <- (length_map fst f), <- (size_list_to_set (C := gset string) _ Hf).
  f_equal. apply leibniz_equiv. intros a. rewrite elem_of_list_to_set, elem_of_filter. split.
  - intros ([b v] & -> & Hin)%list_elem_of_fmap.
    apply list_elem_of_In, filter_In in Hin as [Hin Hp].
    apply andb_true_iff in Hp as [Hv Hb]. apply bool_decide_eq_true in Hb. cbn in Hv.
    split; [|done]. rewrite <- Hv. by apply Hl, list_elem_of_In.
  - intros [Hk Ha]. apply list_elem_of_fmap. exists (a, true). split; [done|].
    apply list_elem_of_In, filter_In. split; [by apply list_elem_of_In, Hl|].
    cbn. by apply bool_decide_eq_true.
Qed.

#[export] Instance majority_dec s name : Decision (majority s name).
Proof. unfold majority. apply _. Defined.

Definition quorum_of (s : UState) (name : string) : UpgradeQuorum :=
  let total := Z.of_nat (size (active_set s)) in
  let approvals := Z.of_nat (size (approving s name)) in
  mkUpgradeQuorum (bool_decide (majority s name)) approvals total
    (if bool_decide (majority s name) then 0 else Z.quot (total * 2 + 2) 3 - approvals).

Lemma quorum_counted name s : UpgradeApprovedByMajority name s = (Ok (quorum_of s name), s).
Proof.
  unfold UpgradeApprovedByMajority, on_store, zoom, ListActiveNodes, ListNodesByStatus, getIterator,
    GetUpgradeVoteIterator, mbind, M_bind, gets, mret, M_ret. cbn beta iota zeta.
  replace (s <| us_store := us_store s |>) with s by by destruct s. rewrite votes_counted.
  set (active := list_to_set _).
  change (filter _ active) with (approving s name). change active with (active_set s).
  unfold quorum_of. cbv zeta. do 2 f_equal. unfold majority.
  destruct (_ <=? _) eqn:E; [rewrite bool_decide_true by lia|rewrite bool_decide_false by lia]; done.
Qed.
End Counting.

(** ** Histories of votes *)

Section Histories.
Context `{Ext} `{SemVer} `{UpgradeKeeper} `{!UpgradeKeeperLaws}.

(** The text of a version has no slash. *)
Hypothesis version_no_slash : ∀ n v, semver_Parse n = Ok v → has_slash n = false.

Inductive upgrade_op :=
| OpPropose (msg : MsgProposeUpgrade)
| OpApprove (msg : MsgApproveUpgrade)
| OpReject (msg : MsgRejectUpgrade)
| OpExpire
| OpApplied.

(** A message is rolled back on an error; [OpExpire] is the hook of the block
    and [OpApplied] the upgrade module removing the plan it applied. *)
Definition upgrade_perform (ctx : Ctx) (op : upgrade_op) : M UState unit :=
  match op with
  | OpPropose msg => atomic (ProposeUpgrade_Run ctx msg)
  | OpApprove msg => atomic (ApproveUpgrade_Run ctx msg)
  | OpReject msg => atomic (RejectUpgrade_Run ctx msg)
  | OpExpire => RemoveExpiredUpgradeProposals ctx
  | OpApplied => ClearUpgradePlan
  end.

Inductive upgrade_history : Z → UState → Prop :=
| uh_init h s : us_proposals s = ∅ → plan_Get (us_plan s) = NoPlan → upgrade_history h s
| uh_step h ctx s op : upgrade_history h s → h <= BlockHeight ctx →
    upgrade_history (BlockHeight ctx) (upgrade_perform ctx op s).2.

(** Proposals are filed under the texts of versions. *)
Definition filed (s : UState) : Prop :=
  ∀ k u, us_proposals s !! k = Some u → ∃ n, k = ProposalKey n ∧ has_slash n = false.

(** A plan whose height is still ahead is that of a proposal with a majority. *)
Definition backed (h : Z) (s : UState) (p : Plan) : Prop :=
  has_slash (pl_Name p) = false
  ∧ (pl_Height p < h ∨ majority s (pl_Name p)
      ∧ ∃ u, us_proposals s !! ProposalKey (pl_Name p) = Some u ∧ pp_Height u = pl_Height p).

Definition upgrade_ok (h : Z) (s : UState) : Prop :=
  filed s ∧ ∀ p, plan_Get (us_plan s) = Planned p → backed h s p.

Lemma signer_reads ctx signer s r s' : signer_node ctx signer s = (r, s') → s' = s.
Proof.
  unfold signer_node, on_store, zoom.
  pose proof (unauthorized_keeps (λ s, s) (resolveActiveNodeAccountBySigner ctx signer)) as Hk.
  specialize (Hk (active_keeps (λ s, s) ctx signer) (us_store s)).
  destruct (unauthorized _ _) as [r' kv]. cbn in Hk. subst kv. intros [= _ <-]. by destruct s.
Qed.

Lemma proposal_name n : has_slash n = false → last_segment (ProposalKey n) = n.
Proof. apply (last_segment_name "upgr_props"). Qed.

(** More approvals, or later heights, keep a plan backed. *)
Lemma backed_mono h h' s s' p : h <= h' → backed h s p →
  active_set s' = active_set s → approving s (pl_Name p) ⊆ approving s' (pl_Name p) →
  us_proposals s ⊆ us_proposals s' → backed h' s' p.
Proof.
  intros Hh [Hn [Hp|(Hm & u & Hu & He)]] Ha Hs Hps; (split; [done|]); [left; lia|right].
  split.
  - unfold majority in *. rewrite Ha. apply subseteq_size in Hs. lia.
  - exists u. split; [|done]. by eapply lookup_weaken.
Qed.

Lemma approved_more s key name :
  approving s name ⊆ approving (set_field us_votes <[key := true]> s) name.
Proof.
  intros a. unfold approving. rewrite !elem_of_filter. intros [Hv Ha]. split; [|exact Ha].
  rec_simpl. destruct (decide (key = VoteKey a name)) as [->|Hne];
    [by rewrite lookup_insert_eq|by rewrite lookup_insert_ne].
Qed.

Lemma other_votes s addr m v name : has_slash m = false → has_slash name = false → m ≠ name →
  approving s name ⊆ approving (set_field us_votes <[VoteKey addr m := v]> s) name.
Proof.
  intros Hm Hn Hne a. unfold approving. rewrite !elem_of_filter. intros [Hv Ha]. split; [|exact Ha].
  rec_simpl. rewrite lookup_insert_ne; [done|]. intros He. by eapply Hne, vote_keys.
Qed.

Lemma scheduled_ok h ctx name u s s' :
  us_proposals s !! ProposalKey name = Some u → majority s name → has_slash name = false →
  upgrade_ok h s → ScheduleUpgrade ctx (plan_of name u) s = (Ok tt, s') → upgrade_ok h s'.
Proof.
  intros Hu Hm Hn [Hf _]. unfold ScheduleUpgrade, on_plan.
  destruct (plan_Schedule _ _ _) as [st| |] eqn:Es; [|done..]. intros [= <-]. split; [exact Hf|].
  rec_simpl. apply get_scheduled in Es. intros p Hp. rewrite Es in Hp. injection Hp as <-.
  split; [exact Hn|]. right. split; [exact Hm|]. by exists u.
Qed.

(** What a vote of approval may do to the plan. *)
Lemma schedule_runs ctx name s s' :
  scheduleUpgradeIfNecessary ctx name s = (Ok tt, s') →
  match plan_Get (us_plan s) with
  | Planned _ => s' = s
  | NoPlan => ∃ u, us_proposals s !! ProposalKey name = Some u
      ∧ if bool_decide (majority s name) then ScheduleUpgrade ctx (plan_of name u) s = (Ok tt, s')
        else s' = s
  | PlanError _ => False
  end.
Proof.
  unfold scheduleUpgradeIfNecessary, GetUpgradePlan, GetProposedUpgrade.
  rewrite (bind_run _ _ s _ s) by done. cbv zeta. intros Hr.
  destruct (plan_Get (us_plan s)) as [p| |e]; [|..|done].
  - destruct (str_eq _ _); [by apply mret_Ok in Hr as [_ ->]|].
    rewrite bind_guard, (bind_run _ _ s _ s) in Hr by done. destruct (us_proposals s !! _); [|done].
    rewrite (bind_run _ _ _ _ _ (quorum_counted name s)) in Hr.
    destruct (uq_Approved _); by apply mret_Ok in Hr as [_ ->].
  - rewrite bind_guard, (bind_run _ _ s _ s) in Hr by done.
    destruct (us_proposals s !! _) as [u|]; [|done]. exists u. split; [done|].
    rewrite (bind_run _ _ _ _ _ (quorum_counted name s)) in Hr. cbn [uq_Approved quorum_of] in Hr.
    destruct (bool_decide _); [done|by apply mret_Ok in Hr as [_ ->]].
Qed.

Lemma schedule_ok h ctx name s s' :
  scheduleUpgradeIfNecessary ctx name s = (Ok tt, s') → has_slash name = false →
  upgrade_ok h s → upgrade_ok h s'.
Proof.
  intros Hr%schedule_runs Hn Hs. destruct (plan_Get (us_plan s)); [by subst| |done].
  destruct Hr as (u & Hu & Hr). destruct (bool_decide _) eqn:Em; [|by subst].
  apply bool_decide_eq_true in Em. by eapply scheduled_ok.
Qed.

Lemma first_ok h ctx l s s' : (∀ ku, ku ∈ l → us_proposals s !! ku.1 = Some ku.2) →
  schedule_first ctx l s = (Ok tt, s') → upgrade_ok h s → upgrade_ok h s'.
Proof.
  induction l as [|[k u] l IH]; intros Hl Hr Hs; cbn [schedule_first] in Hr;
    [by apply mret_Ok in Hr as [_ ->]|].
  cbv zeta in Hr. rewrite (bind_run _ _ _ _ _ (quorum_counted _ s)) in Hr.
  pose proof (Hl (k, u) ltac:(left)) as Hk. cbn in Hk.
  destruct (proj1 Hs k u Hk) as (n & -> & Hn). rewrite (proposal_name n Hn) in Hr.
  cbn [uq_Approved quorum_of] in Hr. destruct (bool_decide (majority s n)) eqn:Em; cbn in Hr.
  - apply bool_decide_eq_true in Em. by eapply scheduled_ok.
  - apply IH; [|done|done]. intros ku Hku. apply Hl. by right.
Qed.

Lemma proposed_name msg :
  MsgProposeUpgrade_ValidateBasic msg = Ok tt → has_slash (mp_Name msg) = false.
Proof.
  unfold MsgProposeUpgrade_ValidateBasic. repeat (case_match; try done).
  intros _. by eapply version_no_slash.
Qed.

Lemma filed_name s name u :
  filed s → us_proposals s !! ProposalKey name = Some u → has_slash name = false.
Proof.
  intros Hf Hu. destruct (Hf _ _ Hu) as (n & He & Hn). apply append_cancel in He. by subst.
Qed.

(** The node a message acts for is read before and after the validation. *)
Lemma signer_bind ctx signer {A} (f : NodeAccount → M UState A) s a s' :
  (signer_node ctx signer ≫= f) s = (Ok a, s') → ∃ na, f na s = (Ok a, s').
Proof.
  intros (na & s1 & Hn & Hr)%bind_Ok. apply signer_reads in Hn as ->. by exists na.
Qed.

Lemma propose_ok h ctx msg s s' : h <= BlockHeight ctx → upgrade_ok h s →
  ProposeUpgrade_Run ctx msg s = (Ok tt, s') → upgrade_ok (BlockHeight ctx) s'.
Proof.
  intros Hh [Hf Hp] Hr. unfold ProposeUpgrade_Run in Hr.
  apply bind_Ok in Hr as ([] & s1 & Hv & Hr). unfold ProposeUpgrade_validate in Hv.
  apply bind_Ok in Hv as ([] & s2 & [Hb ->]%lift_Ok & Hv). apply proposed_name in Hb.
  apply signer_bind in Hv as (na & Hv). apply bind_Ok in Hv as ([] & s2 & [_ ->]%fail_if_Ok & Hv).
  unfold GetProposedUpgrade in Hv. rewrite (bind_run _ _ s _ s) in Hv by done.
  apply bind_Ok in Hv as ([] & s2 & [Hnew ->]%fail_if_Ok & Hv).
  destruct (us_proposals s !! ProposalKey (mp_Name msg)) eqn:Eu; [done|].
  unfold GetUpgradeProposalIterator in Hv. rewrite (bind_run _ _ s _ s) in Hv by done.
  apply bind_Ok in Hv as (max & s2 & Hmax & [_ ->]%fail_if_Ok).
  unfold on_store, zoom, GetConfigInt64, gets in Hmax. injection Hmax as _ <-.
  replace (s <| us_store := us_store s |>) with s in Hr by by destruct s.
  unfold ProposeUpgrade_handle in Hr. cbv zeta in Hr. apply signer_bind in Hr as (na' & Hr).
  apply bind_Ok in Hr as ([] & s2 & Hset%modify_Ok & Hr). subst s2.
  apply bind_Ok in Hr as ([] & s2 & Hset%modify_Ok & Hr). subst s2.
  apply (schedule_ok (BlockHeight ctx)) in Hr; [done|done|]. split.
  - intros k u. rec_simpl. intros [[<- _]|[_ Hk]]%lookup_insert_Some; [by eexists|by eapply Hf].
  - intros p Hpl. eapply backed_mono; [done|by apply Hp|done| |].
    + exact (approved_more s _ _).
    + rec_simpl. by apply insert_subseteq.
Qed.

Lemma approve_ok h ctx msg s s' : h <= BlockHeight ctx → upgrade_ok h s →
  ApproveUpgrade_Run ctx msg s = (Ok tt, s') → upgrade_ok (BlockHeight ctx) s'.
Proof.
  intros Hh [Hf Hp] Hr. unfold ApproveUpgrade_Run in Hr.
  apply bind_Ok in Hr as ([] & s1 & Hv & Hr). unfold ApproveUpgrade_validate in Hv.
  apply bind_Ok in Hv as ([] & s2 & [_ ->]%lift_Ok & Hv). apply signer_bind in Hv as (na & Hv).
  unfold GetProposedUpgrade in Hv. rewrite (bind_run _ _ s _ s) in Hv by done.
  apply bind_Ok in Hv as ([] & s2 & [Hold ->]%fail_if_Ok & Hv).
  destruct (us_proposals s !! ProposalKey (ma_Name msg)) as [u|] eqn:Eu; [|done].
  unfold GetUpgradeVote in Hv. rewrite (bind_run _ _ s _ s) in Hv by done.
  apply fail_if_Ok in Hv as [_ ->].
  unfold ApproveUpgrade_handle in Hr. apply signer_bind in Hr as (na' & Hr).
  apply bind_Ok in Hr as ([] & s2 & Hset%modify_Ok & Hr). subst s2.
  apply (schedule_ok (BlockHeight ctx)) in Hr; [done|by eapply filed_name|]. split; [exact Hf|].
  intros p Hpl. eapply backed_mono; [done|by apply Hp|done|apply approved_more|done].
Qed.

Lemma clear_ok h ctx name s s' : has_slash name = false → filed s →
  (∀ p, plan_Get (us_plan s) = Planned p → has_slash (pl_Name p) = false
     ∧ (pl_Name p ≠ name → backed h s p)
     ∧ (pl_Name p = name → pl_Height p < h ∨ ∃ u,
          us_proposals s !! ProposalKey (pl_Name p) = Some u ∧ pp_Height u = pl_Height p)) →
  clearUpgradeIfNecessary ctx name s = (Ok tt, s') → upgrade_ok h s'.
Proof.
  intros Hn Hf Hp Hr. unfold clearUpgradeIfNecessary, GetUpgradePlan in Hr.
  rewrite (bind_run _ _ s _ s) in Hr by done.
  destruct (plan_Get (us_plan s)) as [p| |e] eqn:Ep; [| |done].
  2:{ apply mret_Ok in Hr as [_ ->]. split; [done|]. intros p Hpl. congruence. }
  destruct (Hp p eq_refl) as (Hs & Hother & Hsame).
  destruct (str_eq (pl_Name p) name) eqn:Ename; cbn [negb] in Hr.
  2:{ apply mret_Ok in Hr as [_ ->]. split; [done|]. intros q Hq. rewrite Ep in Hq.
      injection Hq as <-. apply Hother. by apply str_eq_false. }
  apply str_eq_true in Ename. rewrite (bind_run _ _ _ _ _ (quorum_counted name s)) in Hr.
  cbn [uq_Approved quorum_of] in Hr. destruct (bool_decide (majority s name)) eqn:Em; cbn in Hr.
  - apply mret_Ok in Hr as [_ ->]. apply bool_decide_eq_true in Em. split; [done|].
    intros q Hq. rewrite Ep in Hq. injection Hq as <-. split; [done|].
    rewrite <- Ename in Em. destruct (Hsame Ename) as [Hh|Hu]; [by left|by right].
  - apply bind_Ok in Hr as ([] & s1 & Hc & Hr). unfold ClearUpgradePlan, on_plan in Hc.
    destruct (plan_Clear (us_plan s)) as [st| |] eqn:Ec; [|done..]. injection Hc as <-.
    apply get_cleared in Ec. unfold scheduleAnyApprovedUpgrade, GetUpgradeProposalIterator in Hr.
    rewrite (bind_run _ _ _ _ (s <| us_plan := st |>)) in Hr by done.
    eapply first_ok; [|exact Hr|].
    + intros [k u]. rec_simpl. by rewrite elem_of_sorted_items.
    + split; [exact Hf|]. rec_simpl. intros q Hq. congruence.
Qed.

Lemma reject_ok h ctx msg s s' : h <= BlockHeight ctx → upgrade_ok h s →
  RejectUpgrade_Run ctx msg s = (Ok tt, s') → upgrade_ok (BlockHeight ctx) s'.
Proof.
  intros Hh [Hf Hp] Hr. unfold RejectUpgrade_Run in Hr.
  apply bind_Ok in Hr as ([] & s1 & Hv & Hr). unfold RejectUpgrade_validate in Hv.
  apply bind_Ok in Hv as ([] & s2 & [_ ->]%lift_Ok & Hv). apply signer_bind in Hv as (na & Hv).
  unfold GetProposedUpgrade in Hv. rewrite (bind_run _ _ s _ s) in Hv by done.
  apply bind_Ok in Hv as ([] & s2 & [Hold ->]%fail_if_Ok & Hv).
  destruct (us_proposals s !! ProposalKey (mj_Name msg)) as [u|] eqn:Eu; [|done].
  unfold GetUpgradeVote in Hv. rewrite (bind_run _ _ s _ s) in Hv by done.
  apply fail_if_Ok in Hv as [_ ->]. pose proof (filed_name _ _ _ Hf Eu) as Hn.
  unfold RejectUpgrade_handle in Hr. apply signer_bind in Hr as (na' & Hr).
  apply bind_Ok in Hr as ([] & s2 & Hset%modify_Ok & Hr). subst s2.
  refine (clear_ok _ ctx _ _ _ Hn _ _ Hr); [exact Hf|].
  intros p Hpl. pose proof (Hp p Hpl) as Hb. destruct Hb as [Hs Hb]. split; [done|]. split.
  - intros Hne. apply (backed_mono h _ s); [done|by apply Hp|done| |done].
    apply other_votes; auto.
  - intros _. destruct Hb as [Hlt|[_ Hu]]; [left; lia|right; exact Hu].
Qed.

(** The votes of a live proposal outlive the expiry of another. *)
Lemma unexpired_votes s m name : has_slash m = false → has_slash name = false → m ≠ name →
  approving s name ⊆ approving
    (set_field us_votes (base.filter (λ kv : string * bool, cut_prefix (VotePrefix m) kv.1 = None)) s)
    name.
Proof.
  intros Hm Hn Hne a. unfold approving. rewrite !elem_of_filter. intros [Hv Ha]. split; [|exact Ha].
  rec_simpl. apply map_lookup_filter_Some. split; [done|]. by apply vote_of_name.
Qed.

Lemma expire_one_ok ctx l s s' : (∀ ku, ku ∈ l → us_proposals s !! ku.1 = Some ku.2) →
  NoDup (map fst l) → upgrade_ok (BlockHeight ctx) s →
  mfor (expire_proposal ctx) l s = (Ok tt, s') → upgrade_ok (BlockHeight ctx) s'.
Proof.
  unfold mfor. revert s. induction l as [|[k u] l IH]; intros s Hl Hnd Hs Hr;
    [by apply mret_Ok in Hr as [_ ->]|].
  rewrite mfold_cons in Hr. apply bind_Ok in Hr as ([] & s1 & Hone & Hr).
  apply NoDup_cons in Hnd as [Hk Hnd]. pose proof (Hl (k, u) ltac:(left)) as Hu. cbn in Hu.
  assert (Hl1 : ∀ ku, ku ∈ l → us_proposals s !! ku.1 = Some ku.2) by (intros; apply Hl; by right).
  unfold expire_proposal in Hone. cbv zeta in Hone.
  destruct (BlockHeight ctx <=? pp_Height u) eqn:Eh; [apply mret_Ok in Hone as [_ ->]; by eapply IH|].
  destruct Hs as [Hf Hp]. destruct (Hf _ _ Hu) as (n & -> & Hn). rewrite (proposal_name n Hn) in Hone.
  apply bind_Ok in Hone as ([] & s2 & Hset%modify_Ok & Hone). apply modify_Ok in Hone. subst s2 s1.
  eapply IH; [| exact Hnd| |exact Hr].
  - intros ku Hku. rec_simpl. rewrite lookup_delete_ne; [by apply Hl1|]. intros He. apply Hk. cbn.
    rewrite He. apply list_elem_of_fmap. by exists ku.
  - split; [intros k' u'; rec_simpl; intros [_ Hk']%lookup_delete_Some; by eapply Hf|].
    intros p Hpl. destruct (Hp p Hpl) as [Hs Hb]. split; [done|].
    destruct Hb as [Hlt|(Hm & u' & Hu' & He)]; [by left|].
    destruct (decide (n = pl_Name p)) as [->|Hne].
    + left. rewrite Hu in Hu'. injection Hu' as <-. lia.
    + right. split.
      * unfold majority in *. pose proof (subseteq_size _ _ (unexpired_votes s n _ Hn Hs Hne)) as Hsub.
        etrans; [exact Hm|]. clear -Hsub. change (size (approving _ (pl_Name p))) with
          (size (approving (set_field us_votes (base.filter (λ kv : string * bool,
             cut_prefix (VotePrefix n) kv.1 = None)) s) (pl_Name p))) at 2. lia.
      * exists u'. split; [|done]. rec_simpl. rewrite lookup_delete_ne; [done|].
        intros Heq%append_cancel. done.
Qed.

Lemma expire_runs ctx l s : ∃ s', mfor (expire_proposal ctx) l s = (Ok tt, s').
Proof.
  unfold mfor. revert s. induction l as [|[k u] l IH]; intros s; [by eexists|]. rewrite mfold_cons.
  unfold mbind, M_bind. unfold expire_proposal at 1. cbv zeta. destruct (_ <=? _); apply IH.
Qed.

Lemma step_ok h ctx s op : h <= BlockHeight ctx → upgrade_ok h s →
  upgrade_ok (BlockHeight ctx) (upgrade_perform ctx op s).2.
Proof.
  intros Hh Hs. assert (Hlater : upgrade_ok (BlockHeight ctx) s).
  { destruct Hs as [Hf Hp]. split; [done|]. intros p Hpl.
    eapply backed_mono; [done|by apply Hp|done|done|done]. }
  destruct op as [msg|msg|msg| |]; cbn [upgrade_perform]; unfold atomic.
  - destruct (ProposeUpgrade_Run ctx msg s) as [[[]|e|e] s1] eqn:E; [|done..]. by eapply propose_ok.
  - destruct (ApproveUpgrade_Run ctx msg s) as [[[]|e|e] s1] eqn:E; [|done..]. by eapply approve_ok.
  - destruct (RejectUpgrade_Run ctx msg s) as [[[]|e|e] s1] eqn:E; [|done..]. by eapply reject_ok.
  - unfold RemoveExpiredUpgradeProposals, GetUpgradeProposalIterator.
    rewrite (bind_run _ _ s _ s) by done.
    destruct (expire_runs ctx (sorted_items (us_proposals s)) s) as [s' He].
    rewrite He. eapply expire_one_ok; [| |exact Hlater|exact He].
    + intros [k u]. by rewrite elem_of_sorted_items.
    + unfold sorted_items. rewrite (Permutation_map _ (insert_sort_perm _ _)).
      apply NoDup_fst_map_to_list.
  - unfold ClearUpgradePlan, on_plan. destruct (plan_Clear _) as [st| |] eqn:Ec; [|done..].
    destruct Hlater as [Hf _]. split; [exact Hf|]. apply get_cleared in Ec. cbn. intros p Hpl. congruence.
Qed.

Lemma history_ok h s : upgrade_history h s → upgrade_ok h s.
Proof.
  induction 1 as [h s Hp Hn|h ctx s op _ IH Hh]; [|by eapply step_ok].
  split; [intros k u; by rewrite Hp|]. intros p Hpl. congruence.
Qed.

(** C?. Over every history of proposals, approvals, rejections and expiries,
    as long as the active nodes stay the same, a plan on chain whose height has
    not passed is the plan of a proposal that two thirds of the active nodes
    approve. *)
Theorem upgrade_plan_has_majority h s p :
  upgrade_history h s → plan_Get (us_plan s) = Planned p → h <= pl_Height p →
  2 * Z.of_nat (size (active_set s)) <= 3 * Z.of_nat (size (approving s (pl_Name p)))
  ∧ ∃ u, us_proposals s !! ProposalKey (pl_Name p) = Some u ∧ pp_Height u = pl_Height p.
Proof.
  intros Hh Hp Hle. apply history_ok in Hh as [_ Hb]. destruct (Hb p Hp) as [_ [Hlt|Hm]]; [lia|].
  exact Hm.
Qed.

(** C?. An approval that goes through is recorded, and when no plan is on chain
    it schedules the proposal exactly when the approvals have reached two
    thirds of the active nodes; one vote short, the vote is all that changes.
    A plan that is on chain is left alone. *)
Theorem approval_schedules ctx msg s s' :
  ApproveUpgrade_Run ctx msg s = (Ok tt, s') →
  ∃ addr u, let s1 := set_field us_votes <[VoteKey addr (ma_Name msg) := true]> s in
    us_proposals s !! ProposalKey (ma_Name msg) = Some u
    ∧ us_votes s !! VoteKey addr (ma_Name msg) ≠ Some true
    ∧ us_votes s' = us_votes s1 ∧ us_proposals s' = us_proposals s ∧ us_store s' = us_store s
    ∧ match plan_Get (us_plan s) with
      | NoPlan =>
          if bool_decide (2 * Z.of_nat (size (active_set s))
               <= 3 * Z.of_nat (size (approving s1 (ma_Name msg))))
          then plan_Get (us_plan s') = Planned (plan_of (ma_Name msg) u) else s' = s1
      | _ => s' = s1
      end.
Proof.
  clear version_no_slash. intros Hr. unfold ApproveUpgrade_Run in Hr.
  apply bind_Ok in Hr as ([] & s1 & Hv & Hr). unfold ApproveUpgrade_validate in Hv.
  apply bind_Ok in Hv as ([] & s2 & [_ ->]%lift_Ok & Hv).
  apply bind_Ok in Hv as (na & s2 & Hna & Hv). pose proof (signer_reads _ _ _ _ _ Hna) as ->.
  unfold GetProposedUpgrade in Hv. rewrite (bind_run _ _ s _ s) in Hv by done.
  apply bind_Ok in Hv as ([] & s2 & [Hold ->]%fail_if_Ok & Hv).
  destruct (us_proposals s !! ProposalKey (ma_Name msg)) as [u|] eqn:Eu; [|done].
  unfold GetUpgradeVote in Hv. rewrite (bind_run _ _ s _ s) in Hv by done.
  apply fail_if_Ok in Hv as [Hvote ->].
  unfold ApproveUpgrade_handle in Hr. rewrite (bind_run _ _ _ _ _ Hna) in Hr.
  apply bind_Ok in Hr as ([] & s2 & Hset%modify_Ok & Hr). subst s2.
  exists (na_NodeAddress na), u. cbv zeta. set (s1 := set_field us_votes _ s) in *.
  split; [done|]. split; [by intros He; rewrite He in Hvote|]. apply schedule_runs in Hr.
  change (plan_Get (us_plan s1)) with (plan_Get (us_plan s)) in Hr.
  destruct (plan_Get (us_plan s)) as [p| |e]; [by subst| |done].
  destruct Hr as (u' & Hu' & Hr). change (us_proposals s1) with (us_proposals s) in Hu'.
  rewrite Eu in Hu'. injection Hu' as <-. unfold majority in Hr.
  change (active_set s1) with (active_set s) in Hr.
  destruct (bool_decide _); [|by subst]. unfold ScheduleUpgrade, on_plan in Hr.
  destruct (plan_Schedule _ _ _) as [st| |] eqn:Es; [|done..]. injection Hr as <-.
  split_and!; try done. by eapply get_scheduled.
Qed.
End Histories.

(** ** Concrete runs *)

Module ToyUpgrade.
#[export] Instance toy_upgrade : UpgradeKeeper := {|
  PlanState := option Plan;
  plan_Get st := match st with Some p => Planned p | None => NoPlan end;
  plan_Schedule h p st := if pl_Height p <? h then Err "upgrade cannot be scheduled in the past"
                          else Ok (Some p);
  plan_Clear st := Ok None
|}.

#[export] Instance toy_upgrade_laws : UpgradeKeeperLaws.
Proof.
  split; cbn; [|by intros st st' [= <-]]. intros h p st st'. destruct (_ <? _); by intros [= <-].
Qed.
End ToyUpgrade.

Section Concrete.
Import ToyExt ToyVersions ToyUpgrade.
#[local] Existing Instance toy_ext.

Lemma digits_no_slash s : ∀ acc z, parse_digits s acc = Some z → has_slash s = false.
Proof.
  induction s as [|c s IH]; intros acc z; [done|]. cbn.
  destruct (digit_val c) as [d|] eqn:Ed; [|done]. cbn. intros Hs. apply IH in Hs. rewrite Hs.
  destruct (Ascii.eqb_spec c "/") as [->|_]; [done|]. done.
Qed.

Lemma toy_no_slash n (v : Version) : semver_Parse n = Ok v → has_slash n = false.
Proof.
  cbn. destruct (parse_dec n) as [z|] eqn:E; [|done]. intros _. unfold parse_dec in E.
  destruct n; [done|]. by eapply digits_no_slash.
Qed.

(** Three active nodes. *)
Definition voting_node (addr : string) : NodeAccount :=
  NodeAccount_zero <| na_NodeAddress := addr |> <| na_Type := TypeNode |> <| na_Status := NodeActive |>.
Definition three_nodes : UState :=
  mkUState _ (KVStore_empty <| kv_node_account := registry
      (map voting_node ["a"; "b"; "c"]) |>) ∅ ∅ None.
Definition proposal : upgrade_op := OpPropose (mkMsgProposeUpgrade "7" (mkUpgrade 90 "") "a").
Definition approval (signer : string) : upgrade_op := OpApprove (mkMsgApproveUpgrade "7" signer).
Definition after (l : list upgrade_op) (s : UState) : UState :=
  foldl (λ s op, (upgrade_perform (mkCtx 50) op s).2) s l.

Lemma after_history l s : upgrade_history 50 s → upgrade_history 50 (after l s).
Proof.
  revert s. induction l as [|op l IH]; intros s Hs; [done|]. apply IH.
  apply (uh_step 50 (mkCtx 50) s op); [done|]. cbn. lia.
Qed.

Lemma upgrade_plan_has_majority_witness :
  let s := after [proposal; approval "b"] three_nodes in
  plan_Get (us_plan s) = Planned (mkPlan "7" 90 "")
  ∧ 2 * Z.of_nat (size (active_set s)) <= 3 * Z.of_nat (size (approving s "7")).
Proof.
  intros s. assert (Hp : plan_Get (us_plan s) = Planned (mkPlan "7" 90 "")) by (vm_compute; reflexivity).
  split; [exact Hp|].
  assert (Hs : upgrade_history 50 s) by (apply after_history, uh_init; reflexivity).
  apply (upgrade_plan_has_majority toy_no_slash 50 s (mkPlan "7" 90 "") Hs Hp). cbn. lia.
Defined.

(** The second of three nodes schedules the upgrade, the first does not. *)
Lemma approval_schedules_witness :
  let s := after [proposal] three_nodes in
  let s' := (upgrade_perform (mkCtx 50) (approval "b") s).2 in
  plan_Get (us_plan s) = NoPlan ∧ ∃ p, plan_Get (us_plan s') = Planned p ∧ pl_Name p = "7".
Proof.
  intros s s'. assert (H0 : plan_Get (us_plan s) = NoPlan) by (vm_compute; reflexivity).
  split; [exact H0|]. set (msg := mkMsgApproveUpgrade "7" "b").
  set (run := ApproveUpgrade_Run (mkCtx 50) msg s).
  assert (Hrun : run.1 = Ok tt) by (vm_compute; reflexivity).
  destruct (approval_schedules (mkCtx 50) msg s run.2 (run_ok _ _ _ Hrun))
    as (addr & u & _ & _ & Hv & _ & _ & Hp). rewrite H0 in Hp.
  assert (Ha : addr = "b").
  { assert (Hb : us_votes run.2 !! VoteKey "b" "7" = Some true) by (vm_compute; reflexivity).
    assert (Hb0 : us_votes s !! VoteKey "b" "7" = None) by (vm_compute; reflexivity).
    rewrite Hv in Hb. rec_simpl_all. apply lookup_insert_Some in Hb as [[He _]|[_ Hb]]; [|congruence].
    by apply append_cancel in He. }
  subst addr. exists (plan_of "7" u). split; [|reflexivity].
  assert (Hrun2 : s' = run.2) by (vm_compute; reflexivity). rewrite Hrun2.
  rewrite bool_decide_true in Hp; [exact Hp|]. vm_compute. discriminate.
Defined.

(** *** An approved proposal left without a plan

The comment of [scheduleUpgradeIfNecessary] says an approved upgrade that
another plan blocks can be scheduled when that plan completes.  Nothing but a
new approval looks at it again, and a node that approved is turned away until it
has rejected: once every node has approved, the completion of the other plan
leaves the proposal without a plan. *)
Theorem approved_upgrade_left_behind :
  let second := OpPropose (mkMsgProposeUpgrade "8" (mkUpgrade 95 "") "a") in
  let votes := map (λ n, OpApprove (mkMsgApproveUpgrade "8" n)) ["b"; "c"] in
  let s := after ([proposal; approval "b"; second] ++ votes ++ [OpApplied]) three_nodes in
  plan_Get (us_plan s) = NoPlan ∧ size (approving s "8") = 3%nat
  ∧ map (λ n, (upgrade_perform (mkCtx 50) (OpApprove (mkMsgApproveUpgrade "8" n)) s).1)
      ["a"; "b"; "c"] = replicate 3 (Err "upgrade already approved").
Proof. vm_compute. split_and!; reflexivity. Qed.
End Concrete.
