(* ===== verification/StoreMigrate.v ===== *)
(** * Voted corrections of the store (x/thornado/handler_store_migrate.go)

A typed correction of a record is named by a key and carries a value; each
active node votes for a value, and the vote with which two thirds of them agree
applies the correction.  The bytes behind a raw key are laid out by the codec:
a parameter ([RawStore]). *)

From S2P Require Import Prelude GoStrings Merkle Json Config Common Types Vaults Keeper BtcBatch Notes Shield Bonds Deposits Settle Observe Nodes NodeHandlers.

(** ** Records *)

Record MsgStoreMigrate := mkMsgStoreMigrate {
  sm_Key : string; sm_Value : string; sm_Signer : string }.
Record storeMigrateTarget := mkTarget { tg_kind : string; tg_args : list string }.

(** The store, the votes for each key by signer, and the value each key was last
    applied at; both under the key in upper case. *)
Record MState := mkMState {
  ms_store : KVStore;
  ms_votes : gmap string (gmap string string);
  ms_applied : gmap string string
}.
#[export] Instance MState_eta : Eta MState := fun r =>
  mkMState (ms_store r) (ms_votes r) (ms_applied r).

Abbreviation MM := (M MState).

(** Writing bytes at a store key, [None] when they do not decode as the type read
    there, and deleting a key. *)
Class RawStore := {
  raw_write : list Z → list Z → MState → option MState;
  raw_delete : list Z → MState → MState
}.

(** ** Texts *)

Fixpoint split_colon (s : string) : list string :=
  match s with
  | EmptyString => [""]
  | String c s' =>
      if Ascii.eqb c ":" then "" :: split_colon s'
      else match split_colon s' with
           | part :: parts => String c part :: parts
           | [] => [String c ""]
           end
  end.

(** [strconv.ParseInt(s, 10, 64)] and [Atoi]. *)
Definition ParseInt64 (s : string) : option Z :=
  let signed := match s with
    | String c s' => if Ascii.eqb c "-" then Z.opp <$> parse_dec s'
                     else if Ascii.eqb c "+" then parse_dec s' else parse_dec s
    | EmptyString => None
    end in
  match signed with
  | Some z => if (- two63 <=? z) && (z <? two63) then Some z else None
  | None => None
  end.

Definition string_of_bytes (l : list Z) : string :=
  foldr (λ b s, String (ascii_of_nat (Z.to_nat b)) s) "" l.

(** ** Assets by name (common/asset.go) *)

Definition Chain_Valid (c : string) : bool :=
  (3 <=? String.length c)%nat && (String.length c <=? 10)%nat
  && all_chars (λ ch, let n := nat_of_ascii ch in (65 <=? n)%nat && (n <=? 90)%nat) c.

Definition NewChain (chainID : string) : res string :=
  let chain := ToUpper chainID in
  if negb (Chain_Valid chain) then Err "invalid chain"
  else if negb (Chain_Equals chain BTCChain) then Err "unsupported chain" else Ok chain.

Definition symbol_char (c : ascii) : bool :=
  let n := nat_of_ascii c in
  ((65 <=? n) && (n <=? 90) || (97 <=? n) && (n <=? 122) || (48 <=? n) && (n <=? 57)
   || (n =? 45) || (n =? 46) || (n =? 95))%nat.

Definition NewSymbol (input : string) : res string :=
  if negb (is_empty input) && all_chars symbol_char input then Ok (ToUpper input)
  else Err "invalid symbol".

Definition NewTicker (ticker : string) : res string :=
  if is_empty ticker then Err "ticker error: empty ticker"
  else if (13 <? String.length ticker)%nat then Err "ticker error: too many characters"
  else if negb (all_chars (λ c, negb (Ascii.eqb c "/")) ticker)
  then Err "ticker error: cannot contain a /" else Ok (ToUpper ticker).

(** The text before and after the first character that satisfies [p]. *)
Fixpoint split_first (p : ascii → bool) (s : string) : string * option (ascii * string) :=
  match s with
  | EmptyString => ("", None)
  | String c s' =>
      if p c then ("", Some (c, s'))
      else let '(before, o) := split_first p s' in (String c before, o)
  end.

Definition NewAsset (input : string) : res Asset :=
  let '(first, rest) := split_first (λ c, Ascii.eqb c "." || Ascii.eqb c "-") input in
  '(chain, sym, secured) ← (match rest with
    | None => Ok (BTCChain, first, false)
    | Some (c, sym) => chain ← NewChain first; Ok (chain, sym, Ascii.eqb c "-")
    end);
  symbol ← NewSymbol sym;
  ticker ← NewTicker (split_first (λ c, Ascii.eqb c "-") sym).1;
  Ok (mkAsset chain symbol ticker secured).

(** ** Targets *)

Definition args_are (n : nat) (t : storeMigrateTarget) : res storeMigrateTarget :=
  if (length (tg_args t) =? n)%nat then Ok t else Err "bad target".

Definition parseStoreMigrateTarget (key : string) : res storeMigrateTarget :=
  match split_colon key with
  | [] => Err "empty store migrate key"
  | kind :: args =>
      if is_empty kind then Err "empty store migrate key"
      else
        let t := mkTarget (ToUpper kind) args in
        if str_eq (tg_kind t) "CONFIG" then args_are 1 t
        else if str_eq (tg_kind t) "VAULTCOIN" then args_are 2 t
        else if str_eq (tg_kind t) "VAULTSTATUS" then args_are 1 t
        else if str_eq (tg_kind t) "TXOUTCANCEL" then args_are 2 t
        else if str_eq (tg_kind t) "KVSET" || str_eq (tg_kind t) "KVDEL" then
          _ ← args_are 1 t;
          match hex_decode (default "" (head args)) with
          | Some (_ :: _) => Ok t
          | _ => Err "store key must be non-empty hex"
          end
        else if str_eq (tg_kind t) "SHIELDERNOTESWEEP" then
          _ ← args_are 1 t;
          match Json.ParseUint64 (default "" (head args)) with
          | Some denom => if denom =? 0 then Err "denomination must be a positive integer" else Ok t
          | None => Err "denomination must be a positive integer"
          end
        else if str_eq (tg_kind t) "SHIELDERSPENDSWEEP" || str_eq (tg_kind t) "SHIELDERPURGE"
        then args_are 0 t
        else Err "unknown store migrate target"
  end.

Definition parseVaultStatus (value : string) : option VaultStatus :=
  let v := ToLower (TrimSpace value) in
  if str_eq v "active" || str_eq v "activevault" then Some ActiveVault
  else if str_eq v "retiring" || str_eq v "retiringvault" then Some RetiringVault
  else if str_eq v "inactive" || str_eq v "inactivevault" then Some InactiveVault
  else if str_eq v "init" || str_eq v "initvault" then Some InitVault else None.

(** The prefixes a raw key may be under (keeper_store_migrate.go). *)
Definition rawStoreChecks : list string :=
  ["config/"; "nodeconfig/"; "vault/"; "txout/"; "observed_tx_in/"; "observed_tx_out/";
   "node_account/"; "network_fee/"; "last_chain_height/"; "last_signed_height/";
   "last_observe_height/"; "store_migrate_vote/"].

Definition matchRawStorePrefix (key : list Z) : bool :=
  negb (length key =? 0)%nat && existsb (HasPrefix (string_of_bytes key)) rawStoreChecks.

Section StoreMigrate.
Context `{Ext} `{Attestor} `{RawStore} {E : MerkleEngine} (ctx : Ctx).

Definition on_kv {A} (m : KM A) : MM A := zoom ms_store m.

Definition or_fail {A} (o : option A) (e : string) : res A :=
  match o with Some a => Ok a | None => Err e end.

(** ** The corrections *)

Definition arg (t : storeMigrateTarget) (i : nat) : string := default "" (tg_args t !! i).

Definition apply_config (t : storeMigrateTarget) (value : string) : KM unit :=
  v ← lift (or_fail (ParseInt64 value) "CONFIG value must be int64"); SetConfig (arg t 0) v.

(** The coin of the vault is moved to the value; a retiring vault left without
    funds becomes inactive. *)
Definition with_coin (vault : Vault) (asset : Asset) (target : Z) : res Vault :=
  let current := c_Amount (Vault.GetCoin vault asset) in
  vault ← (if current <=? target
           then Vault.AddFunds vault [NewCoin asset (target - current)]
           else Ok (Vault.SubFunds vault [NewCoin asset (current - target)]));
  Ok (if negb (Vault.HasFunds vault) && bool_decide (va_Status vault = RetiringVault)
      then Vault.UpdateStatus vault InactiveVault (BlockHeight ctx) else vault).

Definition apply_vaultcoin (t : storeMigrateTarget) (value : string) : KM unit :=
  pk ← lift (PubKey.NewPubKey (arg t 0));
  asset ← lift (NewAsset (arg t 1));
  amt ← lift (or_fail (Json.ParseUint64 value) "VAULTCOIN value must be sats uint");
  vault ← GetVault ctx pk;
  vault ← lift (with_coin vault asset amt);
  SetVault vault.

Definition apply_vaultstatus (t : storeMigrateTarget) (value : string) : KM unit :=
  pk ← lift (PubKey.NewPubKey (arg t 0));
  status ← lift (or_fail (parseVaultStatus value) "unknown vault status");
  vault ← GetVault ctx pk;
  SetVault (Vault.UpdateStatus vault status (BlockHeight ctx)).

Definition apply_txoutcancel (t : storeMigrateTarget) : KM unit :=
  height ← lift (or_fail (ParseInt64 (arg t 0)) "TXOUTCANCEL height must be int64");
  idx ← lift (or_fail (ParseInt64 (arg t 1)) "TXOUTCANCEL index must be int");
  txOut ← GetTxOut height;
  _ ← fail_if ((idx <? 0) || (Z.of_nat (length (txo_TxArray txOut)) <=? idx))
        "txout index out of range";
  let i := Z.to_nat idx in
  let item := default TxOutItem_zero (txo_TxArray txOut !! i) in
  let rest := (take i (txo_TxArray txOut) ++ drop (S i) (txo_TxArray txOut))%list in
  _ ← (if (length rest =? 0)%nat then ClearTxOut height
       else SetTxOut (txOut <| txo_TxArray := rest |>));
  if PubKey.IsEmpty (to_VaultPubKey item) then mret tt
  else
    r ← try (GetVault ctx (to_VaultPubKey item));
    match r with
    | Ok vault => _ ← try (SetVault (Vault.RemovePendingTxBlockHeights vault height)); mret tt
    | _ => mret tt
    end.

Definition SetRawStoreValue (key value : list Z) : MM unit := λ s,
  if negb (matchRawStorePrefix key)
  then (Err "store prefix is not on the raw-write allowlist", s)
  else match raw_write key value s with
       | Some s' => (Ok tt, s')
       | None => (Err "value does not decode as the store type", s)
       end.

Definition apply_kvset (t : storeMigrateTarget) (value : string) : MM unit :=
  rawKey ← lift (or_fail (hex_decode (arg t 0)) "KVSET key must be hex");
  rawVal ← lift (or_fail (hex_decode value) "KVSET value must be hex");
  SetRawStoreValue rawKey rawVal.

Definition apply_kvdel (t : storeMigrateTarget) : MM unit :=
  rawKey ← lift (or_fail (hex_decode (arg t 0)) "KVDEL key must be hex");
  _ ← fail_if (negb (matchRawStorePrefix rawKey)) "store prefix is not on the raw-write allowlist";
  modify (raw_delete rawKey).

Definition apply_notesweep (t : storeMigrateTarget) : KM unit :=
  denom ← lift (or_fail (Json.ParseUint64 (arg t 0)) "SHIELDERNOTESWEEP denomination must be uint");
  _ ← SweepOrphanShielderNoteRecords denom; mret tt.

Definition applyStoreMigration (key value : string) : MM unit :=
  t ← lift (parseStoreMigrateTarget key);
  if str_eq (tg_kind t) "CONFIG" then on_kv (apply_config t value)
  else if str_eq (tg_kind t) "VAULTCOIN" then on_kv (apply_vaultcoin t value)
  else if str_eq (tg_kind t) "VAULTSTATUS" then on_kv (apply_vaultstatus t value)
  else if str_eq (tg_kind t) "TXOUTCANCEL" then on_kv (apply_txoutcancel t)
  else if str_eq (tg_kind t) "KVSET" then apply_kvset t value
  else if str_eq (tg_kind t) "KVDEL" then apply_kvdel t
  else if str_eq (tg_kind t) "SHIELDERNOTESWEEP" then on_kv (apply_notesweep t)
  else if str_eq (tg_kind t) "SHIELDERSPENDSWEEP"
  then on_kv (_ ← SweepOldRegimeShielderSpends; mret tt)
  else if str_eq (tg_kind t) "SHIELDERPURGE" then on_kv PurgeShielderPoolState
  else fail "unhandled store migrate target".

(** ** The votes *)

Definition GetStoreMigrateVotes (key : string) : MM (gmap string string) :=
  gets (λ s, default ∅ (ms_votes s !! ToUpper key)).

Definition SetStoreMigrateVote (key value acc : string) : MM unit :=
  record ← GetStoreMigrateVotes key;
  modify (set_field ms_votes <[ToUpper key := <[acc := value]> record]>).

Definition DeleteStoreMigrateVotes (key : string) : MM unit :=
  modify (set_field ms_votes (delete (ToUpper key))).

Definition GetStoreMigrateApplied (key : string) : MM (option string) :=
  gets (λ s, ms_applied s !! ToUpper key).

Definition SetStoreMigrateApplied (key value : string) : MM unit :=
  modify (set_field ms_applied <[ToUpper key := value]>).

(** ** The handler *)

Definition MsgStoreMigrate_ValidateBasic (m : MsgStoreMigrate) : res unit :=
  if is_empty (sm_Key m) then Err "key cannot be empty"
  else if Acc_Empty (sm_Signer m) then Err "invalid address" else Ok tt.

Definition validateStoreMigrateAuth (msg : MsgStoreMigrate) : KM unit :=
  activeOperationalNodeSignerPriority ctx [sm_Signer msg].

Definition StoreMigrateAnteHandler (msg : MsgStoreMigrate) : KM unit := validateStoreMigrateAuth msg.

Definition StoreMigrate_validate (msg : MsgStoreMigrate) : MM unit :=
  _ ← lift (MsgStoreMigrate_ValidateBasic msg);
  _ ← lift (parseStoreMigrateTarget (sm_Key msg));
  on_kv (validateStoreMigrateAuth msg).

(** The signer of a vote for the value is an active node. *)
Definition counts_vote (active : list string) (value : string) (vote : string * string) : bool :=
  str_eq vote.2 value
  && match AccAddressFromBech32 vote.1 with
     | Ok acc => existsb (λ a, Acc_Equals a acc) active
     | _ => false
     end.

Definition close_votes (key value : string) : MM unit :=
  _ ← SetStoreMigrateApplied key value; DeleteStoreMigrateVotes key.

Definition StoreMigrate_handle (msg : MsgStoreMigrate) : MM unit :=
  nodeAccount ← on_kv (unauthorized (resolveActiveNodeAccountBySigner ctx (sm_Signer msg)));
  _ ← SetStoreMigrateVote (sm_Key msg) (sm_Value msg) (na_NodeAddress nodeAccount);
  activeNodes ← on_kv ListActiveNodes;
  let active := map na_NodeAddress activeNodes in
  votes ← GetStoreMigrateVotes (sm_Key msg);
  let count := Z.of_nat (length (List.filter (counts_vote active (sm_Value msg)) (map_to_list votes))) in
  if negb (HasSuperMajority count (Z.of_nat (length active))) then mret tt
  else
    applied ← GetStoreMigrateApplied (sm_Key msg);
    if bool_decide (applied = Some (sm_Value msg)) then mret tt
    else
      _ ← try (applyStoreMigration (sm_Key msg) (sm_Value msg));
      close_votes (sm_Key msg) (sm_Value msg).

Definition StoreMigrate_Run (msg : MsgStoreMigrate) : MM unit :=
  _ ← StoreMigrate_validate msg; StoreMigrate_handle msg.
End StoreMigrate.
