(* ===== verification/Migrate.v ===== *)
(** * Moving the funds of retiring vaults (x/thornado/manager_network_current.go)

At the end of a block the network manager moves the funds of retiring vaults
to active ones, one migration at a time, retires the empty vaults, and joins
the many small outputs of an active vault into one.  The inputs of a migration
are whole unspent outputs of the vault.  The theorems: what a migration moves,
that one round waits for the last, which records a round may change, and a run
in which it takes an output an open batch already spends. *)

From S2P Require Import Prelude GoStrings Config Common Types Vaults Voters Keeper BtcBatch GasMgr Outbounds Deposits Settle Nodes Rotation.

Section Migrate.
Context `{Ext} `{BtcWire} (ctx : Ctx).

(** [MarkSpent] of the voter of an outbound and of its observations. *)
Definition voter_spends (spent : gset string) (voter : ObservedTxVoter) : gset string :=
  foldl (λ spent observed, markSpentBTCSourceInputs spent (tx_SourceInputs (ot_Tx observed)))
    (markSpentBTCSourceInputs spent (tx_SourceInputs (ot_Tx (ov_Tx voter)))) (ov_Txs voter).

(** ** Consolidation *)

(** The output of a signed sweep to the vault's main address. *)
Definition swept_output (vault : Vault) (sourceAddr : string) (item : TxOutItem) : bool :=
  negb (TxID.IsEmpty (to_OutHash item)) && str_eq (GetTxType item) TxOutTypeSweep
  && Chain_Equals (to_Chain item) BTCChain && PubKey.Equals (to_VaultPubKey item) (va_PubKey vault)
  && Asset_Equals (c_Asset (to_Coin item)) BTCAsset
  && Address.Equals (to_ToAddress item) sourceAddr && negb (c_Amount (to_Coin item) =? 0).

Definition scan_sweep (vault : Vault) (sourceAddr : string) (acc : Sources) (item : TxOutItem)
    : KM Sources :=
  acc ← (if TxID.IsEmpty (to_OutHash item) then mret acc
         else
           voter ← GetObservedTxOutVoter (to_OutHash item);
           mret (acc <| src_spent := voter_spends (src_spent acc) voter |>));
  if negb (swept_output vault sourceAddr item) then mret acc
  else match src_candidates acc !! btcSourceInputKey (to_OutHash item) (to_OutVout item) with
       | Some _ => mret acc
       | None =>
           amountSats ← lift (to_uint64 (c_Amount (to_Coin item)));
           mret (add_candidate acc (to_OutHash item) (to_OutVout item) amountSats 0)
       end.

(** Smallest first, then by key. *)
Definition smallest_first (x y : TxOutInput) : bool :=
  if ti_AmountSats x =? ti_AmountSats y then str_lt (input_key x) (input_key y)
  else ti_AmountSats x <? ti_AmountSats y.

Definition btcConsolidationSourceInputs (vault : Vault) (sourceAddr : string) (maxInputs : Z)
    : KM (list TxOutInput) :=
  let maxInputs := if maxInputs <? 2 then 2 else maxInputs in
  blocks ← txOutsAscending (BlockHeight ctx) true;
  acc ← mfold (λ acc blk, mfold (scan_sweep vault sourceAddr) acc (txo_TxArray blk))
    (mkSources ∅ ∅ ∅) blocks;
  mret (take (Z.to_nat maxInputs) (insert_sort smallest_first (map cand_input (spendable acc)))).

(** The heights a signing period around the current one. *)
Definition pending_window (period : Z) : list Z :=
  let startHeight := BlockHeight ctx -i period in
  let startHeight := if startHeight <? 1 then 1 else startHeight in
  seqZ startHeight ((BlockHeight ctx +i period) - startHeight + 1).

Definition vaultHasPendingTxType (pubkey txType : string) : KM bool :=
  signingPeriod ← getConfigDurationBlocks Keysign_PeriodMinutes;
  mfold (λ found height,
    blockOut ← GetTxOut height;
    mret (found || existsb (λ item, TxID.IsEmpty (to_OutHash item)
            && PubKey.Equals (to_VaultPubKey item) pubkey && str_eq (GetTxType item) txType)
            (txo_TxArray blockOut)))
    false (pending_window signingPeriod).

Definition consolidation (vault : Vault) (rootAddr : string) (gasRate : Z) (inputs : list TxOutInput)
    : TxOutItem :=
  TxOutItem_zero <| to_Chain := BTCChain |> <| to_ToAddress := rootAddr |>
    <| to_VaultPubKey := va_PubKey vault |> <| to_VaultPubKeyEddsa := va_PubKeyEddsa vault |>
    <| to_GasRate := gasRate |> <| to_InHash := TxID.BlankTxID |> <| to_ModuleName := BaseName |>
    <| to_VaultPathIndex := VaultPath.MainVaultPathIndex |> <| to_TxType := TxOutTypeConsolidate |>
    <| to_SourceInputs := inputs |>.

(** Whole inputs pay the amount and the gas, without change. *)
Definition priced (item : TxOutItem) (sourceAmount : Z) (maxGasCoin : Coin) : TxOutItem :=
  item <| to_MaxGas := [maxGasCoin] |>
    <| to_Coin := (to_Coin item) <| c_Amount := SafeSub sourceAmount (c_Amount maxGasCoin) |> |>.

Definition consolidate_vault (threshold : Z) (vault : Vault) : KM unit :=
  if va_InboundTxCount vault <? threshold then mret tt
  else
    pending ← vaultHasPendingTxType (va_PubKey vault) TxOutTypeConsolidate;
    if pending : bool then mret tt
    else
      let coin := Vault.GetCoin vault BTCAsset in
      if Coin_IsEmpty coin || (c_Amount coin =? 0) then mret tt
      else
        rootAddr ← lift (Vault.DeriveBTCAddress vault VaultPath.MainVaultPathIndex);
        gasRate ← btcGasRateFromKeeper;
        inputs ← btcConsolidationSourceInputs vault rootAddr threshold;
        let item := consolidation vault rootAddr gasRate inputs in
        if (length inputs <? 2)%nat then mret tt
        else
          sourceAmount ← lift (uint_sum (map ti_AmountSats inputs));
          maxGasCoin ← lift (btcExactGasCoin (va_PubKey vault) VaultPath.MainVaultPathIndex [rootAddr]
                               inputs gasRate false);
          if SafeSub sourceAmount (c_Amount maxGasCoin) =? 0 then mret tt
          else
            _ ← appendBTCExactTxOut ctx (BlockHeight ctx)
                  (priced (item <| to_Coin := NewCoin BTCAsset 0 |>) sourceAmount maxGasCoin);
            SetVault (vault <| va_InboundTxCount := 0 |>).

Definition consolidateActiveBTCVaults : KM unit :=
  vaults ← GetBaseVaultsByStatus ctx ActiveVault;
  threshold ← GetConfigInt64 UTXO_MaxSpendCount;
  let threshold := if threshold <? 2 then 2 else threshold in
  mfor (consolidate_vault threshold) vaults.

(** ** The most secure vault (keeper/v1/keeper_vault.go) *)

Definition total_bond (vault : Vault) : KM Z :=
  mfold (λ total pk,
    r ← try (GetNodeAccountByPubKey ctx pk);
    match r with
    | Ok na => if bool_decide (na_Status na = NodeActive) then lift (uint_add total (na_Bond na))
               else mret total
    | _ => mret total
    end) 0 (Vault.GetMembership vault).

(** What an unsigned item takes from the vault or brings to it. *)
Definition add_value (vault : Vault) (totalValue : Z) (item : TxOutItem) : res Z :=
  if negb (TxID.IsEmpty (to_OutHash item)) then Ok totalValue
  else match vault_address vault (a_Chain (c_Asset (to_Coin item))) with
       | Err _ => Ok totalValue
       | Panic e => Panic e
       | Ok toAddress =>
           if PubKey.Equals (to_VaultPubKey item) (va_PubKey vault)
           then Ok (SafeSub totalValue (c_Amount (to_Coin item)))
           else if Address.Equals (to_ToAddress item) toAddress
           then uint_add totalValue (c_Amount (to_Coin item)) else Ok totalValue
       end.

Definition total_value (period : Z) (vault : Vault) : KM Z :=
  let h := BlockHeight ctx -i period in
  let h := if h <? 1 then 1 else h in
  mfold (λ total height,
    txOut ← GetTxOut height; lift (rfold (add_value vault) total (txo_TxArray txOut)))
    0 (seqZ h (BlockHeight ctx - h + 1)).

(** The distance of the bond from the value, negative where it is exceeded. *)
Definition security (period : Z) (vault : Vault) : KM (Vault * Z) :=
  totalBond ← total_bond vault;
  totalValue ← total_value period vault;
  mret (vault, totalBond - totalValue).

Definition SortBySecurity (vaults : list Vault) (period : Z) : KM (list Vault) :=
  if (length vaults <=? 1)%nat then mret vaults
  else
    vaultSecurity ← mfold (λ acc vault, x ← security period vault; mret (acc ++ [x])%list) [] vaults;
    mret (map fst (insert_sort (λ a b, a.2 <? b.2) vaultSecurity)).

Definition GetMostSecure (vaults : list Vault) (period : Z) : KM Vault :=
  vaults ← SortBySecurity vaults period; mret (default Vault_zero (last vaults)).

(** ** Migration *)

Definition vaultHasUnsignedMigrateTxOut (pubkey : string) : KM bool :=
  all ← getIterator kv_txout;
  mret (existsb (λ txOut, existsb (λ item, TxID.IsEmpty (to_OutHash item)
      && str_eq (NormalizeTxOutType (GetTxType item)) TxOutTypeMigrate
      && PubKey.Equals (to_VaultPubKey item) pubkey) (txo_TxArray txOut)) all).

(** Largest first, then by key. *)
Definition largest_first (x y : TxOutInput) : bool :=
  if ti_AmountSats x =? ti_AmountSats y then str_lt (input_key x) (input_key y)
  else ti_AmountSats y <? ti_AmountSats x.

(** One round: as many outputs as one transaction can spend, fewer when they
    cover [required]. *)
Fixpoint take_round (required total : Z) (inputs candidates : list TxOutInput) : list TxOutInput :=
  match candidates with
  | [] => inputs
  | input :: rest =>
      if btcMaxBatchVins <=? Z.of_nat (length inputs) then inputs
      else
        let total := total +u ti_AmountSats input in
        let inputs := (inputs ++ [input])%list in
        if negb (required =? 0) && (required <=? total) then inputs
        else take_round required total inputs rest
  end.

(** The scan of the batches (btc_gas.go) exempts the batch at a height from the
    spent outputs; no block of a scan is above the current height, so that
    nothing is exempt here. *)
Definition btcMigrationSourceInputs (vault : Vault) (sourceAddr : string) (required : Z)
    : KM (list TxOutInput) :=
  candidates ← btcVaultSourceCandidates ctx vault sourceAddr (BlockHeight ctx + 1);
  mret (take_round required 0 [] (insert_sort largest_first (map cand_input candidates))).

(** The balances of the retiring vaults; [None] while one of them has a
    migration that is not signed. *)
Fixpoint available_coins (period : Z) (retiring : list Vault) (available : gmap string (list Coin))
    : KM (option (gmap string (list Coin))) :=
  match retiring with
  | [] => mret (Some available)
  | vault :: retiring =>
      if (0 <? Vault.LenPendingTxBlockHeights vault (BlockHeight ctx) period)%nat then mret None
      else
        unsigned ← vaultHasUnsignedMigrateTxOut (va_PubKey vault);
        if unsigned : bool then mret None
        else available_coins period retiring (<[va_PubKey vault := va_Coins vault]> available)
  end.

Definition deduct_item (available : gmap string (list Coin)) (toi : TxOutItem)
    : gmap string (list Coin) :=
  if negb (TxID.IsEmpty (to_OutHash toi)) then available
  else match available !! to_VaultPubKey toi with
       | None => available
       | Some coins => <[to_VaultPubKey toi := Coins.SafeSub coins (to_Coin toi :: to_MaxGas toi)]> available
       end.

Definition deduct_window (period : Z) (available : gmap string (list Coin))
    : KM (gmap string (list Coin)) :=
  mfold (λ available height,
    blockOut ← GetTxOut height; mret (foldl deduct_item available (txo_TxArray blockOut)))
    available (pending_window period).

Definition IsNative (a : Asset) : bool := false.

Definition IsGasAsset (a : Asset) : bool :=
  let gasAsset := Chain_GetGasAsset (a_Chain a) in
  negb (Asset_IsEmpty gasAsset) && Asset_Equals a gasAsset.

(** Vaults that never held the asset come first. *)
Definition target_vaults (asset : Asset) (active : list Vault) : list Vault :=
  let filtered := List.filter (λ v,
    negb (existsb (λ c, Asset_Equals (c_Asset c) asset) (va_Coins v))) active in
  if IsGasAsset asset && negb (length filtered =? 0)%nat then filtered else active.

Fixpoint index_of (pubkey : string) (active : list Vault) : option nat :=
  match active with
  | [] => None
  | v :: active => if PubKey.Equals pubkey (va_PubKey v) then Some O
                   else S <$> index_of pubkey active
  end.

Definition migration (vault : Vault) (addr chain : string) (asset : Asset) (amount : Z)
    (maxGas : list Coin) (gasRate : Z) : TxOutItem :=
  TxOutItem_zero <| to_Chain := chain |> <| to_InHash := TxID.BlankTxID |>
    <| to_ToAddress := addr |> <| to_VaultPubKey := va_PubKey vault |>
    <| to_VaultPubKeyEddsa := va_PubKeyEddsa vault |> <| to_Coin := NewCoin asset amount |>
    <| to_MaxGas := maxGas |> <| to_GasRate := gasRate |>
    <| to_VaultPathIndex := VaultPath.MainVaultPathIndex |> <| to_TxType := TxOutTypeMigrate |>.

(** The inputs of a migration and its item, none when they cannot pay the gas. *)
Definition migration_item (vault : Vault) (addr : string) (toi : TxOutItem) : KM (option TxOutItem) :=
  sourceAddr ← lift (vault_address vault (to_Chain toi));
  required ← lift (uint_add (c_Amount (to_Coin toi))
                     (c_Amount (Coins.GetCoin (Gas.ToCoins (to_MaxGas toi)) BTCAsset)));
  inputs ← btcMigrationSourceInputs vault sourceAddr required;
  _ ← fail_if (length inputs =? 0)%nat
        "fail to add bitcoin migration txout: no source inputs for retiring vault";
  sourceAmount ← lift (uint_sum (map ti_AmountSats inputs));
  maxGasCoin ← lift (btcExactGasCoin (va_PubKey vault) VaultPath.MainVaultPathIndex [addr] inputs
                       (to_GasRate toi) false);
  mret (if sourceAmount <=? c_Amount maxGasCoin then None
        else Some (priced (toi <| to_SourceInputs := inputs |>) sourceAmount maxGasCoin)).

(** The retiring vault with its pending height, and the active vaults, the
    target among them marked with a coin of amount zero. *)
Definition scheduled (period : Z) (vault : Vault) (active : list Vault) (i : nat) (asset : Asset)
    : KM (Vault * list Vault) :=
  active ← (match active !! i with
            | Some target =>
                target ← lift (Vault.AddFunds target [NewCoin asset 0]);
                mret (<[i := target]> active)
            | None => panic "index out of range"
            end);
  let vault := Vault.AppendPendingTxBlockHeights vault (BlockHeight ctx) period in
  _ ← SetVault vault;
  mret (vault, active).

(** The address of a vault on another chain is empty, and an item without an
    address cannot be prepared. *)
Definition schedule_migration (period : Z) (vault : Vault) (active : list Vault) (i : nat)
    (addr : string) (toi : TxOutItem) : KM (Vault * list Vault) :=
  if Chain_Equals (to_Chain toi) BTCChain then
    o ← migration_item vault addr toi;
    match o with
    | None => mret (vault, active)
    | Some item =>
        _ ← appendBTCExactTxOut ctx (BlockHeight ctx) item;
        scheduled period vault active i (c_Asset (to_Coin toi))
    end
  else fail "failed to prepare tx out item".

Definition migration_gas_rate (chain : string) : KM Z :=
  gasRate ← GetConfigInt64 BTC_DefaultSatsPerVByte;
  nf ← GetNetworkFee chain;
  mret (if 0 <? nf_TransactionFeeRate nf then i64 (nf_TransactionFeeRate nf) else gasRate).

(** Dust: the whole balance, none of it pending, is taken off the record. *)
Definition burn_dust (vault : Vault) (active : list Vault) (coin : Coin) : KM (Vault * list Vault) :=
  if negb (c_Amount coin =? c_Amount (Coins.GetCoin (va_Coins vault) (c_Asset coin)))
  then mret (vault, active)
  else
    let vault := Vault.SubFunds vault [coin] in
    _ ← SetVault vault; mret (vault, active).

Definition migrate_coin (period : Z) (acc : Vault * list Vault) (coin : Coin)
    : KM (Vault * list Vault) :=
  let '(vault, active) := acc in
  if IsNative (c_Asset coin) then mret (vault, active)
  else if c_Amount coin =? 0 then mret (vault, active)
  else
    let chain := a_Chain (c_Asset coin) in
    target ← GetMostSecure (target_vaults (c_Asset coin) active) period;
    addr ← lift (vault_address target chain);
    match index_of (va_PubKey target) active with
    | None => mret (vault, active)
    | Some i =>
        amt ← lift (RoundToDecimal (c_Amount coin) (c_Decimals coin));
        gasRate ← migration_gas_rate chain;
        if Asset_Equals (c_Asset coin) (Chain_GetGasAsset chain) then
          gas ← GasMgr.GetMaxGas chain;
          let amt := if SafeSub (c_Amount coin) amt <=? c_Amount gas then c_Amount coin else amt in
          gasAmount ← lift (uint_mul (c_Amount gas) (Z.of_nat (Vault.CoinLengthByChain vault chain)));
          let amt := SafeSub amt gasAmount in
          if amt <=? Chain_DustThreshold chain then burn_dust vault active coin
          else schedule_migration period vault active i addr
                 (migration vault addr chain (c_Asset coin) amt [gas] gasRate)
        else schedule_migration period vault active i addr
               (migration vault addr chain (c_Asset coin) amt [] gasRate)
    end.

Definition migrate_vault (period interval : Z) (available : gmap string (list Coin))
    (active : list Vault) (vault : Vault) : KM (list Vault) :=
  if negb (Vault.HasFunds vault) then
    _ ← try (SetVault (Vault.UpdateStatus vault InactiveVault (BlockHeight ctx)));
    mret active
  else match available !! va_PubKey vault with
       | None => mret active
       | Some coins =>
           if interval =? 0 then panic "integer divide by zero"
           else if Z.rem (BlockHeight ctx -i va_StatusSince vault) interval =? 0 then
             '(_, active) ← mfold (migrate_coin period) (vault, active) coins; mret active
           else mret active
       end.

Definition migrateFunds : KM unit :=
  migrateInterval ← getConfigDurationBlocks Vault_MigrationIntervalMinutes;
  retiring ← GetBaseVaultsByStatus ctx RetiringVault;
  active ← GetBaseVaultsByStatus ctx ActiveVault;
  if (length active =? 0)%nat || (length retiring =? 0)%nat then mret tt
  else
    period ← getConfigDurationBlocks Keysign_PeriodMinutes;
    o ← available_coins period retiring ∅;
    match o with
    | None => mret tt
    | Some available =>
        available ← deduct_window period available;
        _ ← mfold (migrate_vault period migrateInterval available) active retiring;
        mret tt
    end.

(** ** The solvency last reported of the live vaults *)

Definition newer (voter prev : SolvencyVoter) : bool :=
  (sv_Height prev <? sv_Height voter)
  || (sv_Height voter =? sv_Height prev)
     && (sv_ConsensusBlockHeight prev <? sv_ConsensusBlockHeight voter).

Definition latest_voter (liveVaults : gset string) (latest : gmap string SolvencyVoter)
    (voter : SolvencyVoter) : gmap string SolvencyVoter :=
  if sv_ConsensusBlockHeight voter <=? 0 then latest
  else if negb (bool_decide (sv_PubKey voter ∈ liveVaults)) then latest
  else match latest !! sv_PubKey voter with
       | Some prev => if newer voter prev then <[sv_PubKey voter := voter]> latest else latest
       | None => <[sv_PubKey voter := voter]> latest
       end.

Definition add_reported (totals : gmap string (Asset * Z)) (coin : Coin)
    : res (gmap string (Asset * Z)) :=
  if Coin_IsEmpty coin then Ok totals
  else
    let key := Asset_String (c_Asset coin) in
    let '(asset, amount) :=
      match totals !! key with
      | Some (asset, amount) => if Asset_IsEmpty asset then (c_Asset coin, 0) else (asset, amount)
      | None => (c_Asset coin, 0)
      end in
    reported ← to_uint64 (c_Amount coin);
    Ok (<[key := (asset, amount + reported)]> totals).

Definition live_vaults : KM (gset string) :=
  active ← GetBaseVaultsByStatus ctx ActiveVault;
  retiring ← GetBaseVaultsByStatus ctx RetiringVault;
  mret (list_to_set (map va_PubKey active ++ map va_PubKey retiring)).

(** The totals do not depend on the order in which the reports are added. *)
Definition calculateLatestReportedSolvency : KM (list (Asset * Z)) :=
  liveVaults ← live_vaults;
  voters ← getIterator kv_solvency_voter;
  let latest := foldl (latest_voter liveVaults) ∅ voters in
  totals ← lift (rfold (λ totals voter, rfold add_reported totals (sv_Coins voter)) ∅
                   (map snd (map_to_list latest)));
  mret (insert_sort (λ x y, str_lt (Asset_String x.1) (Asset_String y.1))
          (map snd (map_to_list totals))).

Definition calculateNetworkSolvency : KM (list (Asset * Z)) :=
  amounts ← calculateLatestReportedSolvency;
  mret (if (length amounts =? 0)%nat then [(BTCAsset, 0)] else amounts).

(** Errors of the two parts are logged. *)
Definition NetworkMgr_EndBlock : KM unit :=
  if BlockHeight ctx =? genesisBlockHeight then processGenesisSetup ctx
  else
    _ ← try migrateFunds;
    _ ← try consolidateActiveBTCVaults;
    mret tt.
End Migrate.

(** ** The inputs of a migration *)

(** An input an item of a block up to the current height spends, sent or not. *)
Definition queued_spend (ctx : Ctx) (s : KVStore) (key : string) : Prop :=
  ∃ k blk item i, kv_txout s !! k = Some blk ∧ txo_Height blk <= BlockHeight ctx
    ∧ item ∈ txo_TxArray blk ∧ Chain_Equals (to_Chain item) BTCChain = true
    ∧ i ∈ to_SourceInputs item ∧ input_key i = key.

Lemma take_round_spec required cands : ∀ total inputs,
  total = u64 (inputs_value inputs) → Z.of_nat (length inputs) <= btcMaxBatchVins →
  ∃ taken, taken `prefix_of` cands
    ∧ take_round required total inputs cands = (inputs ++ taken)%list
    ∧ Z.of_nat (length (inputs ++ taken)) <= btcMaxBatchVins
    ∧ (taken = cands ∨ Z.of_nat (length (inputs ++ taken)) = btcMaxBatchVins
       ∨ required <= u64 (inputs_value (inputs ++ taken)%list)).
Proof.
  induction cands as [|c cands IH]; intros total inputs Ht Hl; cbn [take_round].
  - exists []. rewrite app_nil_r. split_and!; auto.
  - destruct (btcMaxBatchVins <=? _) eqn:Em.
    { exists []. rewrite app_nil_r. split_and!; [apply prefix_nil|done|done|]. right. left. lia. }
    cbv zeta. assert (Hv : total +u ti_AmountSats c = u64 (inputs_value (inputs ++ [c])%list)).
    { rewrite Ht. unfold inputs_value. rewrite u64_add_l, sum_by_app, sum_by_cons, sum_by_nil.
      f_equal. lia. }
    assert (Hl' : Z.of_nat (length (inputs ++ [c])%list) <= btcMaxBatchVins)
      by (rewrite length_app; cbn; lia).
    destruct (negb _ && _) eqn:Er.
    + exists [c]. split_and!; [by apply prefix_cons, prefix_nil|done|done|].
      right. right. rewrite <- Hv. apply andb_true_iff in Er as [_ Er]. lia.
    + destruct (IH _ _ Hv Hl') as (taken & Hp & -> & Hb & Hc). exists (c :: taken).
      rewrite <- app_assoc in *. cbn in *. split_and!; [by apply prefix_cons|done|done|].
      destruct Hc as [->|Hc]; auto.
Qed.

(** Nothing is exempt when the exempted height is above the scan. *)
Lemma above_scan ctx vault s key :
  queued_spend ctx s key → spends ctx vault (BlockHeight ctx + 1) s key.
Proof.
  intros (k & blk & item & i & Hk & Hh & Hi & Hc & Hin & He).
  exists k, blk, item, i. split_and!; try done. unfold samePendingBatch.
  destruct (txo_Height blk =? _) eqn:E; [lia|done].
Qed.

Lemma migration_inputs_ok `{Ext} ctx vault addr required s inputs s' :
  btcMigrationSourceInputs ctx vault addr required s = (Ok inputs, s') →
  s' = s ∧ NoDup (input_keys inputs) ∧ Z.of_nat (length inputs) <= btcMaxBatchVins
  ∧ (∀ i, i ∈ inputs → ¬ queued_spend ctx s (input_key i))
  ∧ (required <= u64 (inputs_value inputs) ∨ Z.of_nat (length inputs) = btcMaxBatchVins
     ∨ ∃ cands, btcVaultSourceCandidates ctx vault addr (BlockHeight ctx + 1) s = (Ok cands, s)
         ∧ inputs ≡ₚ map cand_input cands).
Proof.
  unfold btcMigrationSourceInputs. intros (cands & s1 & Hc & [-> ->]%mret_Ok)%bind_Ok.
  pose proof Hc as Hread. apply candidates_ok in Hc as (-> & Hnd & Hun).
  set (sorted := insert_sort largest_first (map cand_input cands)) in *.
  assert (Hs : sorted ≡ₚ map cand_input cands) by apply insert_sort_perm.
  destruct (take_round_spec required sorted 0 []) as (taken & [rest Hp] & -> & Hl & Hcov);
    [done|done|]. cbn [app] in *.
  assert (Hnd' : NoDup (input_keys sorted))
    by (unfold input_keys; rewrite Hs, map_map; exact Hnd).
  split_and!; [done| |done| |].
  - unfold input_keys in *. rewrite Hp, map_app in Hnd'. by apply NoDup_app in Hnd' as (Hd & _ & _).
  - intros i Hi Hq. assert (Hin : i ∈ map cand_input cands)
      by (rewrite <- Hs, Hp; apply elem_of_app; by left).
    apply list_elem_of_fmap in Hin as (c & -> & Hc). by apply (Hun c Hc), above_scan.
  - destruct Hcov as [->|[Hcov|Hcov]]; [|auto|auto]. right. right. eauto.
Qed.

Lemma migration_item_ok `{Ext} `{BtcWire} ctx vault addr toi s o s' :
  migration_item ctx vault addr toi s = (Ok o, s') →
  ∃ sourceAddr required inputs sourceAmount maxGas,
    vault_address vault (to_Chain toi) = Ok sourceAddr
    ∧ uint_add (c_Amount (to_Coin toi))
        (c_Amount (Coins.GetCoin (Gas.ToCoins (to_MaxGas toi)) BTCAsset)) = Ok required
    ∧ btcMigrationSourceInputs ctx vault sourceAddr required s = (Ok inputs, s')
    ∧ inputs ≠ [] ∧ uint_sum (map ti_AmountSats inputs) = Ok sourceAmount
    ∧ btcExactGasCoin (va_PubKey vault) VaultPath.MainVaultPathIndex [addr] inputs
        (to_GasRate toi) false = Ok maxGas
    ∧ o = if sourceAmount <=? c_Amount maxGas then None
          else Some (priced (toi <| to_SourceInputs := inputs |>) sourceAmount maxGas).
Proof.
  unfold migration_item. intros (sa & s1 & [Ha ->]%lift_Ok & Hr)%bind_Ok.
  apply bind_Ok in Hr as (req & s1 & [Hq ->]%lift_Ok & Hr).
  apply bind_Ok in Hr as (inputs & s1 & Hi & Hr).
  apply bind_Ok in Hr as ([] & s2 & [He ->]%fail_if_Ok & Hr).
  apply bind_Ok in Hr as (sum & s2 & [Hs ->]%lift_Ok & Hr).
  apply bind_Ok in Hr as (gas & s2 & [Hg ->]%lift_Ok & [-> ->]%mret_Ok).
  exists sa, req, inputs, sum, gas. split_and!; try done. by intros ->.
Qed.


(** ** One round of migrations at a time *)

(** The queue holds a migration of the vault that is not signed. *)
Definition migrating (s : KVStore) (pubkey : string) : Prop :=
  ∃ k blk item, kv_txout s !! k = Some blk ∧ item ∈ txo_TxArray blk
    ∧ TxID.IsEmpty (to_OutHash item) = true
    ∧ NormalizeTxOutType (GetTxType item) = TxOutTypeMigrate
    ∧ PubKey.Equals (to_VaultPubKey item) pubkey = true.

Lemma migrating_seen pubkey s :
  migrating s pubkey → vaultHasUnsignedMigrateTxOut pubkey s = (Ok true, s).
Proof.
  intros (k & blk & item & Hk & Hi & Ho & Ht & Hp). unfold vaultHasUnsignedMigrateTxOut, getIterator.
  unfold mbind, M_bind, gets, mret, M_ret. cbn. f_equal. f_equal. apply existsb_exists.
  exists blk. split.
  - apply list_elem_of_In. unfold sorted_values. apply list_elem_of_fmap. exists (k, blk).
    split; [done|]. by apply elem_of_sorted_items.
  - apply existsb_exists. exists item. split; [by apply list_elem_of_In|].
    by rewrite Ho, Ht, Hp.
Qed.

Section OneAtATime.
Context `{Ext} `{BtcWire} (ctx : Ctx).

(** A vault whose migration is not done: it is in the queue, or its height is
    within the signing period. *)
Definition blocked (s : KVStore) (period : Z) (vault : Vault) : Prop :=
  migrating s (va_PubKey vault)
  ∨ (0 < Vault.LenPendingTxBlockHeights vault (BlockHeight ctx) period)%nat.

Lemma available_blocked period s retiring : ∀ available,
  Exists (blocked s period) retiring →
  available_coins ctx period retiring available s = (Ok None, s).
Proof.
  induction retiring as [|v retiring IH]; intros available Hb; [by inversion Hb|].
  cbn [available_coins]. destruct (0 <? _)%nat eqn:El; [done|].
  destruct (vaultHasUnsignedMigrateTxOut (va_PubKey v) s) as [r s1] eqn:Eu.
  assert (Hu : ∃ b, r = Ok b ∧ s1 = s).
  { unfold vaultHasUnsignedMigrateTxOut, getIterator, mbind, M_bind, gets, mret, M_ret in Eu.
    injection Eu as <- <-. eauto. }
  destruct Hu as (b & -> & ->). rewrite (bind_run _ _ _ _ _ Eu). destruct b; [done|].
  apply IH. apply Nat.ltb_ge in El. apply Exists_cons in Hb as [[Hm|Hl]|Hb]; [|lia|done].
  apply migrating_seen in Hm. rewrite Hm in Eu. done.
Qed.

Definition keysign_period (s : KVStore) : Z :=
  Config.getConfigDurationBlocks (kv_config s) Keysign_PeriodMinutes.

(** C15. Migrations are serialised: while a retiring vault has a migration in
    the queue that is not signed, or one scheduled within the signing period,
    the manager neither schedules another, for any vault, nor retires or burns
    anything: the store stays as it is. *)
Theorem migrations_one_at_a_time s retiring :
  (GetBaseVaultsByStatus ctx RetiringVault s).1 = Ok retiring →
  Exists (blocked s (keysign_period s)) retiring → (migrateFunds ctx s).2 = s.
Proof.
  intros Hr Hb. unfold migrateFunds, getConfigDurationBlocks.
  assert (Hret : GetBaseVaultsByStatus ctx RetiringVault s = (Ok retiring, s)).
  { rewrite <- Hr. pose proof (base_vaults_keeps (λ s, s) ctx RetiringVault s) as Hk.
    destruct (GetBaseVaultsByStatus _ _ s). cbn in *. by subst. }
  rewrite (bind_run _ _ s _ s) by done. rewrite (bind_run _ _ _ _ _ Hret).
  pose proof (base_vaults_keeps (λ s, s) ctx ActiveVault s) as Hk.
  destruct (GetBaseVaultsByStatus ctx ActiveVault s) as [r s1] eqn:Ea. cbn in Hk. subst s1.
  destruct r as [active|e|e]; [|unfold mbind, M_bind; by rewrite Ea..].
  rewrite (bind_run _ _ _ _ _ Ea). destruct (_ || _); [done|].
  rewrite (bind_run _ _ s _ s) by done.
  by rewrite (bind_run _ _ _ _ _ (available_blocked _ _ _ ∅ Hb)).
Qed.
End OneAtATime.

(** ** The vault records after a round *)

(** What migrating may do to a retiring vault: take coins off its record and
    remember the heights of its migrations. *)
Definition moved (v v' : Vault) : Prop :=
  ∃ coins heights, v' = v <| va_Coins := coins |> <| va_PendingTxBlockHeights := heights |>.

Lemma moved_refl v : moved v v.
Proof. exists (va_Coins v), (va_PendingTxBlockHeights v). by destruct v. Qed.

Lemma moved_trans v1 v2 v3 : moved v1 v2 → moved v2 v3 → moved v1 v3.
Proof. intros (c & h & ->) (c' & h' & ->). by exists c', h'. Qed.

Lemma subtracted_moved v coins : moved v (Vault.SubFunds v coins).
Proof.
  unfold Vault.SubFunds. revert v. induction coins as [|c coins IH]; intros v; [apply moved_refl|].
  cbn [foldl]. eapply moved_trans; [|apply IH]. unfold Vault.subFund.
  exists (Coins.SafeSub1 (va_Coins v) c), (va_PendingTxBlockHeights v). by destruct v.
Qed.

Lemma appended_moved v h period : moved v (Vault.AppendPendingTxBlockHeights v h period).
Proof.
  exists (va_Coins v), (va_PendingTxBlockHeights (Vault.AppendPendingTxBlockHeights v h period)).
  by destruct v.
Qed.

Section Round.
Context `{Ext} `{BtcWire} (ctx : Ctx) (s0 : KVStore) (retiring : list Vault).

(** A record a round may write for a retiring vault [v]. *)
Definition written (v v' : Vault) : Prop :=
  moved v v'
  ∨ Vault.HasFunds v = false ∧ v' = Vault.UpdateStatus v InactiveVault (BlockHeight ctx).

Definition round_ok (s : KVStore) : Prop :=
  ∀ k v', kv_vault s !! k = Some v' →
    kv_vault s0 !! k = Some v' ∨ ∃ v, v ∈ retiring ∧ written v v'.

Lemma round_keeps {A} (m : M KVStore A) : keeps kv_vault m → yields round_ok m (λ _, True).
Proof. apply yields_keeps. unfold round_ok. by intros s s' ->. Qed.

Lemma set_vault_round v v' : v ∈ retiring → written v v' → yields round_ok (SetVault v') (λ _, True).
Proof.
  intros Hv Hw. unfold SetVault. eapply yields_bind; [apply round_keeps|].
  { unfold addBaseIndex, getBaseIndex, addBaseEDDSAIndex. frame_tac. }
  intros _ _. apply yields_modify. intros s Hs k w. rec_simpl.
  intros [[_ <-]|[_ Hk]]%lookup_insert_Some; [right; eauto|by apply Hs].
Qed.

Lemma most_secure_keeps vaults period : keeps kv_vault (GetMostSecure ctx vaults period).
Proof.
  unfold GetMostSecure, SortBySecurity, security, total_bond, total_value, GetNodeAccountByPubKey, GetNodeAccount.
  frame_tac.
Qed.

Lemma max_gas_keeps chain : keeps kv_vault (GasMgr.GetMaxGas chain).
Proof. frame_tac. Qed.

Lemma item_keeps vault addr toi : keeps kv_vault (migration_item ctx vault addr toi).
Proof. unfold migration_item, btcMigrationSourceInputs. frame_tac. Qed.
#[local] Hint Resolve most_secure_keeps max_gas_keeps item_keeps : keeps.

Lemma append_round height item : yields round_ok (appendBTCExactTxOut ctx height item) (λ _, True).
Proof. apply round_keeps, append_keeps. done. Qed.

Section OfVault.
Context (v : Vault) (Hv : v ∈ retiring).

Lemma dust_round cur active coin : moved v cur →
  yields round_ok (burn_dust cur active coin) (λ acc, moved v acc.1).
Proof.
  intros Hm. unfold burn_dust. destruct (negb _); [by apply yields_ret|]. cbv zeta.
  pose proof (moved_trans _ _ _ Hm (subtracted_moved cur [coin])) as Hm'.
  eapply yields_bind; [apply (set_vault_round v); [done|by left]|].
  intros _ _. by apply yields_ret.
Qed.

Lemma scheduled_round period cur active i asset : moved v cur →
  yields round_ok (scheduled ctx period cur active i asset) (λ acc, moved v acc.1).
Proof.
  intros Hm. unfold scheduled.
  eapply (yields_bind _ _ _ (λ _, True));
    [destruct (active !! i); [apply round_keeps; frame_tac|apply yields_panic]|].
  intros active' _. cbv zeta.
  pose proof (moved_trans _ _ _ Hm (appended_moved cur (BlockHeight ctx) period)) as Hm'.
  eapply yields_bind; [apply (set_vault_round v); [done|by left]|].
  intros _ _. by apply yields_ret.
Qed.

Lemma schedule_round period cur active i addr toi : moved v cur →
  yields round_ok (schedule_migration ctx period cur active i addr toi) (λ acc, moved v acc.1).
Proof.
  intros Hm. unfold schedule_migration. destruct (Chain_Equals _ _); [|apply yields_fail].
  eapply yields_bind; [apply round_keeps, item_keeps|]. intros [item|] _; [|by apply yields_ret].
  eapply yields_bind; [apply append_round|]. intros _ _. by apply scheduled_round.
Qed.

Lemma coin_round period acc coin : moved v acc.1 →
  yields round_ok (migrate_coin ctx period acc coin) (λ acc, moved v acc.1).
Proof.
  destruct acc as [cur active]. cbn. intros Hm. unfold migrate_coin, IsNative.
  destruct (_ =? 0); [by apply yields_ret|].
  cbv zeta. eapply yields_bind; [apply round_keeps, most_secure_keeps|]. intros target _.
  eapply yields_bind; [apply round_keeps, keeps_lift|]. intros addr _.
  destruct (index_of _ _) as [i|]; [|by apply yields_ret].
  eapply yields_bind; [apply round_keeps, keeps_lift|]. intros amt _.
  eapply yields_bind; [apply round_keeps; unfold migration_gas_rate; frame_tac|]. intros rate _.
  destruct (Asset_Equals _ _); [|by apply schedule_round].
  eapply yields_bind; [apply round_keeps, max_gas_keeps|]. intros gas _.
  eapply yields_bind; [apply round_keeps, keeps_lift|]. intros gasAmount _.
  destruct (_ <=? Chain_DustThreshold _); [by apply dust_round|by apply schedule_round].
Qed.

Lemma vault_round period interval available active :
  yields round_ok (migrate_vault ctx period interval available active v) (λ _, True).
Proof.
  unfold migrate_vault. destruct (Vault.HasFunds v) eqn:Ef; cbn [negb].
  - destruct (available !! _) as [coins|]; [|by apply yields_ret].
    destruct (_ =? 0); [apply yields_panic|]. destruct (_ =? 0); [|by apply yields_ret].
    apply (yields_bind _ _ _ (λ acc, moved v acc.1)); [|intros [cur act] _; by apply yields_ret].
    apply (yields_mfold _ _ (λ _, True)); [by apply Forall_true| |exact (moved_refl v)].
    intros acc coin Hm _. by apply coin_round.
  - eapply yields_bind; [|intros ? _; by apply yields_ret].
    eapply yields_weaken; [apply yields_try, (set_vault_round v)|]; [done|by right|done].
Qed.
End OfVault.

Lemma rounds_round period interval available active :
  yields round_ok (mfold (migrate_vault ctx period interval available) active retiring) (λ _, True).
Proof.
  apply (yields_mfold _ _ (λ v, v ∈ retiring)); [by apply Forall_forall| |done].
  intros act v _ Hv. by apply vault_round.
Qed.

Lemma deduct_keeps period available : keeps kv_vault (deduct_window ctx period available).
Proof. unfold deduct_window. frame_tac. Qed.

Lemma available_keeps period vaults : ∀ available,
  keeps kv_vault (available_coins ctx period vaults available).
Proof.
  induction vaults as [|v vaults IH]; intros available; cbn [available_coins]; [keeps_tac|].
  unfold vaultHasUnsignedMigrateTxOut. frame_tac.
Qed.
End Round.

(** C16. A round of migrations, whatever its outcome, changes only the records
    of retiring vaults: a record it writes is that of a retiring vault with
    other coins and pending heights and everything else as it was, still
    retiring with it, or the record of a vault without funds, which becomes
    inactive. No vault that holds funds is retired. *)
Theorem vaults_retire_empty `{Ext} `{BtcWire} ctx s retiring r s' :
  GetBaseVaultsByStatus ctx RetiringVault s = (Ok retiring, s) →
  migrateFunds ctx s = (r, s') →
  ∀ k v', kv_vault s' !! k = Some v' → kv_vault s !! k = Some v'
    ∨ ∃ v, v ∈ retiring ∧ va_Status v = RetiringVault
       ∧ (moved v v' ∧ va_Status v' = RetiringVault
          ∨ Vault.HasFunds v = false
            ∧ v' = Vault.UpdateStatus v InactiveVault (BlockHeight ctx)).
Proof.
  intros Hr Hrun k v' Hk. assert (Hst : ∀ v, v ∈ retiring → va_Status v = RetiringVault).
  { intros v Hv. unfold GetBaseVaultsByStatus in Hr. apply bind_Ok in Hr as (all & s1 & _ & Hr).
    apply mret_Ok in Hr as [-> _]. apply list_elem_of_In, filter_In in Hv as [_ Hv].
    by destruct (va_Status v). }
  assert (Hok : round_ok ctx s retiring s').
  { unfold migrateFunds, getConfigDurationBlocks in Hrun. rewrite (bind_run _ _ s _ s) in Hrun by done.
    rewrite (bind_run _ _ _ _ _ Hr) in Hrun.
    match type of Hrun with ?m _ = _ =>
      assert (Hy : yields (round_ok ctx s retiring) m (λ _, True)) end.
    { eapply yields_bind; [apply round_keeps, base_vaults_keeps|]. intros active _.
      destruct (_ || _); [by apply yields_ret|].
      eapply yields_bind; [apply round_keeps, keeps_gets|]. intros period _.
      eapply yields_bind; [apply round_keeps, available_keeps|].
      intros [available|] _; [|by apply yields_ret].
      eapply yields_bind; [apply round_keeps, deduct_keeps|]. intros available' _.
      eapply yields_bind; [apply rounds_round|]. intros _ _. by apply yields_ret. }
    destruct (Hy s) as [H1 _]; [by left|]. by rewrite Hrun in H1. }
  destruct (Hok k v' Hk) as [Hs|(v & Hv & Hw)]; [by left|]. right. exists v.
  split; [done|]. split; [by apply Hst|]. destruct Hw as [Hm|Hw]; [|by right]. left.
  split; [done|]. destruct Hm as (c & h & ->). rec_simpl. by apply Hst.
Qed.

Import ToyExt ToyWire.
#[local] Existing Instance toy_ext.
#[local] Existing Instance toy_wire.

(** A retiring vault with one output of 100,000 satoshis, one that is empty,
    and an active vault. *)
Definition retiring_vault (pk : string) (coins : list Coin) : Vault :=
  Vault_zero <| va_PubKey := pk |> <| va_BlockHeight := 1 |> <| va_Type := BaseVault |>
    <| va_Status := RetiringVault |> <| va_Coins := coins |>.
Definition held_output : Tx :=
  mkTx "T" BTCChain "from" "old0" [NewCoin BTCAsset 100000] [] 0 [].
Definition migrating_store : KVStore :=
  KVStore_empty
    <| kv_vault := {[ "OLD" := retiring_vault "old" [NewCoin BTCAsset 100000];
         "EMPTY" := retiring_vault "empty" [];
         "NEW" := (retiring_vault "new" []) <| va_Status := ActiveVault |> ]} |>
    <| kv_vault_base_index := ["old"; "empty"; "new"] |>
    <| kv_network_fee := {[ "BTC" := mkNetworkFee BTCChain 10 5 ]} |>
    <| kv_observed_txin := {[ "T" := ObservedTxVoter_zero <| ov_TxID := "T" |>
         <| ov_Tx := Observed.NewObservedTx held_output 7 "old" 7 |> ]} |>.
Definition at_interval : Ctx := mkCtx 720.
Definition after_round : KVStore := (migrateFunds at_interval migrating_store).2.


Lemma migrations_one_at_a_time_witness :
  (migrateFunds (mkCtx 1080) after_round).2 = after_round.
Proof.
  set (retiring := match (GetBaseVaultsByStatus (mkCtx 1080) RetiringVault after_round).1 with
                   | Ok vs => vs | _ => [] end).
  assert (Hr : (GetBaseVaultsByStatus (mkCtx 1080) RetiringVault after_round).1 = Ok retiring)
    by (vm_compute; reflexivity).
  assert (Hv : map va_PubKey retiring = ["old"]) by (vm_compute; reflexivity).
  apply (migrations_one_at_a_time (mkCtx 1080) after_round retiring Hr).
  destruct retiring as [|v l]; [discriminate|]. injection Hv as Hv _.
  apply Exists_cons. left. left. rewrite Hv. clear.
  assert (Hq : match kv_txout after_round !! "820" with
    | Some blk => match txo_TxArray blk with
      | [item] => TxID.IsEmpty (to_OutHash item)
          && str_eq (NormalizeTxOutType (GetTxType item)) TxOutTypeMigrate
          && PubKey.Equals (to_VaultPubKey item) "old"
      | _ => false
      end
    | None => false
    end = true) by (vm_compute; reflexivity).
  destruct (kv_txout after_round !! "820") as [blk|] eqn:Hk; [|discriminate].
  destruct (txo_TxArray blk) as [|item [|]] eqn:Hi; [discriminate| |discriminate].
  apply andb_true_iff in Hq as [Hq Hp]. apply andb_true_iff in Hq as [Ho Ht].
  exists "820", blk, item. split; [exact Hk|]. split; [rewrite Hi; constructor|].
  split; [exact Ho|]. split; [by apply str_eq_true|exact Hp].
Defined.

Lemma vaults_retire_empty_witness :
  ∃ v', kv_vault after_round !! "EMPTY" = Some v' ∧ va_Status v' = InactiveVault
    ∧ Vault.HasFunds v' = false.
Proof.
  set (run := migrateFunds at_interval migrating_store).
  assert (Hrun : run.1 = Ok tt) by (vm_compute; reflexivity).
  set (retiring := match (GetBaseVaultsByStatus at_interval RetiringVault migrating_store).1 with
                   | Ok vs => vs | _ => [] end).
  assert (Hr : (GetBaseVaultsByStatus at_interval RetiringVault migrating_store).1 = Ok retiring)
    by (vm_compute; reflexivity).
  assert (Hs : (GetBaseVaultsByStatus at_interval RetiringVault migrating_store).2 = migrating_store)
    by apply (base_vaults_keeps (λ s, s)).
  assert (Hv : ∃ v', kv_vault run.2 !! "EMPTY" = Some v' ∧ va_Status v' = InactiveVault)
    by (vm_compute; eexists; split; reflexivity).
  assert (H0 : ∃ v, kv_vault migrating_store !! "EMPTY" = Some v ∧ va_Status v = RetiringVault)
    by (vm_compute; eexists; split; reflexivity).
  destruct Hv as (v' & Hk & Hst), H0 as (v0 & Hk0 & Hst0). exists v'. split; [exact Hk|].
  split; [exact Hst|]. pose proof (run_ok _ _ _ Hr) as Hret. rewrite Hs in Hret.
  destruct (vaults_retire_empty _ _ _ _ _ Hret (run_ok _ _ _ Hrun) _ _ Hk)
    as [Hsame|(v & _ & _ & [[_ Hw]|[Hf ->]])]; [|congruence|exact Hf].
  rewrite Hsame in Hk0. congruence.
Defined.

(** *** A migration of an output an open batch already spends

The scan for spent outputs stops at the current height, and the open batch of a
vault waits at a later one: its inputs do not count as spent.  After a payment
of 30,000 satoshis is queued, which sets aside the vault's only output of
100,000, the migration of the whole output joins the same batch. *)

Definition payment : TxOutItem :=
  TxOutItem_zero <| to_Chain := BTCChain |> <| to_ToAddress := "user" |>
    <| to_VaultPubKey := "old" |> <| to_Coin := NewCoin BTCAsset 30000 |>
    <| to_InHash := "W" |> <| to_TxType := TxOutTypeOut |>.

Theorem migration_takes_queued_output :
  let s1 := (appendBTCExactTxOut (mkCtx 715) 715 payment migrating_store).2 in
  let s2 := (migrateFunds at_interval s1).2 in
  ∃ blk paid migrated, kv_txout s2 !! "815" = Some blk ∧ txo_TxArray blk = [paid; migrated]
    ∧ input_keys (to_SourceInputs paid) = ["t:0"]
    ∧ input_keys (to_SourceInputs migrated) = ["t:0"]
    ∧ c_Amount (to_Coin paid) = 30000 ∧ c_Amount (to_Coin migrated) = 99440
    ∧ inputs_value (to_SourceInputs migrated) = 100000.
Proof. vm_compute. eexists _, _, _. repeat split. Qed.
