(* ===== verification/Frost.v ===== *)
(** * Key generation and key-signing failures

The attestations of a key generation (x/thornado/handler_frost.go,
types/msg_keygen_vault.go, msg_keygen_vault_v2.go) and the reports of failed
signatures (x/thornado/handler_frost_keysign.go, types/msg_frost_sign_fail.go,
frost_round_normalizer.go, blame.go).  Sorting inside the computation of an
identifier sorts the list of the message in place, so a validation returns the
message that the handler then reads. *)

From S2P Require Import Prelude GoStrings Sha256 Config Common Types Vaults Voters Keeper BtcBatch Outbounds Settle Pow Deposits Observe Nodes Rotation Churn NodeHandlers.

(** What the handlers take from other code: whether a text has an entropy below
    seven bits per byte ([discrete.EntropyBase2]), and the verification of an
    ECDSA signature of secp256k1 under the key a bech32 text stands for. *)
Class FrostExt := {
  low_entropy : string → bool;
  secp256k1_key : string → bool;
  secp256k1_verify : string → Z → Z → string → bool
}.

Definition len (s : string) : Z := Z.of_nat (String.length s).

(** ** Messages *)

Record Node := mkNode { bn_Pubkey : string; bn_BlameData : string; bn_BlameSignature : string }.

Record Blame := mkBlame {
  bl_FailReason : string;
  bl_IsUnicast : bool;
  bl_BlameNodes : list Node;
  bl_Round : string
}.
#[export] Instance Blame_eta : Eta Blame := fun r =>
  mkBlame (bl_FailReason r) (bl_IsUnicast r) (bl_BlameNodes r) (bl_Round r).

Definition Blame_IsEmpty (m : Blame) : bool := len (bl_FailReason m) =? 0.

Record MsgKeygenVault := mkMsgKeygenVault {
  gv_ID : string;
  gv_VaultPubKey : string;
  gv_KeygenType : KeygenType;
  gv_PubKeys : list string;
  gv_Height : Z;
  gv_Blame : list Blame;
  gv_Chains : list string;
  gv_Signer : string;
  gv_KeygenTime : Z;
  gv_KeysharesBackup : string;
  gv_Secp256K1Signature : string;
  gv_VaultPubKeyEddsa : string;
  gv_KeysharesBackupEddsa : string;
  gv_KeysharesBackupFrost : string;
  gv_VaultPubKeyFrost : string;
  gv_ObservedMoneroHeight : Z
}.
#[export] Instance MsgKeygenVault_eta : Eta MsgKeygenVault := fun r =>
  mkMsgKeygenVault (gv_ID r) (gv_VaultPubKey r) (gv_KeygenType r) (gv_PubKeys r) (gv_Height r)
    (gv_Blame r) (gv_Chains r) (gv_Signer r) (gv_KeygenTime r) (gv_KeysharesBackup r)
    (gv_Secp256K1Signature r) (gv_VaultPubKeyEddsa r) (gv_KeysharesBackupEddsa r)
    (gv_KeysharesBackupFrost r) (gv_VaultPubKeyFrost r) (gv_ObservedMoneroHeight r).

Record MsgFrostKeysignFail := mkMsgFrostKeysignFail {
  kf_MsgID : string;
  kf_MsgHeight : Z;
  kf_Blame : Blame;
  kf_Coins : list Coin;
  kf_PubKey : string;
  kf_Signer : string
}.
#[export] Instance MsgFrostKeysignFail_eta : Eta MsgFrostKeysignFail := fun r =>
  mkMsgFrostKeysignFail (kf_MsgID r) (kf_MsgHeight r) (kf_Blame r) (kf_Coins r) (kf_PubKey r)
    (kf_Signer r).

(** ** Signing rounds (types/frost_round_normalizer.go) *)

Definition HasSuffix (s suffix : string) : bool :=
  let n := String.length s in
  let k := String.length suffix in
  (k <=? n)%nat && str_eq (String.substring (n - k) k s) suffix.

Definition secp256k1_rounds : list string :=
  ["KGRound1Message"; "KGRound2Message1"; "KGRound2Message2"; "KGRound3Message";
   "SignRound1Message1"; "SignRound1Message2"; "SignRound2Message"; "SignRound3Message";
   "SignRound4Message"; "SignRound5Message"; "SignRound6Message"; "SignRound7Message"].

(** The canonical name and the suffix that stands for it. *)
Definition ed25519_rounds : list (string * string) :=
  [("EDDSAKGRound1Message", "KGRound1Message"); ("EDDSAKGRound2Message1", "KGRound2Message1");
   ("EDDSAKGRound2Message2", "KGRound2Message2"); ("EDDSASignRound1Message", "SignRound1Message");
   ("EDDSASignRound2Message", "SignRound2Message"); ("EDDSASignRound3Message", "SignRound3Message")].

Definition canonicalSecp256k1FrostRound (round : string) : string :=
  default round (List.find (λ name, str_eq round name || HasSuffix round name) secp256k1_rounds).

Definition canonicalEd25519FrostRound (round : string) : string :=
  default round (fst <$>
    List.find (λ name, str_eq round name.1 || HasSuffix round name.2) ed25519_rounds).

Definition CanonicalFrostRound (round algo : string) : string :=
  if len round =? 0 then ""
  else
    let algo := if str_contains ".eddsa." round then (if is_empty algo then "ed25519" else algo)
      else if str_contains ".ecdsa." round then (if is_empty algo then "secp256k1" else algo)
      else algo in
    if str_eq algo "secp256k1" then canonicalSecp256k1FrostRound round
    else if str_eq algo "ed25519" then canonicalEd25519FrostRound round
    else round.

Definition ValidFrostKeysignRounds : list string :=
  ["SignRound1Message1"; "SignRound1Message2"; "SignRound2Message"; "SignRound3Message";
   "SignRound4Message"; "SignRound5Message"; "SignRound6Message"; "SignRound7Message";
   "FrostKeysignAbort"; "EDDSASignRound1Message"; "EDDSASignRound2Message"; "EDDSASignRound3Message"].

Definition NormalizeFrostKeysignRound (round : string) : res string :=
  let canonical := CanonicalFrostRound round "" in
  if is_empty canonical then Ok ""
  else if existsb (str_eq canonical) ValidFrostKeysignRounds then Ok canonical
  else Err "invalid blame round".

Definition is_final_round (round : string) : bool :=
  str_eq round "SignRound7Message" || str_eq round "EDDSASignRound3Message".

(** ** Identifiers *)

Definition hex_lower (s : string) : string := ToLower (Sha256.Sum256Hex s).
Definition write_all (prefix : string) (items : list string) : string :=
  String.concat "" (map (λ item, prefix ++ item) items).

Definition blamed (bl : list Blame) : list string := b ← bl; map bn_Pubkey (bl_BlameNodes b).

(** [members] is sorted by the caller's message as well. *)
Definition getFrostID (members : list string) (vaultPk : string) (height : Z) (bl : list Blame)
    : string :=
  hex_lower (write_all "m:" (insert_sort str_lt members)
    ++ write_all "p:" (insert_sort str_lt (blamed bl)) ++ vaultPk ++ itoa height).

Definition sort_nodes (nodes : list Node) : list Node :=
  insert_sort (λ a b, str_lt (bn_Pubkey a) (bn_Pubkey b)) nodes.

Definition getMsgFrostKeysignFailID (members : list Node) (height : Z) (coins : list Coin)
    (pubKey round : string) : string :=
  hex_lower (write_all "" (map bn_Pubkey (sort_nodes members)) ++ itoa height ++ pubKey
    ++ write_all "" (map Coin_String coins) ++ round).

(** ** Stateless validation *)

(** [MatchMnemonic], [([a-zA-Z]+ ){11}[a-zA-Z]+] anywhere in the bytes: [words]
    is the number of words, each followed by one space, that end here. *)
Definition is_letter (c : ascii) : bool :=
  let n := Z.of_nat (nat_of_ascii c) in
  ((65 <=? n) && (n <=? 90)) || ((97 <=? n) && (n <=? 122)).

Fixpoint match_mnemonic (words : nat) (in_word : bool) (s : string) : bool :=
  match s with
  | EmptyString => false
  | String c s =>
      if is_letter c then (11 <=? words)%nat || match_mnemonic words true s
      else if in_word && Ascii.eqb c " " then match_mnemonic (S words) false s
      else match_mnemonic 0 false s
  end.
Definition MatchMnemonic (s : string) : bool := match_mnemonic 0 false s.

Section Frost.
Context `{Ext} `{FrostExt}.

Definition IsSuccess (m : MsgKeygenVault) : bool := (length (gv_Blame m) =? 0)%nat.

Definition MsgKeygenVault_GetChains (m : MsgKeygenVault) : list string :=
  omap (λ c, match NewChain c with Ok chain => Some chain | _ => None end) (gv_Chains m).

Definition MsgKeygenVault_GetPubKeys (m : MsgKeygenVault) : list string :=
  parse_pubkeys (gv_PubKeys m).

Definition check_blame_node (pubKeys seen : list string) (node : Node) : res (list string) :=
  _ ← first_error
    [(4096 <? len (bn_BlameData node), "frost blame data too large");
     (256 <? len (bn_BlameSignature node), "frost blame signature too large");
     (negb (existsb (str_eq (bn_Pubkey node)) pubKeys), "blame node not in keygen participants");
     (existsb (str_eq (bn_Pubkey node)) seen, "duplicate blame node")];
  Ok (bn_Pubkey node :: seen).

Definition check_blame (pubKeys seen : list string) (b : Blame) : res (list string) :=
  _ ← first_error
    [(256 <? len (bl_FailReason b), "frost blame reason too long");
     (256 <? len (bl_Round b), "frost blame round too long")];
  rfold (check_blame_node pubKeys) seen (bl_BlameNodes b).

(** Whether the signer is one of the members, all of them valid keys. *)
Definition signer_in (signer : string) (isSignerInPubKeys : bool) (pk : string) : res bool :=
  if PubKey.IsEmpty pk then Err "Pubkey cannot be empty"
  else match PubKey.GetThorAddress pk with
       | Ok addr => Ok (isSignerInPubKeys || Acc_Equals addr signer)
       | Err _ => Err "invalid pub key"
       | Panic e => Panic e
       end.

(** [kind] is empty or names the scheme of the key shares. *)
Definition check_backup (kind : string) (minSize : Z) (backup : string) : res unit :=
  let invalid := "invalid " ++ kind ++ "keyshares backup" in
  if len backup =? 0 then Ok tt
  else first_error
    [(MatchMnemonic backup, invalid); (len backup <? minSize, invalid);
     (262144 <? len backup, kind ++ "keyshares backup too large"); (low_entropy backup, invalid)].

Definition MsgKeygenVault_ValidateBasic (m : MsgKeygenVault) : res unit :=
  _ ← first_error
    [(Acc_Empty (gv_Signer m), "invalid address");
     (len (gv_ID m) =? 0, "ID cannot be blank");
     ((length (gv_PubKeys m) <? 2)%nat, "Must have at least 2 pub keys");
     ((100 <? length (gv_PubKeys m))%nat, "Must have no more then 100 pub keys");
     ((100 <? length (gv_Blame m))%nat, "too many frost blame records");
     (64 <? len (gv_Secp256K1Signature m), "secp256k1 signature too large")];
  _ ← rfold (check_blame (gv_PubKeys m)) [] (gv_Blame m);
  let pks := MsgKeygenVault_GetPubKeys m in
  _ ← first_error [(negb (length (gv_PubKeys m) =? length pks)%nat,
                    "One or more pubkeys were not valid")];
  isSignerInPubKeys ← rfold (signer_in (gv_Signer m)) false pks;
  _ ← first_error
    [(negb isSignerInPubKeys, "signer is not part of keygen member");
     (IsSuccess m && PubKey.IsEmpty (gv_VaultPubKey m), "Pool pubkey cannot be empty")];
  _ ← PubKey.NewPubKey (gv_VaultPubKey m);
  let chains := MsgKeygenVault_GetChains m in
  _ ← first_error
    [(negb (length chains =? length (gv_Chains m))%nat, "One or more chains were not valid");
     ((16 <? length (gv_Chains m))%nat, "too many frost chains");
     (negb (Chains_Has chains BTCChain), "must support rune asset chain");
     (negb (length chains =? length (Chains_Distinct chains))%nat, "cannot have duplicate chains")];
  _ ← check_backup "" 1024 (gv_KeysharesBackup m);
  _ ← check_backup "eddsa " 1024 (gv_KeysharesBackupEddsa m);
  check_backup "frost " 256 (gv_KeysharesBackupFrost m).

(** ** Check signatures *)

Definition secp256k1_N : Z :=
  0xFFFFFFFFFFFFFFFFFFFFFFFFFFFFFFFEBAAEDCE6AF48A03BBFD25E8CD0364141.

Definition bytes_of (s : string) : list Z :=
  map (λ c, Z.of_nat (nat_of_ascii c)) (String.list_ascii_of_string s).

Definition verifySecp256K1Signature (pk sig : string) : res unit :=
  let r := Pow.be_value (take 32 (bytes_of sig)) in
  let s := Pow.be_value (drop 32 (bytes_of sig)) in
  first_error
    [(negb (len sig =? 64), "invalid secp256k1 signature length");
     ((secp256k1_N <=? r) || (secp256k1_N <=? s), "signature scalar out of range");
     (secp256k1_N / 2 <? s, "high-S signature rejected (BIP-62)");
     (negb (secp256k1_key pk), "fail to get secp256k1 pubkey");
     (negb (secp256k1_verify pk r s pk), "signature verification failed")].

(** ** Attesting a key generation (handler_frost.go) *)

Context (ctx : Ctx).

Definition validateFrostAuth (signer : string) : KM unit :=
  nodeSigner ← GetNodeAccount ctx signer;
  _ ← fail_if (NodeAccount_IsEmpty nodeSigner) "invalid signer";
  fail_if (negb (bool_decide (na_Status nodeSigner = NodeActive))
           && negb (bool_decide (na_Status nodeSigner = NodeSelected))) "invalid signer status".

(** A member of a key generation of the block with these members and type. *)
Definition attests (msg : MsgKeygenVault) (keygen : Keygen) : bool :=
  PubKey.PubKeys_Equals (MsgKeygenVault_GetPubKeys msg) (Keygen_GetMembers keygen)
  && bool_decide (gv_KeygenType msg = kg_Type keygen)
  && existsb (λ member, match PubKey.GetThorAddress member with
                        | Ok addr => Acc_Equals addr (gv_Signer msg)
                        | _ => false
                        end) (Keygen_GetMembers keygen).

Definition sort_members (msg : MsgKeygenVault) : MsgKeygenVault :=
  msg <| gv_PubKeys := insert_sort str_lt (gv_PubKeys msg) |>.

Definition enough_members (msg : MsgKeygenVault) : KM unit :=
  if IsSuccess msg then
    minimumMembers ← GetConfigInt64 Vault_BaseMembersMin;
    fail_if ((0 <? minimumMembers) && (Z.of_nat (length (gv_PubKeys msg)) <? minimumMembers))
      "not enough members for base vault keygen"
  else mret tt.

Definition check_signature (msg : MsgKeygenVault) : res unit :=
  if 0 <? len (gv_Secp256K1Signature msg)
  then match verifySecp256K1Signature (gv_VaultPubKey msg) (gv_Secp256K1Signature msg) with
       | Ok _ => Ok tt
       | _ => Err "invalid secp256k1 check signature"
       end
  else Ok tt.

Definition Frost_validate (msg : MsgKeygenVault) : KM MsgKeygenVault :=
  _ ← lift (MsgKeygenVault_ValidateBasic msg);
  _ ← fail_if (negb (bool_decide (gv_KeygenType msg = BaseVaultKeygen)))
    "only base vaults allowed for frost";
  _ ← enough_members msg;
  _ ← lift (if PubKey.IsEmpty (gv_VaultPubKeyEddsa msg) then Ok tt
            else _ ← PubKey.NewPubKey (gv_VaultPubKeyEddsa msg); Ok tt);
  let msg := sort_members msg in
  _ ← fail_if (negb (str_eq (gv_ID msg)
        (getFrostID (gv_PubKeys msg) (gv_VaultPubKey msg) (gv_Height msg) (gv_Blame msg))))
    "invalid frost message";
  churnRetryBlocks ← getConfigDurationBlocks Churn_RetryIntervalMinutes;
  _ ← fail_if (gv_Height msg <=? BlockHeight ctx -i (churnRetryBlocks *i 10))
    "invalid keygen block";
  _ ← lift (check_signature msg);
  keygenBlock ← GetKeygenBlock (gv_Height msg);
  _ ← (if existsb (attests msg) (kb_Keygens keygenBlock)
       then validateFrostAuth (gv_Signer msg) else fail "not authorized");
  mret msg.

Definition record_metric (msg : MsgKeygenVault) : KM unit :=
  if IsSuccess msg && negb (PubKey.IsEmpty (gv_VaultPubKey msg)) then
    metric ← GetFrostKeygenMetric (gv_VaultPubKey msg);
    SetFrostKeygenMetric (FrostMetrics.AddNodeFrostTime metric (gv_Signer msg) (gv_KeygenTime msg))
  else mret tt.

(** The first attestation fixes the vault and its members. *)
Definition open_voter (msg : MsgKeygenVault) (voter : FrostVoter) : FrostVoter :=
  if PubKey.IsEmpty (fv_VaultPubKey voter)
  then voter <| fv_VaultPubKey := gv_VaultPubKey msg |>
         <| fv_VaultPubKeyEddsa := gv_VaultPubKeyEddsa msg |> <| fv_PubKeys := gv_PubKeys msg |>
  else voter.

(** The members of the ceremony that have not signed. *)
Definition silent_members (msg : MsgKeygenVault) (voter : FrostVoter) : list string :=
  List.filter (λ a, negb (existsb (Acc_Equals a) (GetSigners voter)))
    (member_addresses (gv_PubKeys msg)).

Definition reset_selected : KM unit :=
  ready ← ListNodesByStatus NodeSelected;
  mfor (λ na, _ ← try (SetNodeAccount ctx (UpdateStatus na NodeStandby (BlockHeight ctx)));
              mret tt) ready.

Definition jail_for (jailMinutes : ConfigName) (addr reason : string) : KM unit :=
  jailTime ← getConfigDurationBlocks jailMinutes;
  _ ← try (SetNodeAccountJail addr (BlockHeight ctx +i jailTime) reason);
  mret tt.

Definition blame_node (penaltyPoints : Z) (node : Node) : KM unit :=
  nodePubKey ← lift (PubKey.NewPubKey (bn_Pubkey node));
  na ← GetNodeAccountByPubKey ctx nodePubKey;
  _ ← (if bool_decide (na_Status na = NodeActive)
       then _ ← try (IncNodeAccountPenaltyPoints (na_NodeAddress na) penaltyPoints); mret tt
       else jail_for Keygen_FailJailMinutes (na_NodeAddress na) "failed to perform keygen");
  SetNodeAccount ctx na.

Definition fail_keygen (msg : MsgKeygenVault) : KM unit :=
  _ ← reset_selected;
  penaltyPoints ← GetConfigInt64 Keygen_FailPenaltyPoints;
  mfor (λ b, mfor (blame_node penaltyPoints) (bl_BlameNodes b)) (gv_Blame msg).

(** The attestation that brings the voter to two thirds. *)
Definition first_consensus (observe lack : Z) (msg : MsgKeygenVault) (voter : FrostVoter) : KM unit :=
  _ ← SetFrostVoter voter;
  _ ← IncPenaltyPoints observe [gv_Signer msg];
  _ ← DecPenaltyPoints observe (GetSigners voter);
  _ ← IncPenaltyPoints lack (silent_members msg voter);
  if IsSuccess msg then mret tt else fail_keygen msg.

Definition late_member (penaltyPoints : Z) (addr : string) : KM unit :=
  _ ← IncPenaltyPoints penaltyPoints [addr];
  jail_for Keygen_FailJailMinutes addr "failed to vote keygen in time".

(** The voter is passed by value: the caller's keeps its own height. *)
Definition judgeLateSigner (msg : MsgKeygenVault) (voter : FrostVoter) : KM unit :=
  if negb (FrostVoter_HasConsensus voter) || negb (IsSuccess msg) then mret tt
  else
    penaltyPoints ← GetConfigInt64 Keygen_FailPenaltyPoints;
    if 0 <? fv_MajorityConsensusBlockHeight voter then
      _ ← DecPenaltyPoints penaltyPoints [gv_Signer msg];
      _ ← try (ReleaseNodeAccountFromJail ctx (gv_Signer msg));
      mret tt
    else
      let voter := voter <| fv_MajorityConsensusBlockHeight := BlockHeight ctx |> in
      _ ← SetFrostVoter voter;
      mfor (late_member penaltyPoints)
        (List.filter (λ a, negb (HasSigned voter a)) (member_addresses (gv_PubKeys msg))).

(** The vault every member has attested is stored; when it is the last of its
    block, all of them take over. *)
Definition keygen_vault (voter : FrostVoter) : Vault :=
  (Vault.NewVaultV2 (BlockHeight ctx) InitVault BaseVault (fv_VaultPubKey voter)
     (ConsensusChains voter) (fv_VaultPubKeyEddsa voter))
    <| va_Membership := fv_PubKeys voter |>.

Definition complete_keygen (msg : MsgKeygenVault) (voter : FrostVoter) : KM unit :=
  let voter := voter <| fv_BlockHeight := BlockHeight ctx |> in
  _ ← SetFrostVoter voter;
  _ ← SetVault (keygen_vault voter);
  keygenBlock ← GetKeygenBlock (gv_Height msg);
  initVaults ← GetBaseVaultsByStatus ctx InitVault;
  if (length initVaults =? length (kb_Keygens keygenBlock))%nat
  then mfor (RotateVault ctx) initVaults else mret tt.

(** [iter] is the order in which Go ranges over the check signatures. *)
Definition succeed_keygen (iter : gmap string Z → list (string * Z)) (msg : MsgKeygenVault)
    (voter : FrostVoter) : KM unit :=
  if negb (IsSuccess msg) then mret tt
  else
    _ ← judgeLateSigner msg voter;
    if negb (HasCompleteConsensus voter) then mret tt
    else if (0 <? length (fv_Secp256K1Signatures voter))%nat
            && negb (ConsensusCheckSignature iter voter).2 then mret tt
    else complete_keygen msg voter.

(** What the attestation of a new signer does. *)
Definition count_attestation (iter : gmap string Z → list (string * Z)) (observe lack flex : Z)
    (msg : MsgKeygenVault) (voter : FrostVoter) : KM unit :=
  _ ← SetFrostVoter voter;
  if negb (FrostVoter_HasConsensus voter) then IncPenaltyPoints observe [gv_Signer msg]
  else
    _ ← (if (0 <? fv_BlockHeight voter) && (BlockHeight ctx <=? fv_BlockHeight voter +i flex)
         then DecPenaltyPoints lack [gv_Signer msg] else mret tt);
    let first := fv_BlockHeight voter =? 0 in
    let voter := if first then voter <| fv_BlockHeight := BlockHeight ctx |> else voter in
    _ ← (if first then first_consensus observe lack msg voter else mret tt);
    succeed_keygen iter msg voter.

Definition Frost_handle (iter : gmap string Z → list (string * Z)) (msg : MsgKeygenVault) : KM unit :=
  _ ← record_metric msg;
  voter ← GetFrostVoter (gv_ID msg);
  let voter := open_voter msg voter in
  _ ← fail_if (negb (PubKey.Equals (fv_VaultPubKey voter) (gv_VaultPubKey msg))
               || negb (PubKey.Equals (fv_VaultPubKeyEddsa voter) (gv_VaultPubKeyEddsa msg)))
    "invalid vault pubkey";
  observe ← GetConfigInt64 Observation_SubmitPenaltyPoints;
  lack ← GetConfigInt64 Observation_MissPenaltyPoints;
  flex ← getConfigDurationBlocks Observation_DelayFlexibilityMinutes;
  let '(signed, voter) :=
    FrostVoter_Sign voter (gv_Signer msg) (gv_Chains msg) (gv_Secp256K1Signature msg) in
  if signed then count_attestation iter observe lack flex msg voter
  else IncPenaltyPoints observe [gv_Signer msg].

Definition Frost_Run (iter : gmap string Z → list (string * Z)) (msg : MsgKeygenVault) : KM unit :=
  msg ← Frost_validate msg; Frost_handle iter msg.

Definition FrostAnteHandler (msg : MsgKeygenVault) : KM unit :=
  _ ← lift (MsgKeygenVault_ValidateBasic msg);
  _ ← validateFrostAuth (gv_Signer msg);
  voter ← GetFrostVoter (gv_ID msg);
  let voter := if FrostVoter_IsEmpty voter
    then NewFrostVoter (gv_ID msg) (gv_PubKeys msg) (gv_VaultPubKey msg) (gv_VaultPubKeyEddsa msg)
    else voter in
  fail_if (negb (FrostVoter_Sign voter (gv_Signer msg) (gv_Chains msg)
                   (gv_Secp256K1Signature msg)).1) "frost attestation already submitted".

(** ** Reporting a failed signature (handler_frost_keysign.go) *)

Definition check_fail_node (node : Node) : res unit :=
  _ ← first_error
    [(4096 <? len (bn_BlameData node), "frost blame data too large");
     (256 <? len (bn_BlameSignature node), "frost blame signature too large")];
  match PubKey.NewPubKey (bn_Pubkey node) with
  | Ok _ => Ok tt | Err _ => Err "invalid blame node pubkey" | Panic e => Panic e
  end.

Definition MsgFrostKeysignFail_ValidateBasic (m : MsgFrostKeysignFail) : res unit :=
  let blame := kf_Blame m in
  _ ← first_error
    [(Acc_Empty (kf_Signer m), "invalid address");
     (len (kf_MsgID m) =? 0, "ID cannot be blank");
     ((length (kf_Coins m) =? 0)%nat, "no coins");
     ((1 <? length (kf_Coins m))%nat, "too many coins")];
  _ ← Coins.Valid (kf_Coins m);
  _ ← first_error
    [(Blame_IsEmpty blame, "frost blame is empty");
     (256 <? len (bl_FailReason blame), "frost blame reason too long");
     (256 <? len (bl_Round blame), "frost blame round too long");
     ((100 <? length (bl_BlameNodes blame))%nat, "too many frost blame nodes")];
  _ ← rfold (λ _ node, check_fail_node node) tt (bl_BlameNodes blame);
  _ ← first_error
    [(kf_MsgHeight m <=? 0, "block height cannot be equal to less than zero");
     (PubKey.IsEmpty (kf_PubKey m), "vault pubkey cannot be empty")];
  round ← NormalizeFrostKeysignRound (bl_Round blame);
  first_error [(negb (str_eq round (bl_Round blame)), "blame round must use canonical name")].

(** The blamed nodes of the message are sorted in place. *)
Definition NewMsgFrostKeysignFail (height : Z) (blame : Blame) (coins : list Coin)
    (signer pubKey : string) : res MsgFrostKeysignFail :=
  round ← NormalizeFrostKeysignRound (bl_Round blame);
  let blame := blame <| bl_Round := round |>
    <| bl_BlameNodes := sort_nodes (bl_BlameNodes blame) |> in
  Ok (mkMsgFrostKeysignFail (getMsgFrostKeysignFailID (bl_BlameNodes blame) height coins pubKey
        (bl_Round blame)) height blame coins pubKey signer).

(** Some signer is a member of a retiring vault. *)
Fixpoint any_retiring (vaults : list Vault) (signers : list string) : KM bool :=
  match signers with
  | [] => mret false
  | signer :: signers =>
      nodeAccount ← GetNodeAccount ctx signer;
      if existsb (λ v, PubKey.Contains (Vault.GetMembership v)
                         (pks_Secp256k1 (na_PubKeySet nodeAccount))) vaults
      then mret true else any_retiring vaults signers
  end.

Definition validateKeysignAuth `{Attestor} (signers : list string) : KM unit :=
  active ← isSignedByActiveNodeAccounts ctx signers;
  if (active : bool) then mret tt
  else
    vaults ← GetBaseVaultsByStatus ctx RetiringVault;
    shouldAccept ← (if (0 <? length vaults)%nat then any_retiring vaults signers else mret false);
    fail_if (negb shouldAccept) "not authorized".

Definition check_fail_id (msg : MsgFrostKeysignFail) : res unit :=
  m ← NewMsgFrostKeysignFail (kf_MsgHeight msg) (kf_Blame msg) (kf_Coins msg) (kf_Signer msg)
        (kf_PubKey msg);
  first_error [(negb (EqualFold (kf_MsgID m) (kf_MsgID msg)), "invalid keysign fail message")].

Definition Keysign_validate `{Attestor} (msg : MsgFrostKeysignFail) : KM MsgFrostKeysignFail :=
  _ ← lift (MsgFrostKeysignFail_ValidateBasic msg);
  _ ← lift (check_fail_id msg);
  let blame := (kf_Blame msg) <| bl_BlameNodes := sort_nodes (bl_BlameNodes (kf_Blame msg)) |> in
  _ ← validateKeysignAuth [kf_Signer msg];
  active ← ListActiveNodes;
  let total := Z.of_nat (length active) in
  _ ← fail_if (negb (HasSimpleMajority (total - Z.of_nat (length (bl_BlameNodes blame))) total))
    "blame cast too wide";
  mret (msg <| kf_Blame := blame |>).

Definition vault_nodes (vault : Vault) : KM (list NodeAccount) :=
  mfold (λ nas item, addr ← lift (PubKey.GetThorAddress item);
                     na ← GetNodeAccount ctx addr; mret (nas ++ [na])%list)
    [] (Vault.GetMembership vault).

(** A member's report of the last round is counted. *)
Definition count_last_round (msg : MsgFrostKeysignFail) (nodes : list NodeAccount)
    (voter : FrostKeysignFailVoter) : FrostKeysignFailVoter :=
  if is_final_round (bl_Round (kf_Blame msg))
     && existsb (λ na, Acc_Equals (kf_Signer msg) (na_NodeAddress na)) nodes
  then voter <| kf_LastRoundCount := kf_LastRoundCount voter +i 1 |> else voter.

Definition freeze (coins : list Coin) (vault : Vault) : Vault :=
  vault <| va_Frozen := foldl (λ frozen coin,
             let chain := ToUpper (a_Chain (c_Asset coin)) in
             if existsb (str_eq chain) frozen then frozen else (frozen ++ [chain])%list)
           (va_Frozen vault) coins |>.

Definition freezes (voter : FrostKeysignFailVoter) (nodes : list NodeAccount) : bool :=
  (1 <? kf_LastRoundCount voter)
  || (0 <? kf_LastRoundCount voter) && (MemberSignerCount voter nodes <=? 2).

Definition markTxOutPendingRetry (msg : MsgFrostKeysignFail) : KM unit :=
  txOut ← GetTxOut (kf_MsgHeight msg);
  if negb (str_eq (txo_Status txOut) TxOutStatusPendingSign) || negb (txOutHasPendingItems txOut)
  then mret tt
  else if negb (existsb (λ item, TxID.IsEmpty (to_OutHash item)
                          && PubKey.Equals (to_VaultPubKey item) (kf_PubKey msg)) (txo_TxArray txOut))
  then mret tt
  else
    window ← getConfigDurationBlocks Withdrawal_BatchWindowMinutes;
    _ ← try (SetTxOut (txOut <| txo_Status := TxOutStatusPendingRetry |>
          <| txo_RetryUntilHeight := BlockHeight ctx +i window |> <| txo_SigningLeader := "" |>));
    mret tt.

Definition blame_signer (penaltyPoints : Z) (node : Node) : KM unit :=
  nodePubKey ← lift (PubKey.NewPubKey (bn_Pubkey node));
  na ← GetNodeAccountByPubKey ctx nodePubKey;
  _ ← try (IncNodeAccountPenaltyPoints (na_NodeAddress na) penaltyPoints);
  jail_for Keysign_FailJailMinutes (na_NodeAddress na) "failed to perform keysign".

(** The majority of the vault's members has reported the failure. *)
Definition act_on_failure (observe : Z) (msg : MsgFrostKeysignFail) (vault : Vault)
    (nodes : list NodeAccount) (voter : FrostKeysignFailVoter) : KM unit :=
  _ ← (if freezes voter nodes then SetVault (freeze (kf_Coins msg) vault) else mret tt);
  _ ← DecPenaltyPoints observe (GetSigners voter);
  _ ← SetFrostKeysignFailVoter (voter <| kf_Signers := [] |> <| kf_LastRoundCount := 0 |>);
  _ ← markTxOutPendingRetry msg;
  penaltyPoints ← GetConfigInt64 Keysign_FailPenaltyPoints;
  mfor (blame_signer penaltyPoints) (bl_BlameNodes (kf_Blame msg)).

Definition Keysign_handle (msg : MsgFrostKeysignFail) : KM unit :=
  voter ← GetFrostKeysignFailVoter (kf_MsgID msg);
  observe ← GetConfigInt64 Observation_SubmitPenaltyPoints;
  _ ← IncPenaltyPoints observe [kf_Signer msg];
  let '(signed, voter) := Sign voter (kf_Signer msg) in
  if negb signed then mret tt
  else
    vault ← GetVault ctx (kf_PubKey msg);
    if Vault.IsEmpty vault then SetFrostKeysignFailVoter voter
    else
      nodes ← vault_nodes vault;
      let voter := count_last_round msg nodes voter in
      _ ← SetFrostKeysignFailVoter voter;
      if negb (FrostKeysignFailVoter_HasConsensus voter nodes) then mret tt
      else act_on_failure observe msg vault nodes voter.

Definition Keysign_Run `{Attestor} (msg : MsgFrostKeysignFail) : KM unit :=
  msg ← Keysign_validate msg; Keysign_handle msg.

Definition FrostKeysignFailAnteHandler `{Attestor} (msg : MsgFrostKeysignFail) : KM unit :=
  _ ← lift (MsgFrostKeysignFail_ValidateBasic msg);
  _ ← lift (check_fail_id msg);
  _ ← validateKeysignAuth [kf_Signer msg];
  voter ← GetFrostKeysignFailVoter (kf_MsgID msg);
  let voter := if FrostKeysignFailVoter_Empty voter
    then NewFrostKeysignFailVoter (kf_MsgID msg) (kf_MsgHeight msg) else voter in
  fail_if (negb (Sign voter (kf_Signer msg)).1)
    "frost keysign failure attestation already submitted".
End Frost.

(** ** Lemmas *)

Section KeygenFacts.
Context `{Ext} `{FrostExt} (iter : gmap string Z → list (string * Z)).

(** A history of attestations: the messages that passed, other operations in
    between, which leave the voters of key generations alone.  The signer of a
    transaction is an account. *)
Inductive attested (s0 : KVStore) : list MsgKeygenVault → KVStore → Prop :=
| attested_start : attested s0 [] s0
| attested_other h s s' : attested s0 h s → kv_frost s' = kv_frost s → attested s0 h s'
| attested_by h s ctx msg s' :
    attested s0 h s → AccAddressFromBech32 (gv_Signer msg) = Ok (gv_Signer msg) →
    Frost_Run ctx iter msg s = (Ok tt, s') → attested s0 (h ++ [msg]) s'.

Definition vote_key (msg : MsgKeygenVault) : string := ToUpper (gv_ID msg).

(** What the history says of a voter: distinct members have signed it, each by
    a message of its own for the members the voter has. *)
Record voter_ok (h : list MsgKeygenVault) (key : string) (v : FrostVoter) : Prop := {
  vo_key : ToUpper (fv_ID v) = key;
  vo_open : PubKey.IsEmpty (fv_VaultPubKey v) = true ∨ fv_Signers v ≠ [];
  vo_parsed : GetSigners v = fv_Signers v;
  vo_distinct : NoDup (fv_Signers v);
  vo_member a : a ∈ fv_Signers v → a ∈ member_addresses (fv_PubKeys v);
  vo_message a : a ∈ fv_Signers v → ∃ m, m ∈ h ∧ gv_Signer m = a ∧ vote_key m = key
    ∧ fv_PubKeys v = insert_sort str_lt (gv_PubKeys m)
}.

Definition voters_ok (h : list MsgKeygenVault) (s : KVStore) : Prop :=
  map_Forall (voter_ok h) (kv_frost s).

(** An identifier, as the store files it, names the members it was computed
    from. *)
Definition ids_bind (h : list MsgKeygenVault) : Prop :=
  ∀ m m', m ∈ h → m' ∈ h → vote_key m = vote_key m' →
    insert_sort str_lt (gv_PubKeys m) = insert_sort str_lt (gv_PubKeys m').

Lemma voters_frame h s s' : kv_frost s = kv_frost s' → voters_ok h s → voters_ok h s'.
Proof. unfold voters_ok. by intros ->. Qed.

Lemma voter_ok_more h m key v : voter_ok h key v → voter_ok (h ++ [m]) key v.
Proof.
  intros [Hk Ho Hp Hd Hm Hs]. split; try done. intros a Ha. destruct (Hs a Ha) as (x & Hx & ?).
  exists x. split; [set_solver|done].
Qed.

Lemma set_voter_yields h v : voter_ok h (ToUpper (fv_ID v)) v →
  yields (voters_ok h) (SetFrostVoter v) (λ _, True).
Proof.
  intros Hv. apply yields_modify. intros s Hs. by apply map_Forall_insert_2.
Qed.

Lemma get_voter_yields h id :
  yields (voters_ok h) (GetFrostVoter id) (λ v, voter_ok h (ToUpper id) v).
Proof.
  unfold GetFrostVoter, getShielderJSON. eapply yields_bind.
  { apply (yields_gets _ _ (λ o, ∀ v, o = Some v → voter_ok h (ToUpper id) v)). intros s Hs v Hv. by apply (Hs _ v Hv). }
  intros [v|] Hv; apply yields_ret; [by apply Hv|]. split; try done; [by left|constructor|..];
    by intros a Ha%not_elem_of_nil.
Qed.

(** Everything else a handler does leaves the voters alone. *)
Lemma voters_kept {A} h (m : KM A) : keeps kv_frost m → yields (voters_ok h) m (λ _, True).
Proof. apply yields_keeps. intros s s'. apply voters_frame. Qed.

Lemma voter_ok_same h key v v' :
  fv_ID v' = fv_ID v → fv_VaultPubKey v' = fv_VaultPubKey v → fv_PubKeys v' = fv_PubKeys v →
  fv_Signers v' = fv_Signers v → voter_ok h key v → voter_ok h key v'.
Proof.
  intros Hi Hv Hp Hs [Hk Ho Hg Hd Hm Hw].
  split; rewrite ?Hi, ?Hv, ?Hp, ?Hs; try done. rewrite <- Hg. unfold GetSigners. cbn. by rewrite Hs.
Qed.

(** The members an opened voter has are those of the message. *)
Lemma open_members h msg v : msg ∈ h → ids_bind h → voter_ok h (vote_key msg) v →
  fv_PubKeys (open_voter (sort_members msg) v) = insert_sort str_lt (gv_PubKeys msg)
  ∧ (fv_Signers v ≠ [] → fv_PubKeys v = insert_sort str_lt (gv_PubKeys msg)).
Proof.
  intros Hh Hb [Hk Ho Hg Hd Hm Hw].
  assert (Hsame : fv_Signers v ≠ [] → fv_PubKeys v = insert_sort str_lt (gv_PubKeys msg)).
  { destruct (fv_Signers v) as [|a l] eqn:E; [done|]. intros _.
    destruct (Hw a ltac:(left)) as (m & Hin & _ & Hkm & ->). by apply Hb. }
  split; [|done]. unfold open_voter. destruct (PubKey.IsEmpty _) eqn:E; [done|].
  destruct Ho as [Ho|Ho]; [congruence|auto].
Qed.

Lemma signed_ok h msg v v' chains sig :
  msg ∈ h → ids_bind h → voter_ok h (vote_key msg) v →
  AccAddressFromBech32 (gv_Signer msg) = Ok (gv_Signer msg) →
  FrostVoter_Sign (open_voter (sort_members msg) v) (gv_Signer msg) chains sig = (true, v') →
  voter_ok h (vote_key msg) v' ∧ gv_Signer msg ∈ fv_Signers v'
  ∧ fv_PubKeys v' = insert_sort str_lt (gv_PubKeys msg).
Proof.
  intros Hh Hb Hv Hacc. destruct (open_members h msg v Hh Hb Hv) as [Hpk Hsame].
  destruct Hv as [Hk Ho Hg Hd Hm Hw]. set (w := open_voter _ v) in *.
  assert (Hw1 : fv_Signers w = fv_Signers v) by (unfold w, open_voter; by destruct (PubKey.IsEmpty _)).
  assert (Hw2 : fv_ID w = fv_ID v) by (unfold w, open_voter; by destruct (PubKey.IsEmpty _)).
  assert (Hw3 : GetSigners w = fv_Signers v) by (unfold GetSigners in *; cbn in *; by rewrite Hw1).
  unfold FrostVoter_Sign. destruct (HasSigned w (gv_Signer msg)) eqn:Es; [done|].
  destruct (is_member w (gv_Signer msg)) eqn:Em; [|done]. apply is_member_spec in Em. rewrite Hpk in Em.
  assert (Hnew : gv_Signer msg ∉ fv_Signers v).
  { rewrite <- Hw3. intros Hin. apply has_signed_spec in Hin. congruence. }
  intros [= <-].
  assert (Hfields : ∀ w', fv_ID w' = fv_ID w → fv_PubKeys w' = fv_PubKeys w →
    fv_Signers w' = (fv_Signers w ++ [gv_Signer msg])%list →
    voter_ok h (vote_key msg) w' ∧ gv_Signer msg ∈ fv_Signers w'
    ∧ fv_PubKeys w' = insert_sort str_lt (gv_PubKeys msg)).
  { intros w' Hi Hp Hs. rewrite Hw1 in Hs. rewrite Hpk in Hp. rewrite Hw2 in Hi.
    split; [|split; [rewrite Hs; set_solver|done]]. split.
    - by rewrite Hi.
    - right. rewrite Hs. by destruct (fv_Signers v).
    - unfold GetSigners, parse_accounts in *. cbn in *. rewrite Hs, omap_app, Hg. cbn. by rewrite Hacc.
    - rewrite Hs. apply NoDup_app. split_and!; [done|set_solver|apply NoDup_singleton].
    - rewrite Hs, Hp. intros a [Ha|Ha%list_elem_of_singleton]%elem_of_app; [|by subst].
      rewrite <- Hsame; [by apply Hm|]. by destruct (fv_Signers v); [apply not_elem_of_nil in Ha|].
    - rewrite Hs, Hp. intros a [Ha|Ha%list_elem_of_singleton]%elem_of_app.
      + destruct (Hw a Ha) as (m & Hin & ? & ? & Hpm). exists m. split_and!; [set_solver|done..|].
        rewrite <- Hpm, Hsame; [done|]. by destruct (fv_Signers v); [apply not_elem_of_nil in Ha|].
      + exists msg. split_and!; [set_solver|done..]. }
  destruct (0 <? String.length sig)%nat; by apply Hfields.
Qed.

(** *** Frames of the handler *)

#[local] Abbreviation frame := (λ s, (kv_frost s, kv_vault s)).

#[local] Hint Unfold IncNodeAccountPenaltyPoints DecNodeAccountPenaltyPoints
  GetNodeAccountPenaltyPoints SetNodeAccountPenaltyPoints ResetNodeAccountPenaltyPoints GetNodeAccountByPubKey
  ListNodesByStatus : flow.

Lemma inc_frame points addrs : keeps frame (IncPenaltyPoints points addrs).
Proof. unfold IncPenaltyPoints. frame_tac. Qed.
Lemma dec_frame points addrs : keeps frame (DecPenaltyPoints points addrs).
Proof. unfold DecPenaltyPoints. frame_tac. Qed.
Lemma metric_frame msg : keeps frame (record_metric msg).
Proof. unfold record_metric, GetFrostKeygenMetric, SetFrostKeygenMetric. frame_tac. Qed.
Lemma jail_frame ctx n addr reason : keeps frame (jail_for ctx n addr reason).
Proof. unfold jail_for, SetNodeAccountJail, GetNodeAccountJail. frame_tac. Qed.
#[local] Hint Resolve inc_frame dec_frame metric_frame jail_frame : keeps.

Lemma fail_keygen_frame ctx msg : keeps frame (fail_keygen ctx msg).
Proof. unfold fail_keygen, reset_selected, blame_node. frame_tac. Qed.
Lemma late_frame ctx points addr : keeps frame (late_member ctx points addr).
Proof. unfold late_member. frame_tac. Qed.
Lemma release_frame ctx addr : keeps frame (ReleaseNodeAccountFromJail ctx addr).
Proof. unfold ReleaseNodeAccountFromJail, GetNodeAccountJail. frame_tac. Qed.
#[local] Hint Resolve fail_keygen_frame late_frame release_frame : keeps.

Lemma frame_frost {A} (m : KM A) : keeps frame m → keeps kv_frost m.
Proof. intros Hm s. specialize (Hm s). by injection Hm. Qed.
Lemma frame_vault {A} (m : KM A) : keeps frame m → keeps kv_vault m.
Proof. intros Hm s. specialize (Hm s). by injection Hm. Qed.
#[local] Hint Resolve frame_frost frame_vault : keeps.

(** *** The voters of a history stay in order *)

Lemma first_consensus_yields h ctx observe lack msg v : voter_ok h (ToUpper (fv_ID v)) v →
  yields (voters_ok h) (first_consensus ctx observe lack msg v) (λ _, True).
Proof.
  intros Hv. eapply yields_bind; [by apply set_voter_yields|]. intros _ _.
  apply voters_kept, frame_frost. keeps_tac.
Qed.

Lemma judge_yields h ctx msg v : voter_ok h (ToUpper (fv_ID v)) v →
  yields (voters_ok h) (judgeLateSigner ctx msg v) (λ _, True).
Proof.
  intros Hv. unfold judgeLateSigner. destruct (_ || _); [by apply yields_ret|].
  eapply yields_bind; [by apply voters_kept|]. intros points _.
  destruct (0 <? _); [apply voters_kept, frame_frost; keeps_tac|]. cbv zeta.
  eapply yields_bind; [apply set_voter_yields; by apply (voter_ok_same _ _ v)|]. intros _ _.
  apply voters_kept, frame_frost. keeps_tac.
Qed.

Lemma set_vault_frost v : keeps kv_frost (SetVault v).
Proof.
  unfold SetVault, addBaseIndex, getBaseIndex, addBaseEDDSAIndex, getBaseEDDSAIndex,
    getShielderJSON, setShielderJSON. frame_tac.
Qed.
Lemma all_vaults_keeps {T} (p : KVStore → T) ctx : keeps p (GetBaseVaults ctx).
Proof. unfold GetBaseVaults, getBaseIndex. keeps_tac. apply get_vault_keeps. Qed.
#[local] Hint Resolve set_vault_frost base_vaults_keeps all_vaults_keeps get_vault_keeps : keeps.

Lemma rotate_frost ctx v : keeps kv_frost (RotateVault ctx v).
Proof.
  unfold RotateVault, retire_conflicting, join_vault, cleanupBaseIndex, cleanup_vault,
    RemoveFromBaseIndex, getBaseIndex. frame_tac.
Qed.
#[local] Hint Resolve rotate_frost : keeps.

Lemma succeed_yields h ctx msg v : voter_ok h (ToUpper (fv_ID v)) v →
  yields (voters_ok h) (succeed_keygen ctx iter msg v) (λ _, True).
Proof.
  intros Hv. unfold succeed_keygen. destruct (negb _); [by apply yields_ret|].
  eapply yields_bind; [by apply judge_yields|]. intros _ _.
  destruct (negb _); [by apply yields_ret|]. destruct (_ && _); [by apply yields_ret|].
  unfold complete_keygen. cbv zeta.
  eapply yields_bind; [apply set_voter_yields; by apply (voter_ok_same _ _ v)|]. intros _ _.
  apply voters_kept. unfold GetKeygenBlock. frame_tac.
Qed.

Lemma count_yields h ctx observe lack flex msg v : voter_ok h (ToUpper (fv_ID v)) v →
  yields (voters_ok h) (count_attestation ctx iter observe lack flex msg v) (λ _, True).
Proof.
  intros Hv. eapply yields_bind; [by apply set_voter_yields|]. intros _ _.
  destruct (negb _); [apply voters_kept, frame_frost; keeps_tac|].
  eapply yields_bind; [apply voters_kept, frame_frost; keeps_tac|]. intros _ _.
  cbv zeta. set (v' := if fv_BlockHeight v =? 0 then _ else v).
  assert (Hv' : voter_ok h (ToUpper (fv_ID v')) v').
  { unfold v'. destruct (_ =? 0); [by apply (voter_ok_same _ _ v)|done]. }
  eapply (yields_bind _ _ _ (λ _, True)); [|intros _ _; by apply succeed_yields].
  destruct (_ =? 0); [by apply first_consensus_yields|by apply yields_ret].
Qed.

Lemma handle_yields h ctx msg : msg ∈ h → ids_bind h →
  AccAddressFromBech32 (gv_Signer msg) = Ok (gv_Signer msg) →
  yields (voters_ok h) (Frost_handle ctx iter (sort_members msg)) (λ _, True).
Proof.
  intros Hh Hb Hacc. unfold Frost_handle.
  eapply yields_bind; [apply voters_kept, frame_frost; keeps_tac|]. intros _ _.
  eapply yields_bind; [apply get_voter_yields|]. intros v Hv. cbv zeta.
  eapply yields_bind; [apply yields_fail_if|]. intros _ _.
  do 3 (eapply yields_bind; [by apply voters_kept|]; intros ? _).
  destruct (FrostVoter_Sign _ _ _ _) as [[] v'] eqn:E;
    [|apply voters_kept, frame_frost; keeps_tac].
  destruct (signed_ok h msg v v' _ _ Hh Hb Hv Hacc E) as (Hv' & _).
  apply count_yields. by rewrite (vo_key _ _ _ Hv').
Qed.

Lemma auth_run ctx signer s s' : validateFrostAuth ctx signer s = (Ok tt, s') → s' = s.
Proof.
  intros Hrun. apply (keeps_run (λ s, s)) in Hrun; [done|]. unfold validateFrostAuth. frame_tac.
Qed.

(** A message that passes its validation names a key generation of its block,
    and carries the identifier of its members. *)
Lemma validate_run ctx msg s msg' s' : Frost_validate ctx msg s = (Ok msg', s') →
  msg' = sort_members msg ∧ s' = s
  ∧ ∃ keygenBlock keygen, GetKeygenBlock (gv_Height msg) s = (Ok keygenBlock, s)
    ∧ keygen ∈ kb_Keygens keygenBlock ∧ attests msg' keygen = true.
Proof.
  intros Hrun. unfold Frost_validate in Hrun.
  apply bind_Ok in Hrun as ([] & s1 & [_ ->]%lift_Ok & Hrun). go_guards Hrun.
  apply bind_Ok in Hrun as ([] & s1 & Hmin & Hrun).
  assert (s1 = s) as ->.
  { apply (keeps_run (λ s, s)) in Hmin; [done|]. unfold enough_members. frame_tac. }
  apply bind_Ok in Hrun as ([] & s1 & [_ ->]%lift_Ok & Hrun). go_guards Hrun.
  apply bind_Ok in Hrun as (retry & s1 & [_ ->]%gets_Ok & Hrun). go_guards Hrun.
  apply bind_Ok in Hrun as ([] & s1 & [_ ->]%lift_Ok & Hrun).
  apply bind_Ok in Hrun as (block & s1 & Hblock & Hrun).
  assert (s1 = s) as -> by (apply (keeps_run (λ s, s)) in Hblock; [done|]; unfold GetKeygenBlock; frame_tac).
  apply bind_Ok in Hrun as ([] & s1 & Hauth & [-> ->]%mret_Ok).
  destruct (existsb _ _) eqn:E; [|by apply fail_Ok in Hauth].
  apply auth_run in Hauth as ->. split_and!; try done.
  apply existsb_exists in E as (keygen & Hin & E). exists block, keygen.
  split_and!; [done|by apply list_elem_of_In|done].
Qed.

Lemma attested_voters s0 h s : kv_frost s0 = ∅ → attested s0 h s → ids_bind h → voters_ok h s.
Proof.
  intros H0'. induction 1 as [|h s s' Hr IH Hf|h s ctx msg s' Hr IH Hacc Hrun]; intros Hb.
  - unfold voters_ok. rewrite H0'. apply map_Forall_empty.
  - eapply voters_frame; [symmetry; exact Hf|auto].
  - assert (Hs : voters_ok (h ++ [msg]) s).
    { intros k v Hv. apply voter_ok_more. revert Hv. apply IH. intros m m' Hm Hm'. apply Hb; set_solver. }
    apply bind_Ok in Hrun as (msg' & s1 & Hval & Hrun).
    destruct (validate_run ctx msg s msg' s1 Hval) as (-> & -> & _).
    destruct (handle_yields (h ++ [msg]) ctx msg ltac:(set_solver) Hb Hacc s Hs) as [Hok _].
    by rewrite Hrun in Hok.
Qed.

(** *** The store of vaults *)

(** Until the last member has attested, no vault changes. *)
Lemma judge_vaults ctx msg v : keeps kv_vault (judgeLateSigner ctx msg v).
Proof. unfold judgeLateSigner, SetFrostVoter. frame_tac. Qed.
#[local] Hint Resolve judge_vaults : keeps.

Lemma succeed_vaults ctx msg v :
  IsSuccess msg && HasCompleteConsensus v = false → keeps kv_vault (succeed_keygen ctx iter msg v).
Proof.
  intros Hc. unfold succeed_keygen. destruct (IsSuccess msg); [|apply keeps_ret]. cbn in Hc |- *.
  apply keeps_bind; [apply judge_vaults|]. intros _. rewrite Hc. apply keeps_ret.
Qed.

Lemma first_vaults ctx observe lack msg v : keeps kv_vault (first_consensus ctx observe lack msg v).
Proof. unfold first_consensus, SetFrostVoter. frame_tac. Qed.
#[local] Hint Resolve first_vaults : keeps.

Lemma count_vaults ctx observe lack flex msg v :
  IsSuccess msg && HasCompleteConsensus v = false →
  keeps kv_vault (count_attestation ctx iter observe lack flex msg v).
Proof.
  intros Hc. unfold count_attestation, SetFrostVoter.
  apply keeps_bind; [frame_tac|intros _]. destruct (negb _); [frame_tac|].
  apply keeps_bind; [frame_tac|intros _]. cbv zeta. apply keeps_bind; [frame_tac|intros _].
  apply succeed_vaults. by destruct (_ =? 0).
Qed.

(** A run that changes a vault has counted the attestation of the last member. *)
Lemma handle_vaults h ctx msg s s' : msg ∈ h → ids_bind h → voters_ok h s →
  AccAddressFromBech32 (gv_Signer msg) = Ok (gv_Signer msg) →
  Frost_handle ctx iter (sort_members msg) s = (Ok tt, s') → kv_vault s' ≠ kv_vault s →
  IsSuccess msg = true ∧ ∃ v, voter_ok h (vote_key msg) v
    ∧ fv_PubKeys v = insert_sort str_lt (gv_PubKeys msg) ∧ HasCompleteConsensus v = true.
Proof.
  intros Hh Hb Hs Hacc Hrun Hdiff. unfold Frost_handle in Hrun.
  apply bind_Ok in Hrun as ([] & s1 & Hm & Hrun).
  pose proof (metric_frame (sort_members msg) s) as Hf. rewrite Hm in Hf. cbn in Hf.
  injection Hf as Hf1 Hf2. rewrite <- Hf2 in Hdiff.
  apply bind_Ok in Hrun as (v & s2 & Hv & Hrun).
  destruct (yields_run _ _ _ s1 v s2 (get_voter_yields h _) ltac:(by eapply voters_frame) Hv) as [_ Hvok].
  apply (keeps_run (λ s, s)) in Hv; [|unfold GetFrostVoter; frame_tac]. subst s2.
  go_guards Hrun.
  do 3 apply bind_Ok in Hrun as (? & ? & [_ ->]%gets_Ok & Hrun).
  destruct (FrostVoter_Sign _ _ _ _) as [[] v'] eqn:E; cycle 1.
  { apply (keeps_run kv_vault) in Hrun; [done|]. frame_tac. }
  destruct (signed_ok h msg v v' _ _ Hh Hb Hvok Hacc E) as (Hv' & _ & Hpk).
  destruct (IsSuccess (sort_members msg) && HasCompleteConsensus v') eqn:Ec.
  - apply andb_true_iff in Ec as [Hsuc Hc]. split; [done|]. by exists v'.
  - apply (keeps_run kv_vault) in Hrun; [done|]. by apply count_vaults.
Qed.

(** Distinct signers as many as there are keys are all the members. *)
Lemma complete_members h key v : voter_ok h key v → HasCompleteConsensus v = true →
  ∀ a, a ∈ member_addresses (fv_PubKeys v) → a ∈ fv_Signers v.
Proof.
  intros [_ _ _ Hd Hm _] Hc%Nat.eqb_eq a Ha.
  assert (Hsub : fv_Signers v ⊆+ member_addresses (fv_PubKeys v)) by by apply NoDup_submseteq.
  assert (Hlen : (length (member_addresses (fv_PubKeys v)) <= length (fv_Signers v))%nat).
  { rewrite Hc. unfold member_addresses, parse_pubkeys. etrans; apply omap_length. }
  by rewrite (submseteq_length_Permutation _ _ Hsub Hlen).
Qed.
End KeygenFacts.

(** *** Reports of failed signatures *)

(** What neither penalties nor jail change. *)
#[local] Abbreviation report_frame := (λ s,
  (kv_config s, kv_vault s, kv_txout s, kv_node_account s, kv_frost_keysign_failure s)).

Section KeysignFacts.
Context `{Ext} `{FrostExt} `{Attestor}.

(** A history of reports, other operations in between. *)
Inductive reported (s0 : KVStore) : KVStore → Prop :=
| reported_start : reported s0 s0
| reported_other s s' : reported s0 s → kv_frost_keysign_failure s' = kv_frost_keysign_failure s →
    reported s0 s'
| reported_by s ctx msg : reported s0 s → reported s0 (Keysign_Run ctx msg s).2.

(** No voter has a height: the handler never sets it. *)
Definition no_height (s : KVStore) : Prop :=
  map_Forall (λ _ v, kf_Height v = 0) (kv_frost_keysign_failure s).

Lemma no_height_kept {A} (m : KM A) : keeps kv_frost_keysign_failure m → yields no_height m (λ _, True).
Proof. apply yields_keeps. intros s s' Hs. unfold no_height. by rewrite Hs. Qed.

Lemma no_height_set v : kf_Height v = 0 → yields no_height (SetFrostKeysignFailVoter v) (λ _, True).
Proof. intros Hv. apply yields_modify. intros s Hs. by apply map_Forall_insert_2. Qed.

Lemma no_height_get id : yields no_height (GetFrostKeysignFailVoter id) (λ v, kf_Height v = 0).
Proof.
  unfold GetFrostKeysignFailVoter, getShielderJSON. eapply yields_bind.
  { apply (yields_gets _ _ (λ o, ∀ v, o = Some v → kf_Height v = 0)). intros s Hs v Hv.
    by apply (Hs _ v Hv). }
  intros [v|] Hv; apply yields_ret; [by apply Hv|done].
Qed.

#[local] Hint Unfold IncNodeAccountPenaltyPoints DecNodeAccountPenaltyPoints
  GetNodeAccountPenaltyPoints SetNodeAccountPenaltyPoints ResetNodeAccountPenaltyPoints
  GetNodeAccountByPubKey ListNodesByStatus : flow.

Lemma inc_rest points addrs : keeps report_frame (IncPenaltyPoints points addrs).
Proof. unfold IncPenaltyPoints. frame_tac. Qed.
Lemma dec_rest points addrs : keeps report_frame (DecPenaltyPoints points addrs).
Proof. unfold DecPenaltyPoints. frame_tac. Qed.
Lemma blame_rest ctx points node : keeps report_frame (blame_signer ctx points node).
Proof. unfold blame_signer, jail_for, SetNodeAccountJail, GetNodeAccountJail. frame_tac. Qed.
#[local] Hint Resolve inc_rest dec_rest blame_rest : keeps.

Lemma rest_voters {A} (m : KM A) : keeps report_frame m → keeps kv_frost_keysign_failure m.
Proof. intros Hm s. specialize (Hm s). by injection Hm. Qed.

#[local] Abbreviation others := (λ s, (kv_config s, kv_txout s, kv_frost_keysign_failure s)).

Lemma set_vault_others v : keeps others (SetVault v).
Proof.
  unfold SetVault, addBaseIndex, getBaseIndex, addBaseEDDSAIndex, getBaseEDDSAIndex,
    getShielderJSON, setShielderJSON. frame_tac.
Qed.
Lemma set_vault_voters v : keeps kv_frost_keysign_failure (SetVault v).
Proof. intros s. pose proof (set_vault_others v s) as Hs. by injection Hs. Qed.

Lemma mark_retry_voters ctx msg : keeps kv_frost_keysign_failure (markTxOutPendingRetry ctx msg).
Proof. unfold markTxOutPendingRetry, GetTxOut, SetTxOut. frame_tac. Qed.
#[local] Hint Resolve rest_voters set_vault_voters mark_retry_voters : keeps.

Lemma vault_nodes_reads {T} (p : KVStore → T) ctx vault : keeps p (vault_nodes ctx vault).
Proof. unfold vault_nodes. frame_tac. Qed.
#[local] Hint Resolve vault_nodes_reads get_vault_keeps base_vaults_keeps : keeps.

Lemma keysign_no_height ctx msg : yields no_height (Keysign_handle ctx msg) (λ _, True).
Proof.
  unfold Keysign_handle. eapply yields_bind; [apply no_height_get|]. intros v Hv.
  eapply yields_bind; [by apply no_height_kept|]. intros observe _.
  eapply yields_bind; [apply no_height_kept; keeps_tac|]. intros _ _.
  destruct (Sign v (kf_Signer msg)) as [signed v'] eqn:E.
  assert (Hv' : kf_Height v' = 0).
  { unfold Sign in E. by destruct (HasSigned _ _); injection E as <- <-. }
  destruct (negb signed); [by apply yields_ret|].
  eapply yields_bind; [apply no_height_kept; keeps_tac|]. intros vault _.
  destruct (Vault.IsEmpty vault); [by apply no_height_set|].
  eapply yields_bind; [apply no_height_kept; keeps_tac|]. intros nodes _. cbv zeta.
  set (w := count_last_round msg nodes v').
  assert (Hw : kf_Height w = 0) by (unfold w, count_last_round; by destruct (_ && _)).
  eapply yields_bind; [by apply no_height_set|]. intros _ _.
  destruct (negb _); [by apply yields_ret|]. unfold act_on_failure.
  eapply yields_bind; [apply no_height_kept; keeps_tac|]. intros _ _.
  eapply yields_bind; [apply no_height_kept; keeps_tac|]. intros _ _.
  eapply yields_bind; [by apply no_height_set|]. intros _ _.
  apply no_height_kept. frame_tac.
Qed.

Lemma keysign_auth_reads {T} (p : KVStore → T) ctx signers : keeps p (validateKeysignAuth ctx signers).
Proof.
  unfold validateKeysignAuth, isSignedByActiveNodeAccounts.
  assert (Hs : ∀ l, keeps p (isSignedByActiveNodeAccounts_from ctx l)).
  { induction l; cbn; unfold signedByActiveNodeAccount; frame_tac; done. }
  assert (Hr : ∀ vaults l, keeps p (any_retiring ctx vaults l)) by (induction l; cbn; frame_tac; auto).
  keeps_tac; auto.
Qed.
#[local] Hint Resolve keysign_auth_reads : keeps.

Lemma reported_no_height s0 s : kv_frost_keysign_failure s0 = ∅ → reported s0 s → no_height s.
Proof.
  intros H0'. induction 1 as [|s s' Hr IH Hs|s ctx msg Hr IH].
  - unfold no_height. rewrite H0'. apply map_Forall_empty.
  - unfold no_height in *. by rewrite Hs.
  - assert (Hy : yields no_height (Keysign_Run ctx msg) (λ _, True)).
    { unfold Keysign_Run. eapply yields_bind; [|intros msg' _; apply keysign_no_height].
      apply no_height_kept. unfold Keysign_validate, ListActiveNodes. frame_tac. }
    by apply Hy.
Qed.

(** *** What a majority of reports does *)

Lemma vault_nodes_same ctx vault s s' : kv_node_account s = kv_node_account s' →
  (vault_nodes ctx vault s).1 = (vault_nodes ctx vault s').1.
Proof.
  intros Hs. unfold vault_nodes. set (f := λ nas item, _).
  assert (Hf : ∀ l acc, (mfold f acc l s).1 = (mfold f acc l s').1); [|apply Hf].
  induction l as [|pk l IH]; intros acc; [done|]. rewrite !mfold_cons. unfold f at 2 4.
  unfold mbind, M_bind, lift. destruct (PubKey.GetThorAddress pk) as [addr|e|e]; [|done..].
  unfold GetNodeAccount, getShielderJSON, gets, mbind, M_bind, mret, M_ret. rewrite Hs. apply IH.
Qed.

(** The report counts of a voter: one for each member of the vault that has
    reported the last round, none for another round. *)
Definition counted (msg : MsgFrostKeysignFail) (nodes : list NodeAccount)
    (v : FrostKeysignFailVoter) : Prop :=
  kf_LastRoundCount v
  = if is_final_round (bl_Round (kf_Blame msg)) then MemberSignerCount v nodes else 0.

Lemma counted_signed msg nodes v v' :
  AccAddressFromBech32 (kf_Signer msg) = Ok (kf_Signer msg) → MemberSignerCount v nodes < two63 - 1 →
  counted msg nodes v → Sign v (kf_Signer msg) = (true, v') → counted msg nodes (count_last_round msg nodes v').
Proof.
  intros Hacc Hlt Hc Hs. unfold Sign in Hs. destruct (HasSigned v (kf_Signer msg)); [done|].
  injection Hs as <-.
  assert (Hm : ∀ w, kf_Signers w = (kf_Signers v ++ [kf_Signer msg])%list → MemberSignerCount w nodes
    = MemberSignerCount v nodes
      + if existsb (λ na, Acc_Equals (kf_Signer msg) (na_NodeAddress na)) nodes then 1 else 0).
  { intros w Hw. unfold MemberSignerCount, GetSigners, parse_accounts. cbn. rewrite Hw.
    rewrite omap_app. cbn. rewrite Hacc, List.filter_app, length_app. cbn. destruct (existsb _ _); cbn; lia. }
  assert (H0' : 0 <= MemberSignerCount v nodes) by (unfold MemberSignerCount; lia).
  unfold counted, count_last_round in *.
  destruct (is_final_round _); cbn [andb].
  - destruct (existsb _ _) eqn:E; rewrite Hm; try done; rewrite ?E; cbn; rewrite Hc; [|lia].
    unfold i64. rewrite Z.mod_small; unfold two64, two63 in *; lia.
  - by rewrite <- Hc.
Qed.

(** With a majority the vault freezes exactly at the last round. *)
Lemma freezes_final msg nodes v : counted msg nodes v →
  FrostKeysignFailVoter_HasConsensus v nodes = true →
  freezes v nodes = is_final_round (bl_Round (kf_Blame msg)).
Proof.
  intros Hc [Hpos _]%simple_majority_spec; [|lia]. unfold freezes. rewrite Hc.
  destruct (is_final_round _); lia.
Qed.

(** The batch as the retry leaves it. *)
Definition retried (until : Z) (msg : MsgFrostKeysignFail) (txOut : TxOut) : option TxOut :=
  if str_eq (txo_Status txOut) TxOutStatusPendingSign
     && existsb (λ item, TxID.IsEmpty (to_OutHash item)
                  && PubKey.Equals (to_VaultPubKey item) (kf_PubKey msg)) (txo_TxArray txOut)
  then Some (txOut <| txo_Status := TxOutStatusPendingRetry |>
               <| txo_RetryUntilHeight := until |> <| txo_SigningLeader := "" |>)
  else None.

Definition after_retry (ctx : Ctx) (msg : MsgFrostKeysignFail) (s : KVStore) : gmap string TxOut :=
  let txOut := from_option (NewTxOut (kf_MsgHeight msg))
    (kv_txout s !! ToUpper (itoa (kf_MsgHeight msg))) in
  let until := BlockHeight ctx
    +i Config.getConfigDurationBlocks (kv_config s) Withdrawal_BatchWindowMinutes in
  match retried until msg txOut with
  | Some t => <[ToUpper (itoa (txo_Height txOut)) := t]> (kv_txout s)
  | None => kv_txout s
  end.

Lemma mark_retry_run ctx msg s :
  (markTxOutPendingRetry ctx msg s).2 = s <| kv_txout := after_retry ctx msg s |>.
Proof.
  unfold markTxOutPendingRetry, after_retry, retried, GetTxOut, getShielderJSON, gets, mbind, M_bind.
  cbn [mret M_ret].
  set (t := from_option _ _). set (f := λ item, TxID.IsEmpty _ && _).
  destruct (str_eq (txo_Status t) TxOutStatusPendingSign) eqn:Es; cbn [negb orb andb];
    [|by destruct s].
  destruct (existsb f (txo_TxArray t)) eqn:Ef; cbn [negb]; cycle 1.
  { destruct (negb (txOutHasPendingItems t)); by destruct s. }
  apply existsb_exists in Ef as (item & Hin & Hf). apply andb_true_iff in Hf as [Hf _].
  assert (Hp : txOutHasPendingItems t = true).
  { apply existsb_exists. by exists item. }
  rewrite Hp. cbn [negb]. unfold getConfigDurationBlocks, gets, try, SetTxOut.
  destruct (TxOut_IsEmpty _) eqn:Ee.
  { unfold TxOut_IsEmpty in Ee. cbn in Ee. by destruct (txo_TxArray t). }
  assert (Hc : ∀ t', txo_TxArray t' = txo_TxArray t → txOutComplete t' = false).
  { intros t' Ht. unfold txOutComplete. rewrite Ht. destruct (txo_TxArray t) as [|x l]; [done|].
    apply not_true_iff_false. rewrite forallb_forall. intros Hall. specialize (Hall _ Hin).
    by rewrite Hf in Hall. }
  cbn [is_empty]. rewrite Hc by done. by destruct s.
Qed.

Lemma set_vault_vaults v s s' : SetVault v s = (Ok tt, s') →
  kv_vault s' = <[ToUpper (va_PubKey v) := v]> (kv_vault s).
Proof.
  unfold SetVault. intros Hrun. apply bind_Ok in Hrun as ([] & s1 & Hi & Hrun).
  apply modify_Ok in Hrun. subst s'. cbn. f_equal.
  apply (keeps_run kv_vault) in Hi; [done|].
  unfold addBaseIndex, getBaseIndex, addBaseEDDSAIndex, getShielderJSON, setShielderJSON. frame_tac.
Qed.

Definition reset_voter (v : FrostKeysignFailVoter) : FrostKeysignFailVoter :=
  v <| kf_Signers := [] |> <| kf_LastRoundCount := 0 |>.

Lemma after_retry_same ctx msg s s' : kv_txout s = kv_txout s' → kv_config s = kv_config s' →
  after_retry ctx msg s = after_retry ctx msg s'.
Proof. unfold after_retry. by intros -> ->. Qed.

Lemma act_run ctx observe msg vault nodes v s s' :
  act_on_failure ctx observe msg vault nodes v s = (Ok tt, s') →
  kv_vault s' = (if freezes v nodes
    then <[ToUpper (va_PubKey vault) := freeze (kf_Coins msg) vault]> (kv_vault s) else kv_vault s)
  ∧ kv_frost_keysign_failure s'
    = <[ToUpper (kf_ID v) := reset_voter v]> (kv_frost_keysign_failure s)
  ∧ kv_txout s' = after_retry ctx msg s.
Proof.
  intros Hrun. unfold act_on_failure in Hrun.
  apply bind_Ok in Hrun as ([] & s1 & Hf & Hrun).
  assert (Hs1 : kv_vault s1 = (if freezes v nodes
      then <[ToUpper (va_PubKey vault) := freeze (kf_Coins msg) vault]> (kv_vault s) else kv_vault s)
    ∧ others s1 = others s).
  { destruct (freezes v nodes); [|by apply mret_Ok in Hf as [_ <-]].
    split; [by apply set_vault_vaults in Hf|].
    apply (keeps_run others) in Hf; [done|apply set_vault_others]. }
  destruct Hs1 as [Hv1 Ho1]. injection Ho1 as Hc1 Ht1 Hk1.
  apply bind_Ok in Hrun as ([] & s2 & Hd & Hrun).
  apply (keeps_run report_frame) in Hd; [|apply dec_rest]. injection Hd as Hc2 Hv2 Ht2 _ Hk2.
  apply bind_Ok in Hrun as ([] & s3 & Hs & Hrun). apply modify_Ok in Hs. subst s3.
  apply bind_Ok in Hrun as ([] & s4 & Hm & Hrun).
  match type of Hm with _ ?s3 = _ => pose proof (mark_retry_run ctx msg s3) as Hm' end.
  rewrite Hm in Hm'. cbn [snd] in Hm'.
  apply (keeps_run report_frame) in Hrun; [|frame_tac]. injection Hrun as _ Hv5 Ht5 _ Hk5.
  rewrite Hv5, Ht5, Hk5, Hm'. cbn. rewrite Hv2, Hv1, Hk2, Hk1.
  split_and!; [done..|]. apply after_retry_same; cbn; congruence.
Qed.
Lemma get_vault_stored ctx pk s vault v s' : kv_vault s !! ToUpper pk = Some vault →
  PubKey.IsEmpty (va_PubKey vault) = false → va_BlockHeight vault ≠ 0 →
  GetVault ctx pk s = (Ok v, s') → v = vault ∧ s' = s.
Proof.
  intros Hs Hpk Hbh Hrun. pose proof (get_vault_reads _ _ _ _ _ Hrun) as ->. split; [|done].
  unfold GetVault in Hrun. apply bind_Ok in Hrun as (n & s1 & [_ ->]%gets_Ok & Hrun).
  cbn [GetVault_fuel] in Hrun. apply bind_Ok in Hrun as (o & s1 & [<- ->]%gets_Ok & Hrun).
  rewrite Hs, Hpk in Hrun. cbv zeta in Hrun. destruct (va_BlockHeight vault =? 0) eqn:E; [lia|].
  by apply mret_Ok in Hrun as [<- _].
Qed.

(** A run over the report of a new signer, up to the count of the reports. *)
Lemma keysign_run ctx msg vault nodes v v' s s' :
  GetFrostKeysignFailVoter (kf_MsgID msg) s = (Ok v, s) → Sign v (kf_Signer msg) = (true, v') →
  kv_vault s !! ToUpper (kf_PubKey msg) = Some vault → PubKey.IsEmpty (va_PubKey vault) = false →
  va_BlockHeight vault ≠ 0 → (vault_nodes ctx vault s).1 = Ok nodes →
  Keysign_handle ctx msg s = (Ok tt, s') →
  let w := count_last_round msg nodes v' in
  ∃ observe s1, report_frame s1 = report_frame s
    ∧ (if negb (FrostKeysignFailVoter_HasConsensus w nodes) then mret tt
       else act_on_failure ctx observe msg vault nodes w)
        (s1 <| kv_frost_keysign_failure := <[ToUpper (kf_ID w) := w]> (kv_frost_keysign_failure s1) |>)
      = (Ok tt, s').
Proof.
  intros Hget Hsign Hva Hpk Hbh Hnodes Hrun w. unfold Keysign_handle in Hrun.
  apply bind_Ok in Hrun as (v1 & s1 & Hget1 & Hrun). rewrite Hget in Hget1. injection Hget1 as <- <-.
  apply bind_Ok in Hrun as (observe & s1 & [_ ->]%gets_Ok & Hrun).
  apply bind_Ok in Hrun as ([] & s1 & Hinc & Hrun).
  apply (keeps_run report_frame) in Hinc; [|apply inc_rest]. exists observe, s1. split; [done|].
  injection Hinc as Hc1 Hv1 Ht1 Hn1 Hk1. rewrite Hsign in Hrun. cbn [negb] in Hrun.
  apply bind_Ok in Hrun as (vault1 & s2 & Hvault & Hrun).
  assert (vault1 = vault ∧ s2 = s1) as [-> ->].
  { eapply get_vault_stored; [|done..|exact Hvault]. by rewrite Hv1. }
  unfold Vault.IsEmpty in Hrun. rewrite Hpk in Hrun.
  apply bind_Ok in Hrun as (nodes1 & s2 & Hn & Hrun).
  assert (nodes1 = nodes) as ->.
  { rewrite (vault_nodes_same ctx vault s s1) in Hnodes by done. rewrite Hn in Hnodes. by injection Hnodes. }
  apply (keeps_run (λ s, s)) in Hn; [|apply vault_nodes_reads]. subst s2. cbv zeta in Hrun. fold w in Hrun.
  apply bind_Ok in Hrun as ([] & s2 & Hset & Hrun). apply modify_Ok in Hset. by subst s2.
Qed.
End KeysignFacts.

(** ** Properties *)

(** C11. No vault is created, and none changes, by the attestations of a key
    generation until every member has sent one: in every history of messages
    in which identifiers bind their members, the run that changes a vault is of
    a message of success for a key generation of its block, and each member has
    sent a message filed under the same identifier. *)
Theorem keygen_needs_every_member `{Ext} `{FrostExt}
    (iter : gmap string Z → list (string * Z)) (s0 s s' : KVStore) (h : list MsgKeygenVault)
    (ctx : Ctx) (msg : MsgKeygenVault) :
  kv_frost s0 = ∅ → attested iter s0 h s → ids_bind (h ++ [msg]) →
  AccAddressFromBech32 (gv_Signer msg) = Ok (gv_Signer msg) →
  Frost_Run ctx iter msg s = (Ok tt, s') → kv_vault s' ≠ kv_vault s →
  IsSuccess msg = true
  ∧ (∃ keygenBlock keygen, GetKeygenBlock (gv_Height msg) s = (Ok keygenBlock, s)
       ∧ keygen ∈ kb_Keygens keygenBlock ∧ attests (sort_members msg) keygen = true)
  ∧ ∀ a, a ∈ member_addresses (gv_PubKeys msg) →
      ∃ m, m ∈ (h ++ [msg])%list ∧ gv_Signer m = a ∧ vote_key m = vote_key msg.
Proof.
  intros H0' Hh Hb Hacc Hrun Hdiff. apply bind_Ok in Hrun as (msg' & s1 & Hval & Hrun).
  destruct (validate_run ctx msg s msg' s1 Hval) as (-> & -> & Hkeygen).
  assert (Hs : voters_ok (h ++ [msg]) s).
  { intros k v Hv. apply voter_ok_more. revert Hv. eapply attested_voters; [done..|].
    intros m m' Hm Hm'. apply Hb; set_solver. }
  destruct (handle_vaults iter (h ++ [msg]) ctx msg s s' ltac:(set_solver) Hb Hs Hacc Hrun Hdiff)
    as (Hsuc & v & Hv & Hpk & Hc).
  split_and!; [done|done|]. intros a Ha.
  destruct (vo_message _ _ _ Hv a) as (m & Hm & Hsig & Hkey & _); [|by exists m].
  eapply complete_members; [done..|]. rewrite Hpk. unfold member_addresses, parse_pubkeys in *.
  by rewrite (insert_sort_perm str_lt).
Qed.


(** The ante handler never turns away a repeated report of a failed
    signature: it stores no height with a voter, takes every stored voter for
    an absent one, and so admits a report whenever its form, its identifier and
    its signer's authority are in order, whoever has signed already. *)
Theorem keysign_ante_admits_duplicates `{Ext} `{Attestor} (s0 s : KVStore) (ctx : Ctx)
    (msg : MsgFrostKeysignFail) :
  kv_frost_keysign_failure s0 = ∅ → reported s0 s →
  (FrostKeysignFailAnteHandler ctx msg s).1
  = ((_ ← lift (MsgFrostKeysignFail_ValidateBasic msg); _ ← lift (check_fail_id msg);
      validateKeysignAuth ctx [kf_Signer msg]) s).1.
Proof.
  intros H0' Hr. pose proof (reported_no_height s0 s H0' Hr) as Hh.
  unfold FrostKeysignFailAnteHandler, mbind, M_bind, lift.
  destruct (MsgFrostKeysignFail_ValidateBasic msg) as [[]|e|e]; [|done..].
  destruct (check_fail_id msg) as [[]|e|e]; [|done..].
  destruct (validateKeysignAuth ctx [kf_Signer msg] s) as [[[]|e|e] s1] eqn:Ea; [|done..].
  apply (keeps_run (λ s, s)) in Ea; [|apply keysign_auth_reads]. subst s1.
  destruct (no_height_get (kf_MsgID msg) s Hh) as [_ Hv].
  destruct (GetFrostKeysignFailVoter (kf_MsgID msg) s) as [[v|e|e] s1] eqn:E; [|discriminate E..].
  unfold FrostKeysignFailVoter_Empty. rewrite (Hv v eq_refl), orb_true_r. reflexivity.
Qed.

(** ** Concrete ceremonies *)

Module ToyFrost.
Import ToyVersions ToyChurn ToyVotes.
#[export] Instance toy_frost : FrostExt := {|
  low_entropy _ := false;
  secp256k1_key _ := true;
  secp256k1_verify _ _ _ _ := true
|}.

Definition party : list string := ["a"; "b"; "c"; "f"].

(** A key generation of three active nodes and a selected one. *)
Definition at_keygen : KVStore :=
  before_churn <| kv_keygen := {["10" := mkKeygenBlock 10 [NewKeygen 10 party BaseVaultKeygen]]} |>.

Definition attestation (signer : string) (blame : list Blame) : MsgKeygenVault :=
  mkMsgKeygenVault (getFrostID party "VK" 10 blame) "VK" BaseVaultKeygen party 10 blame ["BTC"]
    signer 100 "" "" "" "" "" "" 0.
Definition success (signer : string) : MsgKeygenVault := attestation signer [].

(** A failure that names nobody. *)
Definition failure (signer : string) : MsgKeygenVault :=
  attestation signer [mkBlame "timeout" false [] ""].

Definition attest_all `{Ext} (msgs : list MsgKeygenVault) (s : KVStore) : KVStore :=
  foldl (λ s msg, (atomic (Frost_Run (mkCtx 12) map_to_list msg) s).2) s msgs.

(** One message of success after the other. *)
Definition step `{Ext} (s : KVStore) (signer : string) : KVStore :=
  (Frost_Run (mkCtx 12) map_to_list (success signer) s).2.

(** The vault of three members, a batch that waits for its signatures, and the
    report of a failure in the last round. *)
Definition with_vault : KVStore :=
  before_churn <| kv_vault := {["VK" := new_vault <| va_PubKey := "VK" |>
                     <| va_Membership := ["a"; "b"; "c"] |>]} |>
    <| kv_txout := {["5" := (NewTxOut 5) <| txo_Status := TxOutStatusPendingSign |>
         <| txo_TxArray := [TxOutItem_zero <| to_VaultPubKey := "VK" |>] |>]} |>.

Definition report (signer : string) : MsgFrostKeysignFail :=
  let blame := mkBlame "timeout" false [mkNode "c" "" ""] "SignRound7Message" in
  mkMsgFrostKeysignFail
    (getMsgFrostKeysignFailID (bl_BlameNodes blame) 5 [NewCoin BTCAsset 1] "VK" (bl_Round blame))
    5 blame [NewCoin BTCAsset 1] "VK" signer.

Definition one_report `{Ext} : KVStore := (Keysign_Run (mkCtx 12) (report "a") with_vault).2.
End ToyFrost.

Section Concrete.
Import ToyExt ToyVersions ToyChurn ToyVotes ToyFrost.
#[local] Existing Instance toy_ext.

(** An attestation of failure counts as one of success.  The identifier of
    a key generation leaves out whether there is a blame when the blame names
    nobody; so the vault takes over although a member has attested that its key
    generation failed, and such a message that completes two thirds sends the
    selected nodes back to standby, after which their own attestations of
    success are refused. *)
Theorem failed_attestation_counts :
  (∀ members vaultPk height bl, blamed bl = [] →
     getFrostID members vaultPk height bl = getFrostID members vaultPk height [])
  ∧ IsSuccess (failure "b") = false
  ∧ va_Status <$> kv_vault (attest_all [success "a"; failure "b"; success "c"; success "f"] at_keygen)
      !! "VK" = Some ActiveVault
  ∧ let s := attest_all [success "a"; success "c"; failure "b"] at_keygen in
    na_Status <$> kv_node_account s !! "F" = Some NodeStandby
    ∧ (Frost_Run (mkCtx 12) map_to_list (success "f") s).1 = Err "invalid signer status".
Proof.
  cbv zeta. split_and!; [|vm_compute; reflexivity..].
  intros members vaultPk height bl Hb. unfold getFrostID. by rewrite Hb.
Qed.

Lemma party_bound l : ids_bind (map success l).
Proof.
  intros m m' Hm Hm' _. apply list_elem_of_fmap in Hm as (a & -> & _), Hm' as (b & -> & _). done.
Qed.

Lemma attested_step h s signer : attested map_to_list at_keygen h s → is_empty signer = false →
  (Frost_Run (mkCtx 12) map_to_list (success signer) s).1 = Ok tt →
  attested map_to_list at_keygen (h ++ [success signer]) (step s signer).
Proof.
  intros Hh Hs Hrun. eapply attested_by; [exact Hh| |exact (run_ok _ _ _ Hrun)].
  unfold AccAddressFromBech32, acc_from_bech32. cbn. by rewrite Hs.
Qed.

(** Only the fourth attestation stores the vault. *)
Lemma keygen_needs_every_member_witness :
  let s := step (step (step at_keygen "a") "b") "c" in
  kv_vault s = ∅ ∧ kv_vault (step s "f") ≠ ∅
  ∧ ∀ a, a ∈ party → ∃ m, m ∈ (((([] ++ [success "a"]) ++ [success "b"]) ++ [success "c"])
      ++ [success "f"])%list ∧ gv_Signer m = a.
Proof.
  intros s. assert (H3 : kv_vault s = ∅) by (vm_compute; reflexivity).
  assert (H4 : kv_vault (step s "f") ≠ ∅) by (vm_compute; discriminate).
  split_and!; [exact H3|exact H4|]. intros a Ha.
  assert (Hh : attested map_to_list at_keygen
    ((([] ++ [success "a"]) ++ [success "b"]) ++ [success "c"])%list s).
  { do 3 (apply attested_step; [|reflexivity|vm_compute; reflexivity]). constructor. }
  assert (Hrun : (Frost_Run (mkCtx 12) map_to_list (success "f") s).1 = Ok tt)
    by (vm_compute; reflexivity).
  destruct (keygen_needs_every_member map_to_list at_keygen s (step s "f") _ (mkCtx 12) (success "f")
    eq_refl Hh (party_bound ["a"; "b"; "c"; "f"]) eq_refl (run_ok _ _ _ Hrun)) as (_ & _ & Hall).
  { intros Heq. apply H4. by rewrite Heq. }
  assert (Hparty : member_addresses (gv_PubKeys (success "f")) = party) by (vm_compute; reflexivity).
  rewrite Hparty in Hall. destruct (Hall a Ha) as (m & Hm & Hsig & _). exists m. split; [exact Hm|exact Hsig].
Defined.


(** The same report of the same node is admitted again. *)
Lemma keysign_ante_admits_duplicates_witness :
  existsb (λ v, HasSigned v "a") (sorted_values (kv_frost_keysign_failure one_report)) = true
  ∧ (FrostKeysignFailAnteHandler (mkCtx 12) (report "a") one_report).1 = Ok tt.
Proof.
  split; [vm_compute; reflexivity|].
  rewrite (keysign_ante_admits_duplicates with_vault one_report);
    [vm_compute; reflexivity|reflexivity|]. apply reported_by. constructor.
Defined.
End Concrete.
