(* ===== verification/Registered.v ===== *)
(** * The registry stays well formed

Every operation of the validator manager, the network manager, the messages of
the operators and the attestations of key generations and failed signatures
keeps the registry of nodes well formed ([registry_ok]):
accounts under their own address, a height of activation exactly for the active
ones, scores and penalties that are not negative. *)

From S2P Require Import Prelude GoStrings Config Common Types Vaults Keeper Voters BtcBatch Bonds Pow Deposits Settle Observe Nodes Rotation Churn NodeHandlers Frost.

Create HintDb registry.
#[export] Hint Resolve Registry.reset_yields Registry.get_penalty_yields
  Registry.get_account_yields Registry.list_nodes_yields : registry.

(** Reads, failures and updates of other records at the head of an operation. *)
Ltac registry_read := apply Registry.registry_kept; frame_tac.

Section Registered.
Context `{Ext} `{SemVer} `{Attestor} `{ConsAddress} (iter : gmap Z Z → list (Z * Z)) (ctx : Ctx).
Hypothesis Hheight : BlockHeight ctx ≠ 0.

#[local] Abbreviation frame := (λ s, (kv_node_account s, kv_penalty s)).

Lemma vaults_frame {T} (p : KVStore → T) : keeps p (GetBaseVaults ctx).
Proof. unfold GetBaseVaults, getBaseIndex. keeps_tac. apply get_vault_keeps. Qed.
#[local] Hint Resolve base_vaults_keeps get_vault_keeps last_churn_keeps min_join_last_keeps
  vaults_frame unauthorized_keeps by_signer_keeps active_keeps by_address_keeps : keeps.

Lemma set_vault_frame v : keeps frame (SetVault v).
Proof.
  unfold SetVault, addBaseIndex, getBaseIndex, addBaseEDDSAIndex, getBaseEDDSAIndex,
    getShielderJSON, setShielderJSON. frame_tac.
Qed.

Lemma remove_index_frame pk : keeps frame (RemoveFromBaseIndex pk).
Proof. unfold RemoveFromBaseIndex, getBaseIndex. frame_tac. Qed.
#[local] Hint Resolve set_vault_frame remove_index_frame : keeps.

#[local] Abbreviation typed m Q := (yields Registry.registry_ok m Q).

Lemma active_yields : typed ListActiveNodes (Forall (λ na, Registry.account_ok na ∧ na_Status na = NodeActive)).
Proof. apply Registry.list_nodes_yields. Qed.

Lemma update_yields na f : (Registry.offered na → Registry.offered (f na)) → Registry.offered na →
  typed (SetNodeAccount ctx (f na)) (λ _, True).
Proof. intros Hf Hna. apply Registry.set_account_yields; auto. Qed.

Lemma account_yields na f :
  (Registry.offered na → Registry.offered (f na)) → Registry.account_ok na →
  typed (SetNodeAccount ctx (f na)) (λ _, True).
Proof. intros Hf Hna. apply update_yields; [done|]. by apply Registry.account_offered. Qed.

(** A write to every node of a list that was read. *)
Lemma write_all_yields f l :
  (∀ na, Registry.offered na → Registry.offered (f na)) →
  Forall Registry.offered l → typed (mfor (λ na, SetNodeAccount ctx (f na)) l) (λ _, True).
Proof.
  intros Hf Hl. eapply yields_mfor; [exact Hl|]. intros na Hna. by apply update_yields; auto.
Qed.

Lemma listed l (st : NodeStatus) :
  Forall (λ na, Registry.account_ok na ∧ na_Status na = st) l → Forall Registry.offered l.
Proof. intros Hl. eapply Forall_impl; [exact Hl|]. intros na [Hna _]. by apply Registry.account_offered. Qed.

(** *** The marks *)

Lemma last_churn_yields : typed (getLastChurnHeight ctx) (λ _, True).
Proof. apply Registry.registry_kept, last_churn_keeps. Qed.

Lemma mark_yields na : Registry.offered na → typed (markActor ctx na) (λ _, True).
Proof.
  intros Hna. unfold markActor. destruct (_ && _); [|by apply yields_ret].
  eapply yields_bind; [apply Registry.get_penalty_yields|]. intros pts _.
  eapply yields_bind; [apply last_churn_yields|]. intros last _.
  apply (update_yields na (λ na, na <| na_LeaveScore := getScore ctx pts last |>)); [|done].
  intros [Ha _]. split; [done|]. apply score_nonneg.
Qed.

Lemma mark_all_yields l : Forall Registry.offered l → typed (mfor (markActor ctx) l) (λ _, True).
Proof. intros Hl. eapply yields_mfor; [exact Hl|]. intros na. apply mark_yields. Qed.

Lemma offered_sorted {A} (lt : A → A → bool) (P : A → Prop) l :
  Forall P l → Forall P (insert_sort lt l).
Proof. intros Hl. by rewrite (insert_sort_perm lt l). Qed.

Lemma bad_actors_offered redline total nodes tracker :
  Forall (λ t : Z * NodeAccount, Registry.offered t.2) tracker →
  Forall Registry.offered (bad_actors redline total nodes tracker).
Proof.
  intros Ht. unfold bad_actors. cbv zeta.
  apply (offered_sorted (λ a b, a.1 <? b.1)) in Ht. set (l := insert_sort _ _) in *.
  set (line := total / nodes / u64 redline).
  assert (Hf : Forall Registry.offered (List.filter (λ t, t.1 <=? line) l).*2).
  { apply Forall_map, Forall_forall. intros t Hin. apply list_elem_of_In, filter_In in Hin as [Hin _].
    rewrite Forall_forall in Ht. by apply Ht, list_elem_of_In. }
  destruct (List.filter _ l).*2; [|done]. destruct l as [|worst l]; [done|].
  inversion_clear Ht. by apply Forall_singleton.
Qed.

Lemma find_bad_yields pts redline :
  typed (findBadActors ctx pts redline) (Forall Registry.offered).
Proof.
  unfold findBadActors. destruct (redline <=? 0); [by apply yields_ret|].
  eapply yields_bind; [apply active_yields|]. intros nas Hnas%listed.
  destruct (_ =? 0)%nat; [by apply yields_ret|].
  eapply yields_bind; [apply last_churn_yields|]. intros last _.
  eapply (yields_bind _ _ _ (λ r, Forall (λ t : Z * NodeAccount, Registry.offered t.2) r.1)).
  - eapply yields_mfold; [exact Hnas| |done]. intros [tracker total] na Htr Hna.
    unfold track_bad. eapply yields_bind; [apply Registry.get_penalty_yields|]. intros p _.
    destruct (p <=? pts); [by apply yields_ret|].
    eapply yields_bind; [apply (yields_lift _ _ (λ _, True)); by intros|]. intros t' _.
    apply yields_ret. cbn. apply Forall_app. split; [done|]. by apply Forall_singleton.
  - intros [tracker total] Htr. destruct (_ =? 0)%nat; apply yields_ret; [done|].
    by apply bad_actors_offered.
Qed.

Lemma mark_bad_yields pts redline : typed (markBadActor ctx pts redline) (λ _, True).
Proof.
  eapply yields_bind; [apply find_bad_yields|]. intros nas Hnas.
  eapply yields_bind; [by apply mark_all_yields|]. intros _ _. by apply yields_ret.
Qed.

Lemma mark_missing_yields maxMissing l : ∀ room, Forall Registry.offered l →
  typed (mark_missing ctx maxMissing room l) (λ _, True).
Proof.
  induction l as [|n l IH]; intros room Hl; [by apply yields_ret|].
  inversion_clear Hl as [|? ? Hn Hl']. cbn. destruct (0 <? na_LeaveScore n); [by apply IH|].
  destruct (maxMissing <? _); [|by apply IH].
  eapply yields_bind; [by apply mark_yields|]. intros _ _.
  destruct room as [|[|room]]; [by apply yields_ret..|by apply IH].
Qed.

Lemma config_yields {A} (n : ConfigName) (f : Z → KM A) Q :
  (∀ v, typed (f v) Q) → typed (GetConfigInt64 n ≫= f) Q.
Proof.
  intros Hf. eapply yields_bind; [apply Registry.registry_kept; frame_tac|]. intros v _. apply Hf.
Qed.

Lemma mark_missing_all_yields : typed (markMissingActors ctx) (λ _, True).
Proof.
  unfold markMissingActors. apply config_yields. intros maxMissing. apply config_yields. intros maxOut.
  destruct (_ || _); [by apply yields_ret|].
  eapply yields_bind; [apply active_yields|]. intros nas Hnas%listed.
  by apply mark_missing_yields, offered_sorted.
Qed.

Lemma oldest_offered l : ∀ start, Registry.offered start → Forall Registry.offered l →
  Registry.offered (oldest start l).
Proof.
  induction l as [|n l IH]; intros start Hs Hl; [done|]. inversion_clear Hl. cbn.
  apply IH; [|done]. by repeat case_match.
Qed.

Lemma offered_zero height : Registry.offered (NodeAccount_zero <| na_StatusSince := height |>).
Proof. by split. Qed.

Lemma mark_old_yields : typed (markOldActor ctx) (λ _, True).
Proof.
  unfold markOldActor, findOldActor. eapply (yields_bind _ _ _ Registry.offered).
  - eapply yields_bind; [apply active_yields|]. intros nas Hnas%listed.
    apply yields_ret, oldest_offered; [apply offered_zero|done].
  - intros na. apply mark_yields.
Qed.

Lemma lowest_offered l : Forall Registry.offered l → Registry.offered (lowest_bond l).
Proof.
  intros Hl. unfold lowest_bond.
  assert (H' : ∀ l best, Forall Registry.offered l → (∀ na, best = Some na → Registry.offered na) →
    ∀ na, foldl (λ best n, if 0 <? na_LeaveScore n then best
      else match best with
           | None => Some n
           | Some na => if na_Bond n <? na_Bond na then Some n else best
           end) best l = Some na → Registry.offered na).
  { clear Hl. intros l'. induction l' as [|n l' IH]; intros best Hl' Hb; [done|].
    inversion_clear Hl' as [|? ? Hn Hr]. cbn [foldl]. refine (IH _ Hr _). intros na.
    repeat case_match; naive_solver. }
  specialize (H' l None Hl ltac:(done)). destruct (foldl _ _ _) as [na|]; [by apply H'|].
  by split.
Qed.

Lemma mark_low_bond_yields desired : typed (markLowBondActor ctx desired) (λ _, True).
Proof.
  unfold markLowBondActor.
  eapply (yields_bind _ _ _ (λ _, True)).
  { destruct (0 <? desired); [|by apply yields_ret].
    eapply yields_bind; [apply active_yields|]. intros nas _. by apply yields_ret. }
  intros [] _; [by apply yields_ret|].
  unfold findLowBondActor. eapply (yields_bind _ _ _ Registry.offered).
  { eapply yields_bind; [apply active_yields|]. intros nas Hnas%listed.
    by apply yields_ret, lowest_offered. }
  intros na Hna. destruct (NodeAccount_IsEmpty na); [by apply yields_ret|].
  eapply yields_bind; [apply Registry.list_nodes_yields|]. intros selected _.
  destruct (match best_bond selected with Some _ => _ | None => _ end); [by apply yields_ret|].
  eapply yields_bind; [by apply mark_yields|]. intros _ _. by apply yields_ret.
Qed.

Lemma mark_low_version_yields : typed (markLowVersionNodes ctx) (λ _, True).
Proof.
  unfold markLowVersionNodes. eapply yields_bind; [apply Registry.registry_kept, min_join_last_keeps|].
  intros [v h] _. destruct (_ <? _); [by apply yields_ret|].
  unfold findLowVersionNodes. eapply (yields_bind _ _ _ (Forall Registry.offered)).
  - eapply yields_bind; [apply Registry.registry_kept, min_join_last_keeps|]. intros [v' h'] _.
    eapply yields_bind; [apply Registry.list_nodes_yields|]. intros nas Hnas%listed.
    apply yields_ret. generalize 1%nat. induction Hnas as [|na nas Hna Hnas IH]; intros [|room];
      cbn; [done..|]. repeat case_match; auto.
  - apply mark_all_yields.
Qed.

Lemma clear_scores_yields : typed (clearLeaveScores ctx) (λ _, True).
Proof.
  unfold clearLeaveScores. eapply yields_bind; [apply active_yields|]. intros nas Hnas%listed.
  eapply yields_mfor; [exact Hnas|]. intros na Hna. unfold clear_score.
  destruct (_ || _); [by apply yields_ret|].
  apply (update_yields na (λ na, na <| na_LeaveScore := 0 |>)); [|done]. by intros [Ha _].
Qed.

(** *** The churn *)

Lemma preflight_keeps {T} (p : KVStore → T) na : keeps p (NodeAccountPreflightCheck ctx na).
Proof.
  unfold NodeAccountPreflightCheck, requiredBondForNode, GetNodeAccountJail. frame_tac;
    try apply min_join_last_keeps.
Qed.

Lemma select_yields l : typed (selectHighestBondedNode ctx l) (λ _, True).
Proof.
  apply Registry.registry_kept. unfold selectHighestBondedNode. frame_tac; apply preflight_keeps.
Qed.

Lemma candidates_yields : typed churn_candidates (Forall Registry.offered).
Proof.
  unfold churn_candidates. apply (yields_mfold _ _ (λ _, True)); [by repeat constructor| |done].
  intros acc st Hacc _. eapply yields_bind; [apply Registry.list_nodes_yields|].
  intros nas Hnas%listed. apply yields_ret. by apply Forall_app.
Qed.

Lemma mark_selected_yields : typed (markSelectedActors ctx) (λ _, True).
Proof.
  unfold markSelectedActors. eapply yields_bind; [apply candidates_yields|]. intros l Hl.
  eapply yields_bind; [apply select_yields|]. intros selected _.
  eapply yields_mfor; [exact Hl|]. intros na Hna. unfold mark_candidate.
  eapply yields_bind; [apply Registry.registry_kept, preflight_keeps|]. intros [status err] _.
  apply (update_yields na (λ na, UpdateStatus na _ (BlockHeight ctx))); [|done].
  apply Registry.offered_update.
Qed.

Lemma next_vault_keeps {T} (p : KVStore → T) target : keeps p (nextVaultNodeAccounts ctx target).
Proof.
  unfold nextVaultNodeAccounts, rescored, ListActiveNodes, ListNodesByStatus, GetNodeAccountPenaltyPoints.
  frame_tac; try apply last_churn_keeps.
Qed.

Lemma trigger_keygen_yields nas : typed (TriggerKeygen ctx nas) (λ _, True).
Proof.
  apply Registry.registry_kept. unfold TriggerKeygen, retire_init_vault, GetKeygenBlock, SetKeygenBlock.
  frame_tac.
Qed.

Lemma churn_inner_yields : typed (churnInner ctx) (λ _, True).
Proof.
  unfold churnInner. do 3 (apply config_yields; intros ?).
  eapply yields_bind; [apply mark_selected_yields|]. intros _ _.
  eapply yields_bind; [apply clear_scores_yields|]. intros _ _.
  eapply yields_bind; [apply mark_bad_yields|]. intros _ _.
  eapply yields_bind; [apply mark_low_version_yields|]. intros _ _.
  eapply yields_bind; [apply mark_missing_all_yields|]. intros _ _.
  eapply yields_bind; [apply active_yields|]. intros nas _.
  eapply (yields_bind _ _ _ (λ _, True)).
  { destruct (at_capacity _ _); [|by apply yields_ret].
    eapply yields_bind; [apply mark_low_bond_yields|]. intros [] _; [|by apply yields_ret].
    eapply yields_weaken; [apply active_yields|done]. }
  intros nas' _. eapply (yields_bind _ _ _ (λ _, True)).
  { destruct (at_capacity _ _); [apply mark_old_yields|by apply yields_ret]. }
  intros _ _. eapply yields_bind; [apply Registry.registry_kept, next_vault_keeps|].
  intros [next []] _; [apply trigger_keygen_yields|by apply yields_ret].
Qed.

Lemma setup_yields height : typed (setupNodeNodes ctx height) (λ _, True).
Proof.
  unfold setupNodeNodes. destruct (negb _); [by apply yields_ret|].
  eapply (yields_bind _ _ _ (Forall Registry.offered)).
  { apply yields_gets. intros s [Ha _]. apply Forall_forall. intros na Hin.
    apply elem_of_sorted_values in Hin as [k Hk]. by apply (Ha k). }
  intros nas Hnas. cbv zeta. eapply yields_bind; [apply yields_fail_if|]. intros _ _.
  apply config_yields. intros desired.
  apply (yields_mfor _ _ (λ p : nat * NodeAccount, Registry.offered p.2)).
  - set (l := (insert_sort senior _ ++ insert_sort senior _)%list).
    assert (Hl : Forall Registry.offered l).
    { apply Forall_app; split; apply offered_sorted, Forall_forall; intros na Hin;
        apply list_elem_of_In, filter_In in Hin as [Hin _]; rewrite Forall_forall in Hnas;
        by apply Hnas, list_elem_of_In. }
    apply Forall_forall. intros [i na] Hin.
    apply elem_of_lookup_imap in Hin as (i' & na' & Heq & Hk). injection Heq as -> ->.
    rewrite Forall_forall in Hl. apply Hl. by apply list_elem_of_lookup_2 in Hk.
  - intros [i na] Hna. apply (update_yields na (λ na, UpdateStatus na _ (BlockHeight ctx))); [|done].
    apply Registry.offered_update.
Qed.

Lemma retarget_frame : keeps frame (Pow.RetargetDepositPowDifficulty ctx).
Proof. unfold Pow.RetargetDepositPowDifficulty, Pow.depositPowRetargetSamples. frame_tac. Qed.

Lemma halted_frame l : keeps frame (any_chain_halted ctx l).
Proof. induction l as [|c l IH]; simpl; [frame_tac|]. unfold IsChainHalted. frame_tac. Qed.

Lemma begin_yields : typed (NodeMgr_BeginBlock ctx) (λ _, True).
Proof.
  unfold NodeMgr_BeginBlock. eapply (yields_bind _ _ _ (λ _, True)).
  { destruct (_ =? _); [apply setup_yields|by apply yields_ret]. }
  intros _ _. eapply yields_bind; [apply last_churn_yields|]. intros last _.
  eapply yields_bind; [registry_read|]. intros i _. eapply yields_bind; [registry_read|]. intros r _.
  cbv zeta. destruct (_ && _); [by apply yields_ret|].
  eapply (yields_bind _ _ _ (λ _, True)).
  { destruct (_ =? _); [|by apply yields_ret]. apply Registry.registry_kept, retarget_frame. }
  intros _ _. apply config_yields. intros halt. destruct (halted_at _ _); [by apply yields_ret|].
  eapply yields_bind; [registry_read|]. intros vaults _.
  eapply yields_bind; [apply active_yields|]. intros nas _.
  destruct (negb (_ || _)); [by apply yields_ret|].
  eapply yields_bind.
  { apply Registry.registry_kept, halted_frame. }
  intros [] _; [by apply yields_ret|]. eapply yields_bind; [registry_read|]. intros retiring _.
  destruct (0 <? length retiring)%nat; [by apply yields_ret|].
  apply yields_atomic, churn_inner_yields.
Qed.

(** *** The end of a block *)

Lemma new_node_yields acc pk : Forall Registry.offered acc →
  typed (new_node ctx acc pk) (Forall Registry.offered).
Proof.
  intros Hacc. unfold new_node. eapply (yields_bind _ _ _ (λ r, ∀ na, r = Ok na → Registry.offered na)).
  - apply yields_try. unfold GetNodeAccountByPubKey.
    eapply yields_bind; [apply (yields_lift _ _ (λ _, True)); by intros|]. intros addr _.
    apply Registry.get_account_yields.
  - intros r Hr. apply yields_ret. destruct r as [na|e|e]; [|done..].
    destruct (_ || _); [done|]. apply Forall_app. split; [done|]. apply Forall_singleton. by apply Hr.
Qed.

Lemma changed_yields active : Forall Registry.offered active →
  typed (getChangedNodes ctx active) (λ r, Forall Registry.offered r.1 ∧ Forall Registry.offered r.2).
Proof.
  intros Hactive. unfold getChangedNodes.
  eapply yields_bind; [registry_read|]. intros vaults _.
  eapply yields_bind; [apply yields_fail_if|]. intros _ _.
  eapply (yields_bind _ _ _ (Forall Registry.offered)).
  - apply (yields_mfold _ _ (λ _, True)); [by apply Forall_true| |done].
    intros acc pk Hacc _. by apply new_node_yields.
  - intros newActive Hnew. apply yields_ret. split; [exact Hnew|]. cbn. unfold removed_nodes.
    apply Forall_forall. intros na Hin. apply list_elem_of_In, filter_In in Hin as [Hin _].
    rewrite Forall_forall in Hactive. by apply Hactive, list_elem_of_In.
Qed.

Lemma apply_changes_yields existing newNodes removed : Forall Registry.offered newNodes →
  typed (apply_changes ctx existing newNodes removed) (λ _, True).
Proof.
  intros Hnew. unfold apply_changes. eapply (yields_bind _ _ _ (λ _, True)).
  { eapply yields_mfold; [exact Hnew| |done]. intros acc na _ Hna. unfold activate_node.
    eapply yields_bind; [apply Registry.reset_yields|]. intros _ _.
    eapply yields_bind; [|intros _ _; by apply yields_ret].
    apply (update_yields na (activated ctx)); [|done]. intros Ho. unfold activated.
    destruct (Registry.offered_update na NodeActive (BlockHeight ctx) Ho) as [Ha _]. by split. }
  intros nodes _. eapply (yields_bind _ _ _ (λ _, True)).
  { apply (yields_mfold _ _ (λ _, True)); [by apply Forall_true| |done].
    intros acc na _ _. unfold deactivate_node.
    eapply yields_bind; [apply Registry.get_account_yields|]. intros nodeRemove Hna.
    eapply yields_bind; [|intros _ _; by apply yields_ret].
    apply (update_yields nodeRemove (deactivated ctx)); [|done].
    intros Ho. unfold deactivated. by apply Registry.offered_update. }
  intros nodes' _. eapply yields_bind; [apply Registry.list_nodes_yields|]. intros ready Hready%listed.
  eapply yields_bind; [apply (write_all_yields (λ na, UpdateStatus na NodeStandby (BlockHeight ctx)));
    [intros na; apply Registry.offered_update|done]|]. intros _ _.
  eapply yields_bind; [by apply Registry.registry_kept, min_join_keeps|]. intros _ _.
  eapply yields_bind; [|intros _ _; by apply yields_ret].
  apply Registry.registry_kept. unfold PurgeOperationalNodeConfigs, DeleteNodeConfigs. frame_tac.
Qed.

Lemma end_yields existing : typed (NodeMgr_EndBlock ctx existing) (λ _, True).
Proof.
  unfold NodeMgr_EndBlock. eapply yields_bind; [apply active_yields|]. intros active Hactive%listed.
  eapply yields_bind; [by apply yields_try, changed_yields|]. intros [[newN removed]|e|e] Hr;
    [|by apply yields_ret..].
  destruct (Hr _ eq_refl) as [Hnew _]. apply config_yields. intros minimum.
  eapply yields_bind; [registry_read|]. intros v _. cbv zeta.
  destruct (too_few _ _ _ _ _); [by apply yields_ret|].
  destruct (_ && _); [by apply yields_ret|]. by apply apply_changes_yields.
Qed.

(** *** Vault rotation *)

Lemma rotate_yields vault : typed (RotateVault ctx vault) (λ _, True).
Proof.
  unfold RotateVault. eapply yields_bind; [registry_read|]. intros active _.
  eapply yields_bind; [apply Registry.registry_kept; unfold retire_conflicting; frame_tac|].
  intros _ _. eapply (yields_bind _ _ _ (λ _, True)).
  { apply (yields_mfor _ _ (λ _, True)); [by apply Forall_true|]. intros member _.
    unfold join_vault, GetNodeAccountByPubKey. eapply (yields_bind _ _ _ Registry.offered).
    - eapply yields_bind; [apply (yields_lift _ _ (λ _, True)); by intros|]. intros addr _.
      apply Registry.get_account_yields.
    - intros na Hna. apply (update_yields na (λ na, TryAddSignerPubKey na (va_PubKey vault))); [|done].
      unfold TryAddSignerPubKey. intros [Ha Hs]. by repeat case_match. }
  intros _ _. eapply yields_bind; [apply Registry.registry_kept; frame_tac|]. intros _ _.
  apply Registry.registry_kept. unfold cleanupBaseIndex, cleanup_vault. frame_tac.
Qed.

Lemma genesis_yields : typed (processGenesisSetup ctx) (λ _, True).
Proof.
  unfold processGenesisSetup. destruct (negb _); [by apply yields_ret|].
  eapply yields_bind; [registry_read|]. intros vaults _.
  destruct (_ <? _)%nat; [by apply yields_ret|].
  eapply yields_bind; [apply active_yields|]. intros active _.
  eapply yields_bind; [apply yields_fail_if|]. intros _ _. apply config_yields. intros minimum.
  destruct (_ && _); [by apply yields_ret|].
  destruct active as [|na [|na' active]]; [apply trigger_keygen_yields| |apply trigger_keygen_yields].
  apply Registry.registry_kept, set_vault_frame.
Qed.

(** *** The messages *)

Lemma unauthorized_yields {A} (m : KM A) Q : typed m Q → typed (unauthorized m) Q.
Proof.
  intros Hm. unfold unauthorized. eapply yields_bind; [by apply yields_try|].
  intros [a|e|e] Hr; [apply yields_ret; by apply Hr|apply yields_fail..].
Qed.

Lemma guarded_yields {A} b e (m : KM A) Q : typed m Q → typed (_ ← fail_if b e; m) Q.
Proof. intros Hm. eapply yields_bind; [apply yields_fail_if|]. by intros _ _. Qed.

Lemma read_yields {A B} (m : KM A) (f : A → KM B) Q :
  keeps frame m → (∀ a, typed (f a) Q) → typed (m ≫= f) Q.
Proof. intros Hm Hf. eapply yields_bind; [by apply Registry.registry_kept|]. intros a _. apply Hf. Qed.

Lemma signer_yields signer : typed (resolveNodeAccountBySigner ctx signer) Registry.offered.
Proof.
  unfold resolveNodeAccountBySigner. apply read_yields; [frame_tac|]. intros bonds.
  eapply (yields_bind _ _ _ (Forall Registry.offered)).
  - apply (yields_mfold _ _ (λ _, True)); [by apply Forall_true| |done].
    intros acc bond Hacc _. unfold operated_by. destruct (_ || _); [by apply yields_ret|].
    destruct (PubKey.GetThorAddress _); [|by apply yields_ret..].
    destruct (negb _); [by apply yields_ret|].
    eapply yields_bind; [apply Registry.get_account_yields|]. intros na Hna.
    repeat case_match; apply yields_ret; try done. apply Forall_app. split; [done|].
    by apply Forall_singleton.
  - intros [|na [|na' l]] Hl; [|apply yields_ret; by inversion_clear Hl|apply yields_fail].
    eapply yields_bind; [apply Registry.get_account_yields|]. intros na Hna.
    do 2 apply guarded_yields. apply read_yields; [apply keeps_try, node_bond_keeps|]. intros r.
    apply guarded_yields. by apply yields_ret.
Qed.

Lemma validated_yields {A} (m : KM A) (n : KM unit) :
  keeps frame m → typed n (λ _, True) → typed (_ ← m; n) (λ _, True).
Proof. intros Hm Hn. apply read_yields; [done|]. by intros _. Qed.

Lemma leave_yields msg : typed (Leave_Run ctx msg) (λ _, True).
Proof.
  apply validated_yields; [unfold Leave_validate, validateNodeOperatorAuth; frame_tac;
    apply unauthorized_keeps, by_address_keeps|].
  unfold Leave_handle. eapply yields_bind; [apply Registry.get_account_yields|]. intros na Hna.
  apply guarded_yields. cbv zeta. apply Registry.set_account_yields; [done|].
  destruct Hna as [Ha Hs]. destruct (_ =? 0); (split; [done|]); [|done]. rec_simpl.
  apply u64_range.
Qed.

Lemma maint_yields msg : typed (Maint_Run ctx msg) (λ _, True).
Proof.
  apply validated_yields; [unfold Maint_validate, validateMaintAuth; frame_tac;
    apply unauthorized_keeps, by_address_keeps|].
  eapply yields_bind; [apply unauthorized_yields, Registry.get_account_yields|]. intros na Hna.
  apply Registry.set_account_yields; [done|]. exact Hna.
Qed.

Lemma ip_yields msg : typed (IPAddress_Run ctx msg) (λ _, True).
Proof.
  apply validated_yields; [unfold IPAddress_validate, validateIPAddressAuth; frame_tac;
    apply unauthorized_keeps, by_signer_keeps|].
  eapply yields_bind; [apply unauthorized_yields, signer_yields|]. intros na Hna.
  apply Registry.set_account_yields; [done|]. exact Hna.
Qed.

Lemma unique_frame addr cons keys : keeps frame (EnsureNodeKeysUnique addr cons keys).
Proof. unfold EnsureNodeKeysUnique. frame_tac. Qed.

Lemma keys_yields msg : typed (SetNodeKeys_Run ctx msg) (λ _, True).
Proof.
  apply validated_yields; [unfold SetNodeKeys_validate, validateNodeKeysAuth; frame_tac;
    try apply unique_frame; apply unauthorized_keeps, by_signer_keeps|].
  eapply yields_bind; [apply unauthorized_yields, signer_yields|]. intros na Hna.
  apply Registry.set_account_yields; [done|].
  exact (Registry.offered_update na NodeStandby (BlockHeight ctx) Hna).
Qed.

Lemma version_yields msg : typed (Version_Run ctx msg) (λ _, True).
Proof.
  apply validated_yields; [unfold Version_validate, validateVersionAuth; frame_tac;
    repeat apply unauthorized_keeps; frame_tac; apply unauthorized_keeps, by_signer_keeps|].
  eapply yields_bind; [apply unauthorized_yields, signer_yields|]. intros na Hna.
  apply read_yields; [frame_tac|]. intros version. cbv zeta.
  eapply yields_bind; [apply Registry.set_account_yields; [done|]; by destruct (Version_LT _ _)|].
  intros _ _. destruct (bool_decide _); [|by apply yields_ret].
  by apply Registry.registry_kept, min_join_keeps.
Qed.

Lemma config_run_yields msg : typed (Config_Run iter ctx msg) (λ _, True).
Proof.
  apply Registry.registry_kept. unfold Config_Run, Config_validate, validateConfigAuth,
    activeOperationalNodeSignerPriority, Config_handle, SetNodeConfig, GetNodeConfigs,
    ListActiveNodes, ListNodesByStatus, SetConfig.
  simpl. frame_tac; apply unauthorized_keeps, active_keeps.
Qed.

Lemma pause_yields msg : typed (NodePauseChain_Run ctx msg) (λ _, True).
Proof.
  apply Registry.registry_kept. unfold NodePauseChain_Run, NodePauseChain_validate,
    NodePauseChain_handle, GetNodePauseChain, SetNodePauseChain, SetConfig.
  frame_tac; apply unauthorized_keeps, active_keeps.
Qed.

Lemma rotating_frame msg addr bonds bond : keeps frame (rotating_bond msg addr bonds bond).
Proof. unfold rotating_bond. frame_tac. Qed.

Lemma rotate_bonds_frame msg : keeps frame (operatorRotateBonds msg).
Proof. unfold operatorRotateBonds. frame_tac; apply rotating_frame. Qed.

Lemma rotate_bonder_frame bond old new : keeps frame (rotateOperatorBonder ctx bond old new).
Proof. unfold rotateOperatorBonder. frame_tac. Qed.

Lemma rotate_auctions_frame pk addr opk : keeps frame (rotateOpenAuctions ctx pk addr opk).
Proof. unfold rotateOpenAuctions, rotate_auction. frame_tac. Qed.

Lemma operator_yields msg : typed (OperatorRotate_Run ctx msg) (λ _, True).
Proof.
  apply validated_yields; [unfold OperatorRotate_validate; frame_tac; apply rotate_bonds_frame|].
  unfold OperatorRotate_handle. apply read_yields; [apply rotate_bonds_frame|].
  intros [bonds opk]. do 2 (apply read_yields; [frame_tac|]; intros ?).
  apply (yields_mfor _ _ (λ _, True)); [by apply Forall_true|]. intros bond _.
  unfold rotate_bond. apply read_yields; [frame_tac|]. intros cur.
  apply read_yields; [apply rotate_bonder_frame|]. intros bond'. cbv zeta.
  apply read_yields; [frame_tac|]. intros _.
  eapply yields_bind; [apply Registry.get_account_yields|]. intros na Hna.
  eapply (yields_bind _ _ _ (λ _, True)).
  { destruct (NodeAccount_IsEmpty na); [by apply yields_ret|].
    by apply Registry.set_account_yields. }
  intros _ _. apply Registry.registry_kept, rotate_auctions_frame.
Qed.

(** *** Key generations and failed signatures *)

Context `{FrostExt} (siter : gmap string Z → list (string * Z)).

Lemma inc_all_yields points addrs : typed (IncPenaltyPoints points addrs) (λ _, True).
Proof.
  apply (yields_mfor _ _ (λ _, True)); [by apply Forall_true|].
  intros addr _. apply Registry.inc_penalty_yields.
Qed.
Lemma dec_all_yields points addrs : typed (DecPenaltyPoints points addrs) (λ _, True).
Proof.
  apply (yields_mfor _ _ (λ _, True)); [by apply Forall_true|].
  intros addr _. apply Registry.dec_penalty_yields.
Qed.

Lemma try_yields {A} (m : KM A) : typed m (λ _, True) → typed (_ ← try m; mret tt) (λ _, True).
Proof.
  intros Hm. eapply yields_bind; [by apply yields_try|]. intros _ _. by apply yields_ret.
Qed.

Lemma jailed_registry n addr reason : keeps frame (jail_for ctx n addr reason).
Proof. unfold jail_for, SetNodeAccountJail, GetNodeAccountJail. frame_tac. Qed.
#[local] Hint Resolve jailed_registry : keeps.
#[local] Hint Unfold SetFrostVoter GetFrostVoter : flow.

Lemma by_pubkey_yields pk : typed (GetNodeAccountByPubKey ctx pk) Registry.offered.
Proof.
  unfold GetNodeAccountByPubKey.
  eapply yields_bind; [apply (yields_lift _ _ (λ _, True)); by intros|]. intros addr _.
  apply Registry.get_account_yields.
Qed.

Lemma blame_node_yields points node : typed (blame_node ctx points node) (λ _, True).
Proof.
  unfold blame_node. eapply yields_bind; [apply (yields_lift _ _ (λ _, True)); by intros|]. intros pk _.
  eapply yields_bind; [apply by_pubkey_yields|]. intros na Hna.
  eapply (yields_bind _ _ _ (λ _, True)).
  - destruct (bool_decide _); [apply try_yields, Registry.inc_penalty_yields|].
    apply Registry.registry_kept, jailed_registry.
  - intros _ _. by apply Registry.set_account_yields.
Qed.

Lemma fail_keygen_yields msg : typed (fail_keygen ctx msg) (λ _, True).
Proof.
  unfold fail_keygen. eapply (yields_bind _ _ _ (λ _, True)).
  - unfold reset_selected. eapply yields_bind; [apply Registry.list_nodes_yields|].
    intros ready Hready%listed. eapply yields_mfor; [exact Hready|]. intros na Hna.
    apply try_yields, (update_yields na (λ na, UpdateStatus na NodeStandby (BlockHeight ctx))); [|done].
    apply Registry.offered_update.
  - intros _ _. apply config_yields. intros points.
    apply (yields_mfor _ _ (λ _, True)); [by apply Forall_true|]. intros b _.
    apply (yields_mfor _ _ (λ _, True)); [by apply Forall_true|]. intros node _.
    apply blame_node_yields.
Qed.

Lemma first_consensus_typed observe lack msg voter :
  typed (first_consensus ctx observe lack msg voter) (λ _, True).
Proof.
  unfold first_consensus. eapply yields_bind; [registry_read|]. intros _ _.
  eapply yields_bind; [apply inc_all_yields|]. intros _ _.
  eapply yields_bind; [apply dec_all_yields|]. intros _ _.
  eapply yields_bind; [apply inc_all_yields|]. intros _ _.
  destruct (IsSuccess msg); [by apply yields_ret|apply fail_keygen_yields].
Qed.

Lemma judge_typed msg voter : typed (judgeLateSigner ctx msg voter) (λ _, True).
Proof.
  unfold judgeLateSigner. destruct (_ || _); [by apply yields_ret|]. apply config_yields. intros points.
  destruct (0 <? _).
  - eapply yields_bind; [apply dec_all_yields|]. intros _ _. apply try_yields.
    apply Registry.registry_kept. unfold ReleaseNodeAccountFromJail, GetNodeAccountJail. frame_tac.
  - cbv zeta. eapply yields_bind; [registry_read|]. intros _ _.
    apply (yields_mfor _ _ (λ _, True)); [by apply Forall_true|]. intros addr _. unfold late_member.
    eapply yields_bind; [apply inc_all_yields|]. intros _ _. apply Registry.registry_kept, jailed_registry.
Qed.

Lemma succeed_typed msg voter : typed (succeed_keygen ctx siter msg voter) (λ _, True).
Proof.
  unfold succeed_keygen. destruct (negb _); [by apply yields_ret|].
  eapply yields_bind; [apply judge_typed|]. intros _ _.
  destruct (negb _); [by apply yields_ret|]. destruct (_ && _); [by apply yields_ret|].
  unfold complete_keygen. cbv zeta. eapply yields_bind; [registry_read|]. intros _ _.
  eapply yields_bind; [registry_read|]. intros _ _.
  eapply yields_bind; [apply Registry.registry_kept; unfold GetKeygenBlock; frame_tac|]. intros block _.
  eapply yields_bind; [registry_read|]. intros vaults _.
  destruct (_ =? _)%nat; [|by apply yields_ret].
  apply (yields_mfor _ _ (λ _, True)); [by apply Forall_true|]. intros vault _. apply rotate_yields.
Qed.

Lemma keygen_yields msg : typed (Frost_Run ctx siter msg) (λ _, True).
Proof.
  unfold Frost_Run. eapply yields_bind.
  { apply Registry.registry_kept.
    unfold Frost_validate, enough_members, GetKeygenBlock, validateFrostAuth. frame_tac. }
  intros msg' _. unfold Frost_handle. eapply yields_bind.
  { apply Registry.registry_kept.
    unfold record_metric, GetFrostKeygenMetric, SetFrostKeygenMetric. frame_tac. }
  intros _ _. eapply yields_bind; [apply Registry.registry_kept; unfold GetFrostVoter; frame_tac|].
  intros voter _. cbv zeta. eapply yields_bind; [apply yields_fail_if|]. intros _ _.
  do 2 (apply config_yields; intros ?). eapply yields_bind; [registry_read|]. intros flex _.
  destruct (FrostVoter_Sign _ _ _ _) as [[] v']; [|apply inc_all_yields].
  unfold count_attestation. eapply yields_bind; [registry_read|]. intros _ _.
  destruct (negb _); [apply inc_all_yields|].
  eapply (yields_bind _ _ _ (λ _, True)).
  { destruct (_ && _); [apply dec_all_yields|by apply yields_ret]. }
  intros _ _. cbv zeta. eapply (yields_bind _ _ _ (λ _, True)); [|intros _ _; apply succeed_typed].
  destruct (_ =? 0); [apply first_consensus_typed|by apply yields_ret].
Qed.

#[local] Hint Resolve keysign_auth_reads vault_nodes_reads : keeps.
#[local] Hint Unfold ListActiveNodes ListNodesByStatus GetFrostKeysignFailVoter
  SetFrostKeysignFailVoter GetTxOut SetTxOut : flow.

Lemma act_yields observe msg vault nodes voter :
  typed (act_on_failure ctx observe msg vault nodes voter) (λ _, True).
Proof.
  unfold act_on_failure. eapply yields_bind; [registry_read|]. intros _ _.
  eapply yields_bind; [apply dec_all_yields|]. intros _ _.
  eapply yields_bind; [registry_read|]. intros _ _.
  eapply yields_bind; [apply Registry.registry_kept; unfold markTxOutPendingRetry; frame_tac|].
  intros _ _. apply config_yields. intros points.
  apply (yields_mfor _ _ (λ _, True)); [by apply Forall_true|]. intros node _. unfold blame_signer.
  eapply yields_bind; [apply (yields_lift _ _ (λ _, True)); by intros|]. intros pk _.
  eapply yields_bind; [apply by_pubkey_yields|]. intros na _.
  eapply yields_bind; [apply yields_try, Registry.inc_penalty_yields|]. intros _ _.
  apply Registry.registry_kept, jailed_registry.
Qed.

Lemma keysign_yields msg : typed (Keysign_Run ctx msg) (λ _, True).
Proof.
  unfold Keysign_Run. eapply yields_bind.
  { apply Registry.registry_kept. unfold Keysign_validate. frame_tac. }
  intros msg' _. unfold Keysign_handle. eapply yields_bind; [registry_read|]. intros voter _.
  apply config_yields. intros observe. eapply yields_bind; [apply inc_all_yields|]. intros _ _.
  destruct (Sign _ _) as [[] v']; [|by apply yields_ret]. cbn [negb].
  eapply yields_bind; [registry_read|]. intros vault _.
  destruct (Vault.IsEmpty _); [registry_read|].
  eapply yields_bind; [registry_read|]. intros nodes _. cbv zeta.
  eapply yields_bind; [registry_read|]. intros _ _.
  destruct (negb _); [by apply yields_ret|apply act_yields].
Qed.
End Registered.

(** ** Histories

A block hook or a message, run at a height; a message that fails leaves the
store as it was, a hook that fails leaves what it wrote. *)

Inductive operation :=
  | OpBeginBlock
  | OpEndBlock (existingNodes : list string)
  | OpGenesisSetup
  | OpRotateVault (vault : Vault)
  | OpLeave (msg : MsgLeave)
  | OpMaint (msg : MsgMaint)
  | OpSetIPAddress (msg : MsgSetIPAddress)
  | OpSetNodeKeys (msg : MsgSetNodeKeys)
  | OpSetVersion (msg : MsgSetVersion)
  | OpConfig (msg : MsgConfig)
  | OpNodePauseChain (msg : MsgNodePauseChain)
  | OpOperatorRotate (msg : MsgOperatorRotate)
  | OpKeygen (msg : MsgKeygenVault)
  | OpKeysignFail (msg : MsgFrostKeysignFail).

Section Histories.
Context `{Ext} `{SemVer} `{Attestor} `{ConsAddress} `{FrostExt}.
Context (iter : gmap Z Z → list (Z * Z)) (siter : gmap string Z → list (string * Z)).

Definition perform (op : operation) (ctx : Ctx) : KM unit :=
  match op with
  | OpBeginBlock => NodeMgr_BeginBlock ctx
  | OpEndBlock existingNodes => _ ← NodeMgr_EndBlock ctx existingNodes; mret tt
  | OpGenesisSetup => processGenesisSetup ctx
  | OpRotateVault vault => RotateVault ctx vault
  | OpLeave msg => atomic (Leave_Run ctx msg)
  | OpMaint msg => atomic (Maint_Run ctx msg)
  | OpSetIPAddress msg => atomic (IPAddress_Run ctx msg)
  | OpSetNodeKeys msg => atomic (SetNodeKeys_Run ctx msg)
  | OpSetVersion msg => atomic (Version_Run ctx msg)
  | OpConfig msg => atomic (Config_Run iter ctx msg)
  | OpNodePauseChain msg => atomic (NodePauseChain_Run ctx msg)
  | OpOperatorRotate msg => atomic (OperatorRotate_Run ctx msg)
  | OpKeygen msg => atomic (Frost_Run ctx siter msg)
  | OpKeysignFail msg => atomic (Keysign_Run ctx msg)
  end.

(** The stores that operations lead to, whatever each of them returns. *)
Inductive evolves : KVStore → KVStore → Prop :=
  | evolves_refl s : evolves s s
  | evolves_step s s' op ctx :
      evolves s s' → BlockHeight ctx ≠ 0 → evolves s (perform op ctx s').2.

Lemma perform_yields op ctx : BlockHeight ctx ≠ 0 →
  yields Registry.registry_ok (perform op ctx) (λ _, True).
Proof.
  intros Hh. destruct op; cbn [perform]; try apply yields_atomic.
  - by apply begin_yields.
  - eapply yields_bind; [by apply end_yields|]. intros _ _. by apply yields_ret.
  - by apply genesis_yields.
  - by apply rotate_yields.
  - by apply leave_yields.
  - by apply maint_yields.
  - by apply ip_yields.
  - by apply keys_yields.
  - by apply version_yields.
  - by apply config_run_yields.
  - by apply pause_yields.
  - by apply operator_yields.
  - by apply keygen_yields.
  - by apply keysign_yields.
Qed.

End Histories.

Section Concrete.
Import ToyExt ToyVersions ToyChurn ToyVotes ToyFrost.
#[local] Existing Instance toy_ext.

End Concrete.
